(* ===== verification/_CoqProject ===== *)
-Q . S2P
Prelude.v
Shared.v
Mpi.v
MapFile.v
Log.v
Comm.v
CommSystem.v
Memory.v
Stat.v
HeapSeg.v
Ulfm.v
Context.v
ProcMap.v
Install.v
Transfer.v
Image.v
Replica.v
Update.v
FleetUpdate.v
Lifecycle.v
Rng.v
Manager.v
Injector.v
PointToPoint.v
Receive.v
Faults.v
Wait.v
Delivery.v
Pending.v
Collective.v
Recovery.v
Fortran.v
Checkpoint.v
Work.v
Finalize.v
