(* ===== verification/Prelude.v ===== *)
(** * EntangledMPI: a verification library

    EntangledMPI is a C library that is linked between an MPI application and
    the MPI library.  It runs each rank of the application (a "job") on
    several processes ("workers"), follows a replication map that a manager
    rewrites while the program runs, clones a running process into a new
    worker, and carries on when processes die.  A fault injector kills some of
    them to try this out.  This library is a shallow embedding of the C code in
    [src/src] and of the manager and the injector, which are in Go, in
    [src/src/manager].

    ** The parts and how they interact

    - The manager deals out the processes to the jobs, moves some of them
      every few seconds ([Choose], [Assign] in
      [src/src/manager/manager/manager.go]; file [Manager]) and writes the map
      ([WriteToFile]; file [MapFile]).
    - The processes write their ids, hosts and stack addresses to two status
      files ([src/src/misc], file [Stat]); the manager reads the addresses and
      moves a process only to a job with the same one, and the injector reads
      the ids and hosts of the processes it kills (file [Injector]).
    - [MPI_Init] and [is_file_update_set] read it ([parse_map_file], file
      [Comm]) into the tables [job_list] and [rank_2_job] and the process's
      own [node], and split the world communicator by it ([update_comms],
      [create_migration_comm]; files [Comm], [CommSystem] and [FleetUpdate]).
    - A process whose job has a new worker takes part in a transfer
      ([init_rep]; file [Transfer]), which copies the data segments, the
      allocations kept by [rep_malloc] (files [Memory], [HeapSeg]) and the
      stack with its saved registers (file [Context]); files [Image] and
      [Replica] show that this makes a copy of the process.
    - The master of a job writes the same image to a file, from which a
      restarted process is restored (file [Checkpoint]).  Both happen on a
      temporary stack, from which the process goes on with the registers it
      then has (file [Work]).
    - The point-to-point calls of the application go to every worker of the
      job they name (file [PointToPoint]); the collective calls run among the
      masters and then inside each job, and are tried again until all
      processes agree (file [Collective]).
    - When the MPI library reports a failure it calls [rep_errhandler] (file
      [Ulfm]), which repairs the tables and the communicators, or, inside a
      point-to-point call, only marks the failed ranks to be skipped.  File
      [Lifecycle] puts maps and failures together, files [Faults], [Wait],
      [Delivery] and [Pending] failures and messages, and file [Recovery] failures and
      broadcasts.
    - A Fortran program calls the same functions through wrappers (file
      [Fortran]); [MPI_Finalize] gathers and logs the times of the maps (file
      [Finalize]).
    - All parts log through [_log_e] and [_log_i] (file [Log]).

    ** Files

    - [Prelude] (this file): the state and error monad [M S A], in which
      every operation is written; C's [int], [size_t] and arrays; tactics.
      A stop is a value, so that [abort], [assert], [exit] and undefined
      behaviour are outcomes the theorems can state.
    - [Shared]: the structs of [src/src/shared.h] and the global variables.
    - [Mpi]: the constants of [mpi.h] and the calls that split communicators.
    - [MapFile]: the text of the map, [fscanf] and the manager's printing.
    - [Log]: [src/src/misc/log.c].
    - [Comm]: [src/src/mpi/comm.c], for one process.
    - [CommSystem]: the colours and keys of all processes together, and the
      groups they make.
    - [Memory]: bytes at addresses, words, the C allocator.
    - [Stat]: the status files of [src/src/misc/file.c] and
      [src/src/misc/network.c], and files of records as bytes.
    - [HeapSeg]: the list of allocations of [src/src/replication/heapseg.c].
    - [Ulfm]: [src/src/mpi/ulfm.c].
    - [Context]: the registers and the parser of [src/src/replication/rep.c].
    - [ProcMap]: [readProcMapFile] of [rep.c].
    - [Install]: what a transfer and a restoration both do for an allocation.
    - [Transfer]: the transfers of [rep.c], [dataseg.c], [stackseg.c] and
      [heapseg.c] in [src/src/replication].
    - [Image]: the image of a process, who has one and who can take it.
    - [Replica]: [init_rep] of [rep.c] as a whole.
    - [Update]: [is_file_update_set] of [rep.c], [src/src/misc/file.c] and
      [MPI_Init] of [src/src/mpi/init.c].
    - [FleetUpdate]: [is_file_update_set] in every process of the program, and
      the communicators it leaves.
    - [Lifecycle]: what [MPI_Init] makes of a process, the steps it makes from
      there on, and what holds in every state they reach.
    - [Rng]: [Int32n] of [src/src/manager/rng/uniform.go].
    - [Manager]: [src/src/manager/manager/manager.go].
    - [Injector]: [src/src/manager/fault_injector].
    - [PointToPoint]: [MPI_Send], [MPI_Recv], [MPI_Irecv] and [MPI_Wait] of
      [src/src/mpi/init.c] and the aggregate requests of
      [src/src/mpi/async.c].
    - [Receive]: what [MPI_Recv] takes, and a message from one job to another.
    - [Faults]: [MPI_Send] with the error handler, when workers are dead.
    - [Wait]: the loop of [MPI_Wait] with the error handler, while processes die.
    - [Delivery]: [MPI_Recv] with the error handler, and a message between two
      jobs that both lost workers.
    - [Pending]: [MPI_Irecv] with the error handler.
    - [Collective]: the collective calls and [MPI_Comm_agree] of
      [src/src/mpi/init.c].
    - [Recovery]: [MPI_Bcast] with the error handler, while processes die.
    - [Fortran]: [src/src/fortran/mpi.c].
    - [Checkpoint]: [src/src/checkpoint/full_context.c].
    - [Work]: the rest of [is_file_update_set]: the temporary stack and what
      is done there.
    - [Finalize]: [MPI_Finalize] of [src/src/mpi/init.c].

    A definition has the name of the C function it models; a loop of its body
    is a definition of its own.  A C struct is a record with the fields' names
    (where two structs share a field name, one has a prefix), the global
    variables are the record [globals] with a setter for each field.  The
    code outside the repository is a type class: [MpiConst], [PmpiSplit],
    [Ulfm], [P2P], [Coll], [Handles] and [Timing] for MPI, [Files] for the file
    system, [Allocator] for [malloc], [Rand] and [Dist] for what is drawn, [Ssh]
    for the commands of the injector, [Shows] for what [printf] makes of pointers
    and doubles, [Varargs] for what [va_start] does with a wrong name, [SplitCalls]
    for the calls of [MPI_Comm_split] a process made; what is relied on of it is a class of
    laws ([MpiConstLaws], [SplitLaws], [UlfmLaws], [AllocatorLaws], [Network],
    [Inbox], [Mail], [Detector], [Faulty], [Lossy], [Posting], [Pledging], [Completing], [SplitCallsLaws], [Agreeing], [Fleet],
    [Prompt], [Gathering], [FilesLaws], [Views], [Hosts], [RandLaws], [FairRand], [FairTurns]), each with an
    instance by which the witnesses evaluate the theorems.

    ** What the theorems show

    - Map: what the manager writes is read back as written; each process gets
      the role the map gives it; malformed maps stop on the assertions.
    - Manager: whatever it draws, the manager does not panic, and if every
      process applies every map, each map is one that the theorems on maps and
      communicators apply to, with a sender that was in the job before.  It
      ends when there are at most two processes for each job, and may not end
      when there are more.  After a failure its maps name the wrong processes.  A process that misses a map is left in a job that
      does not list it.
    - Status files: written in any order, they hold a record for each rank;
      the manager and the injector read back what was written.
    - Injector: it reads the map the manager wrote, spares a worker of each
      job unless told otherwise, ends its choice when some job has two
      workers, and kills the processes it chose.
    - Communicators: after every process ran [is_file_update_set], [world_job_comm], [active_comm] and the
      migration communicator have exactly the members the protocol needs,
      with the right process at rank 0.
    - Allocations: [rep_malloc] and [rep_assign_malloc_context] keep the
      invariant [heap_ok]; [rep_free] is right for interior elements and
      leaves [head] or [tail] dangling otherwise; [rep_clear_discontiguous]
      is right exactly when no two elements share a block.
    - Failures: [update_job_list] refines the abstract update [compacted];
      the handler repairs, ignores or aborts as each case asks for.
    - Transfer: the replica ends with the stack, the data segments and the
      allocations of the sender; a container with a shared block is lost.
    - Replica and checkpoint: the receiver of [init_rep], and the process that
      restores what [init_ckpt] wrote, have the program counter, the two stack
      registers, the stack, the data
      segments, the allocations, the counter and the flags of the process that
      was copied, and go on where it was, with rbx and r12 to r15 of their own;
      both ways lead to the same heap.  This is for lists without shared blocks
      and before any [rep_free].  A checkpoint that is interrupted, anywhere
      from [fopen] to [fclose], leaves a first part of its file and
      loses the one before it; whether a restart notices depends on where the
      part ends.  Further, the hundredth map is the last that can
      be saved, and neither shared blocks nor the count after [rep_free]
      survive.
    - Updates: a map is applied or retried, and never half applied.
    - Life of a process: [MPI_Init] sets it up from the map, and has it restored
      exactly when its job has a checkpoint; maps, repairs and noted failures
      in any order keep its tables and its role consistent, and none of them is
      undefined.
    - Point to point: each live worker gets a message or a receive exactly
      once under the right tag, also when others are found to be dead, which are
      marked then, and an aggregate request holds in each slot what was
      posted for its worker; what the live workers of a job send is what each
      live worker of another job receives, and no message is left over, also when
      both jobs lost workers; the status of
      [MPI_Recv] names a worker instead of a job; the wait loop ends, whatever errors are
      raised while it waits; a completed receive
      reaches the buffer of the application, but not with
      [MPI_STATUS_IGNORE]; [MPI_ANY_SOURCE] matches nobody.
    - Collectives: the trials end, with an agreed success or an abort, and
      [MPI_Bcast] does so whatever number of processes die during it and wherever
      in it they are noticed: each turn uses the repaired world and the first
      living worker of the root's job; when each failure is found in the trial
      it happens in, eight failures do not use the trials up; with no
      failure [MPI_Scatter], [MPI_Gather], [MPI_Allgather] and [MPI_Allreduce]
      broadcast what MPI gave the master of a job to the workers of the job,
      once and as a whole; a failure that waited is repaired before the first agreement; a worker
      that is no master is left with a stale status after a failure, and
      [MPI_Reduce] can hide one.
    - Fortran: a handle survives in eight bytes that nothing else touches, and
      not in an array of [INTEGER]s.
    - Logging: a line is printed as it should be exactly when it fits the
      buffer it is put together in and the wrong name given to [va_start] does
      no harm; a message of a debug build may not.
    - Finalisation: the means that are logged, for at most 100 maps and at the
      root of a world that lost no process; undefined behaviour elsewhere.

    ** Fuel

    Loops over a counter are folds over [seqZ].  Those over the list of
    allocations take the number of live elements as fuel, which bounds the
    length of any well-formed list ([list_length_fuel]).  [send_loop] and
    [recv_loop] have one unit more than the job has workers.  [wait_loop] has
    seven units for at most six turns.  [irecv_loop] posts a failed receive
    again without bound, so [MPI_Irecv] takes its fuel as an argument: the
    number of workers is enough when no receive fails, and twice that number
    whatever workers are dead.  The trials of a
    collective call are at most ten; the loops inside them that wait for an
    agreement have no bound in the source and take a fuel, for which one unit
    is enough while no failure is pending, two after one, and two more than
    there are failures while processes die.  Running out of
    fuel is the outcome [NoFuel], which the theorems exclude.  The loops of the
    manager and of the injector that draw until a draw fits have no bound
    either; with a generator that draws every job (every worker) within some
    number of turns, that number for each rank, and six times that number for
    each choice, are enough.

    ** What is not modelled

    Left out for good are the calls that log (the functions they call are in
    [Log], and change nothing the other files are about), the mutex around the calls (the model is of
    one thread), what the machine keeps on the temporary stack, the sleeps, and
    the distributions of [src/src/manager/rng], of which only one is used, for the
    waiting times.  The manager and the injector draw from one generator, whose
    numbers are a parameter, and not from new ones seeded with the time.
    [is_file_update_set] returns the work it has to do as an
    [action], which [Work] carries out and a collective call takes as a
    parameter.  [PMPI_Wtime] is not modelled: of the times only the places
    they are kept in are, and in [Finalize] their values. *)

From stdpp Require Export base gmap list list_numbers strings.
From Stdlib Require Export ZArith Lia.
From Stdlib Require Import Ascii.

#[global] Open Scope Z_scope.

(** ** Ways a C execution can stop without returning

    [Aborted c] is [PMPI_Abort(comm, c)], [Exited c] is [exit(c)],
    [AssertFailed] a failing [assert], [Undef] a step the C standard leaves
    undefined (an access outside an array, a read of an indeterminate value,
    a use of freed memory), and [NoFuel] the bound of a loop the source
    does not bound. *)
Inductive stop : Set :=
  | Aborted (code : Z)
  | Exited (code : Z)
  | AssertFailed
  | Undef
  | NoFuel.

#[global] Instance stop_eq_dec : EqDecision stop.
Proof. solve_decision. Defined.

Inductive result (S A : Type) : Type :=
  | Done (a : A) (s : S)
  | Stop (e : stop) (s : S).
Arguments Done {S A} a s.
Arguments Stop {S A} e s.

(** ** The state and error monad all operations are written in *)
Definition M (S A : Type) : Type := S → result S A.

Definition ret {S A} (a : A) : M S A := λ s, Done a s.
Definition bind {S A B} (m : M S A) (f : A → M S B) : M S B := λ s,
  match m s with
  | Done a s' => f a s'
  | Stop e s' => Stop e s'
  end.
Arguments ret {S A} a s /.
Arguments bind {S A B} m f s /.

Declare Scope c_scope.
Delimit Scope c_scope with c.
Notation "'let!' x ':=' m 'in' k" := (bind m (λ x, k))
  (at level 10, x pattern, m at level 100, k at level 200) : c_scope.
Notation "m ';;;' k" := (bind m (λ _, k))
  (at level 100, k at level 200, right associativity) : c_scope.
#[global] Open Scope c_scope.

Section operations.
Context {S : Type}.

Definition gets {A} (f : S → A) : M S A := λ s, Done (f s) s.
Definition modify (f : S → S) : M S unit := λ s, Done tt (f s).
Definition halt {A} (e : stop) : M S A := λ s, Stop e s.
Definition ensure (b : bool) (e : stop) : M S unit :=
  λ s, if b then Done tt s else Stop e s.
(** [of_option e o]: the value of [o], or the stop [e]. *)
Definition of_option {A} (e : stop) (o : option A) : M S A :=
  λ s, match o with Some a => Done a s | None => Stop e s end.
Definition when (b : bool) (m : M S unit) : M S unit :=
  if b then m else ret tt.

(** [foldM f b l]: a C loop over the index values [l] whose local
    variables are [b]. *)
Fixpoint foldM {A B} (f : B → A → M S B) (b : B) (l : list A) : M S B :=
  match l with
  | [] => ret b
  | x :: l' => let! b' := f b x in foldM f b' l'
  end.
Definition iterM {A} (f : A → M S unit) (l : list A) : M S unit :=
  foldM (λ _ x, f x) tt l.
End operations.

Arguments gets {S A} f s /.
Arguments modify {S} f s /.
Arguments halt {S A} e s /.
Arguments ensure {S} b e s /.
Arguments of_option {S A} e o s /.
Arguments when {S} b m /.

(** [zoom get put m] runs [m], written over a part of the state. *)
Definition zoom {S T A} (get : S → T) (put : T → S → S) (m : M T A) : M S A :=
  λ s, match m (get s) with
       | Done a t => Done a (put t s)
       | Stop e t => Stop e (put t s)
       end.

(** ** Reasoning: a weakest precondition with a post-condition for the
    normal return and one for the stops *)
Definition wp {S A} (m : M S A) (Q : A → S → Prop) (E : stop → S → Prop) (s : S) : Prop :=
  match m s with
  | Done a s' => Q a s'
  | Stop e s' => E e s'
  end.

Section wp_rules.
Context {S : Type}.
Implicit Types (E : stop → S → Prop) (s : S).

Lemma wp_ret {A} (a : A) (Q : A → S → Prop) E s :
  Q a s → wp (ret a) Q E s.
Proof. done. Qed.

Lemma wp_gets {A} (f : S → A) (Q : A → S → Prop) E s : Q (f s) s → wp (gets f) Q E s.
Proof. done. Qed.
Lemma wp_modify (f : S → S) (Q : unit → S → Prop) E s : Q tt (f s) → wp (modify f) Q E s.
Proof. done. Qed.

Lemma wp_option {A} e (a : A) (Q : A → S → Prop) E s : Q a s → wp (of_option e (Some a)) Q E s.
Proof. done. Qed.

Lemma wp_bind {A B} (m : M S A) (f : A → M S B) (Q : B → S → Prop) E s :
  wp m (λ a, wp (f a) Q E) E s → wp (bind m f) Q E s.
Proof. unfold wp, bind. by destruct (m s). Qed.

Lemma wp_mono {A} (m : M S A) (Q Q' : A → S → Prop) E E' s :
  wp m Q E s →
  (∀ a s', Q a s' → Q' a s') → (∀ e s', E e s' → E' e s') →
  wp m Q' E' s.
Proof. unfold wp. destruct (m s); auto. Qed.

Lemma wp_done {A} (m : M S A) (Q : A → S → Prop) a s s' :
  m s = Done a s' → wp m Q (λ _ _, False) s → Q a s'.
Proof. unfold wp. by intros ->. Qed.

(** Total correctness gives the run itself. *)
Lemma wp_run {A} (m : M S A) (Q : A → S → Prop) s :
  wp m Q (λ _ _, False) s → ∃ a s', m s = Done a s' ∧ Q a s'.
Proof. unfold wp. destruct (m s); naive_solver. Qed.

(** The loop rule: [I done b s] holds when the prefix [done] was run. *)
Lemma wp_foldM {A B} (I : list A → B → S → Prop) (f : B → A → M S B) (l : list A) E b s :
  (∀ p x q b s, l = p ++ x :: q → I p b s → wp (f b x) (I (p ++ [x])) E s) →
  I [] b s → wp (foldM f b l) (I l) E s.
Proof.
  intros Hstep Hinit.
  assert (∀ q p b s, l = p ++ q → I p b s → wp (foldM f b q) (I l) E s) as Hgen.
  { induction q as [|x q IH]; intros p b' s' Hl HI; simpl.
    - apply wp_ret. by rewrite Hl, app_nil_r.
    - apply wp_bind. eapply wp_mono; [by eapply Hstep| |done].
      intros b'' s'' HI'. apply (IH (p ++ [x])); [|done].
      by rewrite Hl, <-app_assoc. }
  by apply (Hgen l []).
Qed.
End wp_rules.

Lemma foldM_app {S A B} (f : B → A → M S B) b l1 l2 (s : S) :
  foldM f b (l1 ++ l2) s = (let! b' := foldM f b l1 in foldM f b' l2) s.
Proof.
  revert b s. induction l1 as [|x l1 IH]; intros b s; [done|].
  simpl. destruct (f b x s); simpl; [apply IH|done].
Qed.

Lemma bind_Done {S A B} (m : M S A) (f : A → M S B) s a s' :
  m s = Done a s' → bind m f s = f a s'.
Proof. simpl. by intros ->. Qed.

(** Inversion of a sequence that returned. *)
Lemma bind_Done_inv {S A B} (m : M S A) (f : A → M S B) s b s2 :
  bind m f s = Done b s2 → ∃ a s1, m s = Done a s1 ∧ f a s1 = Done b s2.
Proof. simpl. destruct (m s); naive_solver. Qed.

(** [keeps I m]: [I] holds at the end of [m] if it holds at its beginning, even
    if [m] stops. *)
Definition keeps {S A} (I : S → Prop) (m : M S A) : Prop :=
  ∀ s, I s → wp m (λ _ s', I s') (λ _ s', I s') s.

(** The state in which [m] ends, whether it returns or stops. *)
Definition final {S A} (m : M S A) (s : S) : S :=
  match m s with Done _ s' | Stop _ s' => s' end.

Section keeps.
Context {S : Type} (I : S → Prop).

Lemma keeps_bind {A B} (m : M S A) (k : A → M S B) :
  keeps I m → (∀ a, keeps I (k a)) → keeps I (bind m k).
Proof.
  intros Hm Hk s Hs. apply wp_bind. eapply wp_mono; [by apply Hm| |done]. intros a s'. apply Hk.
Qed.
Lemma keeps_gets {A} (f : S → A) : keeps I (gets f).
Proof. by intros s Hs. Qed.
Lemma keeps_ret {A} (a : A) : keeps I (ret a).
Proof. by intros s Hs. Qed.
Lemma keeps_option {A} e (o : option A) : keeps I (of_option e o).
Proof. intros s Hs. by destruct o. Qed.
Lemma keeps_ensure b e : keeps I (ensure b e).
Proof. intros s Hs. by destruct b. Qed.
Lemma keeps_halt {A} e : keeps I (halt (A := A) e).
Proof. by intros s Hs. Qed.
Lemma keeps_modify f : (∀ s, I s → I (f s)) → keeps I (modify f).
Proof. intros Hf s Hs. by apply Hf. Qed.
Lemma keeps_when b m : keeps I m → keeps I (when b m).
Proof. intros Hm. by destruct b; [|apply keeps_ret]. Qed.
Lemma keeps_foldM {A B} (f : B → A → M S B) l : (∀ b x, keeps I (f b x)) → ∀ b, keeps I (foldM f b l).
Proof.
  intros Hf. induction l as [|x l IH]; intros b; [apply keeps_ret|]. by apply keeps_bind.
Qed.

Lemma keeps_final {A} (m : M S A) s : keeps I m → I s → I (final m s).
Proof. intros Hm Hs. specialize (Hm s Hs). unfold final, wp in *. by destruct (m s). Qed.
Lemma keeps_Done {A} (m : M S A) s a s' : keeps I m → m s = Done a s' → I s → I s'.
Proof. intros Hm E Hs. specialize (Hm s Hs). unfold wp in Hm. by rewrite E in Hm. Qed.
End keeps.

Lemma keeps_zoom {S T A} (get : S → T) (put : T → S → S) (I : T → Prop) (m : M T A) :
  (∀ t s, get (put t s) = t) → keeps I m → keeps (λ s, I (get s)) (zoom get put m).
Proof.
  intros Hget Hm s Hs. specialize (Hm _ Hs). unfold wp, zoom in *.
  destruct (m (get s)); by rewrite Hget.
Qed.

(** [fails e m s]: from [s], [m] stops with [e]. *)
Definition fails {S A} (e : stop) (m : M S A) (s : S) : Prop := ∃ s', m s = Stop e s'.

Lemma fails_bind {S A B} e (m : M S A) (f : A → M S B) s : fails e m s → fails e (bind m f) s.
Proof. intros [s' E]. exists s'. simpl. by rewrite E. Qed.
Lemma fails_then {S A B} e (m : M S A) (f : A → M S B) s a s' :
  m s = Done a s' → fails e (f a) s' → fails e (bind m f) s.
Proof. intros E [s2 E2]. exists s2. by rewrite (bind_Done _ _ _ _ _ E). Qed.

Create HintDb keeps.
#[export] Hint Resolve keeps_bind keeps_gets keeps_ret keeps_option keeps_ensure keeps_halt keeps_when
  keeps_foldM : keeps.

(** ** C integers *)
Definition INT_MAX : Z := 2 ^ 31 - 1.
Definition INT_MIN : Z := - 2 ^ 31.
Definition in_int (z : Z) : bool := (INT_MIN <=? z) && (z <=? INT_MAX).
(** The value of an expression of type [int]: signed overflow is undefined. *)
Definition c_int (z : Z) : option Z := if in_int z then Some z else None.
(** Conversions: to [uint64_t]/[size_t], and to [int] (two's complement). *)
Definition wrap64 (z : Z) : Z := z mod 2 ^ 64.
Definition wrap32s (z : Z) : Z := (z + 2 ^ 31) mod 2 ^ 32 - 2 ^ 31.

Lemma in_int_spec z : in_int z = true ↔ INT_MIN ≤ z ≤ INT_MAX.
Proof. unfold in_int. rewrite andb_true_iff, !Z.leb_le. lia. Qed.

Lemma c_int_Some z : INT_MIN ≤ z ≤ INT_MAX → c_int z = Some z.
Proof. intros H. unfold c_int. by rewrite (proj2 (in_int_spec z)). Qed.

Lemma wrap64_small z : 0 ≤ z < 2 ^ 64 → wrap64 z = z.
Proof. apply Z.mod_small. Qed.
Lemma wrap64_range z : 0 ≤ wrap64 z < 2 ^ 64.
Proof. apply Z.mod_pos_bound. lia. Qed.
Lemma wrap32s_small z : INT_MIN ≤ z ≤ INT_MAX → wrap32s z = z.
Proof. unfold wrap32s, INT_MIN, INT_MAX. intros. rewrite Z.mod_small; lia. Qed.
Lemma wrap32s_range z : INT_MIN ≤ wrap32s z ≤ INT_MAX.
Proof.
  unfold wrap32s, INT_MIN, INT_MAX.
  pose proof (Z.mod_pos_bound (z + 2 ^ 31) (2 ^ 32)). lia.
Qed.

(** ** C arrays: an element is [None] while it is indeterminate *)
Abbreviation cell := (option Z).

Section arrays.
Context {A : Type}.
Implicit Types (a : list (option A)).

(** Index an array as C does; [None] when the access is undefined. *)
Definition aslot (a : list (option A)) (i : Z) : option nat :=
  if (0 <=? i) && (i <? Z.of_nat (length a)) then Some (Z.to_nat i) else None.
Definition aload (a : list (option A)) (i : Z) : option A :=
  n ← aslot a i; x ← a !! n; x.
Definition astore (a : list (option A)) (i : Z) (v : A) : option (list (option A)) :=
  n ← aslot a i; Some (<[n := Some v]> a).

(** [malloc(sizeof(T) * n)] seen as an array: indeterminate elements, or
    [NULL] when [n] is negative (the size wraps to one no heap serves). *)
Definition amalloc (n : Z) : option (list (option A)) :=
  if n <? 0 then None else Some (replicate (Z.to_nat n) None).

Lemma aslot_Some a i : 0 ≤ i < Z.of_nat (length a) → aslot a i = Some (Z.to_nat i).
Proof.
  intros [H1 H2]. unfold aslot.
  by rewrite (proj2 (Z.leb_le _ _) H1), (proj2 (Z.ltb_lt _ _) H2).
Qed.
Lemma aslot_inv a i n :
  aslot a i = Some n → 0 ≤ i < Z.of_nat (length a) ∧ n = Z.to_nat i.
Proof. unfold aslot. intros. case_match; simplify_eq. lia. Qed.

Lemma aload_Some a i v : 0 ≤ i → a !! Z.to_nat i = Some (Some v) → aload a i = Some v.
Proof.
  intros Hi Hv. unfold aload.
  rewrite aslot_Some by (apply lookup_lt_Some in Hv; lia).
  simpl. by rewrite Hv.
Qed.
Lemma aload_inv a i v : aload a i = Some v → 0 ≤ i ∧ a !! Z.to_nat i = Some (Some v).
Proof.
  unfold aload. destruct (aslot a i) as [n|] eqn:Hs; [|done].
  apply aslot_inv in Hs as [? ->]. simpl.
  destruct (a !! Z.to_nat i) as [[w|]|] eqn:Hl; simpl; intros [= ->]; split; [lia|done].
Qed.
Lemma astore_Some a i v :
  0 ≤ i < Z.of_nat (length a) → astore a i v = Some (<[Z.to_nat i := Some v]> a).
Proof. intros. unfold astore. by rewrite aslot_Some. Qed.
Lemma astore_out a i v : i < 0 ∨ Z.of_nat (length a) ≤ i → astore a i v = None.
Proof. intros. unfold astore, aslot. case_match eqn:E; [lia|done]. Qed.
End arrays.

Create Rewrite HintDb len.
#[global] Hint Rewrite @length_insert @length_replicate @length_app @length_fmap @length_seqZ @length_cons @length_drop @length_take : len.
Ltac len := autorewrite with len; simpl; try lia.
