(* ===== verification/Shared.v ===== *)
(** * Shared data: [src/shared.h] and the global variables of the library

    The enumerations and structs of [src/shared.h], and [globals], the global
    variables of [src/mpi/init.c] and [src/mpi/ulfm.c] the modelled functions
    read and write.  A setter [set_f] per field stands for the assignment. *)

From S2P Require Import Prelude.

(** An MPI handle is an opaque machine word: the program only stores it,
    passes it back to the MPI library and compares it. *)
Abbreviation MPI_Comm := Z (only parsing).
Abbreviation MPI_Group := Z (only parsing).

Inductive NodeTransitState : Set :=
  | NODE_DATA_NONE | NODE_DATA_SENDER | NODE_DATA_RECEIVER.
Inductive NodeCheckpointMaster : Set := NO | YES.
Inductive CkptRestore : Set := RESTORE_NO | RESTORE_YES.

#[global] Instance NodeTransitState_eq_dec : EqDecision NodeTransitState.
Proof. solve_decision. Defined.
#[global] Instance NodeCheckpointMaster_eq_dec : EqDecision NodeCheckpointMaster.
Proof. solve_decision. Defined.
#[global] Instance CkptRestore_eq_dec : EqDecision CkptRestore.
Proof. solve_decision. Defined.


Record Node : Type := MkNode {
  job_id : Z;
  rank : Z;
  static_rank : Z;
  age : Z;
  jobs_count : Z;
  node_transit_state : NodeTransitState;
  node_checkpoint_master : NodeCheckpointMaster;
  rep_mpi_comm_world : MPI_Comm;
  world_job_comm : MPI_Comm;
  active_comm : MPI_Comm
}.

Definition set_job_id (v : Z) (s : Node) : Node :=
  MkNode v (rank s) (static_rank s) (age s) (jobs_count s) (node_transit_state s) (node_checkpoint_master s) (rep_mpi_comm_world s) (world_job_comm s) (active_comm s).
Definition set_rank (v : Z) (s : Node) : Node :=
  MkNode (job_id s) v (static_rank s) (age s) (jobs_count s) (node_transit_state s) (node_checkpoint_master s) (rep_mpi_comm_world s) (world_job_comm s) (active_comm s).
Definition set_static_rank (v : Z) (s : Node) : Node :=
  MkNode (job_id s) (rank s) v (age s) (jobs_count s) (node_transit_state s) (node_checkpoint_master s) (rep_mpi_comm_world s) (world_job_comm s) (active_comm s).
Definition set_age (v : Z) (s : Node) : Node :=
  MkNode (job_id s) (rank s) (static_rank s) v (jobs_count s) (node_transit_state s) (node_checkpoint_master s) (rep_mpi_comm_world s) (world_job_comm s) (active_comm s).
Definition set_jobs_count (v : Z) (s : Node) : Node :=
  MkNode (job_id s) (rank s) (static_rank s) (age s) v (node_transit_state s) (node_checkpoint_master s) (rep_mpi_comm_world s) (world_job_comm s) (active_comm s).
Definition set_node_transit_state (v : NodeTransitState) (s : Node) : Node :=
  MkNode (job_id s) (rank s) (static_rank s) (age s) (jobs_count s) v (node_checkpoint_master s) (rep_mpi_comm_world s) (world_job_comm s) (active_comm s).
Definition set_node_checkpoint_master (v : NodeCheckpointMaster) (s : Node) : Node :=
  MkNode (job_id s) (rank s) (static_rank s) (age s) (jobs_count s) (node_transit_state s) v (rep_mpi_comm_world s) (world_job_comm s) (active_comm s).
Definition set_rep_mpi_comm_world (v : MPI_Comm) (s : Node) : Node :=
  MkNode (job_id s) (rank s) (static_rank s) (age s) (jobs_count s) (node_transit_state s) (node_checkpoint_master s) v (world_job_comm s) (active_comm s).
Definition set_world_job_comm (v : MPI_Comm) (s : Node) : Node :=
  MkNode (job_id s) (rank s) (static_rank s) (age s) (jobs_count s) (node_transit_state s) (node_checkpoint_master s) (rep_mpi_comm_world s) v (active_comm s).
Definition set_active_comm (v : MPI_Comm) (s : Node) : Node :=
  MkNode (job_id s) (rank s) (static_rank s) (age s) (jobs_count s) (node_transit_state s) (node_checkpoint_master s) (rep_mpi_comm_world s) (world_job_comm s) v.

(** [struct Jobs]: [rank_list] is the array [malloc(sizeof(int) * w_c)]. *)
Record Job : Type := MkJob {
  j_job_id : Z;
  worker_count : Z;
  rank_list : list cell
}.

(** The global variables.  A pointer to an array is [None] when it is [NULL];
    an element of the array is [None] while it is indeterminate. *)
Record globals : Type := MkGlobals {
  job_list : option (list (option Job));
  node : Node;
  rank_2_job : option (list cell);
  rank_ignore_list : option (list cell);
  ckpt_restore : CkptRestore;
  request_pending : Z;
  ignore_process_failure : Z;
  process_shrinking_pending : Z;
  last_file_update : Z;
  replication_idx : Z;
  job_comm : MPI_Comm;
  rep_flag : Z;
  last_group_failed : MPI_Group;
  previous_world_group : MPI_Group;
  rep_counter : Z;
  ckpt_counter : Z
}.

Definition set_job_list (v : option (list (option Job))) (s : globals) : globals :=
  MkGlobals v (node s) (rank_2_job s) (rank_ignore_list s) (ckpt_restore s) (request_pending s) (ignore_process_failure s) (process_shrinking_pending s) (last_file_update s) (replication_idx s) (job_comm s) (rep_flag s) (last_group_failed s) (previous_world_group s) (rep_counter s) (ckpt_counter s).
Definition set_node (v : Node) (s : globals) : globals :=
  MkGlobals (job_list s) v (rank_2_job s) (rank_ignore_list s) (ckpt_restore s) (request_pending s) (ignore_process_failure s) (process_shrinking_pending s) (last_file_update s) (replication_idx s) (job_comm s) (rep_flag s) (last_group_failed s) (previous_world_group s) (rep_counter s) (ckpt_counter s).
Definition set_rank_2_job (v : option (list cell)) (s : globals) : globals :=
  MkGlobals (job_list s) (node s) v (rank_ignore_list s) (ckpt_restore s) (request_pending s) (ignore_process_failure s) (process_shrinking_pending s) (last_file_update s) (replication_idx s) (job_comm s) (rep_flag s) (last_group_failed s) (previous_world_group s) (rep_counter s) (ckpt_counter s).
Definition set_rank_ignore_list (v : option (list cell)) (s : globals) : globals :=
  MkGlobals (job_list s) (node s) (rank_2_job s) v (ckpt_restore s) (request_pending s) (ignore_process_failure s) (process_shrinking_pending s) (last_file_update s) (replication_idx s) (job_comm s) (rep_flag s) (last_group_failed s) (previous_world_group s) (rep_counter s) (ckpt_counter s).
Definition set_ckpt_restore (v : CkptRestore) (s : globals) : globals :=
  MkGlobals (job_list s) (node s) (rank_2_job s) (rank_ignore_list s) v (request_pending s) (ignore_process_failure s) (process_shrinking_pending s) (last_file_update s) (replication_idx s) (job_comm s) (rep_flag s) (last_group_failed s) (previous_world_group s) (rep_counter s) (ckpt_counter s).
Definition set_request_pending (v : Z) (s : globals) : globals :=
  MkGlobals (job_list s) (node s) (rank_2_job s) (rank_ignore_list s) (ckpt_restore s) v (ignore_process_failure s) (process_shrinking_pending s) (last_file_update s) (replication_idx s) (job_comm s) (rep_flag s) (last_group_failed s) (previous_world_group s) (rep_counter s) (ckpt_counter s).
Definition set_ignore_process_failure (v : Z) (s : globals) : globals :=
  MkGlobals (job_list s) (node s) (rank_2_job s) (rank_ignore_list s) (ckpt_restore s) (request_pending s) v (process_shrinking_pending s) (last_file_update s) (replication_idx s) (job_comm s) (rep_flag s) (last_group_failed s) (previous_world_group s) (rep_counter s) (ckpt_counter s).
Definition set_process_shrinking_pending (v : Z) (s : globals) : globals :=
  MkGlobals (job_list s) (node s) (rank_2_job s) (rank_ignore_list s) (ckpt_restore s) (request_pending s) (ignore_process_failure s) v (last_file_update s) (replication_idx s) (job_comm s) (rep_flag s) (last_group_failed s) (previous_world_group s) (rep_counter s) (ckpt_counter s).
Definition set_last_file_update (v : Z) (s : globals) : globals :=
  MkGlobals (job_list s) (node s) (rank_2_job s) (rank_ignore_list s) (ckpt_restore s) (request_pending s) (ignore_process_failure s) (process_shrinking_pending s) v (replication_idx s) (job_comm s) (rep_flag s) (last_group_failed s) (previous_world_group s) (rep_counter s) (ckpt_counter s).
Definition set_replication_idx (v : Z) (s : globals) : globals :=
  MkGlobals (job_list s) (node s) (rank_2_job s) (rank_ignore_list s) (ckpt_restore s) (request_pending s) (ignore_process_failure s) (process_shrinking_pending s) (last_file_update s) v (job_comm s) (rep_flag s) (last_group_failed s) (previous_world_group s) (rep_counter s) (ckpt_counter s).
Definition set_job_comm (v : MPI_Comm) (s : globals) : globals :=
  MkGlobals (job_list s) (node s) (rank_2_job s) (rank_ignore_list s) (ckpt_restore s) (request_pending s) (ignore_process_failure s) (process_shrinking_pending s) (last_file_update s) (replication_idx s) v (rep_flag s) (last_group_failed s) (previous_world_group s) (rep_counter s) (ckpt_counter s).
Definition set_rep_flag (v : Z) (s : globals) : globals :=
  MkGlobals (job_list s) (node s) (rank_2_job s) (rank_ignore_list s) (ckpt_restore s) (request_pending s) (ignore_process_failure s) (process_shrinking_pending s) (last_file_update s) (replication_idx s) (job_comm s) v (last_group_failed s) (previous_world_group s) (rep_counter s) (ckpt_counter s).
Definition set_last_group_failed (v : MPI_Group) (s : globals) : globals :=
  MkGlobals (job_list s) (node s) (rank_2_job s) (rank_ignore_list s) (ckpt_restore s) (request_pending s) (ignore_process_failure s) (process_shrinking_pending s) (last_file_update s) (replication_idx s) (job_comm s) (rep_flag s) v (previous_world_group s) (rep_counter s) (ckpt_counter s).
Definition set_previous_world_group (v : MPI_Group) (s : globals) : globals :=
  MkGlobals (job_list s) (node s) (rank_2_job s) (rank_ignore_list s) (ckpt_restore s) (request_pending s) (ignore_process_failure s) (process_shrinking_pending s) (last_file_update s) (replication_idx s) (job_comm s) (rep_flag s) (last_group_failed s) v (rep_counter s) (ckpt_counter s).
Definition set_rep_counter (v : Z) (s : globals) : globals :=
  MkGlobals (job_list s) (node s) (rank_2_job s) (rank_ignore_list s) (ckpt_restore s) (request_pending s) (ignore_process_failure s) (process_shrinking_pending s) (last_file_update s) (replication_idx s) (job_comm s) (rep_flag s) (last_group_failed s) (previous_world_group s) v (ckpt_counter s).
Definition set_ckpt_counter (v : Z) (s : globals) : globals :=
  MkGlobals (job_list s) (node s) (rank_2_job s) (rank_ignore_list s) (ckpt_restore s) (request_pending s) (ignore_process_failure s) (process_shrinking_pending s) (last_file_update s) (replication_idx s) (job_comm s) (rep_flag s) (last_group_failed s) (previous_world_group s) (rep_counter s) v.

(** The globals when the process starts: static storage is zero, and the
    pointers are [NULL]. *)
Definition node0 : Node :=
  MkNode 0 0 0 0 0 NODE_DATA_NONE NO 0 0 0.
Definition globals0 : globals :=
  MkGlobals None node0 None None RESTORE_NO 0 0 0 0 0 0 0 0 0 (-1) (-1).
