(* ===== verification/Mpi.v ===== *)
(** * The interface to the MPI library

    EntangledMPI is written on top of an MPI implementation it does not
    contain.  The constants of [mpi.h] are the fields of [MpiConst]; what the
    code relies on of their values is [MpiConstLaws], which an
    implementation has to provide (the MPI standard, section 2.5.4 and
    table A.1.1, makes a rank a non-negative number and [MPI_UNDEFINED] and
    [MPI_ANY_SOURCE] values that are not ranks).  The communication calls are
    the fields of the classes below: a call takes the state [W] of everything
    outside the process and returns its result and the new state.  A theorem
    is stated for every such class; [open_mpi] is one implementation's
    constants, used by the witnesses. *)

From S2P Require Import Prelude Shared.

Class MpiConst : Type := {
  MPI_SUCCESS : Z;
  MPI_UNDEFINED : Z;
  MPI_ANY_SOURCE : Z;
  MPI_COMM_WORLD : MPI_Comm;
  MPI_COMM_NULL : MPI_Comm;
  MPI_REQUEST_NULL : Z;
  MPIX_ERR_PROC_FAILED : Z
}.

Class MpiConstLaws `{MpiConst} : Prop := {
  undefined_neg : MPI_UNDEFINED < 0;
  any_source_neg : MPI_ANY_SOURCE < 0
}.

#[export] Instance open_mpi : MpiConst := {
  MPI_SUCCESS := 0;
  MPI_UNDEFINED := -32766;
  MPI_ANY_SOURCE := -1;
  MPI_COMM_WORLD := 1;
  MPI_COMM_NULL := 2;
  MPI_REQUEST_NULL := 3;
  MPIX_ERR_PROC_FAILED := 75
}.

#[export] Instance open_mpi_laws : MpiConstLaws.
Proof. by split. Qed.

(** [MPI_Comm_split(comm, color, key, &newcomm)]: the new communicator. *)
Class PmpiSplit (W : Type) : Type := {
  PMPI_Comm_rank : MPI_Comm → W → Z;
  PMPI_Comm_size : MPI_Comm → W → Z;
  PMPI_Comm_split : MPI_Comm → Z → Z → W → MPI_Comm * W
}.

(** A small MPI library for the witnesses: it knows the rank and the size of
    every communicator, and hands out handles in order. *)
Record mini_world : Type := MiniWorld {
  mini_rank : Z;
  mini_size : Z;
  mini_next : Z
}.

Definition mini_split : PmpiSplit mini_world := {|
  PMPI_Comm_rank _ w := mini_rank w;
  PMPI_Comm_size _ w := mini_size w;
  PMPI_Comm_split _ _ _ w :=
    (mini_next w, MiniWorld (mini_rank w) (mini_size w) (mini_next w + 1))
|}.
