(* ===== verification/MapFile.v ===== *)
(** * The replication map as text

    What [src/mpi/comm.c] reads with [fscanf] and what the process manager
    ([WriteToFile] of [src/manager/manager/manager.go]) prints.  [fscanf] is
    the C library's, for the directives the program uses: [%d] and white
    space. *)

From stdpp Require Import pretty.
From Stdlib Require Import Ascii.
From S2P Require Import Prelude.

#[local] Open Scope char_scope.
#[local] Open Scope Z_scope.

(** ** Characters *)
Definition code (c : ascii) : Z := Z.of_N (N_of_ascii c).
Definition is_space (c : ascii) : bool :=
  (code c =? 32) || ((9 <=? code c) && (code c <=? 13)).
Definition is_digit (c : ascii) : bool := (48 <=? code c) && (code c <=? 57).
Definition digit_char (d : Z) : ascii := ascii_of_N (Z.to_N (48 + d)).

(** ** Reading: [fscanf] *)
Fixpoint skip_ws (l : list ascii) : list ascii :=
  match l with
  | [] => []
  | c :: l' => if is_space c then skip_ws l' else l
  end.

Fixpoint scan_digits (acc : Z) (l : list ascii) : Z * list ascii :=
  match l with
  | [] => (acc, [])
  | c :: l' => if is_digit c then scan_digits (10 * acc + (code c - 48)) l' else (acc, l)
  end.

Definition starts_digit (l : list ascii) : bool :=
  match l with c :: _ => is_digit c | [] => false end.

Definition scan_sign (l : list ascii) : bool * list ascii :=
  match l with
  | c :: l' =>
      if code c =? 45 then (true, l')
      else if code c =? 43 then (false, l') else (false, l)
  | [] => (false, [])
  end.

(** The directive [%d]: white space, an optional sign, digits.  [None] is a
    matching failure; what was read before it stays consumed. *)
Definition scan_int (l : list ascii) : option Z * list ascii :=
  let '(neg, l) := scan_sign (skip_ws l) in
  if starts_digit l then
    let '(n, r) := scan_digits 0 l in (Some (if neg then - n else n), r)
  else (None, l).

Inductive directive : Set := Dint | Dws.

(** [fscanf fmt l]: the values converted, in order, and the rest of the
    stream; it stops at the first matching failure.  [None]: a number that
    [int] cannot hold, for which the standard leaves the call undefined. *)
Fixpoint fscanf (fmt : list directive) (l : list ascii) : option (list Z * list ascii) :=
  match fmt with
  | [] => Some ([], l)
  | Dws :: fmt' => fscanf fmt' (skip_ws l)
  | Dint :: fmt' =>
      match scan_int l with
      | (Some v, l') =>
          v ← c_int v; r ← fscanf fmt' l'; Some (v :: r.1, r.2)
      | (None, l') => Some ([], l')
      end
  end.

(** ** Printing: [strconv.Itoa] and [JobMap.WriteToFile] *)
Fixpoint digits (fuel : nat) (n : Z) (acc : list ascii) : list ascii :=
  match fuel with
  | O => acc
  | S fuel' =>
      let acc' := digit_char (n mod 10) :: acc in
      if n <? 10 then acc' else digits fuel' (n / 10) acc'
  end.

(** The fuel is one more than the number of binary digits, which bounds the
    number of decimal ones. *)
Definition itoa (n : Z) : list ascii :=
  if n <? 0 then "-"%char :: digits (S (Z.to_nat (Z.log2 (- n)))) (- n) []
  else digits (S (Z.to_nat (Z.log2 n))) n [].

Definition TAB : ascii := "009".
Definition NL : ascii := "010".

(** A job of the manager's [JobMap]: its [Modified] bit and the ranks of its
    [RankList].  The keys of [JMap] are [0 .. n - 1] ([InitJobMap]), so the
    job with key [k] is element [k] of the list. *)
Record GoJob : Type := MkGoJob { Modified : Z; RankList : list Z }.

Definition CountTotalRanks (jm : list GoJob) : Z :=
  Z.of_nat (length (concat (RankList <$> jm))).

Definition write_ranks (rs : list Z) : list ascii :=
  concat ((λ r, TAB :: itoa r) <$> rs).

Definition write_job (k : Z) (j : GoJob) : list ascii :=
  itoa (Modified j) ++ TAB :: itoa k ++ TAB :: itoa (Z.of_nat (length (RankList j)))
  ++ write_ranks (RankList j) ++ [NL].

Fixpoint write_jobs (k : Z) (jm : list GoJob) : list ascii :=
  match jm with
  | [] => []
  | j :: jm' => write_job k j ++ write_jobs (k + 1) jm'
  end.

(** The lines of explanation the manager prints after the jobs. *)
Definition map_legend : list ascii :=
  String.list_ascii_of_string
    "[first line: <TOTAL_CORES><TAB><NO_OF_JOBS>]
[followed by (in each line): <UPDATE_BIT><TAB><JOB_ID><TAB><NO_OF_WORKERS><TAB><ORIGINAL_RANK_1><TAB><ORIGINAL_RANK_2><TAB>...]
<JOB_ID> starts with 0
<ORIGINAL_RANK_*> starts with 0".

Definition WriteToFile (jm : list GoJob) : list ascii :=
  itoa (CountTotalRanks jm) ++ TAB :: itoa (Z.of_nat (length jm)) ++ NL ::
  write_jobs 0 jm ++ map_legend.

(** ** Lemmas *)
Lemma digit_char_spec d :
  0 ≤ d < 10 → is_digit (digit_char d) = true ∧ code (digit_char d) = 48 + d.
Proof.
  intros H.
  assert (d = 0 ∨ d = 1 ∨ d = 2 ∨ d = 3 ∨ d = 4 ∨ d = 5 ∨ d = 6 ∨ d = 7 ∨ d = 8 ∨ d = 9)
    as Hd by lia.
  destruct_or!; subst d; by vm_compute.
Qed.

Lemma is_digit_not_space c : is_digit c = true → is_space c = false.
Proof. unfold is_digit, is_space. lia. Qed.

Lemma skip_ws_idem l : skip_ws (skip_ws l) = skip_ws l.
Proof.
  induction l as [|c l IH]; simpl; [done|].
  destruct (is_space c) eqn:E; [done|]. simpl. by rewrite E.
Qed.

Lemma skip_ws_space c l : is_space c = true → skip_ws (c :: l) = skip_ws l.
Proof. simpl. by intros ->. Qed.

Lemma skip_ws_digit l : starts_digit l = true → skip_ws l = l.
Proof. destruct l; simpl; [done|]. intros H. by rewrite is_digit_not_space. Qed.

Lemma scan_digits_stop acc l : starts_digit l = false → scan_digits acc l = (acc, l).
Proof. destruct l; simpl; [done|]. by intros ->. Qed.

(** Reading back the digits of [n] multiplies the accumulator by a power of
    ten and adds [n]. *)
Lemma scan_digits_digits fuel n acc l a :
  0 ≤ n < 10 ^ Z.of_nat fuel → (0 < fuel)%nat →
  ∃ k, 0 ≤ k ∧
    scan_digits a (digits fuel n acc ++ l) = scan_digits (a * 10 ^ k + n) (acc ++ l) ∧
    starts_digit (digits fuel n acc) = true.
Proof.
  revert n acc. induction fuel as [|fuel IH]; intros n acc Hn Hf; [lia|].
  pose proof (Z.mod_pos_bound n 10) as Hm.
  destruct (digit_char_spec (n mod 10)) as [Hd Hc]; [lia|].
  cbn [digits]. destruct (n <? 10) eqn:Hlt.
  - exists 1. rewrite Z.mod_small in * by lia. simpl. rewrite Hd, Hc.
    split; [lia|]. split; [|done]. f_equal. lia.
  - assert (0 < fuel)%nat as Hf'.
    { destruct fuel; [|lia]. change (10 ^ Z.of_nat 1) with 10 in Hn. lia. }
    rewrite Nat2Z.inj_succ, Z.pow_succ_r in Hn by lia.
    destruct (IH (n / 10) (digit_char (n mod 10) :: acc)) as (k & Hk & IH1 & IH2); [|lia|].
    { split; [apply Z.div_pos; lia|]. apply Z.div_lt_upper_bound; lia. }
    exists (k + 1). split; [lia|]. split; [|done].
    rewrite IH1. simpl. rewrite Hd, Hc. f_equal.
    rewrite Z.pow_add_r, Z.pow_1_r by lia.
    rewrite (Z.div_mod n 10) at 3 by lia. lia.
Qed.

Lemma digits_fuel_enough n : 0 ≤ n → n < 10 ^ Z.of_nat (S (Z.to_nat (Z.log2 n))).
Proof.
  intros Hn. destruct (decide (n = 0)) as [->|Hn0]; [done|].
  pose proof (Z.log2_spec n) as [_ H]; [lia|].
  pose proof (Z.log2_nonneg n).
  rewrite Nat2Z.inj_succ, Z2Nat.id by done.
  eapply Z.lt_le_trans; [exact H|]. apply Z.pow_le_mono_l. lia.
Qed.

Lemma scan_nat_digits n l :
  0 ≤ n → starts_digit l = false →
  scan_digits 0 (digits (S (Z.to_nat (Z.log2 n))) n [] ++ l) = (n, l) ∧
  starts_digit (digits (S (Z.to_nat (Z.log2 n))) n []) = true.
Proof.
  intros Hn Hl.
  destruct (scan_digits_digits (S (Z.to_nat (Z.log2 n))) n [] l 0) as (k & _ & H & Hs).
  - pose proof (digits_fuel_enough n). lia.
  - lia.
  - rewrite H. simpl. by rewrite scan_digits_stop.
Qed.

Lemma scan_sign_digit l : starts_digit l = true → scan_sign l = (false, l).
Proof.
  destruct l as [|c l]; [done|]. simpl. unfold is_digit. intros H.
  destruct (code c =? 45) eqn:?; [lia|]. by destruct (code c =? 43) eqn:?; [lia|].
Qed.

Lemma starts_digit_app l l' : starts_digit l = true → starts_digit (l ++ l') = true.
Proof. by destruct l. Qed.

(** Reading with [%d] what [strconv.Itoa] printed. *)
Lemma scan_int_itoa n l :
  starts_digit l = false → scan_int (itoa n ++ l) = (Some n, l).
Proof.
  intros Hl. unfold itoa, scan_int. destruct (n <? 0) eqn:Hn.
  - destruct (scan_nat_digits (- n) l) as [H Hs]; [lia|done|].
    rewrite <-app_comm_cons. set (d := digits _ _ _) in *.
    change (scan_sign (skip_ws ("-"%char :: d ++ l))) with (true, d ++ l).
    cbv beta iota. rewrite starts_digit_app, H by done. f_equal. f_equal. lia.
  - destruct (scan_nat_digits n l) as [H Hs]; [lia|done|].
    rewrite skip_ws_digit, scan_sign_digit by (by apply starts_digit_app).
    cbv beta iota. by rewrite starts_digit_app, H.
Qed.

(** The same after one separator. *)
Lemma scan_int_sep c n l :
  is_space c = true → starts_digit l = false →
  scan_int (c :: itoa n ++ l) = (Some n, l).
Proof.
  intros Hc Hl. rewrite <-(scan_int_itoa n l Hl). unfold scan_int.
  by rewrite skip_ws_space.
Qed.

Lemma scan_int_skip l : scan_int (skip_ws l) = scan_int l.
Proof. unfold scan_int. by rewrite skip_ws_idem. Qed.

(** *** What [fscanf] makes of the manager's output *)
Lemma fscanf_Dint n l fmt :
  INT_MIN ≤ n ≤ INT_MAX → starts_digit l = false →
  fscanf (Dint :: fmt) (itoa n ++ l) =
  r ← fscanf fmt l; Some (n :: r.1, r.2).
Proof. intros Hn Hl. simpl. rewrite scan_int_itoa by done. simpl. by rewrite c_int_Some. Qed.

Lemma fscanf_Dint_sep c n l fmt :
  INT_MIN ≤ n ≤ INT_MAX → starts_digit l = false → is_space c = true →
  fscanf (Dint :: fmt) (c :: itoa n ++ l) =
  r ← fscanf fmt l; Some (n :: r.1, r.2).
Proof. intros Hn Hl Hc. simpl. rewrite scan_int_sep by done. simpl. by rewrite c_int_Some. Qed.

Lemma fscanf_ws_int l fmt : fscanf (Dws :: Dint :: fmt) l = fscanf (Dint :: fmt) l.
Proof. simpl. by rewrite scan_int_skip. Qed.

(** The formats of [parse_map_file]. *)
Definition fmt_header : list directive := [Dint; Dws; Dint].
Definition fmt_job : list directive := [Dint; Dws; Dint; Dws; Dint; Dws].
Definition fmt_rank : list directive := [Dws; Dint].

Definition is_int (z : Z) : Prop := INT_MIN ≤ z ≤ INT_MAX.

Lemma fscanf_header a b l :
  is_int a → is_int b → starts_digit l = false →
  fscanf fmt_header (itoa a ++ TAB :: itoa b ++ l) = Some ([a; b], l).
Proof.
  intros. unfold fmt_header.
  rewrite fscanf_Dint, fscanf_ws_int, fscanf_Dint_sep by done. done.
Qed.

Lemma fscanf_job c u k n l :
  is_int u → is_int k → is_int n → is_space c = true → starts_digit l = false →
  fscanf fmt_job (c :: itoa u ++ TAB :: itoa k ++ TAB :: itoa n ++ l) =
  Some ([u; k; n], skip_ws l).
Proof.
  intros. unfold fmt_job.
  rewrite fscanf_Dint_sep, fscanf_ws_int, fscanf_Dint_sep, fscanf_ws_int,
    fscanf_Dint_sep by done. done.
Qed.

(** Reading one rank, from the stream or from the stream with its leading
    white space already skipped (as the format of a job leaves it). *)
Lemma fscanf_rank r l :
  is_int r → starts_digit l = false →
  fscanf fmt_rank (TAB :: itoa r ++ l) = Some ([r], l).
Proof.
  intros. unfold fmt_rank. by rewrite fscanf_ws_int, fscanf_Dint_sep by done.
Qed.

Lemma fscanf_rank_skip l : fscanf fmt_rank (skip_ws l) = fscanf fmt_rank l.
Proof. unfold fmt_rank. simpl. by rewrite skip_ws_idem. Qed.

(** What follows a number in the manager's output is not a digit. *)
Lemma write_ranks_no_digit rs l :
  starts_digit l = false → starts_digit (write_ranks rs ++ l) = false.
Proof. by destruct rs. Qed.
