(* ===== verification/Log.v ===== *)
(** * Logging: [src/misc/log.c]

    [_log_e] and [_log_i] build the line they print in two stages: [sprintf]
    puts the message and where it comes from into a buffer of 200 bytes, and
    the result is itself the format of [vfprintf], which fills in the
    arguments of the message.  [printf] is the C library's, for the
    directives the program's messages have: [%d], [%s], [%p] and [%f].  The
    text of a pointer and of a [double] is the implementation's, and a
    parameter. *)

From stdpp Require Import strings.
From Stdlib Require Import Ascii.
From S2P Require Import Prelude MapFile.

#[local] Open Scope Z_scope.

(** ** [printf] *)

(** An argument of a call with a variable number of them. *)
Inductive arg : Type :=
  | Aint (n : Z)
  | Astr (s : list ascii)
  | Aptr (a : Z)
  | Adouble (bits : Z).

#[global] Instance arg_eq_dec : EqDecision arg.
Proof. solve_decision. Defined.

Definition PERCENT : ascii := "%"%char.
Definition text (s : string) : list ascii := String.list_ascii_of_string s.

(** How the C library prints what the standard leaves to it. *)
Class Shows : Type := { show_ptr : Z → list ascii; show_double : Z → list ascii }.

Section printf.
Context `{Shows}.

(** A directive with an argument of another type is undefined. *)
Definition show (d : ascii) (a : arg) : option (list ascii) :=
  match a with
  | Aint n => if decide (d = "d"%char) then Some (itoa n) else None
  | Astr s => if decide (d = "s"%char) then Some s else None
  | Aptr p => if decide (d = "p"%char) then Some (show_ptr p) else None
  | Adouble x => if decide (d = "f"%char) then Some (show_double x) else None
  end.

(** [printf fmt l]: the text, and the arguments that are left over, which is
    not an error; a directive without an argument is undefined. *)
Fixpoint printf (fmt : list ascii) (l : list arg) : option (list ascii * list arg) :=
  match fmt with
  | [] => Some ([], l)
  | c :: fmt =>
      if decide (c = PERCENT) then
        match fmt with
        | [] => None
        | d :: fmt =>
            if decide (d = PERCENT) then r ← printf fmt l; Some (PERCENT :: r.1, r.2)
            else match l with
                 | [] => None
                 | a :: l => t ← show d a; r ← printf fmt l; Some (t ++ r.1, r.2)
                 end
        end
      else r ← printf fmt l; Some (c :: r.1, r.2)
  end.
End printf.

(** ** The line *)
Definition ESC : ascii := "027".
Definition KNRM : list ascii := ESC :: text "[0m".
Definition KRED : list ascii := ESC :: text "[31m".
Definition KGRN : list ascii := ESC :: text "[32m".
Definition KCYN : list ascii := ESC :: text "[36m".

(** The two functions, and what differs between them: the colour and the word
    the line begins with, and the stream it goes to. *)
Inductive channel : Set := Stderr | Stdout.
#[global] Instance channel_eq_dec : EqDecision channel.
Proof. solve_decision. Defined.

Definition log_colour (ch : channel) : list ascii :=
  match ch with Stderr => KRED | Stdout => KGRN end.
Definition log_fmt (ch : channel) : list ascii :=
  match ch with
  | Stderr => text "%sERROR: %s[Rank: %d]%s | Message: %s | Module: %s | %sLine: %d%s" ++ [NL]
  | Stdout => text "%sINFO: %s[Rank: %d]%s | Message: %s | Module: %s | %sLine: %d%s" ++ [NL]
  end.

(** [char buffer[200]] *)
Definition LOG_BUFFER : Z := 200.

(** What the two functions keep between calls: the streams, in the order in
    which they were written to, and the global [va_list args]: [None] while it
    is not between [va_start] and [va_end]. *)
Record console : Type := MkConsole { printed : list (channel * list ascii); args : option (list arg) }.

(** [va_start] names the last parameter of its function.  C11 and the standards
    before it leave undefined what another name does; C23, and the compilers
    that take the macro from a builtin of theirs (gcc, clang), ignore it.
    [va_start_any]: this implementation ignores it. *)
Class Varargs : Type := va_start_any : bool.

Section log.
Context `{Shows} `{Varargs}.

(** [sprintf(buffer, fmt, ...)]: more than the buffer holds, with the NUL at
    its end, is written past it. *)
Definition sprintf (cap : Z) (fmt : list ascii) (l : list arg) : option (list ascii) :=
  r ← printf fmt l;
  if Z.of_nat (length r.1) + 1 <=? cap then Some r.1 else None.

Definition log_line (ch : channel) (static_rank : Z) (module : list ascii) (line : Z)
    (message : list ascii) : option (list ascii) :=
  sprintf LOG_BUFFER (log_fmt ch)
    [Astr (log_colour ch); Astr KCYN; Aint static_rank; Astr KNRM; Astr message; Astr module;
     Astr KCYN; Aint line; Astr KNRM].

(** [va_start(args, name)]; [last]: [name] is the last parameter, here
    [message].  On a list that was started and not ended it is undefined; so are
    [va_end] and a use of one that was not started. *)
Definition va_start (last : bool) (l : list arg) : M console unit :=
  ensure (last || va_start_any) Undef;;;
  let! a := gets args in
  ensure (bool_decide (a = None)) Undef;;;
  modify (λ s, MkConsole (printed s) (Some l)).
Definition vfprintf (ch : channel) (fmt : list ascii) : M console unit :=
  let! a := gets args in
  let! l := of_option Undef a in
  let! (t, l) := of_option Undef (printf fmt l) in
  modify (λ s, MkConsole (printed s ++ [(ch, t)]) (Some l)).
Definition va_end : M console unit :=
  let! a := gets args in
  ensure (bool_decide (a ≠ None)) Undef;;;
  modify (λ s, MkConsole (printed s) None).

(** [_log_e] and [_log_i], which are the same but for the channel.  The
    buffer is local to the call and [static_rank] is the field of [node].  The
    name [va_start] is given is that of the buffer, not of [message]. *)
Definition log_on (ch : channel) (static_rank : Z) (module : list ascii) (line : Z)
    (message : list ascii) (l : list arg) : M console unit :=
  let! buffer := of_option Undef (log_line ch static_rank module line message) in
  va_start false l;;;
  vfprintf ch buffer;;;
  va_end.

Definition _log_e := log_on Stderr.
Definition _log_i := log_on Stdout.
End log.

(** ** Lemmas *)
Section lemmas.
Context `{Shows}.

(** No directive. *)
Definition no_percent (l : list ascii) : Prop := Forall (λ c, c ≠ PERCENT) l.

Lemma printf_plain a fmt l :
  no_percent a → printf (a ++ fmt) l = (r ← printf fmt l; Some (a ++ r.1, r.2)).
Proof.
  induction 1 as [|c a Hc Ha IH]; [simpl; by destruct (printf fmt l) as [[]|]|].
  cbn [app printf]. rewrite decide_False by done. rewrite IH. by destruct (printf fmt l).
Qed.

Lemma printf_text a l : no_percent a → printf a l = Some (a, l).
Proof. intros Ha. rewrite <-(app_nil_r a) at 1. rewrite printf_plain by done. simpl. by rewrite app_nil_r. Qed.

(** A character that can begin no directive after a [%]. *)
Definition breaks (d : ascii) : Prop := d ≠ PERCENT ∧ ∀ a, show d a = None.

Lemma space_breaks : breaks " "%char.
Proof. split; [done|]. by intros []. Qed.

(** A format is filled in part by part; the parts are cut at a character that
    ends a directive. *)
Lemma printf_app d a fmt l : breaks d →
  printf (a ++ d :: fmt) l =
    (r ← printf a l; q ← printf (d :: fmt) r.2; Some (r.1 ++ q.1, q.2)).
Proof.
  intros [Hd Hs]. set (T := printf (d :: fmt)). revert l.
  induction a as [a IH] using (induction_ltof1 _ length). intros l.
  destruct a as [|c a]; [change ([] ++ d :: fmt) with (d :: fmt); fold T; simpl; by destruct (T l) as [[]|]|].
  cbn [app printf]. case_decide as Hc.
  - destruct a as [|e a].
    + cbn [app]. rewrite decide_False by done. destruct l as [|x l]; [done|]. by rewrite Hs.
    + cbn [app]. case_decide as He.
      * rewrite IH by (unfold ltof; simpl; lia). destruct (printf a l) as [r|]; [|done]. simpl. by destruct (T r.2).
      * destruct l as [|x l]; [done|]. destruct (show e x) as [t|]; [|done]. simpl.
        rewrite IH by (unfold ltof; simpl; lia). destruct (printf a l) as [r|]; [|done].
        simpl. destruct (T r.2) as [q|]; [|done]. simpl. by rewrite app_assoc.
  - rewrite IH by (unfold ltof; simpl; lia). destruct (printf a l) as [r|]; [|done]. simpl. by destruct (T r.2).
Qed.

Lemma no_percent_dec (l : list ascii) : forallb (λ c, bool_decide (c ≠ PERCENT)) l = true → no_percent l.
Proof.
  intros E. apply Forall_forall. intros c Hc. rewrite forallb_forall in E.
  apply list_elem_of_In in Hc. by apply E, bool_decide_eq_true in Hc.
Qed.

Lemma digits_length fuel : ∀ n k l, 0 ≤ n < 10 ^ Z.of_nat k → (0 < k)%nat →
  (length (MapFile.digits fuel n l) ≤ k + length l)%nat.
Proof.
  induction fuel as [|fuel IH]; intros n k l Hn Hk; cbn [MapFile.digits]; [lia|].
  destruct (n <? 10) eqn:E; [simpl; lia|]. apply Z.ltb_ge in E. destruct k as [|k]; [lia|].
  rewrite Nat2Z.inj_succ, Z.pow_succ_r in Hn by lia.
  destruct k as [|k]; [simpl in Hn; lia|].
  etransitivity; [apply (IH _ (S k))|simpl; lia]; [|lia].
  split; [apply Z.div_pos; lia|]. apply Z.div_lt_upper_bound; lia.
Qed.

Lemma digits_no_percent fuel : ∀ n l, 0 ≤ n → no_percent l → no_percent (MapFile.digits fuel n l).
Proof.
  induction fuel as [|fuel IH]; intros n l Hn Hl; [done|]. cbn [MapFile.digits].
  assert (no_percent (digit_char (n mod 10) :: l)) as Hd.
  { constructor; [|done]. intros E.
    destruct (digit_char_spec (n mod 10)) as [Hc _]; [apply Z.mod_pos_bound; lia|]. by rewrite E in Hc. }
  destruct (n <? 10); [done|]. apply IH; [apply Z.div_pos; lia|done].
Qed.

(** The text of an [int]. *)
Lemma itoa_length n : INT_MIN ≤ n ≤ INT_MAX → (length (itoa n) ≤ 11)%nat.
Proof.
  unfold INT_MIN, INT_MAX. intros Hn. unfold itoa. destruct (n <? 0) eqn:E.
  - cbn [length]. pose proof (digits_length (S (Z.to_nat (Z.log2 (- n)))) (- n) 10 []). simpl in *. lia.
  - pose proof (digits_length (S (Z.to_nat (Z.log2 n))) n 10 []). simpl in *. lia.
Qed.

Lemma itoa_nonempty n : (1 ≤ length (itoa n))%nat.
Proof.
  assert (∀ fuel n l, length l ≤ length (MapFile.digits fuel n l))%nat as Hl.
  { induction fuel as [|fuel IH]; intros m l; cbn [MapFile.digits]; [done|].
    destruct (m <? 10); [simpl; lia|]. specialize (IH (m / 10) (digit_char (m mod 10) :: l)). simpl in IH. lia. }
  unfold itoa. destruct (n <? 0); [simpl; lia|]. cbn [MapFile.digits].
  destruct (n <? 10); [simpl; lia|].
  specialize (Hl (Z.to_nat (Z.log2 n)) (n / 10) [digit_char (n mod 10)]). simpl in Hl. lia.
Qed.

Lemma itoa_no_percent n : no_percent (itoa n).
Proof.
  unfold itoa. destruct (n <? 0) eqn:E; [constructor; [done|]|];
    (apply digits_no_percent; [lia|constructor]).
Qed.

(** What the line has before the message and after it. *)
Definition log_word (ch : channel) : list ascii :=
  match ch with Stderr => text "ERROR: " | Stdout => text "INFO: " end.
Definition log_head (ch : channel) (static_rank : Z) : list ascii :=
  log_colour ch ++ log_word ch ++ KCYN ++ text "[Rank: " ++ itoa static_rank ++ text "]" ++ KNRM ++
  text " | Message: ".
Definition log_tail (module : list ascii) (line : Z) : list ascii :=
  text " | Module: " ++ module ++ text " | " ++ KCYN ++ text "Line: " ++ itoa line ++ KNRM ++ [NL].

Lemma printf_s a s fmt l : no_percent a →
  printf (a ++ text "%s" ++ fmt) (Astr s :: l) = (r ← printf fmt l; Some (a ++ s ++ r.1, r.2)).
Proof.
  intros Ha. rewrite printf_plain by done. change (printf (text "%s" ++ fmt) (Astr s :: l)) with
    (r ← printf fmt l; Some (s ++ r.1, r.2)). by destruct (printf fmt l).
Qed.
Lemma printf_d a n fmt l : no_percent a →
  printf (a ++ text "%d" ++ fmt) (Aint n :: l) = (r ← printf fmt l; Some (a ++ itoa n ++ r.1, r.2)).
Proof.
  intros Ha. rewrite printf_plain by done. change (printf (text "%d" ++ fmt) (Aint n :: l)) with
    (r ← printf fmt l; Some (itoa n ++ r.1, r.2)). by destruct (printf fmt l).
Qed.

(** The format by its directives. *)
Lemma log_fmt_parts ch :
  log_fmt ch = [] ++ text "%s" ++ log_word ch ++ text "%s" ++ text "[Rank: " ++ text "%d" ++ text "]" ++ text "%s" ++
    text " | Message: " ++ text "%s" ++ text " | Module: " ++ text "%s" ++ text " | " ++ text "%s" ++
    text "Line: " ++ text "%d" ++ [] ++ text "%s" ++ [NL].
Proof. by destruct ch. Qed.

Lemma log_line_eq ch r module line message :
  log_line ch r module line message =
    (let t := log_head ch r ++ message ++ log_tail module line in
     if Z.of_nat (length t) + 1 <=? LOG_BUFFER then Some t else None).
Proof.
  unfold log_line, sprintf.
  assert (printf (log_fmt ch)
    [Astr (log_colour ch); Astr KCYN; Aint r; Astr KNRM; Astr message; Astr module; Astr KCYN; Aint line; Astr KNRM] =
    Some (log_head ch r ++ message ++ log_tail module line, [])) as ->; [|done].
  rewrite log_fmt_parts.
  do 9 (first [rewrite printf_s|rewrite printf_d]; [|by apply no_percent_dec; destruct ch]).
  rewrite (printf_text [NL]) by by apply no_percent_dec.
  cbn [printf mbind option_bind fst snd]. unfold log_head, log_tail.
  by rewrite !app_nil_l, ?app_nil_r, <-!app_assoc.
Qed.

Lemma log_head_no_percent ch r : no_percent (log_head ch r).
Proof.
  unfold log_head. repeat apply Forall_app_2; try apply itoa_no_percent;
    apply no_percent_dec; by destruct ch.
Qed.

Lemma log_tail_no_percent module line : no_percent module → no_percent (log_tail module line).
Proof.
  intros Hm. unfold log_tail. repeat apply Forall_app_2; try apply itoa_no_percent; try done;
    by apply no_percent_dec.
Qed.

(** The second stage fills in the message only. *)
Lemma printf_log ch r module line message l : no_percent module →
  printf (log_head ch r ++ message ++ log_tail module line) l =
    (q ← printf message l; Some (log_head ch r ++ q.1 ++ log_tail module line, q.2)).
Proof.
  intros Hm. rewrite (printf_plain _ _ _ (log_head_no_percent ch r)).
  change (log_tail module line) with (" "%char :: tail (log_tail module line)) at 1.
  rewrite (printf_app _ _ _ _ space_breaks).
  change (" "%char :: tail (log_tail module line)) with (log_tail module line).
  destruct (printf message l) as [q|]; [|done]. cbn [mbind option_bind].
  by rewrite (printf_text (log_tail module line)) by by apply log_tail_no_percent.
Qed.

(** How much of the buffer is used beside the message and the path. *)
Lemma log_length ch r module line message :
  (length (log_head ch r ++ message ++ log_tail module line) =
   (match ch with Stderr => 71 | Stdout => 70 end) + length message + length module +
   length (itoa r) + length (itoa line))%nat.
Proof.
  unfold log_head, log_tail. rewrite !length_app.
  destruct ch; cbn [length log_colour log_word KRED KGRN KCYN KNRM text String.list_ascii_of_string]; lia.
Qed.
End lemmas.

(** ** Properties *)

(** C36: [_log_e] and [_log_i], for a file whose path has no [%], print one line,
    with the rank, the message with its arguments filled in, and where it comes
    from, exactly when the line, before the arguments are filled in, is shorter
    than the buffer, the arguments are those the message asks for, and the
    implementation ignores which name [va_start] is given: it is given the
    local array, which is undefined before C23.  They are undefined otherwise. *)
Theorem log_on_correct `{Shows} `{Varargs} ch r module line message l (s : console) :
  args s = None → no_percent module →
  let n := (match ch with Stderr => 71 | Stdout => 70 end +
            Z.of_nat (length message + length module + length (itoa r) + length (itoa line))) in
  log_on ch r module line message l s =
    if (n <? LOG_BUFFER) && va_start_any then
      match printf message l with
      | Some (t, _) => Done tt (MkConsole (printed s ++ [(ch, log_head ch r ++ t ++ log_tail module line)]) None)
      | None => Stop Undef (MkConsole (printed s) (Some l))
      end
    else Stop Undef s.
Proof.
  intros Ha Hm n. unfold log_on. rewrite log_line_eq. cbv zeta. rewrite log_length.
  match goal with |- context [?z <=? LOG_BUFFER] =>
    replace (z <=? LOG_BUFFER) with (n <? LOG_BUFFER)
      by (apply eq_true_iff_eq; rewrite Z.leb_le, Z.ltb_lt; unfold n; destruct ch; lia) end.
  destruct (n <? LOG_BUFFER); [|done].
  unfold va_start, vfprintf, va_end. cbn [bind of_option orb andb].
  destruct va_start_any; [|done]. cbn [bind gets modify ensure]. rewrite Ha.
  rewrite bool_decide_eq_true_2 by done. cbn [bind of_option gets modify ensure args].
  rewrite printf_log by done. by destruct (printf message l) as [[]|].
Qed.

(** A message and a path of at most 106 characters together always fit. *)
Lemma log_line_fits `{Shows} ch r module line message :
  INT_MIN ≤ r ≤ INT_MAX → INT_MIN ≤ line ≤ INT_MAX → (length message + length module ≤ 106)%nat →
  is_Some (log_line ch r module line message).
Proof.
  intros Hr Hl Hm. rewrite log_line_eq. cbv zeta. rewrite log_length.
  pose proof (itoa_length r Hr). pose proof (itoa_length line Hl).
  rewrite (proj2 (Z.leb_le _ _)); [done|]. unfold LOG_BUFFER. destruct ch; lia.
Qed.

#[local] Instance shows_ex : Shows := {| show_ptr := λ _, text "(nil)"; show_double := λ _, text "0.000000" |}.
#[local] Instance varargs_gcc : Varargs := true.

(** Where the standard holds as it was, no line is printed. *)
Lemma log_on_strict `{Shows} ch r module line message l s : ∃ s',
  @log_on _ (false : Varargs) ch r module line message l s = Stop Undef s'.
Proof.
  unfold log_on. destruct (log_line _ _ _ _ _); [|by eexists]. by exists s.
Qed.

(** What [MPI_Finalize] logs. *)
Example log_finalize_ex :
  _log_i 0 (text "src/mpi/init.c") 410 (text "[%d]: Rep Time: %fs | Ckpt Time: %fs")
    [Aint 7; Adouble 0; Adouble 0] (MkConsole [] None) =
  Done tt (MkConsole [(Stdout, log_head Stdout 0 ++ text "[7]: Rep Time: 0.000000s | Ckpt Time: 0.000000s" ++
                              log_tail (text "src/mpi/init.c") 410)] None).
Proof. vm_compute. reflexivity. Qed.

Lemma log_on_correct_witness :
  args (MkConsole [] None) = None ∧
  log_on Stderr 3 (text "src/mpi/ulfm.c") 166 (text "No Node left for %d job. Node %d failed") [Aint 2; Aint 5]
    (MkConsole [] None) =
  Done tt (MkConsole [(Stderr, log_head Stderr 3 ++ text "No Node left for 2 job. Node 5 failed" ++
                              log_tail (text "src/mpi/ulfm.c") 166)] None).
Proof.
  split; [reflexivity|].
  rewrite (log_on_correct Stderr 3 (text "src/mpi/ulfm.c") 166
    (text "No Node left for %d job. Node %d failed") [Aint 2; Aint 5] (MkConsole [] None) eq_refl).
  - vm_compute. reflexivity.
  - by apply no_percent_dec.
Defined.

(** What [parse_map_file] logs for each job when the library is built with
    [DEBUG]. *)
Definition debug_message : list ascii :=
  text "[Rep File Update] MyJobId: %d | Job ID: %d | Worker Count: %d | Worker 1: %d | Worker 2: %d | Checkpoint: %d".

(** It does not fit if the path of the file has 18 characters or more. *)
Lemma debug_log_overflows `{Shows} `{Varargs} r module l s :
  (18 ≤ length module)%nat → _log_i r module 141 debug_message l s = Stop Undef s.
Proof.
  intros Hm. unfold _log_i, log_on. rewrite log_line_eq. cbv zeta. rewrite log_length.
  assert (1 ≤ length (itoa r))%nat as Hi by apply itoa_nonempty.
  change (length debug_message) with 108%nat. change (length (itoa 141)) with 3%nat.
  by rewrite (proj2 (Z.leb_gt _ _)) by (unfold LOG_BUFFER; lia).
Qed.
