(* ===== verification/Comm.v ===== *)
(** * Nodes, jobs and communicators: [src/mpi/comm.c]

    [parse_map_file] reads the replication map into [job_list],
    [rank_2_job] and the process's own [node]; [init_node] does it the first
    time; [update_comms] and [create_migration_comm] split the world
    communicator after it.  Logging is left out: it reads the state only. *)

From Stdlib Require Import Ascii.
From S2P Require Import Prelude Shared Mpi MapFile.

(** ** Assignments to the globals *)
Definition upd_node (f : Node → Node) : M globals unit :=
  modify (λ g, set_node (f (node g)) g).

(** [job_list[j] = v], [job_list[j].rank_list[i] = v] and
    [rank_2_job[r] = v]. *)
Definition store_job (j : Z) (v : Job) : M globals unit :=
  let! jl := gets job_list in
  let! jl' := of_option Undef (a ← jl; astore a j v) in
  modify (set_job_list (Some jl')).

Definition load_job (j : Z) : M globals Job :=
  let! jl := gets job_list in
  of_option Undef (a ← jl; aload a j).

Definition store_rank_list (j i v : Z) : M globals unit :=
  let! job := load_job j in
  let! rl := of_option Undef (astore (rank_list job) i v) in
  store_job j (MkJob (j_job_id job) (worker_count job) rl).

Definition store_rank_2_job (r v : Z) : M globals unit :=
  let! a := gets rank_2_job in
  let! a' := of_option Undef (a ← a; astore a r v) in
  modify (set_rank_2_job (Some a')).

(** ** [parse_map_file] *)

(** The branches taken for the worker that is this process, on its node
    ([age] counts the updates of the map; it is kept unbounded). *)
Definition assign_node (j j_id w_c jobs : Z) (n : Node) : Node :=
  set_jobs_count jobs
    (if negb (job_id n =? j_id) then
       set_node_transit_state NODE_DATA_RECEIVER (set_job_id j_id (set_age 1 n))
     else
       set_node_transit_state
         (if (j =? 0) && (1 <? w_c) then NODE_DATA_SENDER else NODE_DATA_NONE)
         (set_age (age n + 1) n)).

(** The body of the loop over the workers of a job.  The state of the loop
    is the stream and the local [w_rank], which keeps its value when the
    conversion fails. *)
Definition parse_worker (my_rank jobs : Z) (update_bit : cell) (j_id w_c : Z)
    (st : list ascii * cell) (j : Z) : M globals (list ascii * cell) :=
  let! r := of_option Undef (fscanf fmt_rank st.1) in
  let! w_rank := of_option Undef (match r.1 with v :: _ => Some v | [] => st.2 end) in
  store_rank_2_job w_rank j_id ;;;
  when ((j =? 0) && (w_rank =? my_rank)) (upd_node (set_node_checkpoint_master YES)) ;;;
  (if w_rank =? my_rank then
     let! u := of_option Undef update_bit in
     when (u =? 1) (upd_node (assign_node j j_id w_c jobs))
   else ret tt) ;;;
  store_rank_list j_id j w_rank ;;;
  ret (r.2, Some w_rank).

(** The body of the loop over the jobs. *)
Definition parse_job (my_rank jobs : Z) (st : list ascii) (i : Z) : M globals (list ascii) :=
  let! r := of_option Undef (fscanf fmt_job st) in
  let! j_id := of_option Undef (r.1 !! 1%nat) in
  ensure (j_id <? jobs) AssertFailed ;;;
  let! w_c := of_option Undef (r.1 !! 2%nat) in
  ensure (0 <? w_c) AssertFailed ;;;
  store_job j_id (MkJob j_id w_c (replicate (Z.to_nat w_c) None)) ;;;
  let! st' := foldM (parse_worker my_rank jobs (r.1 !! 0%nat) j_id w_c) (r.2, None)
                    (seqZ 0 w_c) in
  ret st'.1.

(** [free(job_list[i].rank_list)] for every old job. *)
Definition free_rank_lists : M globals unit :=
  let! count := gets (λ g, jobs_count (node g)) in
  iterM (λ i, load_job i ;;; ret tt) (seqZ 0 count).

(** [if(rank_2_job == NULL) rank_2_job = malloc(sizeof(int) * cores)]. *)
Definition alloc_rank_2_job (cores : cell) : M globals unit :=
  let! a := gets rank_2_job in
  match a with
  | None =>
      let! cores := of_option Undef cores in
      modify (set_rank_2_job (amalloc cores))
  | Some _ => ret tt
  end.

(** [file] is what [fopen(file_name, "r")] opens: [None] when it fails. *)
Definition parse_map_file (file : option (list ascii)) : M globals unit :=
  let! restore := gets ckpt_restore in
  if decide (restore = RESTORE_YES) then ret tt else
  match file with
  | None => halt (Exited 0)
  | Some pointer =>
      let! hdr := of_option Undef (fscanf fmt_header pointer) in
      upd_node (set_node_checkpoint_master NO) ;;;
      upd_node (set_node_transit_state NODE_DATA_NONE) ;;;
      free_rank_lists ;;;
      let! my_rank := gets (λ g, rank (node g)) in
      alloc_rank_2_job (hdr.1 !! 0%nat) ;;;
      let! jobs := of_option Undef (hdr.1 !! 1%nat) in
      modify (set_job_list (amalloc jobs)) ;;;
      foldM (parse_job my_rank jobs) hdr.2 (seqZ 0 jobs) ;;;
      ret tt
  end.

(** ** Communicators *)
Section mpi.
Context {W : Type} `{MpiConst} `{PmpiSplit W}.

Definition of_globals {A} (m : M globals A) : M (globals * W) A :=
  zoom fst (λ g s, (g, s.2)) m.

Definition comm_split (comm color key : Z) : M (globals * W) MPI_Comm := λ s,
  let '(c, w) := PMPI_Comm_split comm color key s.2 in Done c (s.1, w).

(** The colour and key a process gives to each split. *)
Definition active_split (n : Node) : Z * Z :=
  (if decide (node_checkpoint_master n = NO) then MPI_UNDEFINED else 0, job_id n).
Definition world_job_split (n : Node) : Z * Z :=
  (job_id n, if decide (node_checkpoint_master n = YES) then 0 else 1).

Definition update_comms : M (globals * W) unit :=
  let! n := gets (λ s, node s.1) in
  let! active := comm_split (rep_mpi_comm_world n) (active_split n).1 (active_split n).2 in
  of_globals (upd_node (set_active_comm active)) ;;;
  let! n := gets (λ s, node s.1) in
  let! world := comm_split (rep_mpi_comm_world n)
                  (world_job_split n).1 (world_job_split n).2 in
  of_globals (upd_node (set_world_job_comm world)).

(** [calloc(comm_size, sizeof(int))] zeroes the array. *)
Definition init_node (file : option (list ascii)) : M (globals * W) unit :=
  let! comm := gets (λ s, rep_mpi_comm_world (node s.1)) in
  let! my_rank := gets (λ s, PMPI_Comm_rank comm s.2) in
  let! comm_size := gets (λ s, PMPI_Comm_size comm s.2) in
  of_globals (upd_node (set_rank my_rank)) ;;;
  of_globals (upd_node (set_static_rank my_rank)) ;;;
  of_globals (modify (set_rank_ignore_list
                (Some (replicate (Z.to_nat comm_size) (Some 0))))) ;;;
  of_globals (upd_node (set_job_id (-1))) ;;;
  of_globals (parse_map_file file) ;;;
  update_comms ;;;
  of_globals (upd_node (set_node_transit_state NODE_DATA_NONE)).

(** The colour and key of the migration split; a process that neither
    sends nor receives passes [MPI_UNDEFINED] and an indeterminate key,
    which MPI ignores (any value, here 0). *)
Definition migration_split (n : Node) : Z * Z :=
  match node_transit_state n with
  | NODE_DATA_NONE => (MPI_UNDEFINED, 0)
  | NODE_DATA_SENDER => (job_id n, 0)
  | NODE_DATA_RECEIVER => (job_id n, 1)
  end.
Definition migration_flag (n : Node) : Z :=
  if decide (node_transit_state n = NODE_DATA_NONE) then 0 else 1.
Definition master_flag (n : Node) : Z :=
  if decide (node_checkpoint_master n = NO) then 0 else 1.

Definition create_migration_comm : M (globals * W) Z :=
  let! restore := gets (λ s, ckpt_restore s.1) in
  if decide (restore = RESTORE_YES) then
    of_globals (modify (set_rep_flag 0)) ;;; ret 1
  else
    let! n := gets (λ s, node s.1) in
    of_globals (modify (set_rep_flag (migration_flag n))) ;;;
    let! c := comm_split (rep_mpi_comm_world n)
                (migration_split n).1 (migration_split n).2 in
    of_globals (modify (set_job_comm c)) ;;;
    ret (if (migration_flag n =? 0) && (master_flag n =? 0) then 0 else 1).
End mpi.

(** ** The abstract map update

    What one well-formed map does to a node and to the tables, without the
    text and the arrays. *)
Definition job_of (k : Z) (j : GoJob) : Job :=
  MkJob k (Z.of_nat (length (RankList j))) (Some <$> RankList j).

Definition jobs_of (jm : list GoJob) : list (option Job) :=
  imap (λ k j, Some (job_of (Z.of_nat k) j)) jm.

(** The worker at place [j] of job [k] is met. *)
Definition visit (my_rank jobs u k w_c j r : Z) (n : Node) : Node :=
  let n := if (j =? 0) && (r =? my_rank) then set_node_checkpoint_master YES n else n in
  if (r =? my_rank) && (u =? 1) then assign_node j k w_c jobs n else n.

Fixpoint visits (my_rank jobs u k w_c j : Z) (rs : list Z) (n : Node) : Node :=
  match rs with
  | [] => n
  | r :: rs' => visits my_rank jobs u k w_c (j + 1) rs' (visit my_rank jobs u k w_c j r n)
  end.

Fixpoint visit_jobs (my_rank jobs k : Z) (jm : list GoJob) (n : Node) : Node :=
  match jm with
  | [] => n
  | j :: jm' =>
      visit_jobs my_rank jobs (k + 1) jm'
        (visits my_rank jobs (Modified j) k (Z.of_nat (length (RankList j))) 0 (RankList j) n)
  end.

Definition r2j_job (k : Z) (rs : list Z) (a : list cell) : list cell :=
  foldl (λ a r, <[Z.to_nat r := Some k]> a) a rs.

Fixpoint r2j_jobs (k : Z) (jm : list GoJob) (a : list cell) : list cell :=
  match jm with
  | [] => a
  | j :: jm' => r2j_jobs (k + 1) jm' (r2j_job k (RankList j) a)
  end.

(** The map the manager may write: [jobs] fit an [int], a job has a worker,
    every number fits an [int] and every rank is one of [cores] ranks. *)
Record wf_job (cores : Z) (j : GoJob) : Prop := {
  wf_modified : is_int (Modified j);
  wf_nonempty : RankList j ≠ [];
  wf_length : is_int (Z.of_nat (length (RankList j)));
  wf_ranks : Forall (λ r, 0 ≤ r < cores ∧ is_int r) (RankList j)
}.

Record wf_map (cores : Z) (jm : list GoJob) : Prop := {
  wf_jobs : Forall (wf_job cores) jm;
  wf_count : is_int (Z.of_nat (length jm));
  wf_total : is_int (CountTotalRanks jm)
}.

(** ** Reading the workers of a job *)
Lemma jobs_lookup jl k : (0 ≤ k < Z.of_nat (length jl)) →
  ∀ v : Job, astore jl k v = Some (<[Z.to_nat k := Some v]> jl).
Proof. intros ? v. by apply astore_Some. Qed.

Lemma length_r2j_job k rs a : length (r2j_job k rs a) = length a.
Proof. unfold r2j_job. revert a. induction rs as [|r rs IH]; intros a; simpl; [done|]. rewrite IH. len. Qed.

Section parse.
Context (my_rank jobs : Z).

(** The state after the workers [ps ++ rs] of job [k] were read. *)
Definition after_workers (u k : Z) (jl : list (option Job)) (a : list cell)
    (ps rs : list Z) (w_c : Z) (g : globals) : globals :=
  set_job_list (Some (<[Z.to_nat k := Some (MkJob k w_c (Some <$> (ps ++ rs)))]> jl))
    (set_rank_2_job (Some (r2j_job k rs a))
      (set_node (visits my_rank jobs u k w_c (Z.of_nat (length ps)) rs (node g)) g)).

Lemma parse_worker_spec u k w_c jl a ps r (rs : list Z) st w g :
  0 ≤ k → is_int r → 0 ≤ r < Z.of_nat (length a) → starts_digit st = false →
  job_list g = Some jl → rank_2_job g = Some a →
  jl !! Z.to_nat k =
    Some (Some (MkJob k w_c ((Some <$> ps) ++ replicate (S (length rs)) None))) →
  parse_worker my_rank jobs (Some u) k w_c (TAB :: itoa r ++ st, w) (Z.of_nat (length ps)) g =
  Done (st, Some r)
    (set_job_list (Some (<[Z.to_nat k :=
        Some (MkJob k w_c ((Some <$> (ps ++ [r])) ++ replicate (length rs) None))]> jl))
      (set_rank_2_job (Some (<[Z.to_nat r := Some k]> a))
        (set_node (visit my_rank jobs u k w_c (Z.of_nat (length ps)) r (node g)) g))).
Proof.
  intros Hk Hr Hra Hst Hjl Ha Hjob.
  pose proof (lookup_lt_Some _ _ _ Hjob) as Hlen.
  unfold parse_worker, store_rank_2_job, store_rank_list, load_job, store_job, upd_node, visit.
  simpl fst. rewrite fscanf_rank by done. simpl.
  rewrite Ha. simpl. rewrite (astore_Some a) by done. simpl.
  destruct ((Z.of_nat (length ps) =? 0) && (r =? my_rank)) eqn:E0;
    destruct (r =? my_rank) eqn:E1; simpl;
    try (destruct (u =? 1) eqn:E2; simpl);
    rewrite Hjl; simpl; rewrite (aload_Some jl k _ Hk Hjob); simpl;
    rewrite (astore_Some (_ ++ _)) by len; simpl;
    rewrite Hjl; simpl; rewrite (astore_Some jl) by lia; simpl.
  all: rewrite Nat2Z.id, fmap_app, <-app_assoc;
    rewrite insert_app_r_alt by len; len; rewrite Nat.sub_diag; done.
Qed.

Lemma parse_workers_spec u k w_c rs ps jl a st w g :
  0 ≤ k → Forall (λ r, 0 ≤ r < Z.of_nat (length a) ∧ is_int r) rs →
  starts_digit st = false →
  job_list g = Some jl → rank_2_job g = Some a →
  jl !! Z.to_nat k =
    Some (Some (MkJob k w_c ((Some <$> ps) ++ replicate (length rs) None))) →
  ∃ w', foldM (parse_worker my_rank jobs (Some u) k w_c) (write_ranks rs ++ st, w)
          (seqZ (Z.of_nat (length ps)) (Z.of_nat (length rs))) g =
        Done (st, w') (after_workers u k jl a ps rs w_c g).
Proof.
  intros Hk Hrs Hst. revert ps jl a w g Hrs.
  induction rs as [|r rs IH]; intros ps jl a w g Hrs Hjl Ha Hjob.
  - exists w. rewrite seqZ_nil by done. simpl. rewrite !app_nil_r in *.
    unfold after_workers. simpl. rewrite app_nil_r, list_insert_id by done.
    destruct g; simpl in *; by subst.
  - apply Forall_cons in Hrs as [[Hr Hi] Hrs].
    rewrite seqZ_cons by (simpl; lia).
    unfold write_ranks. rewrite fmap_cons. cbn [concat]. rewrite <-app_assoc.
    change ((TAB :: itoa r) ++ ?x) with (TAB :: (itoa r ++ x)).
    fold (write_ranks rs). cbn [foldM]. erewrite bind_Done; [|
      eapply (parse_worker_spec _ _ _ jl a ps r rs); eauto using write_ranks_no_digit].
    assert (Z.pred (Z.of_nat (length (r :: rs))) = Z.of_nat (length rs)) as -> by len.
    replace (Z.succ (Z.of_nat (length ps))) with (Z.of_nat (length (ps ++ [r]))) by len.
    assert (Forall (λ r', 0 ≤ r' < Z.of_nat (length (<[Z.to_nat r := Some k]> a)) ∧ is_int r') rs)
      as Hrs' by (by rewrite length_insert).
    match goal with |- ∃ w', foldM _ _ _ ?g' = _ =>
      destruct (IH (ps ++ [r]) _ _ (Some r) g' Hrs' eq_refl eq_refl) as [w' ->] end.
    { apply list_lookup_insert_eq. by eapply lookup_lt_Some. }
    exists w'. f_equal. unfold after_workers. simpl.
    rewrite list_insert_insert_eq, <-app_assoc. simpl.
    replace (Z.of_nat (length (ps ++ [r]))) with (Z.of_nat (length ps) + 1) by len.
    done.
Qed.

(** The format of a job already skips the white space before its ranks. *)
Lemma parse_workers_skip u k w_c l w n g :
  0 < n →
  foldM (parse_worker my_rank jobs u k w_c) (skip_ws l, w) (seqZ 0 n) g =
  foldM (parse_worker my_rank jobs u k w_c) (l, w) (seqZ 0 n) g.
Proof.
  intros Hn. rewrite seqZ_cons by done. cbn [foldM].
  assert (parse_worker my_rank jobs u k w_c (skip_ws l, w) 0 =
          parse_worker my_rank jobs u k w_c (l, w) 0) as ->; [|done].
  unfold parse_worker. simpl fst. by rewrite fscanf_rank_skip.
Qed.

(** The state after the jobs [jm], the first of which is job [k]. *)
Definition after_jobs (k : Z) (pre : list (option Job)) (a : list cell)
    (jm : list GoJob) (g : globals) : globals :=
  set_job_list (Some (pre ++ imap (λ i j, Some (job_of (k + Z.of_nat i) j)) jm))
    (set_rank_2_job (Some (r2j_jobs k jm a))
      (set_node (visit_jobs my_rank jobs k jm (node g)) g)).

Lemma parse_job_spec k j pre q a st g :
  wf_job (Z.of_nat (length a)) j → is_int k → k < jobs → starts_digit st = false →
  Z.of_nat (length pre) = k →
  job_list g = Some (pre ++ replicate (S q) None) → rank_2_job g = Some a →
  parse_job my_rank jobs
    (NL :: itoa (Modified j) ++ TAB :: itoa k ++ TAB ::
     itoa (Z.of_nat (length (RankList j))) ++ write_ranks (RankList j) ++ st) k g =
  Done st
    (set_job_list (Some ((pre ++ [Some (job_of k j)]) ++ replicate q None))
      (set_rank_2_job (Some (r2j_job k (RankList j) a))
        (set_node (visits my_rank jobs (Modified j) k (Z.of_nat (length (RankList j))) 0
                     (RankList j) (node g)) g))).
Proof.
  intros [Hm Hne Hl Hr] Hk Hkj Hst Hpre Hjl Ha.
  assert (0 < Z.of_nat (length (RankList j))) as Hpos.
  { destruct (RankList j); [done|]. simpl. lia. }
  unfold parse_job. rewrite fscanf_job by eauto using write_ranks_no_digit.
  simpl. rewrite (proj2 (Z.ltb_lt _ _) Hkj), (proj2 (Z.ltb_lt _ _) Hpos).
  unfold store_job. simpl. rewrite Hjl. simpl. rewrite astore_Some by len. simpl.
  rewrite <-Hpre, !Nat2Z.id, insert_app_r_alt, Nat.sub_diag by done. simpl.
  rewrite parse_workers_skip by done.
  destruct (parse_workers_spec (Modified j) (Z.of_nat (length pre))
    (Z.of_nat (length (RankList j))) (RankList j) []
    (pre ++ Some (MkJob (Z.of_nat (length pre)) (Z.of_nat (length (RankList j)))
       (replicate (length (RankList j)) None)) :: replicate q None) a st None
    (set_job_list (Some (pre ++ Some (MkJob (Z.of_nat (length pre))
       (Z.of_nat (length (RankList j))) (replicate (length (RankList j)) None))
       :: replicate q None)) g)) as [w' Hw]; [lia|done|done|done|done| |].
  { rewrite Nat2Z.id. by rewrite list_lookup_middle. }
  change (Z.of_nat (length [])) with 0 in Hw.
  rewrite Hw. simpl. unfold after_workers. simpl.
  by rewrite Nat2Z.id, insert_app_r_alt, Nat.sub_diag, <-app_assoc by done.
Qed.

Lemma parse_jobs_spec jm k pre a st g :
  Forall (wf_job (Z.of_nat (length a))) jm → starts_digit st = false →
  Z.of_nat (length pre) = k → is_int (k + Z.of_nat (length jm)) →
  k + Z.of_nat (length jm) ≤ jobs →
  job_list g = Some (pre ++ replicate (length jm) None) → rank_2_job g = Some a →
  foldM (parse_job my_rank jobs) (NL :: write_jobs k jm ++ st)
    (seqZ k (Z.of_nat (length jm))) g =
  Done (NL :: st) (after_jobs k pre a jm g).
Proof.
  revert k pre a g. induction jm as [|j jm IH]; intros k pre a g Hwf Hst Hpre Hi Hle Hjl Ha.
  - rewrite seqZ_nil by done. simpl. unfold after_jobs. simpl.
    rewrite app_nil_r in *. destruct g; simpl in *; by subst.
  - apply Forall_cons in Hwf as [Hj Hwf]. simpl length in *.
    unfold is_int, INT_MIN, INT_MAX in Hi.
    rewrite seqZ_cons by lia. cbn [foldM write_jobs].
    unfold write_job. rewrite <-!app_assoc. cbn [app]. rewrite <-!app_assoc. cbn [app].
    rewrite <-!app_assoc.
    erewrite bind_Done; [|apply (parse_job_spec k j pre (length jm) a); try done].
    + replace (Z.pred (Z.of_nat (S (length jm)))) with (Z.of_nat (length jm)) by lia.
      replace (Z.succ k) with (k + 1) by lia.
      simpl app.
      rewrite (IH (k + 1) (pre ++ [Some (job_of k j)]) (r2j_job k (RankList j) a)); try done.
      * unfold after_jobs. simpl. f_equal.
        rewrite <-app_assoc. simpl. rewrite Z.add_0_r.
        rewrite (imap_ext (λ i j, Some (job_of (k + 1 + Z.of_nat i) j))
          ((λ i j, Some (job_of (k + Z.of_nat i) j)) ∘ S)); [done|].
        intros i x _. unfold compose. do 2 f_equal. lia.
      * by rewrite length_r2j_job.
      * len.
      * unfold is_int, INT_MIN, INT_MAX. lia.
      * lia.
    + unfold is_int, INT_MIN, INT_MAX. lia.
    + lia.
Qed.
End parse.

(** ** Reading a whole map *)

(** The old jobs [parse_map_file] frees exist. *)
Definition jobs_readable (g : globals) : Prop :=
  ∀ i, 0 ≤ i < jobs_count (node g) →
    ∃ a job, job_list g = Some a ∧ aload a i = Some job.

(** The array [rank_2_job] points to when the jobs are read. *)
Definition r2j_array (cores : Z) (g : globals) : list cell :=
  match rank_2_job g with
  | Some a => a
  | None => replicate (Z.to_nat cores) None
  end.

(** A map the process can read: it is well formed for the array of ranks
    the process has. *)
Definition map_for (jm : list GoJob) (g : globals) : Prop :=
  wf_map (Z.of_nat (length (r2j_array (CountTotalRanks jm) g))) jm.

Definition reset_node (n : Node) : Node :=
  set_node_transit_state NODE_DATA_NONE (set_node_checkpoint_master NO n).

(** The state [parse_map_file] leaves: the specification of the parser. *)
Definition parsed (jm : list GoJob) (g : globals) : globals :=
  set_job_list (Some (jobs_of jm))
    (set_rank_2_job (Some (r2j_jobs 0 jm (r2j_array (CountTotalRanks jm) g)))
      (set_node (visit_jobs (rank (node g)) (Z.of_nat (length jm)) 0 jm
                   (reset_node (node g))) g)).

Lemma free_rank_lists_spec g : jobs_readable g → free_rank_lists g = Done tt g.
Proof.
  intros Hr.
  assert (wp free_rank_lists (λ _ s, s = g) (λ _ _, False) g) as Hwp.
  { unfold free_rank_lists. apply wp_bind. simpl.
    apply (wp_foldM (λ _ _ s, s = g)); [|done].
    intros p i q [] s Hpq ->.
    assert (0 ≤ i < jobs_count (node g)) as Hi.
    { assert (seqZ 0 (jobs_count (node g)) !! length p = Some i) as Hl.
      { rewrite Hpq. by apply list_lookup_middle. }
      apply lookup_seqZ in Hl. lia. }
    destruct (Hr i Hi) as (a & job & Ha & Hj).
    unfold wp, load_job. simpl. rewrite Ha. simpl. by rewrite Hj. }
  unfold wp in Hwp. destruct (free_rank_lists g) as [[]|]; [by subst|done].
Qed.

Lemma map_legend_no_digit : starts_digit (NL :: map_legend) = false.
Proof. done. Qed.

Lemma write_jobs_no_digit k jm l : starts_digit (NL :: write_jobs k jm ++ l) = false.
Proof. done. Qed.

Lemma CountTotalRanks_nonneg jm : 0 ≤ CountTotalRanks jm.
Proof. unfold CountTotalRanks. lia. Qed.

Lemma alloc_rank_2_job_spec jm g :
  alloc_rank_2_job (Some (CountTotalRanks jm)) g =
  Done tt (set_rank_2_job (Some (r2j_array (CountTotalRanks jm) g)) g).
Proof.
  unfold alloc_rank_2_job, r2j_array, amalloc. simpl.
  destruct (rank_2_job g) eqn:E.
  - simpl. destruct g; simpl in *. by subst.
  - simpl. by rewrite (proj2 (Z.ltb_ge _ _)) by apply CountTotalRanks_nonneg.
Qed.

Lemma parse_map_file_parsed jm g :
  ckpt_restore g = RESTORE_NO → jobs_readable g → map_for jm g →
  parse_map_file (Some (WriteToFile jm)) g = Done tt (parsed jm g).
Proof.
  intros Hc Hr [Hj Hn Ht].
  unfold parse_map_file. cbn [bind gets]. rewrite Hc.
  rewrite decide_False by done. unfold WriteToFile.
  rewrite fscanf_header by (done || apply write_jobs_no_digit).
  cbn [bind of_option upd_node modify].
  set (g1 := set_node _ _). assert (jobs_readable g1) as Hr1 by exact Hr.
  rewrite (free_rank_lists_spec g1 Hr1). cbn [bind gets fst snd lookup list_lookup].
  rewrite (alloc_rank_2_job_spec _ g1).
  cbn [bind gets of_option modify lookup list_lookup].
  unfold amalloc. rewrite (proj2 (Z.ltb_ge _ _)) by lia. rewrite Nat2Z.id.
  erewrite (parse_jobs_spec _ _ jm 0 []); [| |apply map_legend_no_digit|..];
    try done; simpl; lia.
Qed.

(** ** What a map update does to one node *)
Definition all_ranks (jm : list GoJob) : list Z := concat (RankList <$> jm).

Lemma visit_other my N u k w j r n : r ≠ my → visit my N u k w j r n = n.
Proof.
  intros Hr. unfold visit. rewrite (proj2 (Z.eqb_neq _ _) Hr). by rewrite andb_false_r.
Qed.

Lemma visits_absent my N u k w j rs n : my ∉ rs → visits my N u k w j rs n = n.
Proof.
  revert j n. induction rs as [|r rs IH]; intros j n Hn; [done|].
  simpl. rewrite visit_other by set_solver. apply IH. set_solver.
Qed.

Lemma visits_app my N u k w j rs1 rs2 n :
  visits my N u k w j (rs1 ++ rs2) n =
  visits my N u k w (j + Z.of_nat (length rs1)) rs2 (visits my N u k w j rs1 n).
Proof.
  revert j n. induction rs1 as [|r rs1 IH]; intros j n; simpl.
  - by rewrite Z.add_0_r.
  - rewrite IH. f_equal. lia.
Qed.

Lemma visits_here my N u k w rs i n :
  NoDup rs → rs !! i = Some my →
  visits my N u k w 0 rs n = visit my N u k w (Z.of_nat i) my n.
Proof.
  intros Hnd Hi. pose proof (take_drop_middle rs i my Hi) as Hrs.
  rewrite <-Hrs in Hnd. apply NoDup_app in Hnd as (_ & Hpre & Hnd).
  apply NoDup_cons in Hnd as [Hpost _].
  rewrite <-Hrs, visits_app. simpl.
  rewrite (visits_absent _ _ _ _ _ _ (drop (S i) rs)) by done.
  rewrite visits_absent by (intros Hm; apply (Hpre my); set_solver).
  f_equal. apply lookup_lt_Some in Hi. rewrite length_take. lia.
Qed.

Lemma visit_jobs_absent my N k jm n : my ∉ all_ranks jm → visit_jobs my N k jm n = n.
Proof.
  unfold all_ranks. revert k n. induction jm as [|j jm IH]; intros k n Hn; [done|].
  simpl in *. rewrite visits_absent by set_solver. apply IH. set_solver.
Qed.

Lemma visit_jobs_app my N k jm1 jm2 n :
  visit_jobs my N k (jm1 ++ jm2) n =
  visit_jobs my N (k + Z.of_nat (length jm1)) jm2 (visit_jobs my N k jm1 n).
Proof.
  revert k n. induction jm1 as [|j jm1 IH]; intros k n; simpl.
  - by rewrite Z.add_0_r.
  - rewrite IH. f_equal. lia.
Qed.

(** A process is visited once, at its place in its job. *)
Lemma visit_jobs_here my N jm k j i n :
  NoDup (all_ranks jm) → jm !! k = Some j → RankList j !! i = Some my →
  visit_jobs my N 0 jm n =
  visit my N (Modified j) (Z.of_nat k) (Z.of_nat (length (RankList j))) (Z.of_nat i) my n.
Proof.
  intros Hnd Hk Hi. pose proof (take_drop_middle jm k j Hk) as Hjm.
  unfold all_ranks in Hnd. rewrite <-Hjm, fmap_app, fmap_cons, concat_app in Hnd.
  simpl in Hnd. apply NoDup_app in Hnd as (_ & Hpre & Hnd).
  apply NoDup_app in Hnd as (Hndj & Hpost & _).
  assert (my ∈ RankList j) as Hmy by by eapply list_elem_of_lookup_2.
  rewrite <-Hjm, visit_jobs_app. simpl.
  rewrite (visit_jobs_absent _ _ _ (drop (S k) jm)) by (by apply Hpost).
  rewrite visit_jobs_absent by (intros Hm; apply (Hpre my Hm); set_solver).
  rewrite (visits_here _ _ _ _ _ _ i) by done.
  f_equal. apply lookup_lt_Some in Hk. rewrite length_take. lia.
Qed.

(** ** The table of jobs by rank *)
Lemma r2j_job_notin k rs a r :
  0 ≤ r → r ∉ rs → Forall (λ r, 0 ≤ r) rs →
  r2j_job k rs a !! Z.to_nat r = a !! Z.to_nat r.
Proof.
  unfold r2j_job. revert a. induction rs as [|x rs IH]; intros a Hr Hn Hrs; [done|].
  apply Forall_cons in Hrs as [Hx Hrs]. simpl.
  rewrite IH by set_solver. apply list_lookup_insert_ne.
  intros ?. apply Hn. assert (r = x) as -> by lia. set_solver.
Qed.

Lemma r2j_job_in k rs a r :
  r ∈ rs → Forall (λ r, 0 ≤ r < Z.of_nat (length a)) rs →
  r2j_job k rs a !! Z.to_nat r = Some (Some k).
Proof.
  intros Hin. apply list_elem_of_split in Hin as (l1 & l2 & ->).
  revert a. induction l2 as [|x l2 IH] using rev_ind; intros a Hrs.
  - rewrite Forall_app, Forall_singleton in Hrs. destruct Hrs as [_ Hr].
    unfold r2j_job. rewrite foldl_app. simpl.
    apply list_lookup_insert_eq. fold (r2j_job k l1 a). rewrite length_r2j_job. lia.
  - rewrite app_comm_cons, app_assoc in *. unfold r2j_job. rewrite foldl_app. simpl.
    fold (r2j_job k (l1 ++ r :: l2) a).
    rewrite Forall_app, Forall_singleton in Hrs. destruct Hrs as [Hrs Hx].
    destruct (decide (Z.to_nat x = Z.to_nat r)) as [->|Hne].
    + apply list_lookup_insert_eq. rewrite length_r2j_job.
      rewrite Forall_app, Forall_cons in Hrs. lia.
    + rewrite list_lookup_insert_ne by done. by apply IH.
Qed.

Lemma length_r2j_jobs k jm a : length (r2j_jobs k jm a) = length a.
Proof.
  revert k a. induction jm as [|j jm IH]; intros k a; simpl; [done|].
  by rewrite IH, length_r2j_job.
Qed.

Lemma r2j_jobs_in k jm a m j r :
  NoDup (all_ranks jm) → Forall (λ r, 0 ≤ r < Z.of_nat (length a)) (all_ranks jm) →
  jm !! m = Some j → r ∈ RankList j →
  r2j_jobs k jm a !! Z.to_nat r = Some (Some (k + Z.of_nat m)).
Proof.
  unfold all_ranks. revert k a m.
  assert (∀ jm k a, 0 ≤ r → r ∉ concat (RankList <$> jm) →
    Forall (λ r, 0 ≤ r) (concat (RankList <$> jm)) →
    r2j_jobs k jm a !! Z.to_nat r = a !! Z.to_nat r) as Hother.
  { clear. induction jm as [|j jm IH]; intros k a Hr Hn Hall; [done|].
    simpl in *. rewrite Forall_app in Hall.
    rewrite IH by set_solver. apply r2j_job_notin; set_solver. }
  induction jm as [|j0 jm IH]; intros k a m Hnd Hall Hm Hr; [done|].
  simpl in *. apply NoDup_app in Hnd as (_ & Hd & Hnd).
  apply Forall_app in Hall as [Hj0 Hall].
  destruct m as [|m]; simpl in Hm.
  - simplify_eq. rewrite Forall_forall in Hj0. rewrite Hother.
    + rewrite Z.add_0_r. apply r2j_job_in; [done|]. by rewrite Forall_forall.
    + apply Hj0 in Hr. lia.
    + by apply Hd.
    + eapply Forall_impl; [exact Hall|]. intros ? H. simpl in H. lia.
  - rewrite IH with (m := m); try done.
    + f_equal. f_equal. lia.
    + by rewrite length_r2j_job.
Qed.

(** ** The role a map gives to a process *)
Definition transit_after (u : Z) (k : nat) (i : nat) (w_c : nat) (n : Node) : NodeTransitState :=
  if negb (u =? 1) then NODE_DATA_NONE
  else if negb (job_id n =? Z.of_nat k) then NODE_DATA_RECEIVER
  else if (i =? 0)%nat && (1 <? Z.of_nat w_c) then NODE_DATA_SENDER else NODE_DATA_NONE.

(** Where a rank is in a map: job [k], place [i]. *)
Definition placed (jm : list GoJob) (r : Z) (k i : nat) (j : GoJob) : Prop :=
  jm !! k = Some j ∧ RankList j !! i = Some r.

Lemma concat_NoDup_lookup {A} (ls : list (list A)) k k' l l' x :
  NoDup (concat ls) → ls !! k = Some l → ls !! k' = Some l' → x ∈ l → x ∈ l' → k = k'.
Proof.
  revert k k'. induction ls as [|l0 ls IH]; intros k k' Hnd Hk Hk' Hx Hx'; [done|].
  simpl in Hnd. apply NoDup_app in Hnd as (_ & Hd & Hnd).
  assert (∀ n l1, ls !! n = Some l1 → x ∈ l1 → x ∈ concat ls) as Hc.
  { intros n l1 Hn Hx1. apply list_elem_of_In, in_concat. exists l1.
    split; apply list_elem_of_In; [by eapply list_elem_of_lookup_2|done]. }
  destruct k as [|k], k' as [|k']; simpl in *; simplify_eq; try done.
  - by destruct (Hd x Hx); eapply Hc.
  - by destruct (Hd x Hx'); eapply Hc.
  - f_equal. by apply IH.
Qed.

Lemma all_ranks_placed jm r : r ∈ all_ranks jm ↔ ∃ k i j, placed jm r k i j.
Proof.
  unfold all_ranks. rewrite list_elem_of_In, in_concat. split.
  - intros (rs & Hrs & Hr). apply list_elem_of_In, list_elem_of_fmap in Hrs as (j & -> & [k Hk]%list_elem_of_lookup).
    apply list_elem_of_In, list_elem_of_lookup in Hr as [i Hi]. by exists k, i, j.
  - intros (k & i & j & Hk & Hi). exists (RankList j). split; apply list_elem_of_In.
    + apply list_elem_of_fmap. exists j. split; [done|]. by eapply list_elem_of_lookup_2.
    + by eapply list_elem_of_lookup_2.
Qed.

(** A rank has one place in a map without repetitions. *)
Lemma placed_unique jm r k p j k' p' j' :
  NoDup (all_ranks jm) → placed jm r k p j → placed jm r k' p' j' →
  k = k' ∧ p = p' ∧ j = j'.
Proof.
  intros Hnd [Hk Hp] [Hk' Hp'].
  assert (k = k') as <-.
  { eapply (concat_NoDup_lookup (RankList <$> jm) k k'); [done| | | |].
    - by rewrite list_lookup_fmap, Hk.
    - by rewrite list_lookup_fmap, Hk'.
    - by eapply list_elem_of_lookup_2.
    - by eapply list_elem_of_lookup_2. }
  simplify_eq. split; [done|]. split; [|done].
  assert (NoDup (RankList j)) as Hj.
  { unfold all_ranks in Hnd. rewrite <-(take_drop_middle jm k j Hk), fmap_app,
      fmap_cons, concat_app in Hnd. simpl in Hnd.
    apply NoDup_app in Hnd as (_ & _ & Hnd). by apply NoDup_app in Hnd as (? & _). }
  by eapply NoDup_lookup.
Qed.

Lemma parsed_node_here jm g k i j :
  NoDup (all_ranks jm) → placed jm (rank (node g)) k i j →
  node (parsed jm g) =
  visit (rank (node g)) (Z.of_nat (length jm)) (Modified j) (Z.of_nat k)
    (Z.of_nat (length (RankList j))) (Z.of_nat i) (rank (node g)) (reset_node (node g)).
Proof. intros Hnd [Hk Hi]. simpl. by apply visit_jobs_here. Qed.

Lemma parsed_master jm g k i j :
  NoDup (all_ranks jm) → placed jm (rank (node g)) k i j →
  node_checkpoint_master (node (parsed jm g)) = if (i =? 0)%nat then YES else NO.
Proof.
  intros Hnd Hp. rewrite (parsed_node_here _ _ _ _ _ Hnd Hp).
  unfold visit, assign_node. rewrite Z.eqb_refl.
  destruct i; simpl; destruct (Modified j =? 1); simpl;
    try destruct (negb _); done.
Qed.

Lemma parsed_transit jm g k i j :
  NoDup (all_ranks jm) → placed jm (rank (node g)) k i j →
  node_transit_state (node (parsed jm g)) =
  transit_after (Modified j) k i (length (RankList j)) (node g).
Proof.
  intros Hnd Hp. rewrite (parsed_node_here _ _ _ _ _ Hnd Hp).
  unfold visit, assign_node, transit_after. rewrite Z.eqb_refl.
  destruct i; simpl; destruct (Modified j =? 1); simpl; try done;
    destruct (negb _); done.
Qed.

Lemma parsed_job_id jm g k i j :
  NoDup (all_ranks jm) → placed jm (rank (node g)) k i j →
  job_id (node (parsed jm g)) =
  if Modified j =? 1 then Z.of_nat k else job_id (node g).
Proof.
  intros Hnd Hp. rewrite (parsed_node_here _ _ _ _ _ Hnd Hp).
  unfold visit, assign_node. rewrite Z.eqb_refl.
  destruct i; simpl; destruct (Modified j =? 1); simpl; try done;
    destruct (job_id (node g) =? Z.of_nat k) eqn:E; simpl; lia.
Qed.

Lemma parsed_jobs_count jm g k i j :
  NoDup (all_ranks jm) → placed jm (rank (node g)) k i j →
  jobs_count (node (parsed jm g)) =
  if Modified j =? 1 then Z.of_nat (length jm) else jobs_count (node g).
Proof.
  intros Hnd Hp. rewrite (parsed_node_here _ _ _ _ _ Hnd Hp).
  unfold visit, assign_node. rewrite Z.eqb_refl.
  destruct i; simpl; destruct (Modified j =? 1); simpl; try done;
    destruct (negb _); done.
Qed.

Lemma parsed_jobs_count_elsewhere jm g :
  rank (node g) ∉ all_ranks jm → jobs_count (node (parsed jm g)) = jobs_count (node g).
Proof. intros Hr. simpl. by rewrite visit_jobs_absent. Qed.

(** [rank_2_job] sends every rank of the map to its job. *)
Lemma parsed_rank_2_job jm g :
  map_for jm g → NoDup (all_ranks jm) →
  ∃ a, rank_2_job (parsed jm g) = Some a ∧
    ∀ r k i j, placed jm r k i j → aload a r = Some (Z.of_nat k).
Proof.
  intros [Hjobs _ _] Hnd. eexists. split; [done|]. intros r k i j [Hk Hi].
  assert (Forall (λ r, 0 ≤ r < Z.of_nat (length (r2j_array (CountTotalRanks jm) g)))
            (all_ranks jm)) as Hall.
  { unfold all_ranks. rewrite Forall_concat, Forall_fmap.
    eapply Forall_impl; [exact Hjobs|]. intros x [_ _ _ Hx].
    eapply Forall_impl; [exact Hx|]. by intros ? []. }
  assert (r ∈ RankList j) as Hin by by eapply list_elem_of_lookup_2.
  apply aload_Some; [|by apply (r2j_jobs_in 0 jm _ k j)].
  rewrite Forall_forall in Hall. apply Hall, all_ranks_placed. by exists k, i, j.
Qed.

(** A process that comes to a job counts its maps from one, a process that
    stays counts on. *)
Lemma parsed_age jm g k i j :
  NoDup (all_ranks jm) → placed jm (rank (node g)) k i j →
  age (node (parsed jm g)) =
  if Modified j =? 1 then (if job_id (node g) =? Z.of_nat k then age (node g) + 1 else 1)
  else age (node g).
Proof.
  intros Hnd Hp. rewrite (parsed_node_here _ _ _ _ _ Hnd Hp).
  unfold visit, assign_node. rewrite Z.eqb_refl.
  destruct i; simpl; destruct (Modified j =? 1); simpl; try done;
    destruct (job_id (node g) =? Z.of_nat k); done.
Qed.

(** Parsing changes neither the rank nor the communicators of a node. *)
Definition same_place (n n' : Node) : Prop :=
  rank n = rank n' ∧ static_rank n = static_rank n' ∧
  rep_mpi_comm_world n = rep_mpi_comm_world n'.

#[global] Instance same_place_equiv : Equivalence same_place.
Proof.
  unfold same_place. split; [by intros n|by intros n n' (-> & -> & ->)|].
  by intros n1 n2 n3 (-> & -> & ->) (-> & -> & ->).
Qed.

Lemma visit_same_place my N u k w j r n : same_place (visit my N u k w j r n) n.
Proof. unfold visit, assign_node. by repeat case_match. Qed.

Lemma visits_same_place my N u k w j rs n : same_place (visits my N u k w j rs n) n.
Proof.
  revert j n. induction rs as [|r rs IH]; intros j n; [done|]. simpl.
  etransitivity; [apply IH|apply visit_same_place].
Qed.

Lemma visit_jobs_same_place my N k jm n : same_place (visit_jobs my N k jm n) n.
Proof.
  revert k n. induction jm as [|j jm IH]; intros k n; [done|]. simpl.
  etransitivity; [apply IH|apply visits_same_place].
Qed.

Lemma parsed_same_place jm g : same_place (node (parsed jm g)) (node g).
Proof. simpl. etransitivity; [apply visit_jobs_same_place|done]. Qed.

(** ** A concrete map: [manager -j 2 -r 3] *)
Definition map_ex : list GoJob := [MkGoJob 1 [0; 2]; MkGoJob 1 [1]].

Lemma globals0_readable : jobs_readable globals0.
Proof. intros i. simpl. lia. Qed.

Lemma map_ex_for : map_for map_ex globals0.
Proof. split; repeat constructor; by vm_compute. Qed.

Lemma map_ex_NoDup : NoDup (all_ranks map_ex).
Proof. by apply (bool_decide_unpack _). Qed.

(** ** Properties of [parse_map_file] *)

(** C7: reading what the process manager wrote gives back its jobs: the
    [job_list] is exactly the list of jobs printed, with every worker in its
    place, and [rank_2_job] maps every rank of the map to its job.  A process
    that is a worker of a job marked as updated also counts the jobs; for a
    worker of another job, and for a process the map does not list, the count
    stays (comm.c:130 is inside the test of the mark). *)
Theorem parse_map_file_roundtrip jm g :
  ckpt_restore g = RESTORE_NO → jobs_readable g → map_for jm g → NoDup (all_ranks jm) →
  ∃ g', parse_map_file (Some (WriteToFile jm)) g = Done tt g' ∧
    job_list g' = Some (jobs_of jm) ∧
    (∃ a, rank_2_job g' = Some a ∧
      ∀ r k i j, placed jm r k i j → aload a r = Some (Z.of_nat k)) ∧
    (∀ k i j, placed jm (rank (node g)) k i j →
      jobs_count (node g') = if Modified j =? 1 then Z.of_nat (length jm) else jobs_count (node g)) ∧
    (rank (node g) ∉ all_ranks jm → jobs_count (node g') = jobs_count (node g)).
Proof.
  intros Hc Hr Hm Hnd. exists (parsed jm g).
  split; [by apply parse_map_file_parsed|]. split; [done|].
  split; [by apply parsed_rank_2_job|].
  split; [intros k i j; by apply parsed_jobs_count|apply parsed_jobs_count_elsewhere].
Qed.

(** C12: the role a process takes from a new map.  It is checkpoint master
    iff it is the first worker of its job.  If the map marks its job as
    updated it belongs to that job from now on, and it receives when it
    comes from another job, sends when it is the first of several workers
    that was already there, and does neither otherwise; its age is 1 in a job
    it is new to and one more in a job it stays in.  Without the mark it
    takes no part in the transfer and keeps its job and its age. *)
Theorem parse_map_file_role jm g k i j :
  ckpt_restore g = RESTORE_NO → jobs_readable g → map_for jm g → NoDup (all_ranks jm) →
  placed jm (rank (node g)) k i j →
  ∃ g', parse_map_file (Some (WriteToFile jm)) g = Done tt g' ∧
    node_checkpoint_master (node g') = (if (i =? 0)%nat then YES else NO) ∧
    node_transit_state (node g') =
      transit_after (Modified j) k i (length (RankList j)) (node g) ∧
    job_id (node g') = (if Modified j =? 1 then Z.of_nat k else job_id (node g)) ∧
    age (node g') = (if Modified j =? 1
      then (if job_id (node g) =? Z.of_nat k then age (node g) + 1 else 1) else age (node g)) ∧
    rank (node g') = rank (node g).
Proof.
  intros Hc Hr Hm Hnd Hp. exists (parsed jm g).
  split; [by apply parse_map_file_parsed|].
  split; [by apply parsed_master with k j|].
  split; [by apply parsed_transit|].
  split; [by apply parsed_job_id with i|].
  split; [by apply parsed_age with i|apply (parsed_same_place jm g)].
Qed.

(** [parse_map_file] does not accept a bad map or a bad moment: during a
    checkpoint restore it does nothing, a map that cannot be opened ends the
    process, and a first job line with an id that is not below the number of
    jobs, or without workers, fails an assertion. *)
Theorem parse_map_file_rejects g cores jobs u k w l :
  is_int cores → is_int jobs → is_int u → is_int k → is_int w → 0 < jobs →
  starts_digit l = false →
  ckpt_restore g = RESTORE_NO → jobs_readable g → rank_2_job g ≠ None →
  let line := itoa cores ++ TAB :: itoa jobs ++ NL ::
              itoa u ++ TAB :: itoa k ++ TAB :: itoa w ++ l in
  parse_map_file None g = Stop (Exited 0) g ∧
  (∀ file, parse_map_file file (set_ckpt_restore RESTORE_YES g) =
           Done tt (set_ckpt_restore RESTORE_YES g)) ∧
  (jobs ≤ k ∨ w ≤ 0 →
   ∃ g', parse_map_file (Some line) g = Stop AssertFailed g').
Proof.
  intros Hi1 Hi2 Hi3 Hi4 Hi5 Hj Hl Hc Hr Ha line.
  split; [by unfold parse_map_file; simpl; rewrite Hc|]. split; [done|].
  intros Hbad. unfold parse_map_file. cbn [bind gets]. rewrite Hc.
  rewrite decide_False by done. unfold line. rewrite fscanf_header by done.
  cbn [bind of_option upd_node modify].
  set (g1 := set_node _ _). assert (jobs_readable g1) as Hr1 by exact Hr.
  rewrite (free_rank_lists_spec g1 Hr1). cbn [bind gets fst snd lookup list_lookup].
  unfold alloc_rank_2_job. cbn [bind gets].
  change (rank_2_job g1) with (rank_2_job g). destruct (rank_2_job g) as [a|]; [|done].
  cbn [ret of_option modify bind]. rewrite seqZ_cons by done. cbn [foldM].
  unfold parse_job. rewrite fscanf_job by done.
  cbn [bind of_option fst snd lookup list_lookup ensure].
  destruct (k <? jobs) eqn:Hk; [|by eexists].
  destruct (0 <? w) eqn:Hw; [lia|by eexists].
Qed.

Lemma parse_map_file_roundtrip_witness :
  ∃ g', parse_map_file (Some (WriteToFile map_ex)) globals0 = Done tt g' ∧
    job_list g' = Some (jobs_of map_ex) ∧ jobs_count (node g') = 2.
Proof.
  destruct (parse_map_file_roundtrip map_ex globals0 eq_refl globals0_readable map_ex_for map_ex_NoDup)
    as (g' & Hrun & Hl & _ & Hn & _).
  exists g'. split; [exact Hrun|]. split; [exact Hl|]. exact (Hn 0%nat 0%nat (MkGoJob 1 [0; 2]) (conj eq_refl eq_refl)).
Defined.

Lemma parse_map_file_role_witness :
  ∃ g', parse_map_file (Some (WriteToFile map_ex))
          (set_node (set_rank 2 (set_job_id (-1) node0)) globals0) = Done tt g' ∧
    node_checkpoint_master (node g') = NO ∧
    node_transit_state (node g') = NODE_DATA_RECEIVER ∧
    job_id (node g') = 0 ∧ age (node g') = 1 ∧ rank (node g') = 2.
Proof.
  apply (parse_map_file_role map_ex
    (set_node (set_rank 2 (set_job_id (-1) node0)) globals0) 0 1 (MkGoJob 1 [0; 2]));
    [done| | | |done].
  - exact globals0_readable.
  - exact map_ex_for.
  - exact map_ex_NoDup.
Defined.

Lemma parse_map_file_rejects_witness :
  ∃ g', parse_map_file
    (Some (itoa 3 ++ TAB :: itoa 2 ++ NL :: itoa 1 ++ TAB :: itoa 2 ++ TAB :: itoa 1 ++ [NL]))
    (set_rank_2_job (Some []) globals0) = Stop AssertFailed g'.
Proof.
  eapply (parse_map_file_rejects (set_rank_2_job (Some []) globals0) 3 2 1 2 1 [NL]);
    try done; try exact globals0_readable.
  by left.
Defined.

Arguments parsed : simpl never.

(** ** [init_node] *)
Section init.
Context {W : Type} `{MpiConst} `{PmpiSplit W}.

Lemma of_globals_Done {A} (m : M globals A) g (w : W) a g' :
  m g = Done a g' → of_globals m (g, w) = Done a (g', w).
Proof. unfold of_globals, zoom. simpl. by intros ->. Qed.

(** [update_comms] splits the world twice and stores what it gets. *)
Lemma update_comms_spec g (w : W) :
  update_comms (g, w) =
  let n := node g in
  let c := rep_mpi_comm_world n in
  let '(a, w1) := PMPI_Comm_split c (active_split n).1 (active_split n).2 w in
  let '(b, w2) := PMPI_Comm_split c (world_job_split n).1 (world_job_split n).2 w1 in
  Done tt (set_node (set_world_job_comm b (set_active_comm a n)) g, w2).
Proof.
  unfold update_comms, comm_split. cbn [bind gets fst snd].
  destruct (PMPI_Comm_split _ _ _ w) as [a w1]. simpl.
  unfold world_job_split. simpl.
  by destruct (PMPI_Comm_split _ _ _ w1) as [b w2].
Qed.

(** The communicators of [n] are what the two splits of the world return that
    are made in the world [w] with the colours and keys of [n] itself. *)
Definition comms_made (n : Node) (w w' : W) : Prop := ∃ w1,
  PMPI_Comm_split (rep_mpi_comm_world n) (active_split n).1 (active_split n).2 w = (active_comm n, w1) ∧
  PMPI_Comm_split (rep_mpi_comm_world n) (world_job_split n).1 (world_job_split n).2 w1 = (world_job_comm n, w').

Lemma update_comms_made g (w : W) : ∃ a b w',
  let n := set_world_job_comm b (set_active_comm a (node g)) in
  update_comms (g, w) = Done tt (set_node n g, w') ∧ comms_made n w w'.
Proof.
  rewrite update_comms_spec. cbv zeta.
  destruct (PMPI_Comm_split _ (active_split _).1 _ w) as [a w1] eqn:Ea.
  destruct (PMPI_Comm_split _ (world_job_split _).1 _ w1) as [b w2] eqn:Eb.
  exists a, b, w2. split; [done|]. by exists w1.
Qed.

(** The state [init_node] parses the map in. *)
Definition booted (g : globals) (w : W) : globals :=
  let r := PMPI_Comm_rank (rep_mpi_comm_world (node g)) w in
  let n := PMPI_Comm_size (rep_mpi_comm_world (node g)) w in
  set_rank_ignore_list (Some (replicate (Z.to_nat n) (Some 0)))
    (set_node (set_job_id (-1) (set_static_rank r (set_rank r (node g)))) g).
End init.

(** [init_node] sets the process up from the first map.  It takes its
    rank from the world communicator, zeroes the ignore list, joins the job
    the map lists it in, is master iff it is first there, has no part in a
    transfer (the state [parse_map_file] computes for it is overwritten),
    and its two communicators are what the splits with the colour and key of
    its new job return. *)
Theorem init_node_correct {W} `{MpiConst} `{PmpiSplit W} jm g (w : W) k p j :
  let comm := rep_mpi_comm_world (node g) in
  let r := PMPI_Comm_rank comm w in
  ckpt_restore g = RESTORE_NO → jobs_count (node g) = 0 →
  map_for jm g → NoDup (all_ranks jm) → placed jm r k p j → Modified j = 1 →
  ∃ g' w1 w2, init_node (Some (WriteToFile jm)) (g, w) = Done tt (g', w2) ∧
    job_list g' = Some (jobs_of jm) ∧
    rank (node g') = r ∧ static_rank (node g') = r ∧ job_id (node g') = Z.of_nat k ∧
    node_checkpoint_master (node g') = (if (p =? 0)%nat then YES else NO) ∧
    node_transit_state (node g') = NODE_DATA_NONE ∧
    rank_ignore_list g' = Some (replicate (Z.to_nat (PMPI_Comm_size comm w)) (Some 0)) ∧
    PMPI_Comm_split comm (if (p =? 0)%nat then 0 else MPI_UNDEFINED) (Z.of_nat k) w =
      (active_comm (node g'), w1) ∧
    PMPI_Comm_split comm (Z.of_nat k) (if (p =? 0)%nat then 0 else 1) w1 =
      (world_job_comm (node g'), w2).
Proof.
  intros comm r Hc Hj Hm Hnd Hp Hu.
  assert (parse_map_file (Some (WriteToFile jm)) (booted g w) =
          Done tt (parsed jm (booted g w))) as Hparse.
  { apply parse_map_file_parsed; [done| |done].
    intros i. simpl. rewrite Hj. lia. }
  assert (rank (node (booted g w)) = r) as Hr by done.
  rewrite <-Hr in Hp.
  pose proof (parsed_job_id _ _ _ _ _ Hnd Hp) as Hjob. rewrite Hu in Hjob.
  change (1 =? 1) with true in Hjob. cbv iota in Hjob.
  pose proof (parsed_master _ _ _ _ _ Hnd Hp) as Hmaster.
  destruct (parsed_same_place jm (booted g w)) as (Hrank & Hstatic & Hcomm).
  change (rep_mpi_comm_world (node (booted g w))) with comm in Hcomm.
  set (n := node (parsed jm (booted g w))) in *.
  unfold init_node.
  cbn [bind gets fst snd of_globals zoom upd_node modify].
  rewrite (of_globals_Done _ _ _ _ _ Hparse). cbn [bind].
  rewrite update_comms_spec. cbv zeta.
  change (node (parsed jm (booted g w))) with n. rewrite Hcomm.
  destruct (PMPI_Comm_split comm (active_split n).1 (active_split n).2 w) as [a w1] eqn:E1.
  destruct (PMPI_Comm_split comm (world_job_split n).1 (world_job_split n).2 w1)
    as [b w2] eqn:E2.
  eexists _, w1, w2. split; [reflexivity|].
  cbn [of_globals zoom upd_node modify fst snd].
  unfold active_split in E1. unfold world_job_split in E2.
  rewrite Hjob, Hmaster in E1. rewrite Hjob, Hmaster in E2.
  destruct (p =? 0)%nat; simpl in E1, E2; done.
Qed.

Lemma init_node_correct_witness :
  ∃ g' w1 w2,
    init_node (H0 := mini_split) (Some (WriteToFile map_ex)) (globals0, MiniWorld 2 3 10) =
      Done tt (g', w2) ∧
    job_list g' = Some (jobs_of map_ex) ∧
    rank (node g') = 2 ∧ static_rank (node g') = 2 ∧ job_id (node g') = 0 ∧
    node_checkpoint_master (node g') = NO ∧
    node_transit_state (node g') = NODE_DATA_NONE ∧
    rank_ignore_list g' = Some [Some 0; Some 0; Some 0] ∧
    PMPI_Comm_split (PmpiSplit := mini_split) 0 MPI_UNDEFINED 0 (MiniWorld 2 3 10) =
      (active_comm (node g'), w1) ∧
    PMPI_Comm_split (PmpiSplit := mini_split) 0 0 1 w1 = (world_job_comm (node g'), w2).
Proof.
  apply (init_node_correct (H0 := mini_split) map_ex globals0 (MiniWorld 2 3 10)
           0 1 (MkGoJob 1 [0; 2])); [done|done| | |done|done].
  - exact map_ex_for.
  - exact map_ex_NoDup.
Defined.
