(* ===== verification/CommSystem.v ===== *)
(** * The communicators of a whole fleet

    [update_comms] and [create_migration_comm] are collective: what a
    process gets depends on the colours and keys all processes pass.  This
    file puts the colours and keys of all processes together and shows which
    groups the three splits of [src/mpi/comm.c] build, against the documented
    behaviour of [MPI_Comm_split] ([SplitLaws]), which [standard_split]
    implements.  [Fleet] runs the update at every process and shows that these
    are the groups of the communicators it stores. *)

From stdpp Require Import sorting.
From S2P Require Import Prelude Shared Mpi MapFile Comm.

#[local] Open Scope nat_scope.

(** ** [MPI_Comm_split] as a collective

    [split_group args i] is the group of the communicator process [i] gets
    when process [j] passed [args !! j = (colour, key)]: the old ranks in
    the order of the new ones, or [[]] for [MPI_COMM_NULL]. *)
Definition key_of (args : list (Z * Z)) (i : nat) : Z :=
  from_option snd 0%Z (args !! i).
Definition split_before (args : list (Z * Z)) (a b : nat) : Prop :=
  (key_of args a < key_of args b)%Z ∨ (key_of args a = key_of args b ∧ a < b).

Class SplitGroup : Type := split_group : list (Z * Z) → nat → list nat.

Class SplitLaws `{MpiConst} (sg : SplitGroup) : Prop := {
  split_null args i k :
    args !! i = Some (MPI_UNDEFINED, k) → split_group args i = [];
  split_member args i c k x :
    args !! i = Some (c, k) → c ≠ MPI_UNDEFINED →
    x ∈ split_group args i ↔ ∃ k', args !! x = Some (c, k');
  split_order args i : StronglySorted (split_before args) (split_group args i)
}.

(** *** An implementation: sort the members by key, then by old rank *)
Definition split_le (args : list (Z * Z)) (a b : nat) : Prop :=
  split_before args a b ∨ a = b.
#[global] Instance split_before_dec args a b : Decision (split_before args a b).
Proof. unfold split_before. apply _. Defined.
#[global] Instance split_le_dec args a b : Decision (split_le args a b).
Proof. unfold split_le. apply _. Defined.

Definition standard_split `{MpiConst} : SplitGroup := λ args i,
  match args !! i with
  | Some (c, _) =>
      if decide (c = MPI_UNDEFINED) then []
      else merge_sort (split_le args)
             (filter (λ x, from_option fst MPI_UNDEFINED (args !! x) = c)
                (seq 0 (length args)))
  | None => []
  end.

Section order.
Context (args : list (Z * Z)).

#[global] Instance split_before_trans : Transitive (split_before args).
Proof. intros x y z. unfold split_before. lia. Qed.
#[global] Instance split_before_irrefl : Irreflexive (split_before args).
Proof. intros x. unfold complement, split_before. lia. Qed.
#[global] Instance split_before_antisymm : AntiSymm (=) (split_before args).
Proof. intros x y. unfold split_before. lia. Qed.
#[global] Instance split_le_trans : Transitive (split_le args).
Proof. intros x y z [Hxy|<-] [Hyz|<-]; [left; exact (transitivity Hxy Hyz)|by left|by left|by right]. Qed.
#[global] Instance split_le_total : Total (split_le args).
Proof. intros x y. unfold split_le, split_before. lia. Qed.

Lemma split_sorted_NoDup l : StronglySorted (split_before args) l → NoDup l.
Proof.
  induction 1 as [|x l _ IH Hx]; constructor; [|done].
  intros Hin. rewrite Forall_forall in Hx. by apply (irreflexivity (split_before args) x), Hx.
Qed.

Lemma split_sorted_unique l1 l2 :
  StronglySorted (split_before args) l1 → StronglySorted (split_before args) l2 →
  (∀ x, x ∈ l1 ↔ x ∈ l2) → l1 = l2.
Proof.
  intros H1 H2 Hmem. apply (StronglySorted_unique (split_before args)); [done..|].
  apply NoDup_Permutation; eauto using split_sorted_NoDup.
Qed.

Lemma split_le_strict l :
  NoDup l → StronglySorted (split_le args) l → StronglySorted (split_before args) l.
Proof.
  induction 2 as [|x l _ IH Hx]; constructor.
  - apply NoDup_cons in H as [_ H]. auto.
  - apply NoDup_cons in H as [H _]. rewrite Forall_forall in *.
    intros y Hy. destruct (Hx y Hy) as [|<-]; [done|]. by destruct H.
Qed.
End order.

#[export] Instance standard_split_laws `{MpiConst} : SplitLaws standard_split.
Proof.
  split; unfold split_group, standard_split.
  - intros args i k ->. by rewrite decide_True.
  - intros args i c k x -> Hc. rewrite decide_False by done.
    rewrite merge_sort_Permutation, list_elem_of_filter, elem_of_seq. split.
    + intros [Hx [_ Hlt]]. destruct (args !! x) as [[c' k']|] eqn:E; simpl in *.
      * subst. by eexists.
      * apply lookup_ge_None in E. lia.
    + intros [k' E]. rewrite E. apply lookup_lt_Some in E. simpl. lia.
  - intros args i. destruct (args !! i) as [[c k]|]; [|constructor].
    case_decide; [constructor|]. apply split_le_strict.
    + rewrite merge_sort_Permutation. apply NoDup_filter, NoDup_seq.
    + apply StronglySorted_merge_sort; apply _.
Qed.

(** A member whose key is below all others is the root (new rank 0). *)
Lemma split_root args l m :
  StronglySorted (split_before args) l → m ∈ l →
  (∀ x, x ∈ l → x ≠ m → (key_of args m < key_of args x)%Z) →
  ∃ rest, l = m :: rest.
Proof.
  intros Hs Hm Hmin. destruct l as [|y l]; [set_solver|].
  destruct (decide (y = m)) as [->|Hne]; [by eexists|].
  apply StronglySorted_inv in Hs as [_ Hy]. rewrite Forall_forall in Hy.
  apply elem_of_cons in Hm as [|Hm]; [done|].
  specialize (Hy m Hm). specialize (Hmin y). unfold split_before in Hy.
  specialize (Hmin ltac:(set_solver) Hne). lia.
Qed.

Lemma StronglySorted_lookup {A} (R : A → A → Prop) (l : list A) :
  (∀ i j x y, i < j → l !! i = Some x → l !! j = Some y → R x y) →
  StronglySorted R l.
Proof.
  induction l as [|z l IH]; intros HR; constructor.
  - apply IH. intros i j x y Hij. apply (HR (S i) (S j)). lia.
  - apply Forall_lookup. intros j y Hj. by apply (HR 0 (S j) z y); [lia| |].
Qed.

(** ** A fleet that has read the same map *)
Section fleet.
Context `{MpiConst} `{!MpiConstLaws} (sg : SplitGroup) `{!SplitLaws sg}.
Context (jm : list GoJob) (gs : list globals).

(** Every process knows its own rank, and a process the map does not mark
    as updated is already in its job. *)
Record fleet_ok : Prop := {
  fleet_NoDup : NoDup (all_ranks jm);
  fleet_rank i g : gs !! i = Some g → rank (node g) = Z.of_nat i;
  fleet_placed i g : gs !! i = Some g → ∃ k p j, placed jm (Z.of_nat i) k p j;
  fleet_range r : r ∈ all_ranks jm → (0 ≤ r < Z.of_nat (length gs))%Z;
  fleet_nonempty j : j ∈ jm → RankList j ≠ [];
  fleet_settled i g k p j : gs !! i = Some g → placed jm (Z.of_nat i) k p j →
    Modified j = 1%Z ∨ job_id (node g) = Z.of_nat k
}.

Definition args_of (f : Node → Z * Z) : list (Z * Z) :=
  (λ g, f (node (parsed jm g))) <$> gs.

Context (Hok : fleet_ok).

Lemma args_lookup f i g :
  gs !! i = Some g → args_of f !! i = Some (f (node (parsed jm g))).
Proof. intros Hg. unfold args_of. by rewrite list_lookup_fmap, Hg. Qed.

Lemma args_lookup_inv f i a :
  args_of f !! i = Some a → ∃ g, gs !! i = Some g ∧ a = f (node (parsed jm g)).
Proof.
  unfold args_of. rewrite list_lookup_fmap.
  destruct (gs !! i) as [g|]; simpl; [|done]. intros [= <-]. by eexists.
Qed.

(** What the parser made of process [i], placed at [p] of job [k]. *)
Lemma fleet_node i g k p j :
  gs !! i = Some g → placed jm (Z.of_nat i) k p j →
  job_id (node (parsed jm g)) = Z.of_nat k ∧
  node_checkpoint_master (node (parsed jm g)) = (if p =? 0 then YES else NO) ∧
  node_transit_state (node (parsed jm g)) =
    transit_after (Modified j) k p (length (RankList j)) (node g).
Proof.
  intros Hg Hp. pose proof (fleet_rank Hok _ _ Hg) as Hr.
  pose proof (fleet_NoDup Hok) as Hnd. rewrite <-Hr in Hp.
  split; [|split; [by eapply parsed_master|by eapply parsed_transit]].
  rewrite (parsed_job_id _ _ k p j) by done. rewrite Hr in Hp.
  destruct (fleet_settled Hok _ _ _ _ _ Hg Hp) as [-> | ->]; [done|by case_match].
Qed.

(** A rank of the map is a process of the fleet. *)
Lemma fleet_process r k p j :
  placed jm r k p j →
  ∃ g, gs !! Z.to_nat r = Some g ∧ placed jm (Z.of_nat (Z.to_nat r)) k p j.
Proof.
  intros [Hk Hp].
  assert (0 ≤ r < Z.of_nat (length gs))%Z as Hr.
  { apply (fleet_range Hok), all_ranks_placed. by exists k, p, j. }
  destruct (lookup_lt_is_Some_2 gs (Z.to_nat r)) as [g Hg]; [lia|].
  exists g. split; [done|]. by rewrite Z2Nat.id by lia.
Qed.

(** The processes of a job, as a set. *)
Lemma same_job x k j k' p' j' :
  placed jm (Z.of_nat x) k' p' j' → jm !! k = Some j →
  k = k' ↔ Z.of_nat x ∈ RankList j.
Proof.
  intros Hp Hk. split.
  - intros <-. destruct Hp as [Hk' Hp]. simplify_eq. by eapply list_elem_of_lookup_2.
  - intros [q Hq]%list_elem_of_lookup_1.
    by destruct (placed_unique jm (Z.of_nat x) k q j k' p' j' (fleet_NoDup Hok)).
Qed.

Lemma job_color_valid k : Z.of_nat k ≠ MPI_UNDEFINED.
Proof. pose proof undefined_neg. lia. Qed.

Lemma key_of_lookup f x g :
  gs !! x = Some g → key_of (args_of f) x = (f (node (parsed jm g))).2.
Proof. intros Hg. unfold key_of. by rewrite (args_lookup _ _ _ Hg). Qed.

(** *** [world_job_comm] *)
Lemma world_job_member i x g k p j :
  gs !! i = Some g → placed jm (Z.of_nat i) k p j →
  x ∈ split_group (args_of world_job_split) i ↔ Z.of_nat x ∈ RankList j.
Proof.
  intros Hg Hp. destruct (fleet_node _ _ _ _ _ Hg Hp) as (Hjob & _ & _).
  rewrite (split_member _ _ (Z.of_nat k)
    (world_job_split (node (parsed jm g))).2); [| |apply job_color_valid].
  2:{ rewrite (args_lookup _ _ _ Hg). unfold world_job_split at 1. by rewrite Hjob. }
  split.
  - intros [k' Hx]. apply args_lookup_inv in Hx as (g' & Hg' & Hx).
    destruct (fleet_placed Hok _ _ Hg') as (k2 & p2 & j2 & Hp2).
    destruct (fleet_node _ _ _ _ _ Hg' Hp2) as (Hjob2 & _ & _).
    unfold world_job_split in Hx. rewrite Hjob2 in Hx. injection Hx as E _.
    apply (same_job x k j k2 p2 j2); [done|by destruct Hp|lia].
  - intros [q Hq]%list_elem_of_lookup_1.
    destruct (fleet_process (Z.of_nat x) k q j) as (g' & Hg' & Hp'); [by destruct Hp|].
    rewrite Nat2Z.id in Hg', Hp'.
    destruct (fleet_node _ _ _ _ _ Hg' Hp') as (Hjob' & _ & _).
    eexists. rewrite (args_lookup _ _ _ Hg'). unfold world_job_split at 1.
    by rewrite Hjob'.
Qed.

Lemma world_job_root i g k p j h t :
  gs !! i = Some g → placed jm (Z.of_nat i) k p j → RankList j = h :: t →
  ∃ rest, split_group (args_of world_job_split) i = Z.to_nat h :: rest.
Proof.
  intros Hg Hp Hj. assert (placed jm h k 0 j) as Hh by (split; [by destruct Hp|by rewrite Hj]).
  destruct (fleet_process h k 0 j Hh) as (gh & Hgh & Hph).
  assert (Z.of_nat (Z.to_nat h) ∈ RankList j) as Hin.
  { destruct Hph as [_ Hph]. by eapply list_elem_of_lookup_2. }
  apply (split_root (args_of world_job_split)).
  - apply split_order.
  - by apply (world_job_member i _ g k p j).
  - intros x Hx Hne. apply (world_job_member i _ g k p j) in Hx; [|done..].
    apply list_elem_of_lookup_1 in Hx as [q Hq].
    destruct (fleet_process (Z.of_nat x) k q j) as (gx & Hgx & Hpx); [by destruct Hp|].
    rewrite Nat2Z.id in Hgx, Hpx.
    rewrite (key_of_lookup _ _ _ Hgh), (key_of_lookup _ _ _ Hgx).
    unfold world_job_split. cbn [snd].
          destruct (fleet_node _ _ _ _ _ Hgh Hph) as (_ & -> & _).
    destruct (fleet_node _ _ _ _ _ Hgx Hpx) as (_ & -> & _).
    destruct q as [|q]; [|done]. simpl.
    destruct Hph as [_ Hph]. rewrite Hph in Hq. injection Hq as E. lia.
Qed.

(** *** [active_comm] *)
Definition head_of (j : GoJob) : nat := Z.to_nat (hd 0%Z (RankList j)).

(** The master of job [k]: its process and its place. *)
Lemma job_master k j :
  jm !! k = Some j →
  ∃ g, gs !! head_of j = Some g ∧ placed jm (Z.of_nat (head_of j)) k 0 j.
Proof.
  intros Hk. pose proof (fleet_nonempty Hok j ltac:(by eapply list_elem_of_lookup_2)).
  apply fleet_process. unfold head_of. split; [done|]. by destruct (RankList j).
Qed.

Lemma active_member i x g k j :
  gs !! i = Some g → placed jm (Z.of_nat i) k 0 j →
  x ∈ split_group (args_of active_split) i ↔ x ∈ head_of <$> jm.
Proof.
  intros Hg Hp. pose proof undefined_neg.
  destruct (fleet_node _ _ _ _ _ Hg Hp) as (_ & Hm & _).
  rewrite (split_member _ _ 0%Z (active_split (node (parsed jm g))).2); [| |lia].
  2:{ rewrite (args_lookup _ _ _ Hg). unfold active_split. by rewrite Hm. }
  rewrite list_elem_of_fmap. split.
  - intros [k' Hx]. apply args_lookup_inv in Hx as (g' & Hg' & Hx).
    destruct (fleet_placed Hok _ _ Hg') as (k2 & p2 & j2 & Hp2).
    destruct (fleet_node _ _ _ _ _ Hg' Hp2) as (_ & Hm2 & _).
    unfold active_split in Hx. rewrite Hm2 in Hx.
    destruct p2 as [|p2]; [|injection Hx; lia].
    exists j2. destruct Hp2 as [Hk2 Hp2]. split; [|by eapply list_elem_of_lookup_2].
    unfold head_of. destruct (RankList j2); simpl in *; [done|]. simplify_eq.
    by rewrite Nat2Z.id.
  - intros (j' & -> & [k' Hk']%list_elem_of_lookup_1).
    destruct (job_master k' j' Hk') as (g' & Hg' & Hp').
    destruct (fleet_node _ _ _ _ _ Hg' Hp') as (_ & Hm' & _).
    eexists. rewrite (args_lookup _ _ _ Hg'). unfold active_split at 1.
    by rewrite Hm'.
Qed.

Lemma active_heads_sorted :
  StronglySorted (split_before (args_of active_split)) (head_of <$> jm).
Proof.
  apply StronglySorted_lookup. intros k k' x y Hlt Hx Hy.
  apply list_lookup_fmap_Some in Hx as (j & -> & Hk).
  apply list_lookup_fmap_Some in Hy as (j' & -> & Hk').
  destruct (job_master k j Hk) as (g & Hg & Hp).
  destruct (job_master k' j' Hk') as (g' & Hg' & Hp').
  left. rewrite (key_of_lookup _ _ _ Hg), (key_of_lookup _ _ _ Hg').
  unfold active_split. cbn [snd].
  destruct (fleet_node _ _ _ _ _ Hg Hp) as (-> & _).
  destruct (fleet_node _ _ _ _ _ Hg' Hp') as (-> & _). lia.
Qed.

(** *** The migration communicator *)
Lemma migration_color i g k p j :
  gs !! i = Some g → placed jm (Z.of_nat i) k p j →
  migration_split (node (parsed jm g)) =
  match transit_after (Modified j) k p (length (RankList j)) (node g) with
  | NODE_DATA_NONE => (MPI_UNDEFINED, 0%Z)
  | NODE_DATA_SENDER => (Z.of_nat k, 0%Z)
  | NODE_DATA_RECEIVER => (Z.of_nat k, 1%Z)
  end.
Proof.
  intros Hg Hp. destruct (fleet_node _ _ _ _ _ Hg Hp) as (Hj & _ & Ht).
  unfold migration_split. by rewrite Hj, Ht.
Qed.

Lemma transit_sender u k p w_c n :
  transit_after u k p w_c n = NODE_DATA_SENDER → p = 0.
Proof. unfold transit_after. destruct p; [done|]. repeat case_match; done. Qed.

Lemma migration_member i x g k p j :
  gs !! i = Some g → placed jm (Z.of_nat i) k p j →
  transit_after (Modified j) k p (length (RankList j)) (node g) ≠ NODE_DATA_NONE →
  x ∈ split_group (args_of migration_split) i ↔
  ∃ gx q, gs !! x = Some gx ∧ placed jm (Z.of_nat x) k q j ∧
    transit_after (Modified j) k q (length (RankList j)) (node gx) ≠ NODE_DATA_NONE.
Proof.
  intros Hg Hp Ht. pose proof undefined_neg.
  pose proof (migration_color _ _ _ _ _ Hg Hp) as Hc.
  rewrite (split_member _ _ (Z.of_nat k) (migration_split (node (parsed jm g))).2);
    [| |lia].
  2:{ rewrite (args_lookup _ _ _ Hg), Hc. by destruct (transit_after (Modified j) k p _ _). }
  split.
  - intros [k' Hx]. apply args_lookup_inv in Hx as (gx & Hgx & Hx).
    destruct (fleet_placed Hok _ _ Hgx) as (k2 & q & j2 & Hq).
    rewrite (migration_color _ _ _ _ _ Hgx Hq) in Hx.
    assert (k2 = k ∧ transit_after (Modified j2) k2 q (length (RankList j2)) (node gx)
              ≠ NODE_DATA_NONE) as [-> Hn].
    { destruct (transit_after (Modified j2) _ _ _ _); injection Hx as ??;
        (split; [lia|done]) || lia. }
    assert (j2 = j) as -> by (destruct Hp, Hq; congruence).
    by exists gx, q.
  - intros (gx & q & Hgx & Hq & Hn). exists (migration_split (node (parsed jm gx))).2.
    rewrite (args_lookup _ _ _ Hgx), (migration_color _ _ _ _ _ Hgx Hq).
    by destruct (transit_after (Modified j) k q _ _).
Qed.

Lemma migration_root i g k p j :
  gs !! i = Some g → placed jm (Z.of_nat i) k p j →
  transit_after (Modified j) k p (length (RankList j)) (node g) = NODE_DATA_SENDER →
  ∃ rest, split_group (args_of migration_split) i = i :: rest.
Proof.
  intros Hg Hp Ht. apply (split_root (args_of migration_split)).
  - apply split_order.
  - apply (migration_member i i g k p j); [done|done|by rewrite Ht|].
    exists g, p. split; [done|]. split; [done|by rewrite Ht].
  - intros x Hx Hne.
    apply (migration_member i x g k p j) in Hx as (gx & q & Hgx & Hq & Hn);
      [|done|done|by rewrite Ht].
    rewrite (key_of_lookup _ _ _ Hg), (key_of_lookup _ _ _ Hgx).
    rewrite (migration_color _ _ _ _ _ Hg Hp), (migration_color _ _ _ _ _ Hgx Hq), Ht.
    destruct (transit_after (Modified j) k q _ _) eqn:Eq; [done| |done].
    apply transit_sender in Eq as ->. apply transit_sender in Ht as ->.
    destruct Hp as [_ Hp], Hq as [_ Hq]. rewrite Hp in Hq. injection Hq. lia.
Qed.
End fleet.

(** ** The three groups *)

(** The group of the [world_job] split: [world_job_comm] of a process of job [k] is made
    of exactly the workers the map lists for the job, and its rank 0, the
    root of every broadcast to the replicas, is the first worker of the job,
    which is the one that calls itself checkpoint master. *)
Lemma world_job_group `{MpiConst} `{!MpiConstLaws} (sg : SplitGroup) `{!SplitLaws sg}
    jm gs i g k p j h t :
  fleet_ok jm gs → gs !! i = Some g → placed jm (Z.of_nat i) k p j → RankList j = h :: t →
  let group := split_group (args_of jm gs world_job_split) i in
  (∃ rest, group = Z.to_nat h :: rest) ∧
  (∀ x, x ∈ group ↔ Z.of_nat x ∈ RankList j) ∧
  (node_checkpoint_master (node (parsed jm g)) = YES ↔ i = Z.to_nat h).
Proof.
  intros Hok Hg Hp Hj group.
  split; [by eapply world_job_root|]. split; [intros x; by eapply world_job_member|].
  destruct (fleet_node jm gs Hok _ _ _ _ _ Hg Hp) as (_ & -> & _).
  destruct Hp as [Hk Hp]. rewrite Hj in Hp. destruct p as [|p]; simpl in Hp.
  - simplify_eq. by rewrite Nat2Z.id.
  - split; [done|]. intros ->. exfalso.
    assert (placed jm (Z.of_nat (Z.to_nat h)) k 0 j ∧ placed jm (Z.of_nat (Z.to_nat h)) k (S p) j)
      as [H1 H2].
    { split; (split; [done|]).
      - rewrite Hj. simpl. f_equal. assert (placed jm h k 0 j) as Hh by (split; [done|by rewrite Hj]).
        destruct (fleet_process jm gs Hok h k 0 j Hh) as (? & _ & [_ Hh']).
        rewrite Hj in Hh'. by injection Hh'.
      - by rewrite Hj. }
    by destruct (placed_unique jm _ _ _ _ _ _ _ (fleet_NoDup _ _ Hok) H1 H2) as (_ & ? & _).
Qed.

(** The group of the [active] split: [active_comm] of a master holds exactly the
    masters of the jobs, in the order of the job ids: the process with rank
    [k] in it is the first worker of job [k].  So the ranks the application
    uses (job ids) are the ranks of [active_comm]. *)
Lemma active_group `{MpiConst} `{!MpiConstLaws} (sg : SplitGroup) `{!SplitLaws sg}
    jm gs i g k j :
  fleet_ok jm gs → gs !! i = Some g → placed jm (Z.of_nat i) k 0 j →
  split_group (args_of jm gs active_split) i = head_of <$> jm ∧
  split_group (args_of jm gs active_split) i !! k = Some i.
Proof.
  intros Hok Hg Hp.
  assert (split_group (args_of jm gs active_split) i = head_of <$> jm) as Heq.
  { eapply split_sorted_unique; [apply split_order|by apply active_heads_sorted|].
    intros x. by eapply active_member. }
  split; [done|]. rewrite Heq, list_lookup_fmap. destruct Hp as [-> Hp]. simpl.
  f_equal. unfold head_of. destruct (RankList j); simpl in *; [done|]. simplify_eq.
  by rewrite Nat2Z.id.
Qed.

(** The group of the migration split.  In a job the map marks as
    updated, whose first worker was already there and which has other
    workers, that first worker sends; it is rank 0, the root of every
    [PMPI_Bcast] of the transfer, in the migration communicator, whose other
    members are exactly the workers that are new to the job. *)
Lemma migration_group `{MpiConst} `{!MpiConstLaws} (sg : SplitGroup) `{!SplitLaws sg}
    jm gs i g k j :
  fleet_ok jm gs → gs !! i = Some g → placed jm (Z.of_nat i) k 0 j →
  Modified j = 1%Z → job_id (node g) = Z.of_nat k → 1 < length (RankList j) →
  node_transit_state (node (parsed jm g)) = NODE_DATA_SENDER ∧
  ∃ rest, split_group (args_of jm gs migration_split) i = i :: rest ∧
    ∀ x, x ∈ rest ↔ ∃ gx q, gs !! x = Some gx ∧ placed jm (Z.of_nat x) k q j ∧
                      job_id (node gx) ≠ Z.of_nat k.
Proof.
  intros Hok Hg Hp Hu Hold Hlen.
  assert (transit_after (Modified j) k 0 (length (RankList j)) (node g) = NODE_DATA_SENDER) as Ht.
  { unfold transit_after. rewrite Hu, Hold, !Z.eqb_refl.
    assert ((1 <? Z.of_nat (length (RankList j)))%Z = true) as H1 by lia.
    rewrite H1. reflexivity. }
  destruct (fleet_node jm gs Hok _ _ _ _ _ Hg Hp) as (_ & _ & Hts).
  split; [by rewrite Hts|].
  destruct (migration_root sg jm gs Hok _ _ _ _ _ Hg Hp Ht) as [rest Hrest].
  exists rest. split; [done|]. intros x.
  pose proof (split_sorted_NoDup _ _ (split_order (args_of jm gs migration_split) i)) as Hnd.
  rewrite Hrest in Hnd. apply NoDup_cons in Hnd as [Hi _].
  pose proof (migration_member sg jm gs Hok i x g k 0 j Hg Hp ltac:(by rewrite Ht)) as Hmem.
  rewrite Hrest, elem_of_cons in Hmem. split.
  - intros Hx. destruct (proj1 Hmem (or_intror Hx)) as (gx & q & Hgx & Hq & Hn).
    exists gx, q. split; [done|]. split; [done|]. intros Hsame.
    unfold transit_after in Hn. rewrite Hu, Hsame, !Z.eqb_refl in Hn. simpl in Hn.
    destruct q as [|q]; [|done]. apply Hi.
    destruct Hp as [_ Hp], Hq as [_ Hq]. rewrite Hp in Hq. by simplify_eq.
  - intros (gx & q & Hgx & Hq & Hne). destruct (proj2 Hmem) as [->|]; [|by simplify_eq|done].
    exists gx, q. split; [done|]. split; [done|].
    unfold transit_after. rewrite Hu. simpl. by rewrite (proj2 (Z.eqb_neq _ _)).
Qed.

(** ** A concrete fleet: process 2 moves from job 1 to job 0 *)
Definition map_moved : list GoJob := [MkGoJob 1 [0; 2]%Z; MkGoJob 0 [1]%Z].
Definition process_of (r k : Z) : globals :=
  set_node (set_rank r (set_job_id k node0)) globals0.
Definition fleet_ex : list globals := [process_of 0 0; process_of 1 1; process_of 2 1].

Lemma fleet_ex_ok : fleet_ok map_moved fleet_ex.
Proof.
  split.
  - by apply (bool_decide_unpack _).
  - intros [|[|[|i]]] g Hg; simpl in Hg; by simplify_eq.
  - intros [|[|[|i]]] g Hg; simpl in Hg; try done.
    + by exists 0, 0, (MkGoJob 1 [0; 2]%Z).
    + by exists 1, 0, (MkGoJob 0 [1]%Z).
    + by exists 0, 1, (MkGoJob 1 [0; 2]%Z).
  - intros r Hr. simpl. change (all_ranks map_moved) with [0; 2; 1]%Z in Hr.
    rewrite !elem_of_cons, elem_of_nil in Hr. lia.
  - intros j Hj. unfold map_moved in Hj. rewrite !elem_of_cons, elem_of_nil in Hj.
    by destruct Hj as [-> | [-> | []]].
  - intros i g k p j Hg [Hk Hp].
    destruct k as [|[|k]]; simpl in Hk; simplify_eq; [by left|].
    destruct p as [|p]; simpl in Hp; simplify_eq. right.
    assert (i = 1) as -> by lia. simpl in Hg. by simplify_eq.
Qed.
