(* ===== verification/Memory.v ===== *)
(** * Byte memory and the C allocator

    The memory of a process: bytes at addresses, little-endian words, and the
    table of live [malloc] blocks.  Where [malloc] puts a block is the
    allocator's choice ([Allocator]); what C promises of it is
    [AllocatorLaws].  An allocation is taken to succeed, as everywhere in
    the source, which never tests the result of [malloc]. *)

From Stdlib Require Import Strings.Byte.
From S2P Require Import Prelude.

(** ** Little-endian words *)
Definition byte_val (b : byte) : Z := Z.of_N (Byte.to_N b).
Definition byte_of (z : Z) : byte :=
  match Byte.of_N (Z.to_N (z mod 256)) with Some b => b | None => x00 end.

Fixpoint encode (n : nat) (z : Z) : list byte :=
  match n with
  | O => []
  | S n' => byte_of z :: encode n' (z / 256)
  end.

Fixpoint decode (l : list byte) : Z :=
  match l with
  | [] => 0
  | b :: l' => byte_val b + 256 * decode l'
  end.

Lemma byte_val_of z : byte_val (byte_of z) = z mod 256.
Proof.
  unfold byte_val, byte_of. pose proof (Z.mod_pos_bound z 256 ltac:(lia)).
  destruct (Byte.of_N (Z.to_N (z mod 256))) as [b|] eqn:E.
  - apply Byte.to_of_N in E. rewrite E. lia.
  - apply Byte.of_N_None_iff in E. lia.
Qed.

Lemma byte_val_range b : 0 ≤ byte_val b < 256.
Proof. unfold byte_val. pose proof (Byte.to_N_bounded b). lia. Qed.

Lemma byte_of_val b : byte_of (byte_val b) = b.
Proof.
  unfold byte_of. rewrite Z.mod_small by apply byte_val_range.
  unfold byte_val. by rewrite N2Z.id, Byte.of_to_N.
Qed.

Lemma length_encode n z : length (encode n z) = n.
Proof. revert z. induction n; intros z; simpl; auto. Qed.

Lemma decode_encode n z : decode (encode n z) = z mod 256 ^ Z.of_nat n.
Proof.
  revert z. induction n as [|n IH]; intros z; cbn [encode decode].
  - by rewrite Z.mod_1_r.
  - rewrite byte_val_of, IH, Nat2Z.inj_succ, Z.pow_succ_r by lia.
    rewrite Z.rem_mul_r by lia. lia.
Qed.

Lemma encode_decode l : encode (length l) (decode l) = l.
Proof.
  induction l as [|b l IH]; cbn [length encode decode]; [done|].
  pose proof (byte_val_range b). f_equal.
  - rewrite <-(byte_of_val b) at 2. unfold byte_of.
    rewrite (Z.mul_comm 256), Z.mod_add by lia. done.
  - rewrite (Z.mul_comm 256), Z.div_add, Z.div_small, Z.add_0_l by lia. done.
Qed.

Lemma decode_range l : 0 ≤ decode l < 256 ^ Z.of_nat (length l).
Proof.
  induction l as [|b l IH]; cbn [length decode]; [done|].
  rewrite Nat2Z.inj_succ, Z.pow_succ_r by lia. pose proof (byte_val_range b). lia.
Qed.

(** ** Bytes at addresses

    A byte of an allocated object is [Some v], or [None] while it is
    indeterminate; an address with no entry belongs to no object, so that
    accessing it is undefined. *)
Abbreviation mbyte := (option byte).
Abbreviation memory := (gmap Z mbyte).

Fixpoint load_bytes (m : memory) (a : Z) (n : nat) : option (list mbyte) :=
  match n with
  | O => Some []
  | S n' => b ← m !! a; l ← load_bytes m (a + 1) n'; Some (b :: l)
  end.

Fixpoint store_bytes (m : memory) (a : Z) (l : list mbyte) : option memory :=
  match l with
  | [] => Some m
  | b :: l' => _ ← m !! a; store_bytes (<[a := b]> m) (a + 1) l'
  end.

(** The values of cells that are all determinate. *)
Fixpoint all_some {A} (l : list (option A)) : option (list A) :=
  match l with
  | [] => Some []
  | x :: l' => x ← x; l' ← all_some l'; Some (x :: l')
  end.

(** A whole word is determinate, or the load is undefined. *)
Definition load_word (n : nat) (m : memory) (a : Z) : option Z :=
  l ← load_bytes m a n; bs ← all_some l; Some (decode bs).
Definition store_word (n : nat) (m : memory) (a v : Z) : option memory :=
  store_bytes m a (Some <$> encode n v).

Definition valid_range (m : memory) (a : Z) (n : nat) : Prop :=
  ∀ i, 0 ≤ i < Z.of_nat n → is_Some (m !! (a + i)).

Section bytes.
Implicit Types (m : memory) (l : list mbyte).

Lemma store_bytes_Some m a l :
  valid_range m a (length l) → ∃ m', store_bytes m a l = Some m'.
Proof.
  revert m a. induction l as [|b l IH]; intros m a Hv; [by eexists|]. simpl.
  destruct (Hv 0) as [x Hx]; [simpl; lia|]. rewrite Z.add_0_r in Hx. rewrite Hx. simpl.
  apply IH. intros i Hi. destruct (decide (a + 1 + i = a)) as [E|E]; [lia|].
  rewrite lookup_insert_ne by done. rewrite <-Z.add_assoc. apply Hv. simpl. lia.
Qed.

Lemma store_bytes_lookup m a l m' :
  store_bytes m a l = Some m' →
  (∀ i, 0 ≤ i < Z.of_nat (length l) → m' !! (a + i) = l !! Z.to_nat i) ∧
  (∀ x, ¬ (a ≤ x < a + Z.of_nat (length l)) → m' !! x = m !! x) ∧
  (∀ x, is_Some (m' !! x) ↔ is_Some (m !! x)).
Proof.
  revert m a. induction l as [|b l IH]; intros m a H; simpl in H.
  - simplify_eq. split; [simpl; lia|]. done.
  - destruct (m !! a) as [y|] eqn:Ha; simpl in H; [|done].
    destruct (IH _ _ H) as (H1 & H2 & H3). split; [|split].
    + intros i Hi. destruct (decide (i = 0)) as [->|Hi0].
      * rewrite Z.add_0_r, H2 by lia. by rewrite lookup_insert_eq.
      * replace (a + i) with (a + 1 + (i - 1)) by lia.
        rewrite H1 by (simpl in Hi; lia).
        replace (Z.to_nat i) with (S (Z.to_nat (i - 1))) by lia. done.
    + intros x Hx. simpl in Hx. rewrite H2 by lia. apply lookup_insert_ne. lia.
    + intros x. rewrite H3. destruct (decide (a = x)) as [->|Hne].
      * rewrite lookup_insert_eq, Ha. by split.
      * by rewrite lookup_insert_ne.
Qed.

Lemma load_bytes_ext m m' a n :
  (∀ i, 0 ≤ i < Z.of_nat n → m !! (a + i) = m' !! (a + i)) →
  load_bytes m a n = load_bytes m' a n.
Proof.
  revert a. induction n as [|n IH]; intros a H; simpl; [done|].
  pose proof (H 0 ltac:(lia)) as H0. rewrite Z.add_0_r in H0. rewrite H0.
  destruct (m' !! a); simpl; [|done].
  rewrite IH; [done|]. intros i Hi. rewrite <-!Z.add_assoc. apply H. lia.
Qed.

Lemma load_bytes_lookup m a l :
  (∀ i, 0 ≤ i < Z.of_nat (length l) → m !! (a + i) = l !! Z.to_nat i) →
  load_bytes m a (length l) = Some l.
Proof.
  revert a. induction l as [|b l IH]; intros a H; simpl; [done|].
  pose proof (H 0 ltac:(simpl; lia)) as H0. rewrite Z.add_0_r in H0. rewrite H0. simpl.
  rewrite IH; [done|]. intros i Hi.
  rewrite <-Z.add_assoc, H by (simpl; lia).
  by replace (Z.to_nat (1 + i)) with (S (Z.to_nat i)) by lia.
Qed.

Lemma load_bytes_length m a n l : load_bytes m a n = Some l → length l = n.
Proof.
  revert a l. induction n as [|n IH]; intros a l; simpl; [by intros [= <-]|].
  destruct (m !! a); simpl; [|done]. destruct (load_bytes m (a + 1) n) eqn:E; simpl; [|done].
  intros [= <-]. simpl. f_equal. by eapply IH.
Qed.

(** Reading back what was stored, and reading elsewhere. *)
Lemma load_store_bytes m a l m' :
  store_bytes m a l = Some m' → load_bytes m' a (length l) = Some l.
Proof. intros H. apply load_bytes_lookup. apply (store_bytes_lookup _ _ _ _ H). Qed.

Lemma load_store_bytes_ne m a l m' b n :
  store_bytes m a l = Some m' →
  (b + Z.of_nat n ≤ a ∨ a + Z.of_nat (length l) ≤ b) →
  load_bytes m' b n = load_bytes m b n.
Proof.
  intros H Hd. apply load_bytes_ext. intros i Hi.
  apply (store_bytes_lookup _ _ _ _ H). lia.
Qed.

Lemma all_some_fmap {A} (l : list A) : all_some (Some <$> l) = Some l.
Proof. induction l as [|x l IH]; [done|]. rewrite fmap_cons. simpl. by rewrite IH. Qed.

Lemma load_store_word n m a v m' :
  store_word n m a v = Some m' → load_word n m' a = Some (v mod 256 ^ Z.of_nat n).
Proof.
  unfold store_word, load_word. intros H. apply load_store_bytes in H.
  rewrite length_fmap, length_encode in H. rewrite H. simpl.
  rewrite all_some_fmap. simpl. by rewrite decode_encode.
Qed.

Lemma store_word_Some n m a v :
  valid_range m a n → ∃ m', store_word n m a v = Some m'.
Proof. intros H. apply store_bytes_Some. by rewrite length_fmap, length_encode. Qed.
End bytes.

(** ** Variables as bytes *)
(** The words of a local variable: indeterminate, or encoded. *)
Definition cells (n : nat) (v : cell) : list mbyte :=
  match v with Some v => Some <$> encode n v | None => replicate n None end.
Definition value (l : list mbyte) : cell := bs ← all_some l; Some (decode bs).

Lemma length_cells n v : length (cells n v) = n.
Proof. destruct v; simpl; [by rewrite length_fmap, length_encode|by rewrite length_replicate]. Qed.

Lemma value_cells n v : value (cells n (Some v)) = Some (v mod 256 ^ Z.of_nat n).
Proof. unfold value, cells. rewrite all_some_fmap. simpl. by rewrite decode_encode. Qed.

Lemma value_word v : 0 ≤ v < 2 ^ 64 → value (cells 8 (Some v)) = Some v.
Proof. intros Hv. rewrite value_cells. by rewrite Z.mod_small. Qed.

Lemma int_message n : INT_MIN ≤ n ≤ INT_MAX → wrap32s (n mod 256 ^ Z.of_nat 4) = n.
Proof.
  intros Hn. change (256 ^ Z.of_nat 4) with (2 ^ 32). unfold wrap32s.
  rewrite Zplus_mod_idemp_l. by apply wrap32s_small.
Qed.

Lemma load_bytes_Some m a n : valid_range m a n → ∃ l, load_bytes m a n = Some l.
Proof.
  revert a. induction n as [|n IH]; intros a Hv; [by eexists|]. simpl.
  destruct (Hv 0) as [x Hx]; [lia|]. rewrite Z.add_0_r in Hx. rewrite Hx. simpl.
  destruct (IH (a + 1)) as [l Hl]; [|rewrite Hl; by eexists].
  intros i Hi. rewrite <-Z.add_assoc. apply Hv. lia.
Qed.

Lemma load_bytes_inv m a n l i :
  load_bytes m a n = Some l → 0 ≤ i < Z.of_nat n → m !! (a + i) = l !! Z.to_nat i.
Proof.
  revert a l i. induction n as [|n IH]; intros a l i; [lia|]. simpl.
  destruct (m !! a) as [b|] eqn:Hb; simpl; [|done].
  destruct (load_bytes m (a + 1) n) as [l'|] eqn:E; simpl; [|done].
  intros [= <-] Hi. destruct (decide (i = 0)) as [->|Hne]; [by rewrite Z.add_0_r|].
  replace (a + i) with (a + 1 + (i - 1)) by lia. rewrite (IH _ _ _ E) by lia.
  by replace (Z.to_nat i) with (S (Z.to_nat (i - 1))) by lia.
Qed.

(** Writing back what was read changes nothing. *)
Lemma store_load_bytes m a n l : load_bytes m a n = Some l → store_bytes m a l = Some m.
Proof.
  revert a l. induction n as [|n IH]; intros a l; simpl; [by intros [= <-]|].
  destruct (m !! a) as [b|] eqn:Hb; simpl; [|done].
  destruct (load_bytes m (a + 1) n) eqn:E; simpl; [|done].
  intros [= <-]. simpl. rewrite Hb. simpl. rewrite insert_id by done. by apply IH.
Qed.

(** The test of a concrete range. *)
Definition valid_rangeb (m : memory) (a : Z) (n : nat) : bool :=
  forallb (λ i, bool_decide (is_Some (m !! (a + i)))) (seqZ 0 (Z.of_nat n)).
Lemma valid_rangeb_sound m a n : valid_rangeb m a n = true → valid_range m a n.
Proof.
  unfold valid_rangeb. rewrite forallb_forall. intros H i Hi.
  apply (bool_decide_eq_true _), H, list_elem_of_In, elem_of_seqZ. lia.
Qed.

(** What was read at [b] of one memory and stored at [a] of another. *)
Lemma store_loaded src b n l m a m' x :
  load_bytes src b n = Some l → store_bytes m a l = Some m' → a ≤ x < a + Z.of_nat n →
  m' !! x = src !! (b + (x - a)).
Proof.
  intros Hl Hs Hx. pose proof (load_bytes_length _ _ _ _ Hl) as Hn.
  destruct (store_bytes_lookup _ _ _ _ Hs) as (H1 & _ & _).
  replace x with (a + (x - a)) at 1 by lia. rewrite H1 by lia.
  by rewrite (load_bytes_inv _ _ _ _ _ Hl) by lia.
Qed.

(** Two stores to disjoint addresses can be made in either order. *)
Lemma store_bytes_swap m a l b k m1 m2 :
  store_bytes m a l = Some m1 → store_bytes m1 b k = Some m2 →
  a + Z.of_nat (length l) ≤ b ∨ b + Z.of_nat (length k) ≤ a →
  ∃ m1', store_bytes m b k = Some m1' ∧ store_bytes m1' a l = Some m2.
Proof.
  intros H1 H2 Hdis.
  pose proof (store_bytes_lookup _ _ _ _ H1) as (A1 & A2 & A3).
  pose proof (store_bytes_lookup _ _ _ _ H2) as (B1 & B2 & B3).
  destruct (store_bytes_Some m b k) as [m1' H1'].
  { intros i Hi. apply A3, B3. rewrite B1 by done. apply lookup_lt_is_Some. lia. }
  pose proof (store_bytes_lookup _ _ _ _ H1') as (C1 & C2 & C3).
  destruct (store_bytes_Some m1' a l) as [m2' H2'].
  { intros i Hi. apply C3, A3. rewrite A1 by done. apply lookup_lt_is_Some. lia. }
  pose proof (store_bytes_lookup _ _ _ _ H2') as (D1 & D2 & _).
  exists m1'. split; [done|]. rewrite H2'. f_equal. apply map_eq. intros x.
  destruct (decide (a ≤ x < a + Z.of_nat (length l))) as [Ha|Ha].
  - rewrite B2 by lia. replace x with (a + (x - a)) by lia. by rewrite D1, A1 by lia.
  - rewrite D2 by done. destruct (decide (b ≤ x < b + Z.of_nat (length k))) as [Hb|Hb].
    + replace x with (b + (x - b)) by lia. by rewrite C1, B1 by lia.
    + by rewrite C2, B2, A2 by done.
Qed.

(** ** [malloc] and [free] *)
Class Allocator : Type := alloc : gmap Z Z → Z → Z.

Class AllocatorLaws (A : Allocator) : Prop := {
  alloc_pos blocks n : 0 < alloc blocks n;
  alloc_fresh blocks n b s :
    blocks !! b = Some s → 0 ≤ n → 0 ≤ s →
    alloc blocks n + Z.max 1 n ≤ b ∨ b + Z.max 1 s ≤ alloc blocks n
}.

(** A word of memory after the last live block. *)
Definition bump : Allocator := λ blocks _,
  map_fold (λ b s r, Z.max (b + Z.max 1 s) r) 4096 blocks.

Lemma bump_bound blocks n :
  4096 ≤ bump blocks n ∧
  ∀ b s, blocks !! b = Some s → b + Z.max 1 s ≤ bump blocks n.
Proof.
  unfold bump.
  apply (map_fold_weak_ind (λ r m, 4096 ≤ r ∧ ∀ b s, m !! b = Some s → b + Z.max 1 s ≤ r)).
  - split; [lia|]. intros b s. by rewrite lookup_empty.
  - intros b s m r Hb [Hr IH]. split; [lia|]. intros b' s'.
    destruct (decide (b = b')) as [->|Hne].
    + rewrite lookup_insert_eq. intros [= ->]. lia.
    + rewrite lookup_insert_ne by done. intros Hl. specialize (IH _ _ Hl). lia.
Qed.

#[export] Instance bump_laws : AllocatorLaws bump.
Proof.
  split.
  - intros blocks n. pose proof (bump_bound blocks n). unfold alloc. lia.
  - intros blocks n b s Hb _ _. right. by apply bump_bound.
Qed.
