(* ===== verification/Stat.v ===== *)
(** * What a process tells the tools: [src/misc/file.c], [src/misc/network.c]

    Two files connect the program with the tools that run beside it.  Each
    process writes one record of fixed size into each, at the place of its
    rank: [rep_stack.info] tells the manager which map was applied and where
    the stack of the process begins, and [network.stat] tells the fault
    injector the host and the process id.  The file also holds what the tools
    do to read such a file, and that the order of the writes does not matter. *)

From Stdlib Require Import Strings.Byte Ascii.
From S2P Require Import Prelude Shared Memory.

(** What the code asks of the file system, of the machine and of the world
    communicator: [stat], the text of the map, [access] on the checkpoint file
    of a job, [PMPI_File_open], [PMPI_File_write_at] and [PMPI_File_close] of a
    file of bytes as one call, the address [calledFirst] took of its local
    variable, the buffer [gethostname] fills, [getpid], and the sum
    [PMPI_Allreduce] computes. *)
Class Files (W : Type) : Type := {
  st_mtime : W → Z;
  map_text : W → option (list ascii);
  ckpt_access : Z → W → bool;
  PMPI_File_write_at : string → Z → list byte → W → W;
  stack_top : W → Z;
  gethostname : Z → W → list byte;
  getpid : W → Z;
  PMPI_Allreduce_sum : Z → MPI_Comm → W → Z * W
}.

(** ** The records *)
Definition STACK_REP_INFO_FILE_NAME : string := "./rep_stack.info".
Definition network_stat_file : string := "./network.stat".
Definition HOSTNAME_LEN : Z := 100.

(** The bytes of a [rep_and_stack_info] and of a [network_stat]: neither struct
    has padding. *)
Definition rep_and_stack_info (replication_idx rank stack_address : Z) : list byte :=
  encode 4 replication_idx ++ encode 4 rank ++ encode 8 stack_address.
Definition network_stat (rank process_id hostname_len : Z) (hostname : list byte) : list byte :=
  encode 4 rank ++ encode 4 process_id ++ encode 4 hostname_len ++ hostname.

(** The length of a string in an array; no [NUL] in it, and [strlen] reads on
    behind the array. *)
Fixpoint strlen (l : list byte) : option Z :=
  match l with
  | [] => None
  | b :: l' => if Byte.eqb b x00 then Some 0 else n ← strlen l'; Some (n + 1)
  end.

Section stat.
Context {W : Type} `{Files W}.

Definition save_rep_and_stack_info (rep_idx : Z) : M (globals * W) unit :=
  modify (λ s,
    let my_rank := rank (node s.1) in
    (s.1, PMPI_File_write_at STACK_REP_INFO_FILE_NAME (16 * my_rank)
            (rep_and_stack_info rep_idx my_rank (stack_top s.2)) s.2)).

Definition network_stat_init : M (globals * W) unit :=
  let! my_rank := gets (λ s, rank (node s.1)) in
  let! hostname := gets (λ s, gethostname HOSTNAME_LEN s.2) in
  let! hostname_len := of_option Undef (strlen hostname) in
  modify (λ s, (s.1, PMPI_File_write_at network_stat_file (112 * my_rank)
                       (network_stat my_rank (getpid s.2) hostname_len hostname) s.2)).
End stat.

(** ** Files of bytes

    Writing behind the end leaves zeros in between. *)
Definition write_at (off : Z) (bs file : list byte) : list byte :=
  let n := Z.to_nat off in
  take n (file ++ replicate (n - length file)%nat x00) ++ bs ++ drop (n + length bs)%nat file.

(** The worlds whose files keep what is written. *)
Class FilesLaws {W : Type} `{Files W} (file_of : string → W → list byte) : Prop := {
  file_of_write n off bs w : file_of n (PMPI_File_write_at n off bs w) = write_at off bs (file_of n w);
  file_of_other n n' off bs w : n ≠ n' → file_of n' (PMPI_File_write_at n off bs w) = file_of n' w
}.

(** The loop of the tools around [os.File.Read]: the bytes of the buffer [data],
    which keeps the end of the record before when fewer bytes are left. *)
Fixpoint read_records (fuel : nat) (data file : list byte) : list (list byte) :=
  match fuel, file with
  | O, _ | _, [] => []
  | S fuel', _ =>
      let got := take (length data) file in
      let data' := got ++ drop (length got) data in
      data' :: read_records fuel' data' (drop (length data) file)
  end.
Definition all_records (size : nat) (file : list byte) : list (list byte) :=
  read_records (length file) (replicate size x00) file.

(** ** Lemmas *)
Lemma length_write_at off bs file :
  length (write_at off bs file) = ((Z.to_nat off + length bs) `max` length file)%nat.
Proof.
  unfold write_at. rewrite !length_app, length_take, length_drop, length_app, length_replicate. lia.
Qed.

Lemma length_rep_and_stack_info i r a : length (rep_and_stack_info i r a) = 16%nat.
Proof. unfold rep_and_stack_info. by rewrite !length_app, !length_encode. Qed.

Lemma length_network_stat r p n h : length h = 100%nat → length (network_stat r p n h) = 112%nat.
Proof. intros Hh. unfold network_stat. by rewrite !length_app, !length_encode, Hh. Qed.

Lemma strlen_spec l n :
  strlen l = Some n → 0 ≤ n < Z.of_nat (length l) ∧ x00 ∉ take (Z.to_nat n) l.
Proof.
  revert n. induction l as [|b l IH]; intros n; simpl; [done|].
  destruct (Byte.eqb b x00) eqn:E; [intros [= <-]; split; [lia|set_solver]|].
  destruct (strlen l) as [m|]; simpl; [|done]. intros [= <-].
  destruct (IH m eq_refl) as [H1 H2]. split; [lia|].
  replace (Z.to_nat (m + 1)) with (S (Z.to_nat m)) by lia. simpl.
  apply not_elem_of_cons. split; [|done]. intros <-. by rewrite (Byte.byte_dec_lb eq_refl) in E.
Qed.

(** *** Records of one size *)
Section records.
Context (k : nat).

Definition chunk (i : nat) (file : list byte) : list byte := take k (drop (k * i)%nat file).

Lemma chunk_write i bs file :
  length bs = k → chunk i (write_at (Z.of_nat (k * i)) bs file) = bs.
Proof.
  intros Hbs. unfold chunk, write_at. rewrite Nat2Z.id.
  rewrite drop_app_ge by (rewrite length_take; lia).
  rewrite length_take, length_app, length_replicate.
  replace (k * i - _)%nat with 0%nat by lia. simpl. rewrite drop_0. by apply take_app_length'.
Qed.

Lemma chunk_write_ne i j bs file :
  length bs = k → i ≠ j → (k * S j ≤ length file)%nat →
  chunk j (write_at (Z.of_nat (k * i)) bs file) = chunk j file.
Proof.
  intros Hbs Hij Hj. unfold chunk, write_at. rewrite Nat2Z.id. apply list_eq. intros x.
  destruct (decide (x < k)%nat) as [Hx|Hx]; [|by rewrite !lookup_take_ge by lia].
  rewrite !lookup_take_lt, !lookup_drop by lia.
  assert ((k * j + x < k * i)%nat ∨ (k * i + k ≤ k * j + x)%nat) as [Hlt|Hge] by nia.
  - rewrite lookup_app_l by (rewrite length_take, length_app, length_replicate; lia).
    rewrite lookup_take_lt, lookup_app_l by nia. done.
  - rewrite lookup_app_r by (rewrite length_take, length_app, length_replicate; lia).
    rewrite lookup_app_r by (rewrite length_take, length_app, length_replicate; lia).
    rewrite lookup_drop. f_equal. rewrite length_take, length_app, length_replicate. lia.
Qed.

(** A file of [n] records is the list of its chunks. *)
Lemma chunks n file : length file = (k * n)%nat → file = concat ((λ i, chunk i file) <$> seq 0 n).
Proof.
  revert file. induction n as [|n IH]; intros file Hlen.
  { destruct file; simpl in *; [done|lia]. }
  rewrite <-(take_drop k file) at 1. cbn [seq fmap list_fmap concat]. f_equal.
  { unfold chunk. by rewrite Nat.mul_0_r. }
  rewrite (IH (drop k file)) at 1 by (rewrite length_drop; lia).
  rewrite <-seq_shift, <-list_fmap_compose. f_equal. apply list_fmap_ext. intros i x _. simpl.
  unfold chunk. rewrite drop_drop. do 2 f_equal. lia.
Qed.

Definition write_all (file : list byte) (ps : list (nat * list byte)) : list byte :=
  foldl (λ f p, write_at (Z.of_nat (k * p.1)) p.2 f) file ps.

Lemma write_all_chunks file ps n :
  NoDup ps.*1 → Forall (λ p, length p.2 = k ∧ (p.1 < n)%nat) ps → (length file ≤ k * n)%nat →
  let f := write_all file ps in
  (length f ≤ k * n)%nat ∧ ∀ i b, (i, b) ∈ ps → chunk i f = b ∧ (k * S i ≤ length f)%nat.
Proof.
  unfold write_all. induction ps as [|[i b] ps IH] using rev_ind; intros Hnd Hall Hlen.
  { split; [done|]. intros i b []%not_elem_of_nil. }
  rewrite fmap_app in Hnd. apply NoDup_app in Hnd as (Hnd & Hd & _).
  apply Forall_app in Hall as [Hall [[Hb Hi] _]%Forall_cons]. simpl in Hb, Hi.
  destruct (IH Hnd Hall Hlen) as [H1 H2]. rewrite foldl_app. cbn [foldl fst snd].
  set (f := foldl _ file ps) in *. rewrite length_write_at, Nat2Z.id, Hb.
  split; [nia|]. intros j b' [Hin|[= -> ->]%list_elem_of_singleton]%elem_of_app.
  - destruct (H2 j b' Hin) as [H3 H4]. split; [|lia].
    rewrite chunk_write_ne; [done|done| |done]. intros ->. apply (Hd j); [|simpl; set_solver].
    apply list_elem_of_fmap. by exists (j, b').
  - split; [by apply chunk_write|nia].
Qed.

(** Whatever the order of the processes, the file is the list of their records. *)
Lemma write_all_any_order file ps rs n :
  ps ≡ₚ zip (seq 0 n) rs → length rs = n → Forall (λ r, length r = k) rs → (length file ≤ k * n)%nat →
  (0 < n)%nat → write_all file ps = concat rs.
Proof.
  intros Hps Hn Hrs Hlen Hpos.
  assert ((zip (seq 0 n) rs).*1 = seq 0 n) as Hfst by (apply fst_zip; rewrite length_seq; lia).
  destruct (write_all_chunks file ps n) as [H1 H2]; [| |done|].
  - rewrite Hps, Hfst. apply NoDup_seq.
  - rewrite Hps. apply Forall_forall. intros [i r] Hin. split.
    + rewrite Forall_forall in Hrs. apply Hrs. by eapply elem_of_zip_r.
    + apply elem_of_zip_l, elem_of_seq in Hin. simpl. lia.
  - set (f := write_all file ps) in *.
    assert (∀ i r, rs !! i = Some r → chunk i f = r ∧ (k * S i ≤ length f)%nat) as Hget.
    { intros i r Hi. apply H2. rewrite Hps. apply list_elem_of_lookup. exists i.
      apply lookup_zip_Some. split; [|done]. apply lookup_lt_Some in Hi. apply lookup_seq. lia. }
    assert (length f = k * n)%nat as Hf.
    { destruct (lookup_lt_is_Some_2 rs (n - 1)) as [r Hr]; [lia|]. apply Hget in Hr as [_ Hr].
      replace (S (n - 1)) with n in Hr by lia. lia. }
    rewrite (chunks n f Hf). f_equal. apply list_eq. intros i. rewrite list_lookup_fmap.
    destruct (decide (i < n)%nat) as [Hi|Hi].
    + rewrite (proj2 (lookup_seq 0 n i i)) by lia. simpl.
      destruct (lookup_lt_is_Some_2 rs i) as [r Hr]; [lia|]. rewrite Hr. by destruct (Hget i r Hr) as [-> _].
    + rewrite (lookup_ge_None_2 rs), (lookup_ge_None_2 (seq 0 n)) by (rewrite ?length_seq; lia). done.
Qed.

Lemma read_records_concat fuel data rs :
  length data = k → (0 < k)%nat → Forall (λ r, length r = k) rs → (length rs ≤ fuel)%nat →
  read_records fuel data (concat rs) = rs.
Proof.
  intros Hd Hk. revert fuel data Hd. induction rs as [|r rs IH]; intros fuel data Hd Hrs Hf; [by destruct fuel|].
  apply Forall_cons in Hrs as [Hr Hrs]. destruct fuel as [|fuel]; simpl in Hf; [lia|].
  cbn [read_records concat]. destruct r as [|x r]; [simpl in Hr; lia|].
  rewrite <-app_comm_cons, app_comm_cons. rewrite Hd, <-Hr, take_app_length, drop_app_length, Hr.
  rewrite drop_ge, app_nil_r by lia. f_equal. apply IH; [done|done|lia].
Qed.

Lemma all_records_concat rs :
  (0 < k)%nat → Forall (λ r, length r = k) rs → all_records k (concat rs) = rs.
Proof.
  intros Hk Hrs. apply read_records_concat; [apply length_replicate|done|done|].
  clear -Hk Hrs. induction Hrs as [|r rs Hr _ IH]; simpl; [lia|]. rewrite length_app. lia.
Qed.
End records.

(** When each of [n] processes wrote its record, in whatever order, the reader
    gets the records in the order of the ranks. *)
Lemma reports_any_order {W} (file : W → list byte) k (step : nat → W → W) (rec : nat → list byte) n order w :
  (∀ i w, file (step i w) = write_at (Z.of_nat (k * i)) (rec i) (file w)) → (∀ i, length (rec i) = k) →
  (0 < k)%nat → (0 < n)%nat → order ≡ₚ seq 0 n → (length (file w) ≤ k * n)%nat →
  all_records k (file (foldl (λ w i, step i w) w order)) = rec <$> seq 0 n.
Proof.
  intros Hstep Hrec Hk Hn Hord Hlen.
  assert (∀ l w, file (foldl (λ w i, step i w) w l) = write_all k (file w) ((λ i, (i, rec i)) <$> l)) as ->.
  { induction l as [|i l IH]; intros w'; [done|]. cbn [foldl]. rewrite IH, Hstep. done. }
  assert ((λ i, (i, rec i)) <$> seq 0 n = zip (seq 0 n) (rec <$> seq 0 n)) as Hzip
    by (rewrite zip_with_fmap_r, zip_with_diag; done).
  rewrite (write_all_any_order k _ _ (rec <$> seq 0 n) n); [|by rewrite Hord, Hzip| | |done|done].
  - apply all_records_concat; [done|]. apply Forall_fmap, Forall_true. auto.
  - by rewrite length_fmap, length_seq.
  - apply Forall_fmap, Forall_true. auto.
Qed.

(** A host name in its buffer: [node7]. *)
Definition hostname_ex : list byte :=
  [x6e; x6f; x64; x65; x37] ++ replicate 95 x00.

(** A disk for the witnesses: the files, and the process that looks at them. *)
Record disk : Type := MkDisk { d_files : gmap string (list byte); d_process : Z }.

#[export] Instance disk_io : Files disk := {|
  st_mtime _ := 0;
  map_text _ := None;
  ckpt_access _ _ := false;
  PMPI_File_write_at f off bs w := MkDisk (<[f := write_at off bs (default [] (d_files w !! f))]> (d_files w)) (d_process w);
  stack_top _ := 140737488347136;
  gethostname _ _ := hostname_ex;
  getpid w := 4000 + d_process w;
  PMPI_Allreduce_sum v _ w := (v, w)
|}.
Definition disk_file (f : string) (w : disk) : list byte := default [] (d_files w !! f).
Definition disk_view (i : nat) (w : disk) : disk := MkDisk (d_files w) (Z.of_nat i).
Definition empty_disk : disk := MkDisk ∅ 0.

#[export] Instance disk_laws : FilesLaws disk_file.
Proof.
  split; intros; unfold disk_file; cbn [d_files PMPI_File_write_at disk_io].
  - by rewrite lookup_insert_eq.
  - by rewrite lookup_insert_ne.
Qed.
