(* ===== verification/HeapSeg.v ===== *)
(** * The list of allocations: [src/replication/heapseg.c]

    [rep_malloc], [rep_assign_malloc_context] and [rep_free] keep a doubly
    linked list of the application's allocations, which a transfer or a
    checkpoint walks.  The list elements live in the C heap: [lnodes] holds
    the fields of the live ones by address, so a pointer to a freed element
    finds nothing there and its use is undefined.  The state also has the
    bytes of the process ([mem]) and the table of live [malloc] blocks. *)

From S2P Require Import Prelude Memory.

(** ** Data *)
Record Malloc_container : Type := MkContainer {
  container_address : Z;
  linked_address : Z;
  allocated_address : Z;
  size : Z
}.

Record Malloc_list : Type := MkElement {
  container : Malloc_container;
  next : Z;
  prev : Z
}.

#[global] Instance Malloc_container_eq_dec : EqDecision Malloc_container.
Proof. solve_decision. Defined.
#[global] Instance Malloc_list_eq_dec : EqDecision Malloc_list.
Proof. solve_decision. Defined.

Definition sizeof_Malloc_list : Z := 48.

Inductive Memory_state : Set := CONTIGUOUS | DISCONTIGUOUS.

(** The globals of the file and the memory they point into. *)
Record heap : Type := MkHeap {
  mem : memory;
  blocks : gmap Z Z;
  lnodes : gmap Z Malloc_list;
  head : Z;
  tail : Z;
  total_malloc_allocation_size : Z;
  malloc_number_of_allocations : Z;
  mem_state : Memory_state
}.

Definition set_mem v h := MkHeap v (blocks h) (lnodes h) (head h) (tail h)
  (total_malloc_allocation_size h) (malloc_number_of_allocations h) (mem_state h).
Definition set_blocks v h := MkHeap (mem h) v (lnodes h) (head h) (tail h)
  (total_malloc_allocation_size h) (malloc_number_of_allocations h) (mem_state h).
Definition set_lnodes v h := MkHeap (mem h) (blocks h) v (head h) (tail h)
  (total_malloc_allocation_size h) (malloc_number_of_allocations h) (mem_state h).
Definition set_head v h := MkHeap (mem h) (blocks h) (lnodes h) v (tail h)
  (total_malloc_allocation_size h) (malloc_number_of_allocations h) (mem_state h).
Definition set_tail v h := MkHeap (mem h) (blocks h) (lnodes h) (head h) v
  (total_malloc_allocation_size h) (malloc_number_of_allocations h) (mem_state h).
Definition set_total v h := MkHeap (mem h) (blocks h) (lnodes h) (head h) (tail h)
  v (malloc_number_of_allocations h) (mem_state h).
Definition set_count v h := MkHeap (mem h) (blocks h) (lnodes h) (head h) (tail h)
  (total_malloc_allocation_size h) v (mem_state h).

(** ** Memory accesses *)
Definition load64 (a : Z) : M heap Z := λ h, of_option Undef (load_word 8 (mem h) a) h.
Definition store64 (a v : Z) : M heap unit :=
  let! m := gets mem in
  let! m' := of_option Undef (store_word 8 m a v) in
  modify (set_mem m').

Definition load_node (p : Z) : M heap Malloc_list := λ h, of_option Undef (lnodes h !! p) h.
Definition store_node (p : Z) (n : Malloc_list) : M heap unit :=
  load_node p ;;; modify (λ h, set_lnodes (<[p := n]> (lnodes h)) h).

(** The bytes [a .. a + n - 1], each indeterminate. *)
Fixpoint fresh_bytes (a : Z) (n : nat) (m : memory) : memory :=
  match n with
  | O => m
  | S n' => <[a := None]> (fresh_bytes (a + 1) n' m)
  end.
Definition drop_bytes (a n : Z) (m : memory) : memory :=
  filter (λ p, ¬ (a ≤ p.1 < a + n)) m.

Section operations.
Context `{Allocator}.

Definition malloc (n : Z) : M heap Z := λ h,
  let a := alloc (blocks h) n in
  Done a (set_blocks (<[a := n]> (blocks h))
           (set_mem (fresh_bytes a (Z.to_nat n) (mem h)) h)).

Definition malloc_element (e : Malloc_list) : M heap Z := λ h,
  let a := alloc (blocks h) sizeof_Malloc_list in
  Done a (set_blocks (<[a := sizeof_Malloc_list]> (blocks h))
           (set_lnodes (<[a := e]> (lnodes h)) h)).

(** [free(NULL)] does nothing; freeing what is not a live block is
    undefined. *)
Definition free (p : Z) : M heap unit := λ h,
  if p =? 0 then Done tt h
  else match blocks h !! p with
       | None => Stop Undef h
       | Some n => Done tt (set_blocks (delete p (blocks h))
                     (set_lnodes (delete p (lnodes h))
                       (set_mem (drop_bytes p n (mem h)) h)))
       end.

(** ** The list *)
Definition rep_append (c : Malloc_container) : M heap unit :=
  let! t := gets tail in
  let! element := malloc_element (MkElement c 0 t) in
  let! hd := gets head in
  (if hd =? 0 then modify (set_head element)
   else
     let! last := load_node t in
     store_node t (MkElement (container last) element (prev last))) ;;;
  modify (set_tail element).

Definition rep_remove (element : Z) : M heap unit :=
  let! e := load_node element in
  if (next e =? 0) && (prev e =? 0) then
    free element ;;; modify (set_head 0) ;;; modify (set_tail 0)
  else
    when (negb (next e =? 0))
      (let! n := load_node (next e) in
       store_node (next e) (MkElement (container n) (next n) (prev e))) ;;;
    when (negb (prev e =? 0))
      (let! e' := load_node element in
       let! p := load_node (prev e) in
       store_node (prev e) (MkElement (container p) (next e') (prev p))) ;;;
    free element.

(** [while(temp != NULL) { ...; temp = temp->next; }], as it is used by
    [rep_display]: the elements met, in order.  The loop visits distinct
    live elements of a well-formed list, so one step more than there are
    live elements is enough. *)
Fixpoint walk (fuel : nat) (temp : Z) : M heap (list Malloc_container) :=
  if temp =? 0 then ret []
  else match fuel with
       | O => halt NoFuel
       | S fuel' =>
           let! e := load_node temp in
           let! l := walk fuel' (next e) in
           ret (container e :: l)
       end.
Definition walk_fuel (h : heap) : nat := S (base.size (lnodes h)).

Definition rep_display : M heap (list Malloc_container) :=
  let! temp := gets head in
  let! fuel := gets walk_fuel in
  walk fuel temp.

(** The loop of [rep_free], which stops at the first element of the
    container. *)
Fixpoint free_loop (fuel : nat) (cont_add temp : Z) : M heap unit :=
  if temp =? 0 then ret tt
  else match fuel with
       | O => halt NoFuel
       | S fuel' =>
           let! e := load_node temp in
           if container_address (container e) =? cont_add then
             free (allocated_address (container e)) ;;;
             rep_remove temp
           else free_loop fuel' cont_add (next e)
       end.

Definition rep_free (cont_add : Z) : M heap unit :=
  let! temp := gets head in
  let! fuel := gets walk_fuel in
  free_loop fuel cont_add temp.

(** The loop of the two [rep_clear] functions: [with_block] when the block
    of each element is freed too. *)
Fixpoint clear_loop (with_block : bool) (fuel : nat) (temp : Z) : M heap unit :=
  if temp =? 0 then ret tt
  else match fuel with
       | O => halt NoFuel
       | S fuel' =>
           modify (set_head temp) ;;;
           let! e := load_node temp in
           when with_block (free (allocated_address (container e))) ;;;
           free temp ;;;
           clear_loop with_block fuel' (next e)
       end.

Definition rep_clear : M heap unit :=
  let! hd := gets head in
  let! e := load_node hd in
  free (allocated_address (container e)) ;;;
  let! temp := gets head in
  let! fuel := gets walk_fuel in
  clear_loop false fuel temp ;;;
  modify (set_head 0) ;;; modify (set_tail 0) ;;; modify (set_count 0).

Definition rep_clear_discontiguous : M heap unit :=
  let! temp := gets head in
  let! fuel := gets walk_fuel in
  clear_loop true fuel temp ;;;
  modify (set_head 0) ;;; modify (set_tail 0) ;;; modify (set_count 0).

(** [malloc_number_of_allocations++]. *)
Definition count_allocation : M heap unit :=
  let! n := gets malloc_number_of_allocations in
  let! n' := of_option Undef (c_int (n + 1)) in
  modify (set_count n').

Definition rep_assign_malloc_context (source dest : Z) : M heap unit :=
  let! allocated := load64 source in
  count_allocation ;;;
  rep_append (MkContainer dest source allocated 0) ;;;
  let! v := load64 source in
  store64 dest v.

Definition rep_malloc (cont : Z) (n : Z) : M heap unit :=
  let! block := malloc n in
  store64 cont block ;;;
  let! allocated := load64 cont in
  modify (λ h, set_total (wrap64 (total_malloc_allocation_size h + n)) h) ;;;
  count_allocation ;;;
  rep_append (MkContainer cont 0 allocated n).
End operations.

(** ** Doubly linked segments

    [dseg ln p first l last q]: from [first], whose predecessor is [p], the
    elements [l] (address and container) lead to [last], whose successor is
    [q]. *)
Fixpoint dseg (ln : gmap Z Malloc_list) (p first : Z)
    (l : list (Z * Malloc_container)) (last q : Z) : Prop :=
  match l with
  | [] => first = q ∧ last = p
  | (a, c) :: l' =>
      first = a ∧ a ≠ 0 ∧
      ∃ n, ln !! a = Some (MkElement c n p) ∧ dseg ln a n l' last q
  end.

(** The heap holds the list [l], from [head] to [tail]. *)
Record is_list (h : heap) (l : list (Z * Malloc_container)) : Prop := {
  list_seg : dseg (lnodes h) 0 (head h) l (tail h) 0;
  list_NoDup : NoDup l.*1;
  list_blocks : ∀ a, a ∈ l.*1 → blocks h !! a = Some sizeof_Malloc_list
}.

Section dseg.
Implicit Types (ln : gmap Z Malloc_list) (l : list (Z * Malloc_container)).

Lemma dseg_app ln p first l1 l2 last q :
  dseg ln p first (l1 ++ l2) last q ↔
  ∃ m n, dseg ln p first l1 m n ∧ dseg ln m n l2 last q.
Proof.
  revert p first. induction l1 as [|[a c] l1 IH]; intros p first; simpl.
  - split; [intros H; by exists p, first|].
    by intros (m & n & [-> ->] & H).
  - split.
    + intros (-> & Ha & n & Hn & (m & n' & H1 & H2)%IH).
      exists m, n'. split; [|done]. split; [done|]. split; [done|]. by exists n.
    + intros (m & n' & (-> & Ha & n & Hn & H1) & H2).
      split; [done|]. split; [done|]. exists n. split; [done|]. apply IH. by exists m, n'.
Qed.

(** Elements outside a segment can change. *)
Lemma dseg_frame ln ln' p first l last q :
  (∀ a, a ∈ l.*1 → ln' !! a = ln !! a) →
  dseg ln p first l last q → dseg ln' p first l last q.
Proof.
  revert p first. induction l as [|[a c] l IH]; intros p first Hf; simpl; [done|].
  intros (-> & Ha & n & Hn & H). split; [done|]. split; [done|]. exists n.
  split; [|apply IH; [|done]; intros b Hb; apply Hf; csimpl; set_solver].
  rewrite Hf; [done|]. csimpl. set_solver.
Qed.

Lemma dseg_lookup ln p first l last q a c :
  dseg ln p first l last q → (a, c) ∈ l → a ≠ 0 ∧ ∃ n p', ln !! a = Some (MkElement c n p').
Proof.
  revert p first. induction l as [|[b d] l IH]; intros p first; simpl; [set_solver|].
  intros (-> & Hb & n & Hn & H) [[= -> ->]|Hin]%elem_of_cons; [|by eapply IH].
  split; [done|]. by eexists _, _.
Qed.

Lemma dseg_nonnull ln p first l last q a :
  dseg ln p first l last q → a ∈ l.*1 → a ≠ 0.
Proof.
  intros H ([b c] & -> & Hin)%list_elem_of_fmap. by eapply dseg_lookup in H as [? _].
Qed.

(** The last element of a segment, and changing its successor. *)
Lemma dseg_snoc ln p first l a c last q :
  dseg ln p first (l ++ [(a, c)]) last q ↔
  last = a ∧ a ≠ 0 ∧ ∃ m, ln !! a = Some (MkElement c q m) ∧ dseg ln p first l m a.
Proof.
  rewrite dseg_app. simpl. split.
  - intros (m & n & H & -> & Ha & n' & Hn' & -> & ->). split; [done|].
    split; [done|]. by exists m.
  - intros (-> & Ha & m & Hm & H). exists m, a. split; [done|]. split; [done|].
    split; [done|]. by exists q.
Qed.

Lemma dseg_set_next ln p first l a c last q q' m :
  NoDup (l ++ [(a, c)]).*1 →
  dseg ln p first (l ++ [(a, c)]) last q → ln !! a = Some (MkElement c q m) →
  dseg (<[a := MkElement c q' m]> ln) p first (l ++ [(a, c)]) a q'.
Proof.
  intros Hnd (-> & Ha & m' & Hm' & H)%dseg_snoc Hm. simplify_eq.
  apply dseg_snoc. split; [done|]. split; [done|]. exists m'.
  rewrite lookup_insert_eq. split; [done|].
  eapply dseg_frame; [|exact H]. intros b Hb. apply lookup_insert_ne. intros <-.
  rewrite fmap_app in Hnd. apply NoDup_app in Hnd as (_ & Hd & _).
  apply (Hd a Hb). csimpl. set_solver.
Qed.

Lemma dseg_set_prev ln p p' first a c l last q n :
  NoDup ((a, c) :: l).*1 →
  dseg ln p first ((a, c) :: l) last q → ln !! a = Some (MkElement c n p) →
  dseg (<[a := MkElement c n p']> ln) p' first ((a, c) :: l) last q.
Proof.
  intros Hnd (-> & Ha & n' & Hn' & H) Hn. simplify_eq.
  split; [done|]. split; [done|]. exists n'. rewrite lookup_insert_eq. split; [done|].
  eapply dseg_frame; [|exact H]. intros b Hb. apply lookup_insert_ne. intros <-.
  csimpl in Hnd. by apply NoDup_cons in Hnd as [? _].
Qed.
End dseg.

Lemma is_list_empty h : is_list h [] ↔ head h = 0 ∧ tail h = 0.
Proof.
  split; [by intros [[-> ->] _ _]|]. intros [H1 H2].
  split; [by split|constructor|intros a; csimpl; set_solver].
Qed.

Lemma is_list_cons_head h a c l : is_list h ((a, c) :: l) → head h = a ∧ a ≠ 0.
Proof. intros [(-> & Ha & _) _ _]. done. Qed.

(** ** [rep_append] *)
Section append.
Context `{!Allocator} `{!AllocatorLaws alloc}.

Lemma alloc_not_live bl n : 0 ≤ n → (∀ b s, bl !! b = Some s → 0 ≤ s) → bl !! alloc bl n = None.
Proof.
  intros Hn Hpos. destruct (bl !! alloc bl n) as [s|] eqn:E; [|done].
  destruct (alloc_fresh bl n _ s E Hn (Hpos _ _ E)); lia.
Qed.

(** Every block in the table has a size. *)
Definition blocks_wf (h : heap) : Prop := ∀ b s, blocks h !! b = Some s → 0 ≤ s.

(** What an append leaves alone. *)
Record appended (a : Z) (h h' : heap) : Prop := {
  app_fresh : blocks h !! a = None;
  app_mem : mem h' = mem h;
  app_blocks : blocks h' = <[a := sizeof_Malloc_list]> (blocks h);
  app_total : total_malloc_allocation_size h' = total_malloc_allocation_size h;
  app_count : malloc_number_of_allocations h' = malloc_number_of_allocations h;
  app_alloc : a = alloc (blocks h) sizeof_Malloc_list
}.

Lemma list_fresh h l a : is_list h l → blocks h !! a = None → a ∉ l.*1.
Proof. intros Hl Ha Hin. apply (list_blocks _ _ Hl) in Hin. congruence. Qed.

Lemma list_blocks_app h l a c :
  is_list h l → ∀ b, b ∈ (l ++ [(a, c)]).*1 →
  <[a := sizeof_Malloc_list]> (blocks h) !! b = Some sizeof_Malloc_list.
Proof.
  intros Hl b. rewrite fmap_app, elem_of_app. csimpl. rewrite list_elem_of_singleton.
  destruct (decide (a = b)) as [->|Hne]; [by rewrite lookup_insert_eq|].
  rewrite lookup_insert_ne by done. intros [Hb | ->]; [|done].
  by apply (list_blocks _ _ Hl).
Qed.

Lemma NoDup_fst_snoc (l : list (Z * Malloc_container)) a c :
  NoDup l.*1 → a ∉ l.*1 → NoDup (l ++ [(a, c)]).*1.
Proof.
  intros Hnd Ha. rewrite fmap_app. apply NoDup_app. split; [done|].
  split; [|csimpl; apply NoDup_singleton].
  intros x Hx. csimpl. rewrite list_elem_of_singleton. by intros ->.
Qed.

Lemma rep_append_spec h l c :
  blocks_wf h → is_list h l →
  ∃ a h', rep_append c h = Done tt h' ∧ is_list h' (l ++ [(a, c)]) ∧ appended a h h'.
Proof.
  intros Hwf Hl. set (a := alloc (blocks h) sizeof_Malloc_list).
  assert (blocks h !! a = None) as Hfresh by by apply alloc_not_live.
  assert (a ≠ 0) as Ha0 by (pose proof (alloc_pos (blocks h) sizeof_Malloc_list); lia).
  pose proof (list_fresh _ _ _ Hl Hfresh) as Hin.
  pose proof (NoDup_fst_snoc _ _ c (list_NoDup _ _ Hl) Hin) as Hnd.
  pose proof (list_blocks_app _ _ a c Hl) as Hblk.
  destruct l as [|[b d] l _] using rev_ind.
  - apply is_list_empty in Hl as [Hh Ht].
    exists a. eexists. unfold rep_append, malloc_element. simpl. rewrite Hh. simpl.
    split; [done|]. split; [|by split].
    split; simpl; [|done|done]. split; [done|]. split; [done|].
    exists 0. by rewrite lookup_insert_eq, Ht.
  - destruct Hl as [Hs Hnd' Hb].
    pose proof Hs as (Htl & Hb0 & m & Hm & Hs')%dseg_snoc.
    assert (a ≠ b) as Hab.
    { intros ->. apply Hin. rewrite fmap_app. csimpl. set_solver. }
    assert (head h ≠ 0) as Hh0.
    { destruct l as [|[x y] l]; simpl in Hs; destruct Hs as (-> & ? & _); done. }
    exists a. eexists. unfold rep_append, malloc_element. simpl.
    rewrite (proj2 (Z.eqb_neq _ _) Hh0). unfold store_node, load_node. simpl.
    rewrite Htl, lookup_insert_ne, Hm by done. simpl.
    rewrite lookup_insert_ne, Hm by done. simpl.
    split; [done|]. split; [|by split].
    split; simpl; [|done|done].
    apply dseg_snoc. split; [done|]. split; [done|]. exists b.
    rewrite lookup_insert_ne, lookup_insert_eq by done. split; [done|].
    eapply dseg_set_next; [done| |by rewrite lookup_insert_ne].
    eapply dseg_frame; [|exact Hs]. intros x Hx. apply lookup_insert_ne. by intros <-.
Qed.
End append.

(** ** [rep_remove] *)

(** What [free(element)] does to the rest of the state. *)
Record removed (a : Z) (h h' : heap) : Prop := {
  rem_mem : mem h' = drop_bytes a sizeof_Malloc_list (mem h);
  rem_blocks : blocks h' = delete a (blocks h);
  rem_lnodes : lnodes h' !! a = None;
  rem_total : total_malloc_allocation_size h' = total_malloc_allocation_size h;
  rem_count : malloc_number_of_allocations h' = malloc_number_of_allocations h
}.

Lemma dseg_delete ln a p first l last q :
  a ∉ l.*1 → dseg ln p first l last q → dseg (delete a ln) p first l last q.
Proof.
  intros Ha. apply dseg_frame. intros b Hb. apply lookup_delete_ne. by intros <-.
Qed.

Lemma NoDup_middle_fst (l1 l2 : list (Z * Malloc_container)) a c :
  NoDup (l1 ++ (a, c) :: l2).*1 →
  NoDup l1.*1 ∧ NoDup l2.*1 ∧ a ∉ l1.*1 ∧ a ∉ l2.*1 ∧ (∀ x, x ∈ l1.*1 → x ∉ l2.*1).
Proof.
  rewrite fmap_app, fmap_cons. simpl. intros (H1 & Hd & H2)%NoDup_app.
  apply NoDup_cons in H2 as [Ha H2]. split; [done|]. split; [done|].
  split; [intros Hin; apply (Hd a Hin); set_solver|]. split; [done|].
  intros x Hx Hx2. apply (Hd x Hx). set_solver.
Qed.

(** Freeing a live element. *)
Lemma free_element h a :
  a ≠ 0 → blocks h !! a = Some sizeof_Malloc_list →
  free a h = Done tt (set_blocks (delete a (blocks h))
               (set_lnodes (delete a (lnodes h))
                 (set_mem (drop_bytes a sizeof_Malloc_list (mem h)) h))).
Proof. intros Ha Hb. unfold free. by rewrite (proj2 (Z.eqb_neq _ _) Ha), Hb. Qed.

Lemma rep_remove_only h a c :
  is_list h [(a, c)] →
  ∃ h', rep_remove a h = Done tt h' ∧ removed a h h' ∧ is_list h' [].
Proof.
  intros Hl. pose proof Hl as [(Hh & Ha & n & Hn & -> & Ht) _ Hb].
  eexists. unfold rep_remove, load_node. simpl. rewrite Hn. simpl.
  rewrite free_element; [|done|apply Hb; csimpl; set_solver]. simpl.
  split; [done|]. split; [split; simpl; try done; apply lookup_delete_eq|].
  by apply is_list_empty.
Qed.

Lemma rep_remove_middle h l1 a c l2 :
  l1 ≠ [] → l2 ≠ [] → is_list h (l1 ++ (a, c) :: l2) →
  ∃ h', rep_remove a h = Done tt h' ∧ removed a h h' ∧ is_list h' (l1 ++ l2).
Proof.
  intros H1 H2 Hl. destruct l1 as [|[b d] l1 _] using rev_ind; [done|].
  destruct l2 as [|[x y] l2]; [done|]. clear H1 H2.
  pose proof Hl as [Hs Hnd Hb].
  pose proof (NoDup_middle_fst _ _ _ _ Hnd) as (Hn1 & Hn2 & Ha1 & Ha2 & Hd).
  apply dseg_app in Hs as (m & n & Hs1 & (-> & Ha & n' & Hn' & Hs2)).
  pose proof Hs1 as (-> & Hb0 & pb & Hpb & _)%dseg_snoc.
  pose proof Hs2 as (-> & Hx0 & nx & Hnx & _).
  assert (a ≠ b) as Hab by (intros ->; apply Ha1; rewrite fmap_app; csimpl; set_solver).
  assert (a ≠ x) as Hax by (intros ->; apply Ha2; csimpl; set_solver).
  assert (b ≠ x) as Hbx.
  { intros ->. apply (Hd x); [rewrite fmap_app|]; csimpl; set_solver. }
  eexists. unfold rep_remove, load_node, store_node, load_node. simpl. rewrite Hn'. simpl.
  rewrite (proj2 (Z.eqb_neq _ _) Hx0). simpl. rewrite Hnx. simpl. rewrite Hnx. simpl.
  rewrite (proj2 (Z.eqb_neq _ _) Hb0). simpl.
  rewrite lookup_insert_ne, Hn' by done. simpl.
  rewrite lookup_insert_ne, Hpb by done. simpl.
  rewrite lookup_insert_ne, Hpb by done. simpl.
  rewrite free_element; [|done|apply Hb; rewrite fmap_app; csimpl; set_solver]. simpl.
  split; [done|]. split; [split; simpl; try done; apply lookup_delete_eq|].
  split; simpl.
  - apply dseg_app. exists b, x. split.
    + apply dseg_delete; [done|]. eapply dseg_set_next; [done| |by rewrite lookup_insert_ne].
      eapply dseg_frame; [|exact Hs1]. intros z Hz. apply lookup_insert_ne. intros <-.
      apply (Hd x Hz). csimpl. set_solver.
    + apply dseg_delete; [done|]. eapply dseg_frame; [|by eapply dseg_set_prev].
      intros z Hz. apply lookup_insert_ne. intros <-. apply (Hd b); [|done].
      rewrite fmap_app. csimpl. set_solver.
  - rewrite fmap_app. apply NoDup_app. split; [done|]. by split.
  - intros z. rewrite fmap_app, elem_of_app. intros Hz.
    rewrite lookup_delete_ne; [|intros <-; naive_solver].
    apply Hb. rewrite fmap_app, fmap_cons, elem_of_app, elem_of_cons. naive_solver.
Qed.

(** The first element of several: its successor is patched, [head] is not. *)
Lemma rep_remove_first h a c l2 :
  l2 ≠ [] → is_list h ((a, c) :: l2) →
  ∃ h', rep_remove a h = Done tt h' ∧ removed a h h' ∧ head h' = a.
Proof.
  intros H2 Hl. destruct l2 as [|[x y] l2]; [done|].
  pose proof Hl as [(Hh & Ha & n & Hn & Hs2) Hnd Hb].
  pose proof Hs2 as (-> & Hx0 & nx & Hnx & _).
  eexists. unfold rep_remove, store_node, load_node. simpl. rewrite Hn. simpl.
  rewrite (proj2 (Z.eqb_neq _ _) Hx0). simpl. rewrite Hnx. simpl. rewrite Hnx. simpl.
  rewrite free_element; [|done|apply Hb; csimpl; set_solver]. simpl.
  split; [done|]. split; [|done]. split; simpl; try done. apply lookup_delete_eq.
Qed.

(** The last element of several: its predecessor is patched, [tail] is not. *)
Lemma rep_remove_last h l1 a c :
  l1 ≠ [] → is_list h (l1 ++ [(a, c)]) →
  ∃ h' m, rep_remove a h = Done tt h' ∧ removed a h h' ∧ tail h' = a ∧
    head h' = head h ∧ head h ≠ 0 ∧ dseg (lnodes h') 0 (head h') l1 m 0.
Proof.
  intros H1 Hl. destruct l1 as [|[b d] l1 _] using rev_ind; [done|]. clear H1.
  pose proof Hl as [Hs Hnd Hb].
  pose proof (NoDup_middle_fst _ [] _ _ Hnd) as (Hn1 & _ & Ha1 & _ & _).
  apply dseg_snoc in Hs as (Ht & Ha & m & Hm & Hs1).
  pose proof Hs1 as (-> & Hb0 & pb & Hpb & _)%dseg_snoc.
  assert (a ≠ b) as Hab by (intros ->; apply Ha1; rewrite fmap_app; csimpl; set_solver).
  eexists _, b. unfold rep_remove, store_node, load_node. simpl. rewrite Hm. simpl.
  rewrite (proj2 (Z.eqb_neq _ _) Hb0). simpl. rewrite Hm. simpl.
  rewrite Hpb. simpl. rewrite Hpb. simpl.
  rewrite free_element; [|done|apply Hb; rewrite fmap_app; csimpl; set_solver]. simpl.
  split; [done|]. split; [split; simpl; try done; apply lookup_delete_eq|].
  split; [done|]. split; [done|]. split.
  - destruct l1 as [|[x y] l1]; simpl in Hs1; destruct Hs1 as (-> & ? & _); done.
  - apply dseg_delete; [done|]. by eapply dseg_set_next.
Qed.

(** ** The loops over the list *)
Lemma seg_length_fuel h p first l last q :
  dseg (lnodes h) p first l last q → NoDup l.*1 → (length l < walk_fuel h)%nat.
Proof.
  intros Hs Hnd. unfold walk_fuel.
  assert (list_to_set l.*1 ⊆ dom (lnodes h)) as Hsub.
  { intros a Ha. rewrite elem_of_list_to_set in Ha.
    apply list_elem_of_fmap in Ha as ([b c] & -> & Hin).
    destruct (dseg_lookup _ _ _ _ _ _ _ _ Hs Hin) as (_ & n & p' & Hn).
    apply elem_of_dom. by eexists. }
  apply subseteq_size in Hsub. rewrite size_list_to_set, length_fmap, size_dom in Hsub by done.
  lia.
Qed.

Lemma list_length_fuel h l : is_list h l → (length l < walk_fuel h)%nat.
Proof. intros [Hs Hnd _]. by eapply seg_length_fuel. Qed.

Lemma walk_spec fuel p cur l last h :
  (length l ≤ fuel)%nat → dseg (lnodes h) p cur l last 0 → walk fuel cur h = Done l.*2 h.
Proof.
  revert p cur l. induction fuel as [|fuel IH]; intros p cur l Hf Hs.
  - destruct l; [|simpl in Hf; lia]. by destruct Hs as [-> _].
  - destruct l as [|[a c] l]; [by destruct Hs as [-> _]|].
    destruct Hs as (-> & Ha & n & Hn & Hs). cbn [walk].
    rewrite (proj2 (Z.eqb_neq _ _) Ha). unfold load_node. simpl. rewrite Hn. simpl.
    erewrite IH; [done| |exact Hs]. simpl in Hf. lia.
Qed.

Lemma rep_display_spec h l : is_list h l → rep_display h = Done l.*2 h.
Proof.
  intros Hl. unfold rep_display. cbn [bind gets].
  eapply walk_spec; [by apply Nat.lt_le_incl, list_length_fuel|apply Hl].
Qed.

Lemma free_loop_none fuel cont p cur l last h :
  (length l ≤ fuel)%nat → dseg (lnodes h) p cur l last 0 →
  Forall (λ x, container_address x.2 ≠ cont) l →
  free_loop fuel cont cur h = Done tt h.
Proof.
  revert p cur l. induction fuel as [|fuel IH]; intros p cur l Hf Hs Hl.
  - destruct l; [|simpl in Hf; lia]. by destruct Hs as [-> _].
  - destruct l as [|[a c] l]; [by destruct Hs as [-> _]|].
    destruct Hs as (-> & Ha & n & Hn & Hs). apply Forall_cons in Hl as [Hc Hl]. simpl in Hc.
    cbn [free_loop]. rewrite (proj2 (Z.eqb_neq _ _) Ha). unfold load_node. simpl.
    rewrite Hn. simpl. rewrite (proj2 (Z.eqb_neq _ _) Hc).
    eapply IH; [|exact Hs|done]. simpl in Hf. lia.
Qed.

Lemma free_loop_found fuel cont p cur l1 a c l2 last h :
  (length l1 < fuel)%nat → dseg (lnodes h) p cur (l1 ++ (a, c) :: l2) last 0 →
  Forall (λ x, container_address x.2 ≠ cont) l1 → container_address c = cont →
  free_loop fuel cont cur h = (free (allocated_address c) ;;; rep_remove a) h.
Proof.
  intros Hf Hs Hl1 <-. revert p cur l1 Hf Hs Hl1.
  induction fuel as [|fuel IH]; intros p cur l1 Hf Hs Hl1; [lia|].
  destruct l1 as [|[b d] l1].
  - destruct Hs as (-> & Ha & n & Hn & _). cbn [free_loop].
    rewrite (proj2 (Z.eqb_neq _ _) Ha). unfold load_node at 1. cbn [bind of_option].
    rewrite Hn. cbn [bind of_option container]. by rewrite Z.eqb_refl.
  - destruct Hs as (-> & Hb & n & Hn & Hs). apply Forall_cons in Hl1 as [Hc Hl1]. simpl in Hc.
    cbn [free_loop]. rewrite (proj2 (Z.eqb_neq _ _) Hb). unfold load_node at 1.
    cbn [bind of_option]. rewrite Hn. cbn [bind of_option container next].
    rewrite (proj2 (Z.eqb_neq _ _) Hc). eapply IH; [|exact Hs|done]. simpl in Hf. lia.
Qed.

(** Freeing a block of the application leaves the list alone. *)
Lemma free_block_list h l p n :
  p ≠ 0 → blocks h !! p = Some n → p ∉ l.*1 → is_list h l →
  ∃ h', free p h = Done tt h' ∧ is_list h' l ∧
    blocks h' = delete p (blocks h) ∧ mem h' = drop_bytes p n (mem h) ∧
    malloc_number_of_allocations h' = malloc_number_of_allocations h ∧
    head h' = head h ∧ tail h' = tail h.
Proof.
  intros Hp Hn Hin [Hs Hnd Hb]. eexists. unfold free.
  rewrite (proj2 (Z.eqb_neq _ _) Hp), Hn. split; [done|]. split; [|done].
  split; simpl; [by apply dseg_delete|done|].
  intros b Hb'. rewrite lookup_delete_ne by (by intros <-). by apply Hb.
Qed.

(** ** The invariant of the list of allocations *)
Definition total_size (l : list (Z * Malloc_container)) : Z :=
  foldr (λ x n, size x.2 + n) 0 l.

Record heap_ok (h : heap) (l : list (Z * Malloc_container)) : Prop := {
  ok_list : is_list h l;
  ok_blocks : blocks_wf h;
  ok_count : malloc_number_of_allocations h = Z.of_nat (length l);
  ok_total : total_malloc_allocation_size h = wrap64 (total_size l);
  ok_live a c : (a, c) ∈ l →
    allocated_address c ≠ 0 ∧ allocated_address c ∉ l.*1 ∧
    is_Some (blocks h !! allocated_address c)
}.

Lemma total_size_snoc l a c : total_size (l ++ [(a, c)]) = total_size l + size c.
Proof. unfold total_size. induction l as [|x l IH]; simpl; [lia|]. rewrite IH. lia. Qed.

Lemma wrap64_add a b : wrap64 (wrap64 a + b) = wrap64 (a + b).
Proof. unfold wrap64. by rewrite Zplus_mod_idemp_l. Qed.

Section malloc.
Context `{!Allocator} `{!AllocatorLaws alloc}.

Lemma blocks_wf_insert h a n : blocks_wf h → 0 ≤ n →
  ∀ b s, <[a := n]> (blocks h) !! b = Some s → 0 ≤ s.
Proof.
  intros Hwf Hn b s. destruct (decide (a = b)) as [->|Hne].
  - rewrite lookup_insert_eq. by intros [= <-].
  - rewrite lookup_insert_ne by done. apply Hwf.
Qed.

Lemma fresh_bytes_valid a n m b k :
  valid_range m b k → valid_range (fresh_bytes a n m) b k.
Proof.
  revert a. induction n as [|n IH]; intros a Hv i Hi; simpl; [by apply Hv|].
  destruct (decide (a = b + i)) as [->|Hne]; [by rewrite lookup_insert_eq|].
  rewrite lookup_insert_ne by done. by apply IH.
Qed.

(** The state after the first two statements of [rep_malloc]. *)
Lemma malloc_list h l n :
  0 ≤ n → heap_ok h l →
  let a := alloc (blocks h) n in
  ∃ h', malloc n h = Done a h' ∧ is_list h' l ∧ blocks_wf h' ∧
    a ≠ 0 ∧ a ∉ l.*1 ∧ blocks h !! a = None ∧
    blocks h' = <[a := n]> (blocks h) ∧
    mem h' = fresh_bytes a (Z.to_nat n) (mem h) ∧
    total_malloc_allocation_size h' = total_malloc_allocation_size h ∧
    malloc_number_of_allocations h' = malloc_number_of_allocations h.
Proof.
  intros Hn [[Hs Hnd Hb] Hwf _ _ _] a.
  assert (blocks h !! a = None) as Hfresh by by apply alloc_not_live.
  eexists. split; [reflexivity|]. split; [split; simpl; [done|done|]|].
  { intros b Hb'. rewrite lookup_insert_ne; [by apply Hb|].
    intros <-. apply Hb in Hb'. unfold a in Hfresh. congruence. }
  split; [unfold blocks_wf; simpl; by apply blocks_wf_insert|].
  split; [pose proof (alloc_pos (blocks h) n); unfold a; lia|].
  split; [|done]. intros Hin. apply Hb in Hin. congruence.
Qed.
End malloc.

(** The list depends on these fields only. *)
Lemma is_list_ext h h' l :
  lnodes h' = lnodes h → head h' = head h → tail h' = tail h → blocks h' = blocks h →
  is_list h l → is_list h' l.
Proof. intros E1 E2 E3 E4 [Hs Hnd Hb]. split; [by rewrite E1, E2, E3|done|by rewrite E4]. Qed.

Lemma fresh_bytes_other a n m x :
  ¬ (a ≤ x < a + Z.of_nat n) → fresh_bytes a n m !! x = m !! x.
Proof.
  revert a. induction n as [|n IH]; intros a Hx; simpl; [done|].
  rewrite lookup_insert_ne by lia. apply IH. lia.
Qed.

Lemma ok_live_snoc h h' l a c :
  (∀ b s, blocks h !! b = Some s → blocks h' !! b = Some s) →
  a ∉ l.*1 → blocks h !! a = None →
  (∀ b d, (b, d) ∈ l → allocated_address d ≠ 0 ∧ allocated_address d ∉ l.*1 ∧
                       is_Some (blocks h !! allocated_address d)) →
  allocated_address c ≠ 0 → allocated_address c ∉ (l ++ [(a, c)]).*1 →
  is_Some (blocks h' !! allocated_address c) →
  ∀ b d, (b, d) ∈ l ++ [(a, c)] →
    allocated_address d ≠ 0 ∧ allocated_address d ∉ (l ++ [(a, c)]).*1 ∧
    is_Some (blocks h' !! allocated_address d).
Proof.
  intros Hbl Ha Hfresh Hl H0 Hin Hlive b d [Hbd|Hbd]%elem_of_app.
  - destruct (Hl _ _ Hbd) as (Hd0 & Hd & [s Hs]). split; [done|]. split.
    + rewrite fmap_app, elem_of_app. csimpl. rewrite list_elem_of_singleton.
      intros [?|E]; [done|]. rewrite E in Hs. congruence.
    + exists s. auto.
  - apply list_elem_of_singleton in Hbd as [= -> ->]. done.
Qed.

Section rep_malloc.
Context `{!Allocator} `{!AllocatorLaws alloc}.

Lemma count_allocation_spec h :
  0 ≤ malloc_number_of_allocations h < INT_MAX →
  count_allocation h = Done tt (set_count (malloc_number_of_allocations h + 1) h).
Proof.
  intros Hrange. unfold count_allocation. simpl. rewrite c_int_Some; [done|].
  unfold INT_MIN. unfold INT_MAX in *. lia.
Qed.

(** Counting an allocation and appending its container. *)
Lemma count_append_spec h l c :
  is_list h l → blocks_wf h → 0 ≤ malloc_number_of_allocations h < INT_MAX →
  ∃ a h', (count_allocation ;;; rep_append c) h = Done tt h' ∧
    is_list h' (l ++ [(a, c)]) ∧ a ∉ l.*1 ∧ blocks h !! a = None ∧
    mem h' = mem h ∧ blocks h' = <[a := sizeof_Malloc_list]> (blocks h) ∧
    total_malloc_allocation_size h' = total_malloc_allocation_size h ∧
    malloc_number_of_allocations h' = malloc_number_of_allocations h + 1.
Proof.
  intros Hl Hwf Hc. erewrite bind_Done by by apply count_allocation_spec.
  set (h1 := set_count _ _).
  assert (is_list h1 l) as Hl1 by by apply (is_list_ext h).
  destruct (rep_append_spec h1 l c Hwf Hl1) as (a & h' & Hrun & Hl' & [Hf Hm Hb Ht Hn _]).
  exists a, h'. split; [done|]. split; [done|].
  split; [eapply list_fresh; [exact Hl|exact Hf]|]. done.
Qed.
End rep_malloc.

(** A test of the invariant, for concrete heaps. *)
Fixpoint dsegb (ln : gmap Z Malloc_list) (p first : Z)
    (l : list (Z * Malloc_container)) (last q : Z) : bool :=
  match l with
  | [] => (first =? q) && (last =? p)
  | (a, c) :: l' =>
      (first =? a) && negb (a =? 0) &&
      match ln !! a with
      | Some e => bool_decide (container e = c) && (prev e =? p) &&
                  dsegb ln a (next e) l' last q
      | None => false
      end
  end.

Definition heap_okb (h : heap) (l : list (Z * Malloc_container)) : bool :=
  dsegb (lnodes h) 0 (head h) l (tail h) 0 &&
  bool_decide (NoDup l.*1) &&
  bool_decide (Forall (λ a, blocks h !! a = Some sizeof_Malloc_list) l.*1) &&
  bool_decide (map_Forall (λ _ s, 0 ≤ s) (blocks h)) &&
  (malloc_number_of_allocations h =? Z.of_nat (length l)) &&
  (total_malloc_allocation_size h =? wrap64 (total_size l)) &&
  bool_decide (Forall (λ x, allocated_address x.2 ≠ 0 ∧ allocated_address x.2 ∉ l.*1 ∧
    is_Some (blocks h !! allocated_address x.2)) l).

Lemma dsegb_sound ln p first l last q :
  dsegb ln p first l last q = true → dseg ln p first l last q.
Proof.
  revert p first. induction l as [|[a c] l IH]; intros p first; simpl.
  - rewrite andb_true_iff, !Z.eqb_eq. done.
  - rewrite !andb_true_iff, Z.eqb_eq, negb_true_iff, Z.eqb_neq.
    intros [[-> Ha] Hl]. split; [done|]. split; [done|].
    destruct (ln !! a) as [[c' n p']|]; [|done]. simpl in Hl.
    rewrite !andb_true_iff, bool_decide_eq_true, Z.eqb_eq in Hl.
    destruct Hl as [[-> ->] Hl]. exists n. split; [done|]. by apply IH.
Qed.

Lemma heap_okb_sound h l : heap_okb h l = true → heap_ok h l.
Proof.
  unfold heap_okb. rewrite !andb_true_iff, !bool_decide_eq_true, !Z.eqb_eq.
  intros [[[[[[Hs Hnd] Hb] Hwf] Hc] Ht] Hl]. rewrite Forall_forall in Hb. rewrite Forall_forall in Hl.
  split; [by split; [apply dsegb_sound| |]|exact Hwf|done|done|].
  intros a c Hin. by apply (Hl (a, c)).
Qed.

(** ** Properties *)

(** C25: [rep_malloc] on a consistent list of allocations.  It returns; the
    block it stores in the container is a new live block of the requested
    size, at the end of the list there is one new element that records the
    container, the block and the size, the counters account for it (so the
    invariant holds again), and no byte of any other object changes. *)
Theorem rep_malloc_correct `{!Allocator} `{!AllocatorLaws alloc} h l cont n :
  heap_ok h l → 0 ≤ n → valid_range (mem h) cont 8 →
  alloc (blocks h) n < 2 ^ 64 → Z.of_nat (length l) < INT_MAX →
  ∃ a h', rep_malloc cont n h = Done tt h' ∧
    let b := alloc (blocks h) n in
    heap_ok h' (l ++ [(a, MkContainer cont 0 b n)]) ∧
    load_word 8 (mem h') cont = Some b ∧
    blocks h !! b = None ∧ blocks h' !! b = Some n ∧
    (∀ x s, blocks h !! x = Some s → blocks h' !! x = Some s) ∧
    (∀ x, ¬ (cont ≤ x < cont + 8) → ¬ (b ≤ x < b + n) → mem h' !! x = mem h !! x).
Proof.
  intros Hok Hn Hv Hmax Hlen. set (b := alloc (blocks h) n) in *.
  destruct (malloc_list h l n Hn Hok)
    as (h1 & Hrun1 & Hl1 & Hwf1 & Hb0 & Hbl & Hbf & Hbb & Hm1 & Ht1 & Hc1).
  fold b in Hrun1, Hb0, Hbl, Hbf, Hbb, Hm1.
  destruct (store_word_Some 8 (mem h1) cont b) as [m2 Hm2].
  { rewrite Hm1. by apply fresh_bytes_valid. }
  assert (load_word 8 m2 cont = Some b) as Hload.
  { rewrite (load_store_word _ _ _ _ _ Hm2), Z.mod_small; [done|].
    pose proof (alloc_pos (blocks h) n) as Hpos. fold b in Hpos. split; [lia|]. exact Hmax. }
  set (h2 := set_total (wrap64 (total_malloc_allocation_size h1 + n)) (set_mem m2 h1)).
  assert (is_list h2 l) as Hl2 by by apply (is_list_ext h1).
  destruct (count_append_spec h2 l (MkContainer cont 0 b n) Hl2 Hwf1)
    as (a & h' & Hrun & Hl' & Ha & Haf & Hm' & Hb' & Ht' & Hc').
  { simpl. rewrite Hc1, (ok_count _ _ Hok). lia. }
  exists a, h'. split.
  { unfold rep_malloc. erewrite bind_Done by exact Hrun1.
    unfold store64, load64. cbn [bind gets of_option]. rewrite Hm2.
    cbn [bind gets of_option modify mem set_mem]. rewrite Hload.
    cbn [bind of_option modify]. exact Hrun. }
  simpl in Hb'. rewrite Hbb in Hb'.
  assert (a ≠ b) as Hab.
  { intros ->. simpl in Haf. rewrite Hbb, lookup_insert_eq in Haf. done. }
  assert (blocks h !! a = None) as Haf'.
  { simpl in Haf. by rewrite Hbb, lookup_insert_ne in Haf. }
  cbv zeta. split; [|split; [|split; [done|split; [|split]]]].
  - split; [done| | | |].
    + intros x s. rewrite Hb'. destruct (decide (a = x)) as [->|Hax].
      * rewrite lookup_insert_eq. by intros [= <-].
      * rewrite lookup_insert_ne, <-Hbb by done. apply Hwf1.
    + rewrite Hc'. simpl. rewrite Hc1, (ok_count _ _ Hok). len.
    + rewrite Ht'. simpl. rewrite Ht1, (ok_total _ _ Hok), total_size_snoc. apply wrap64_add.
    + apply (ok_live_snoc h); [| |done|apply Hok|done| |].
      * intros x s Hx. rewrite Hb', !lookup_insert_ne by congruence. done.
      * done.
      * rewrite fmap_app, elem_of_app. csimpl. rewrite list_elem_of_singleton.
        intros [?|?]; congruence.
      * simpl. rewrite Hb', lookup_insert_ne, lookup_insert_eq by done. by eexists.
  - by rewrite Hm'.
  - rewrite Hb', lookup_insert_ne, lookup_insert_eq by done. done.
  - intros x s Hx. rewrite Hb', !lookup_insert_ne by congruence. done.
  - intros x Hx1 Hx2. rewrite Hm'. simpl.
    destruct (store_bytes_lookup _ _ _ _ Hm2) as (_ & Hother & _).
    rewrite Hother by (rewrite length_fmap, length_encode; lia).
    rewrite Hm1. apply fresh_bytes_other. lia.
Qed.

(** ** [rep_free] *)

(** [rep_free] meets the first element of the container. *)
Lemma rep_free_found h l1 a c l2 cont :
  is_list h (l1 ++ (a, c) :: l2) →
  Forall (λ x, container_address x.2 ≠ cont) l1 → container_address c = cont →
  rep_free cont h = (free (allocated_address c) ;;; rep_remove a) h.
Proof.
  intros Hl Hl1 Hc. unfold rep_free. cbn [bind gets].
  eapply free_loop_found; [|apply Hl|done|done].
  pose proof (list_length_fuel _ _ Hl) as Hf. rewrite length_app in Hf. simpl in Hf. lia.
Qed.

(** The state in which [rep_remove] runs. *)
Lemma rep_free_block h l a c :
  heap_ok h l → (a, c) ∈ l →
  ∃ h1, free (allocated_address c) h = Done tt h1 ∧ is_list h1 l ∧
    blocks h1 = delete (allocated_address c) (blocks h) ∧
    malloc_number_of_allocations h1 = malloc_number_of_allocations h.
Proof.
  intros Hok Hin. destruct (ok_live _ _ Hok _ _ Hin) as (H0 & Hni & [n Hn]).
  destruct (free_block_list _ _ _ _ H0 Hn Hni (ok_list _ _ Hok))
    as (h1 & Hrun & Hl & Hb & _ & Hc & _). by exists h1.
Qed.

(** C37: [rep_free] of an application container whose element is inside the list,
    or is the only one.  It returns, the block and the list element are no longer
    live and every other block is, and the list lost exactly this element;
    but [malloc_number_of_allocations] is not decremented, so that it no
    longer is the length of the list that [transfer_heap_seg] walks with it. *)
Theorem rep_free_correct h l1 a c l2 cont :
  heap_ok h (l1 ++ (a, c) :: l2) → (l1 = [] ↔ l2 = []) →
  Forall (λ x, container_address x.2 ≠ cont) l1 → container_address c = cont →
  ∃ h', rep_free cont h = Done tt h' ∧
    is_list h' (l1 ++ l2) ∧
    blocks h' = delete a (delete (allocated_address c) (blocks h)) ∧
    malloc_number_of_allocations h' = Z.of_nat (length (l1 ++ l2)) + 1.
Proof.
  intros Hok Hends Hl1 Hc. pose proof (ok_list _ _ Hok) as Hl.
  destruct (rep_free_block h _ a c Hok) as (h1 & Hrun & Hl' & Hb & Hn); [set_solver|].
  assert (∃ h', rep_remove a h1 = Done tt h' ∧ removed a h1 h' ∧ is_list h' (l1 ++ l2))
    as (h' & Hrem & [_ Hb' _ _ Hn'] & Hl'').
  { destruct l1 as [|x l1]; destruct l2 as [|y l2].
    - by apply rep_remove_only with c.
    - destruct Hends as [Hends _]. by specialize (Hends eq_refl).
    - destruct Hends as [_ Hends]. by specialize (Hends eq_refl).
    - by apply rep_remove_middle with c. }
  exists h'. split; [|split; [done|split]].
  - erewrite rep_free_found by done. by erewrite bind_Done.
  - by rewrite Hb', Hb.
  - rewrite Hn', Hn, (ok_count _ _ Hok). len.
Qed.

(** [rep_free] of the first of several allocations.  [rep_remove] never
    moves [head], so [head] is left on the element it freed: the call returns,
    and after it both a walk of the list and any further [rep_free] use freed
    memory. *)
Theorem rep_free_first_dangles h a c l2 cont :
  heap_ok h ((a, c) :: l2) → l2 ≠ [] → container_address c = cont →
  ∃ h', rep_free cont h = Done tt h' ∧ head h' = a ∧ blocks h' !! a = None ∧
    rep_display h' = Stop Undef h' ∧ ∀ cont', rep_free cont' h' = Stop Undef h'.
Proof.
  intros Hok H2 Hc. pose proof (ok_list _ _ Hok) as Hl.
  destruct (rep_free_block h _ a c Hok) as (h1 & Hrun & Hl' & Hb & Hn); [set_solver|].
  destruct (rep_remove_first _ _ _ _ H2 Hl') as (h' & Hrem & [_ Hb' Hln _ _] & Hhd).
  apply is_list_cons_head in Hl as [_ Ha]. apply Z.eqb_neq in Ha.
  exists h'. split; [|split; [done|split; [|split]]].
  - erewrite (rep_free_found _ [] a c l2); [by erewrite bind_Done|apply Hok|done|done].
  - rewrite Hb'. apply lookup_delete_eq.
  - unfold rep_display, walk_fuel. cbn [bind gets walk]. rewrite Hhd, Ha.
    unfold load_node. cbn. by rewrite Hln.
  - intros cont'. unfold rep_free, walk_fuel. cbn [bind gets free_loop]. rewrite Hhd, Ha.
    unfold load_node. cbn. by rewrite Hln.
Qed.

(** [rep_free] of the last of several allocations.  [rep_remove] never
    moves [tail], so the next [rep_append] writes through a pointer to freed
    memory.  The write is undefined, unless the allocator gave the new
    element the very address that was freed; then the element becomes its own
    successor and predecessor, and the list that [head] leads to does not
    hold it. *)
Theorem rep_free_last_dangles `{!Allocator} h l1 a c cont c' :
  heap_ok h (l1 ++ [(a, c)]) → l1 ≠ [] →
  Forall (λ x, container_address x.2 ≠ cont) l1 → container_address c = cont →
  ∃ h', rep_free cont h = Done tt h' ∧ tail h' = a ∧ blocks h' !! a = None ∧
    rep_display h' = Done l1.*2 h' ∧
    match rep_append c' h' with
    | Stop e _ => e = Undef ∧ alloc (blocks h') sizeof_Malloc_list ≠ a
    | Done _ h'' => lnodes h'' !! a = Some (MkElement c' a a) ∧
                    rep_display h'' = Done l1.*2 h''
    end.
Proof.
  intros Hok H1 Hl1 Hc. pose proof (ok_list _ _ Hok) as Hl.
  destruct (rep_free_block h _ a c Hok) as (h1 & Hrun & Hl' & Hb & Hn); [set_solver|].
  destruct (rep_remove_last _ _ _ _ H1 Hl')
    as (h' & m & Hrem & [_ Hb' Hln _ _] & Htl & Hhd & Hhd0 & Hs).
  pose proof (list_NoDup _ _ Hl) as Hnd.
  rewrite fmap_app in Hnd. apply NoDup_app in Hnd as (Hnd & Hd & _).
  assert (a ∉ l1.*1) as Ha by (intros Hin; apply (Hd a Hin); csimpl; set_solver).
  assert (∀ (h2 : heap), head h2 = head h' →
    (∀ x, x ∈ l1.*1 → lnodes h2 !! x = lnodes h' !! x) →
    rep_display h2 = Done l1.*2 h2) as Hdisp.
  { intros h2 Hh2 Heq. assert (dseg (lnodes h2) 0 (head h2) l1 m 0) as Hs2.
    { rewrite Hh2. by eapply dseg_frame. }
    unfold rep_display. cbn [bind gets]. eapply walk_spec; [|exact Hs2].
    by apply Nat.lt_le_incl, (seg_length_fuel _ _ _ _ _ _ Hs2). }
  exists h'. split; [|split; [done|split; [|split; [by apply Hdisp|]]]].
  - erewrite (rep_free_found _ l1 a c []); [by erewrite bind_Done|apply Hok|done|done].
  - rewrite Hb'. apply lookup_delete_eq.
  - unfold rep_append, malloc_element. cbn -[alloc Z.eqb rep_display]. rewrite Hhd, Htl.
    rewrite (proj2 (Z.eqb_neq _ _) Hhd0). unfold store_node, load_node. cbn -[alloc Z.eqb rep_display].
    destruct (decide (alloc (blocks h') sizeof_Malloc_list = a)) as [E|E].
    + rewrite E, lookup_insert_eq. cbn -[rep_display].
      rewrite lookup_insert_eq. cbn -[rep_display].
      split; [by rewrite lookup_insert_eq|]. apply Hdisp; [done|]. intros x Hx. cbn.
      rewrite !lookup_insert_ne; [done| |]; by intros <-.
    + rewrite lookup_insert_ne by done. by rewrite Hln.
Qed.

(** [rep_free] of an address no element records. *)
Lemma rep_free_none h l cont :
  is_list h l → Forall (λ x, container_address x.2 ≠ cont) l → rep_free cont h = Done tt h.
Proof.
  intros Hl Hn. unfold rep_free. cbn [bind gets].
  eapply free_loop_none; [|apply Hl|done].
  pose proof (list_length_fuel _ _ Hl). lia.
Qed.

(** ** A concrete heap: three pointer variables of the application at 100,
    108 and 116, each filled by [rep_malloc]. *)
Definition heap_init : heap :=
  MkHeap (fresh_bytes 100 24 ∅) ∅ ∅ 0 0 0 0 DISCONTIGUOUS.
Definition after (m : M heap unit) (h : heap) : heap :=
  match m h with Done _ h' | Stop _ h' => h' end.
Definition heap_ex : heap :=
  after (@rep_malloc bump 100 16 ;;; @rep_malloc bump 108 8 ;;; @rep_malloc bump 116 32) heap_init.
Definition list_ex : list (Z * Malloc_container) :=
  [(4112, MkContainer 100 0 4096 16); (4168, MkContainer 108 0 4160 8);
   (4248, MkContainer 116 0 4216 32)].

Example heap_ex_ok : heap_okb heap_ex list_ex = true.
Proof. vm_compute. reflexivity. Qed.

Lemma valid_range_ex : valid_range (mem heap_init) 100 8.
Proof.
  intros i Hi. assert (i ∈ seqZ 0 8) as Hin by (apply elem_of_seqZ; lia).
  clear Hi. revert i Hin. apply Forall_forall.
  repeat (constructor; [vm_compute; by eexists|]). constructor.
Qed.

Lemma rep_malloc_correct_witness : ∃ a h',
  @rep_malloc bump 100 16 heap_init = Done tt h' ∧
  heap_ok h' [(a, MkContainer 100 0 4096 16)] ∧ load_word 8 (mem h') 100 = Some 4096.
Proof.
  destruct (@rep_malloc_correct bump bump_laws heap_init [] 100 16)
    as (a & h' & H1 & H2 & H3 & _).
  - apply heap_okb_sound. vm_compute. reflexivity.
  - lia.
  - apply valid_range_ex.
  - vm_compute. reflexivity.
  - vm_compute. reflexivity.
  - exists a, h'. split; [exact H1|]. split; [exact H2|exact H3].
Defined.

Lemma rep_free_correct_witness : ∃ h', rep_free 108 heap_ex = Done tt h' ∧
  rep_display h' = Done [MkContainer 100 0 4096 16; MkContainer 116 0 4216 32] h' ∧
  malloc_number_of_allocations h' = 3.
Proof.
  destruct (rep_free_correct heap_ex [(4112, MkContainer 100 0 4096 16)] 4168
    (MkContainer 108 0 4160 8) [(4248, MkContainer 116 0 4216 32)] 108)
    as (h' & H1 & H2 & H3 & H4).
  - apply heap_okb_sound, heap_ex_ok.
  - done.
  - repeat constructor. simpl. lia.
  - reflexivity.
  - exists h'. split; [exact H1|]. split; [|exact H4].
    exact (rep_display_spec _ _ H2).
Defined.

Lemma rep_free_first_dangles_witness : ∃ h',
  rep_free 100 heap_ex = Done tt h' ∧ rep_display h' = Stop Undef h'.
Proof.
  destruct (rep_free_first_dangles heap_ex 4112 (MkContainer 100 0 4096 16)
    [(4168, MkContainer 108 0 4160 8); (4248, MkContainer 116 0 4216 32)] 100)
    as (h' & H1 & _ & _ & H2 & _).
  - apply heap_okb_sound, heap_ex_ok.
  - done.
  - reflexivity.
  - exists h'. split; [exact H1|exact H2].
Defined.

Lemma rep_free_last_dangles_witness : ∃ h',
  rep_free 116 heap_ex = Done tt h' ∧ tail h' = 4248 ∧ blocks h' !! 4248 = None.
Proof.
  destruct (@rep_free_last_dangles bump heap_ex
    [(4112, MkContainer 100 0 4096 16); (4168, MkContainer 108 0 4160 8)] 4248
    (MkContainer 116 0 4216 32) 116 (MkContainer 100 0 4216 1)) as (h' & H1 & H2 & H3 & _).
  - apply heap_okb_sound, heap_ex_ok.
  - done.
  - repeat constructor; simpl; lia.
  - reflexivity.
  - exists h'. split; [exact H1|]. split; [exact H2|exact H3].
Defined.

(** ** [rep_clear_discontiguous] *)

(** The heap a suffix of the list has to be in for the clearing loop. *)
Record clearable (h : heap) (p cur : Z) (l : list (Z * Malloc_container)) (last : Z) : Prop := {
  cl_seg : dseg (lnodes h) p cur l last 0;
  cl_NoDup : NoDup l.*1;
  cl_elements a : a ∈ l.*1 → blocks h !! a = Some sizeof_Malloc_list;
  cl_apart : Forall (λ x, allocated_address x.2 ≠ 0 ∧ allocated_address x.2 ∉ l.*1) l
}.

Definition allocated (l : list (Z * Malloc_container)) : list Z :=
  (λ x, allocated_address x.2) <$> l.

(** One round of the loop, on a block that is live. *)
Lemma clear_step h p a c l last fuel :
  clearable h p a ((a, c) :: l) last → is_Some (blocks h !! allocated_address c) →
  ∃ n h', clear_loop true (S fuel) a h = clear_loop true fuel n h' ∧
    clearable h' a n l last ∧
    blocks h' = delete a (delete (allocated_address c) (blocks h)) ∧
    (∀ x, ¬ (a ≤ x < a + sizeof_Malloc_list) →
       (∀ s, blocks h !! allocated_address c = Some s →
          ¬ (allocated_address c ≤ x < allocated_address c + s)) → mem h' !! x = mem h !! x).
Proof.
  intros [(_ & Ha & n & Hn & Hs) Hnd Hb Hap] [s Hlive].
  apply Forall_cons in Hap as [[H0 Hni] Hap]. csimpl in *.
  apply NoDup_cons in Hnd as [Hnin Hnd]. apply not_elem_of_cons in Hni as [Hne Hni].
  assert (blocks h !! a = Some sizeof_Malloc_list) as Hsa by (apply Hb; set_solver).
  exists n. eexists. split; [|split; [|split; [|]]].
  - cbn [clear_loop]. rewrite (proj2 (Z.eqb_neq _ _) Ha). cbn [bind modify].
    unfold load_node. cbn [bind of_option lnodes set_head]. rewrite Hn.
    cbn [bind of_option container when next]. unfold free at 1. cbn [blocks set_head].
    rewrite (proj2 (Z.eqb_neq _ _) H0), Hlive. cbn [bind].
    unfold free. cbn [blocks set_head set_blocks set_lnodes set_mem].
    rewrite (proj2 (Z.eqb_neq _ _) Ha), lookup_delete_ne, Hsa by done. reflexivity.
  - split; cbn; [|done| |].
    + apply dseg_delete; [done|]. by apply dseg_delete.
    + intros b Hin. rewrite !lookup_delete_ne by (intros <-; done). apply Hb. set_solver.
    + eapply Forall_impl; [exact Hap|]. intros x [? Hx]. split; [done|].
      apply not_elem_of_cons in Hx. by destruct Hx.
  - done.
  - intros x Hx1 Hx2. cbn. unfold drop_bytes.
    specialize (Hx2 _ Hlive). apply option_eq. intros y.
    rewrite !map_lookup_filter_Some. cbn. tauto.
Qed.

(** A block that is not live stops the loop. *)
Lemma clear_loop_dead h p cur l last fuel :
  (length l ≤ fuel)%nat → clearable h p cur l last →
  Exists (λ x, blocks h !! x = None) (allocated l) →
  ∃ h', clear_loop true fuel cur h = Stop Undef h'.
Proof.
  revert h p cur fuel. induction l as [|[a c] l IH]; intros h p cur fuel Hf Hcl Hex.
  { by apply Exists_nil in Hex. }
  destruct fuel as [|fuel]; [simpl in Hf; lia|].
  pose proof (cl_seg _ _ _ _ _ Hcl) as (-> & Ha & n & Hn & _).
  destruct (blocks h !! allocated_address c) as [s|] eqn:E.
  - destruct (clear_step h p a c l last fuel Hcl) as (n' & h' & -> & Hcl' & Hb & _); [by eexists|].
    apply IH with a; [simpl in Hf; lia|done|]. rewrite Hb.
    apply Exists_cons in Hex as [Hex|Hex]; [csimpl in Hex; congruence|].
    eapply Exists_impl; [exact Hex|]. intros x Hx. simpl in Hx.
    apply lookup_delete_None. right. apply lookup_delete_None. by right.
  - eexists. cbn [clear_loop]. rewrite (proj2 (Z.eqb_neq _ _) Ha). cbn [bind modify].
    unfold load_node. cbn [bind of_option lnodes set_head]. rewrite Hn.
    cbn [bind of_option container when]. unfold free at 1. cbn [blocks set_head].
    pose proof (cl_apart _ _ _ _ _ Hcl) as [[H0 _] _]%Forall_cons. csimpl in H0.
    rewrite (proj2 (Z.eqb_neq _ _) H0), E. reflexivity.
Qed.

(** What is live once the loop freed the elements and blocks of [l]. *)
Definition cleared (l : list (Z * Malloc_container)) (bl : gmap Z Z) : gmap Z Z :=
  foldl (λ m x, delete x.1 (delete (allocated_address x.2) m)) bl l.

Lemma cleared_lookup l bl x :
  cleared l bl !! x = if decide (x ∈ l.*1 ∨ x ∈ allocated l) then None else bl !! x.
Proof.
  revert bl. induction l as [|[a c] l IH]; intros bl.
  - destruct (decide _) as [[H|H]|]; csimpl in *; set_solver.
  - simpl. rewrite IH. unfold allocated. csimpl.
    fold (allocated l). destruct (decide (x ∈ l.*1 ∨ x ∈ allocated l)) as [H|H].
    + rewrite decide_True; [done|]. rewrite !elem_of_cons. naive_solver.
    + destruct (decide (x = a ∨ x = allocated_address c)) as [H'|H'].
      * rewrite decide_True by (rewrite !elem_of_cons; naive_solver).
        rewrite lookup_delete_None, lookup_delete_None. destruct H'; naive_solver.
      * rewrite decide_False by (rewrite !elem_of_cons; naive_solver).
        rewrite !lookup_delete_ne by naive_solver. done.
Qed.

(** The bytes that are freed with the list. *)
Definition freed (l : list (Z * Malloc_container)) (bl : gmap Z Z) (x : Z) : Prop :=
  Exists (λ e, e.1 ≤ x < e.1 + sizeof_Malloc_list ∨
    ∃ s, bl !! allocated_address e.2 = Some s ∧
         allocated_address e.2 ≤ x < allocated_address e.2 + s) l.

Lemma freed_mono l bl bl' x :
  (∀ a s, bl !! a = Some s → bl' !! a = Some s) → freed l bl x → freed l bl' x.
Proof.
  intros H Hf. eapply Exists_impl; [exact Hf|].
  intros [a c] [?|(s & Hs & ?)]; [by left|right; eauto].
Qed.

Lemma clear_loop_spec h p cur l last fuel :
  (length l ≤ fuel)%nat → clearable h p cur l last →
  (∀ x, x ∈ allocated l → is_Some (blocks h !! x)) →
  if decide (NoDup (allocated l)) then
    ∃ h', clear_loop true fuel cur h = Done tt h' ∧ blocks h' = cleared l (blocks h) ∧
          (∀ x, ¬ freed l (blocks h) x → mem h' !! x = mem h !! x)
  else ∃ h', clear_loop true fuel cur h = Stop Undef h'.
Proof.
  revert h p cur fuel. induction l as [|[a c] l IH]; intros h p cur fuel Hf Hcl Hlive.
  { rewrite decide_True by constructor. destruct (cl_seg _ _ _ _ _ Hcl) as [-> _].
    exists h. destruct fuel; done. }
  destruct fuel as [|fuel]; [simpl in Hf; lia|]. simpl in Hf.
  pose proof (cl_seg _ _ _ _ _ Hcl) as (-> & _).
  destruct (clear_step h p a c l last fuel Hcl) as (n' & h' & -> & Hcl' & Hb & Hms).
  { apply Hlive. unfold allocated. csimpl. set_solver. }
  assert (∀ x, x ∈ allocated l → x ≠ a) as Hxa.
  { intros x (y & -> & Hy)%list_elem_of_fmap Hya.
    pose proof (cl_apart _ _ _ _ _ Hcl) as [_ Hap]%Forall_cons.
    rewrite Forall_forall in Hap. destruct (Hap _ Hy) as [_ Hap'].
    rewrite Hya in Hap'. apply Hap'. csimpl. apply elem_of_cons. by left. }
  destruct (decide (allocated_address c ∈ allocated l)) as [Hin|Hin].
  - rewrite decide_False by (unfold allocated; csimpl; by intros [? _]%NoDup_cons).
    eapply clear_loop_dead; [|done|]; [lia|]. apply Exists_exists. eexists. split; [exact Hin|].
    rewrite Hb. simpl. apply lookup_delete_None. right. apply lookup_delete_eq.
  - specialize (IH h' a n' fuel ltac:(lia) Hcl').
    assert (∀ x, x ∈ allocated l → is_Some (blocks h' !! x)) as Hlive'.
    { intros x Hx. rewrite Hb, !lookup_delete_ne; [|by intros <-|intros <-; by eapply Hxa].
      apply Hlive. unfold allocated in *. csimpl. set_solver. }
    specialize (IH Hlive').
    destruct (decide (NoDup (allocated l))) as [Hnd|Hnd].
    + rewrite decide_True by (unfold allocated; csimpl; by constructor).
      destruct IH as (h2 & Hrun & Hb2 & Hm2). exists h2. rewrite Hb in Hb2.
      split; [done|]. split; [done|]. intros x Hx. rewrite Hm2, Hms; [done| | |].
      * intros Hr. apply Hx. unfold freed. apply Exists_cons. left. by left.
      * intros s Hs Hr. apply Hx. unfold freed. apply Exists_cons. left. right. by exists s.
      * intros Hf2. apply Hx. unfold freed. apply Exists_cons. right.
        eapply freed_mono; [|exact Hf2]. rewrite Hb. intros y s.
        rewrite !lookup_delete_Some. tauto.
    + rewrite decide_False by (unfold allocated; csimpl; by intros [_ ?]%NoDup_cons). exact IH.
Qed.

Lemma heap_ok_clearable h l : heap_ok h l → clearable h 0 (head h) l (tail h).
Proof.
  intros Hok. destruct (ok_list _ _ Hok) as [Hs Hnd Hb]. split; [done|done| |].
  - intros a Ha. by apply Hb.
  - apply Forall_forall. intros [a c] Hin.
    destruct (ok_live _ _ Hok _ _ Hin) as (? & ? & _). done.
Qed.

(** C26: [rep_clear_discontiguous], on any consistent list.  When no two
    elements share their block it returns with the empty list: every
    element and every block of the list is freed, and nothing else.  When two
    do, as [rep_assign_malloc_context] makes them, it frees the block twice,
    which is undefined. *)
Theorem rep_clear_discontiguous_correct h l :
  heap_ok h l →
  if decide (NoDup (allocated l)) then
    ∃ h', rep_clear_discontiguous h = Done tt h' ∧ is_list h' [] ∧
      malloc_number_of_allocations h' = 0 ∧
      (∀ x, x ∈ l.*1 ∨ x ∈ allocated l → blocks h' !! x = None) ∧
      (∀ x, x ∉ l.*1 → x ∉ allocated l → blocks h' !! x = blocks h !! x)
  else ∃ h', rep_clear_discontiguous h = Stop Undef h'.
Proof.
  intros Hok. pose proof (heap_ok_clearable _ _ Hok) as Hcl.
  assert (length l ≤ walk_fuel h)%nat as Hf
    by apply Nat.lt_le_incl, list_length_fuel, (ok_list _ _ Hok).
  assert (∀ x, x ∈ allocated l → is_Some (blocks h !! x)) as Hlive.
  { intros x ([a c] & -> & Hin)%list_elem_of_fmap. by apply (ok_live _ _ Hok a c). }
  pose proof (clear_loop_spec _ _ _ _ _ _ Hf Hcl Hlive) as Hrun.
  unfold rep_clear_discontiguous. cbn [bind gets].
  destruct (decide _) as [Hnd|Hnd]; destruct Hrun as [h' Hrun].
  - destruct Hrun as (Hrun & Hb & _). rewrite Hrun. eexists. split; [reflexivity|].
    split; [by apply is_list_empty|]. split; [done|]. cbn. rewrite Hb. split; intros x Hx.
    + rewrite cleared_lookup. by rewrite decide_True.
    + intros Hx'. rewrite cleared_lookup. rewrite decide_False; [done|]. by intros [?|?].
  - rewrite Hrun. by eexists.
Qed.

(** [rep_assign_malloc_context] on a consistent list: it returns, [dest]
    holds what [source] holds, and the list has one new element of size 0, that
    records both variables and the shared block, so that the invariant holds
    again. *)
Theorem rep_assign_malloc_context_correct `{!Allocator} `{!AllocatorLaws alloc} h l source dest v :
  heap_ok h l → load_word 8 (mem h) source = Some v → valid_range (mem h) dest 8 →
  v ≠ 0 → v ∉ l.*1 → is_Some (blocks h !! v) → 0 ≤ v < 2 ^ 64 →
  Z.of_nat (length l) < INT_MAX →
  ∃ a h', rep_assign_malloc_context source dest h = Done tt h' ∧
    heap_ok h' (l ++ [(a, MkContainer dest source v 0)]) ∧
    load_word 8 (mem h') dest = Some v ∧
    (∀ x, ¬ (dest ≤ x < dest + 8) → mem h' !! x = mem h !! x).
Proof.
  intros Hok Hload Hdest Hv0 Hvl Hlive Hv Hlen.
  destruct (count_append_spec h l (MkContainer dest source v 0) (ok_list _ _ Hok))
    as (a & h1 & Hrun & Hl' & Ha & Haf & Hm' & Hb' & Ht' & Hc'); [apply Hok| |].
  { rewrite (ok_count _ _ Hok). lia. }
  destruct (store_word_Some 8 (mem h) dest v Hdest) as [m2 Hm2].
  assert (a ≠ v) as Hav by (intros ->; rewrite Haf in Hlive; by destruct Hlive).
  exists a. eexists. split; [|split; [|split]].
  - unfold rep_assign_malloc_context. unfold load64 at 1. cbn [bind of_option].
    rewrite Hload. cbn [bind of_option].
    assert (0 ≤ malloc_number_of_allocations h < INT_MAX) as Hn
      by (rewrite (ok_count _ _ Hok); lia).
    cbn [bind] in Hrun. rewrite (count_allocation_spec _ Hn) in Hrun.
    rewrite (count_allocation_spec _ Hn), Hrun.
    unfold load64, store64. cbn [bind gets of_option]. rewrite Hm', Hload.
    cbn [bind gets of_option]. rewrite Hm', Hm2. cbn [bind of_option modify]. reflexivity.
  - split; cbn.
    + by apply (is_list_ext h1).
    + intros x s. cbn. rewrite Hb'. destruct (decide (a = x)) as [->|Hax].
      * rewrite lookup_insert_eq. by intros [= <-].
      * rewrite lookup_insert_ne by done. apply (ok_blocks _ _ Hok).
    + rewrite Hc', (ok_count _ _ Hok). len.
    + rewrite Ht', (ok_total _ _ Hok), total_size_snoc. simpl. by rewrite Z.add_0_r.
    + apply (ok_live_snoc h); [|done|done|apply Hok|done| |]; cbn.
      * intros x s Hx. rewrite Hb', lookup_insert_ne; [done|congruence].
      * rewrite fmap_app, elem_of_app. csimpl. rewrite list_elem_of_singleton.
        intros [?|?]; congruence.
      * rewrite Hb', lookup_insert_ne by done. done.
  - cbn [mem set_mem]. rewrite (load_store_word _ _ _ _ _ Hm2). by rewrite Z.mod_small.
  - intros x Hx. cbn. destruct (store_bytes_lookup _ _ _ _ Hm2) as (_ & Hother & _).
    apply Hother. rewrite length_fmap, length_encode. lia.
Qed.

Lemma rep_clear_discontiguous_correct_witness : ∃ h',
  rep_clear_discontiguous heap_ex = Done tt h' ∧ is_list h' [] ∧
  malloc_number_of_allocations h' = 0.
Proof.
  destruct (rep_clear_discontiguous_correct heap_ex list_ex) as (h' & H1 & H2 & H3 & _).
  - apply heap_okb_sound, heap_ex_ok.
  - exists h'. split; [exact H1|]. split; [exact H2|exact H3].
Defined.

(** The application copies the pointer at 100 into the variable at 108. *)
Definition heap_one : heap := after (@rep_malloc bump 100 16) heap_init.
Definition heap_alias : heap := after (@rep_assign_malloc_context bump 100 108) heap_one.

Example heap_alias_clear : ∃ h', rep_clear_discontiguous heap_alias = Stop Undef h'.
Proof. vm_compute. by eexists. Qed.

Lemma rep_assign_malloc_context_correct_witness : ∃ a h',
  @rep_assign_malloc_context bump 100 108 heap_one = Done tt h' ∧
  heap_ok h' [(4112, MkContainer 100 0 4096 16); (a, MkContainer 108 100 4096 0)].
Proof.
  destruct (@rep_assign_malloc_context_correct bump bump_laws heap_one
    [(4112, MkContainer 100 0 4096 16)] 100 108 4096) as (a & h' & H1 & H2 & _).
  - apply heap_okb_sound. vm_compute. reflexivity.
  - vm_compute. reflexivity.
  - intros i Hi. assert (i ∈ seqZ 0 8) as Hin by (apply elem_of_seqZ; lia).
    clear Hi. revert i Hin. apply Forall_forall.
    repeat (constructor; [vm_compute; by eexists|]). constructor.
  - done.
  - set_solver.
  - vm_compute. by eexists.
  - lia.
  - vm_compute. reflexivity.
  - exists a, h'. split; [exact H1|exact H2].
Defined.
