(* ===== verification/Ulfm.v ===== *)
(** * Process failures: [src/mpi/ulfm.c]

    When the MPI library reports a failed process it calls [rep_errhandler].
    In a collective call the handler shrinks the world communicator, gives
    every job its surviving workers under their new ranks
    ([update_job_list]) and splits the communicators again; in a
    point-to-point call it only notes which ranks to skip and leaves the
    shrinking pending. *)

From S2P Require Import Prelude Shared Mpi MapFile Comm.

(** ** The fault-tolerance calls of the MPI library (ULFM)

    [PMPIX_Comm_failure_get_acked] stands for the [failure_ack] and
    [failure_get_acked] pair, which the source always calls together. *)
Class Ulfm (W : Type) : Type := {
  PMPI_Error_class : Z → W → Z;
  PMPIX_Comm_failure_get_acked : MPI_Comm → W → MPI_Group * W;
  PMPIX_Comm_shrink : MPI_Comm → W → MPI_Comm * W;
  PMPI_Comm_group : MPI_Comm → W → MPI_Group * W;
  PMPI_Group_size : MPI_Group → W → Z;
  PMPI_Group_translate_ranks : MPI_Group → list Z → MPI_Group → W → list Z;
  PMPI_Comm_free : MPI_Comm → W → W;
  PMPI_Comm_dup : MPI_Comm → W → MPI_Comm * W
}.

(** [rank_ignore_list[r] = v]. *)
Definition store_rank_ignore (r v : Z) : M globals unit :=
  let! a := gets rank_ignore_list in
  let! a' := of_option Undef (a ← a; astore a r v) in
  modify (set_rank_ignore_list (Some a')).

(** ** [update_job_list] *)
Section update.
Context `{MpiConst}.

(** The body of the loop over the workers of job [i]; [overwrite_pointer]
    is the local of the same name. *)
Definition compact_worker (size : Z) (translated_ranks : list cell) (i : Z)
    (overwrite_pointer j : Z) : M globals Z :=
  let! job := load_job i in
  let! rank := of_option Undef (aload (rank_list job) j) in
  ensure (rank <? size) AssertFailed ;;;
  let! t := of_option Undef (aload translated_ranks rank) in
  if t =? MPI_UNDEFINED then
    store_job i (MkJob (j_job_id job) (worker_count job - 1) (rank_list job)) ;;;
    ensure (negb (worker_count job - 1 =? 0)) (Aborted 200) ;;;
    ret overwrite_pointer
  else
    store_rank_list i overwrite_pointer t ;;;
    store_rank_2_job t i ;;;
    store_rank_ignore t 0 ;;;
    ret (overwrite_pointer + 1).

Definition compact_job (size : Z) (translated_ranks : list cell) (i : Z) : M globals unit :=
  let! job := load_job i in
  foldM (compact_worker size translated_ranks i) 0 (seqZ 0 (worker_count job)) ;;;
  ret tt.

Definition update_job_list (size : Z) (translated_ranks : list cell) : M globals unit :=
  upd_node (set_node_checkpoint_master NO) ;;;
  let! count := gets (λ g, jobs_count (node g)) in
  iterM (compact_job size translated_ranks) (seqZ 0 count) ;;;
  let! n := gets node in
  let! t := of_option Undef (aload translated_ranks (rank n)) in
  upd_node (set_rank t) ;;;
  let! n := gets node in
  let! job := load_job (job_id n) in
  let! first := of_option Undef (aload (rank_list job) 0) in
  when (first =? rank n) (upd_node (set_node_checkpoint_master YES)).
End update.

(** ** [rep_errhandler] *)
Definition PROC_SHRINK_PENDING : Z := 65667273.

Section handler.
Context {W : Type} `{MpiConst} `{PmpiSplit W} `{Ulfm W}.

(** A call of the library that gives a handle back. *)
Definition mpi_call {A} (f : W → A * W) : M (globals * W) A := λ s,
  let '(a, w) := f s.2 in Done a (s.1, w).

Definition comm_free (c : MPI_Comm) : M (globals * W) unit :=
  modify (λ s, (s.1, PMPI_Comm_free c s.2)).

(** The end of that branch: the communicators are made anew from the shrunk
    world. *)
Definition rebuild_comms (world world_shrinked : MPI_Comm) : M (globals * W) unit :=
  comm_free world ;;;
  let! world' := mpi_call (PMPI_Comm_dup world_shrinked) in
  of_globals (upd_node (set_rep_mpi_comm_world world')) ;;;
  comm_free world_shrinked ;;;
  let! n := gets (λ s, node s.1) in
  when (negb (active_comm n =? MPI_COMM_NULL))
    (comm_free (active_comm n) ;;; of_globals (upd_node (set_active_comm MPI_COMM_NULL))) ;;;
  comm_free (world_job_comm n) ;;;
  of_globals (upd_node (set_world_job_comm MPI_COMM_NULL)) ;;;
  update_comms.

(** The branch that repairs the world: the failed processes are acknowledged,
    the world is shrunk, the tables and the communicators are rebuilt. *)
Definition repair_world (comm : MPI_Comm) : M (globals * W) unit :=
  let! world := gets (λ s, rep_mpi_comm_world (node s.1)) in
  let! failed := mpi_call (PMPIX_Comm_failure_get_acked world) in
  of_globals (modify (set_last_group_failed failed)) ;;;
  let! world_shrinked := mpi_call (PMPIX_Comm_shrink comm) in
  let! group_world_dup := mpi_call (PMPI_Comm_group comm) in
  let! group_world_shrinked := mpi_call (PMPI_Comm_group world_shrinked) in
  of_globals (modify (set_previous_world_group group_world_dup)) ;;;
  let! size := gets (λ s, PMPI_Group_size group_world_dup s.2) in
  let! translated := gets (λ s,
    PMPI_Group_translate_ranks group_world_dup (seqZ 0 size) group_world_shrinked s.2) in
  of_globals (update_job_list size (Some <$> translated)) ;;;
  rebuild_comms world world_shrinked.

(** One failed process of the loop that notes them: the reads the log
    message needs are made whatever the job's count is. *)
Definition ignore_rank (r : Z) : M globals unit :=
  if r =? MPI_UNDEFINED then ret tt
  else
    store_rank_ignore r 1 ;;;
    let! a := gets rank_2_job in
    let! job_id := of_option Undef (a ← a; aload a r) in
    load_job job_id ;;;
    ret tt.

(** The branch taken while failures are ignored. *)
Definition note_failures : M (globals * W) unit :=
  let! world := gets (λ s, rep_mpi_comm_world (node s.1)) in
  let! failed := mpi_call (PMPIX_Comm_failure_get_acked world) in
  of_globals (modify (set_last_group_failed failed)) ;;;
  of_globals (modify (set_process_shrinking_pending 1)) ;;;
  let! group_world_dup := mpi_call (PMPI_Comm_group world) in
  let! size := gets (λ s, PMPI_Group_size failed s.2) in
  let! ranks := gets (λ s,
    PMPI_Group_translate_ranks failed (seqZ 0 size) group_world_dup s.2) in
  of_globals (iterM ignore_rank ranks).

Definition rep_errhandler (comm : MPI_Comm) (err : Z) : M (globals * W) unit :=
  let! eclass := gets (λ s,
    if err =? PROC_SHRINK_PENDING then MPIX_ERR_PROC_FAILED else PMPI_Error_class err s.2) in
  ensure (MPIX_ERR_PROC_FAILED =? eclass) (Aborted 300) ;;;
  let! g := gets fst in
  if (comm =? rep_mpi_comm_world (node g)) && (ignore_process_failure g =? 0) then
    repair_world comm
  else when (comm =? rep_mpi_comm_world (node g)) note_failures.

(** The inner and outer loops of the search, over the jobs and the failed
    ranks: the value of the function when it returns from inside. *)
Definition is_failed_node_world_job_comm_root : M (globals * W) Z :=
  let! g := gets fst in
  let! size := gets (λ s, PMPI_Group_size (last_group_failed g) s.2) in
  let! failed := gets (λ s,
    PMPI_Group_translate_ranks (last_group_failed g) (seqZ 0 size)
      (previous_world_group g) s.2) in
  of_globals
    (foldM (λ found i,
       foldM (λ found (r : Z),
         if found =? 1 then ret 1
         else
           let! job := load_job i in
           let! first := of_option Undef (aload (rank_list job) 0) in
           ret (if first =? r then 1 else 0)) found failed) 0 (seqZ 0 (jobs_count (node g)))).
End handler.

(** ** The abstract update

    The workers of a job are the first [worker_count] entries of its array;
    compaction leaves what was behind them in place. *)
Section compact.
Context `{MpiConst}.
Implicit Types (tr : list Z) (rs : list Z).

Definition translate tr (r : Z) : option Z :=
  t ← tr !! Z.to_nat r; if t =? MPI_UNDEFINED then None else Some t.
Definition survivors tr rs : list Z := omap (translate tr) rs.

Definition workers (j : Job) : list Z :=
  omap id (take (Z.to_nat (worker_count j)) (rank_list j)).

Definition compacted tr (j : Job) : Job :=
  let s := survivors tr (workers j) in
  MkJob (j_job_id j) (Z.of_nat (length s))
    ((Some <$> s) ++ drop (length s) (rank_list j)).

(** A job as the tables hold it between two updates: a count, and at least
    that many ranks of the communicator. *)
Definition job_ok (size : Z) (j : Job) : Prop :=
  ∃ rs rest, j = MkJob (j_job_id j) (Z.of_nat (length rs)) ((Some <$> rs) ++ rest) ∧
    Forall (λ r, 0 ≤ r < size) rs.

Lemma omap_id_fmap rs : omap id (Some <$> rs) = rs.
Proof. induction rs as [|r rs IH]; [done|]. csimpl. by rewrite IH. Qed.

Lemma workers_app id rs rest :
  workers (MkJob id (Z.of_nat (length rs)) ((Some <$> rs) ++ rest)) = rs.
Proof.
  unfold workers. simpl. rewrite Nat2Z.id, take_app_length'; [apply omap_id_fmap|by len].
Qed.

Lemma survivors_app tr l1 l2 : survivors tr (l1 ++ l2) = survivors tr l1 ++ survivors tr l2.
Proof. unfold survivors. by rewrite omap_app. Qed.

Lemma survivors_le tr rs : (length (survivors tr rs) ≤ length rs)%nat.
Proof. unfold survivors. induction rs as [|r rs IH]; csimpl; [done|]. case_match; csimpl; lia. Qed.

Lemma job_ok_compacted tr size size' j :
  job_ok size j → Forall (λ t, t = MPI_UNDEFINED ∨ 0 ≤ t < size') tr →
  job_ok size' (compacted tr j) ∧ workers (compacted tr j) = survivors tr (workers j).
Proof.
  intros (rs & rest & -> & Hrs) Htr. unfold compacted. rewrite workers_app.
  split; [|by rewrite workers_app].
  exists (survivors tr rs). eexists. split; [done|].
  apply Forall_forall. intros t (r & Hr & Ht)%list_elem_of_omap.
  unfold translate in Ht. destruct (tr !! Z.to_nat r) as [u|] eqn:E; simpl in Ht; [|done].
  destruct (u =? MPI_UNDEFINED) eqn:Eu; [done|]. injection Ht as ->.
  rewrite Forall_forall in Htr.
  destruct (Htr t) as [->|?]; [by eapply list_elem_of_lookup_2|by rewrite Z.eqb_refl in Eu|done].
Qed.

Lemma job_ok_range n job (r : Z) : job_ok n job → r ∈ workers job → 0 ≤ r < n.
Proof. intros (rs & rest & -> & Hrs). rewrite workers_app. rewrite Forall_forall in Hrs. auto. Qed.

(** *** One job *)
Definition with_tables jl a ign g : globals :=
  set_job_list (Some jl) (set_rank_2_job (Some a) (set_rank_ignore_list (Some ign) g)).

Context (size : Z) (tr : list Z) (i : Z).
Context (Hsize : Z.of_nat (length tr) = size).
Context (Htr : Forall (λ t, t = MPI_UNDEFINED ∨ 0 ≤ t < size) tr).

Definition mid_job jid (ps qs : list Z) (rest : list cell) : Job :=
  MkJob jid (Z.of_nat (length (survivors tr ps ++ qs)))
    ((Some <$> survivors tr ps) ++ drop (length (survivors tr ps)) ((Some <$> (ps ++ qs)) ++ rest)).

Lemma translate_spec r : 0 ≤ r < size →
  ∃ t, aload (Some <$> tr) r = Some t ∧
    ((t =? MPI_UNDEFINED) = true ∧ translate tr r = None ∨
     (t =? MPI_UNDEFINED) = false ∧ translate tr r = Some t ∧ 0 ≤ t < size).
Proof.
  intros Hr. destruct (lookup_lt_is_Some_2 tr (Z.to_nat r)) as [t Ht]; [lia|].
  exists t. split.
  { apply aload_Some; [lia|]. rewrite list_lookup_fmap, Ht. done. }
  unfold translate. rewrite Ht. simpl. destruct (t =? MPI_UNDEFINED) eqn:E; [by left|].
  right. split; [done|]. split; [done|]. rewrite Forall_forall in Htr.
  destruct (Htr t) as [->|?]; [by eapply list_elem_of_lookup_2|by rewrite Z.eqb_refl in E|done].
Qed.

Lemma mid_job_load jid ps r qs rest :
  aload (rank_list (mid_job jid ps (r :: qs) rest)) (Z.of_nat (length ps)) = Some r.
Proof.
  apply aload_Some; [lia|]. rewrite Nat2Z.id. simpl.
  pose proof (survivors_le tr ps) as Hle.
  rewrite lookup_app_r by len. rewrite lookup_drop. len.
  replace (length (survivors tr ps) + (length ps - length (survivors tr ps)))%nat
    with (length ps) by lia.
  rewrite lookup_app_l by len. rewrite list_lookup_fmap, lookup_app_r by done.
  by rewrite Nat.sub_diag.
Qed.

(** The worker is alive: its new rank goes to the next free place. *)
Lemma mid_job_store jid ps r qs rest t :
  translate tr r = Some t →
  astore (rank_list (mid_job jid ps (r :: qs) rest)) (Z.of_nat (length (survivors tr ps))) t
  = Some (rank_list (mid_job jid (ps ++ [r]) qs rest)).
Proof.
  intros Ht. pose proof (survivors_le tr ps) as Hle.
  rewrite astore_Some by (simpl; len). f_equal. simpl. rewrite Nat2Z.id.
  rewrite survivors_app.
  assert (survivors tr [r] = [t]) as -> by (unfold survivors; csimpl; by rewrite Ht).
  rewrite insert_app_r_alt by len. len. rewrite Nat.sub_diag.
  rewrite <-!app_assoc. simpl.
  destruct (drop (length (survivors tr ps)) _) as [|x l] eqn:E.
  { apply (f_equal length) in E. revert E. len. }
  simpl. rewrite fmap_app, <-app_assoc. simpl. do 2 f_equal.
  rewrite <-drop_drop, E. done.
Qed.

Local Arguments survivors : simpl never.
Local Arguments r2j_job : simpl never.
Local Arguments mid_job : simpl never.

(** One worker, alive or dead. *)
Lemma compact_worker_spec jid ps r qs rest jl a ign g :
  0 ≤ i → 0 ≤ r < size → size ≤ Z.of_nat (length a) → size ≤ Z.of_nat (length ign) →
  jl !! Z.to_nat i = Some (Some (mid_job jid ps (r :: qs) rest)) →
  compact_worker size (Some <$> tr) i (Z.of_nat (length (survivors tr ps)))
    (Z.of_nat (length ps)) (with_tables jl a ign g) =
  let g' := with_tables (<[Z.to_nat i := Some (mid_job jid (ps ++ [r]) qs rest)]> jl)
              (r2j_job i (survivors tr [r]) a) (r2j_job 0 (survivors tr [r]) ign) g in
  if decide (survivors tr (ps ++ [r]) ++ qs = []) then Stop (Aborted 200) g'
  else Done (Z.of_nat (length (survivors tr (ps ++ [r])))) g'.
Proof.
  intros Hi Hr Ha Hign Hjob. pose proof (lookup_lt_Some _ _ _ Hjob) as Hil.
  destruct (translate_spec r Hr) as (t & Ht & Hcase).
  assert (∀ v, astore jl i v = Some (<[Z.to_nat i := Some v]> jl)) as Hst
    by (intros v; apply astore_Some; lia).
  pose proof (aload_Some jl i _ Hi Hjob) as Hld.
  unfold compact_worker, load_job. cbn [bind gets of_option with_tables job_list set_job_list].
  cbn [option_bind mbind]. rewrite Hld. cbn [bind of_option].
  rewrite mid_job_load. cbn [bind of_option ensure].
  rewrite (proj2 (Z.ltb_lt r size)) by lia. cbn [bind of_option]. rewrite Ht.
  cbn [bind of_option].
  destruct Hcase as [[-> Hn]|(-> & Hs & Hrange)].
  - assert (survivors tr [r] = []) as Hnil by (unfold survivors; csimpl; by rewrite Hn).
    assert (survivors tr (ps ++ [r]) = survivors tr ps) as Hps
      by (by rewrite survivors_app, Hnil, app_nil_r).
    unfold store_job. cbn. rewrite Hst. cbn. rewrite Hnil.
    set (m := mid_job jid ps (r :: qs) rest).
    assert (MkJob (j_job_id m) (worker_count m - 1) (rank_list m) =
            mid_job jid (ps ++ [r]) qs rest) as Hmid.
    { unfold m, mid_job. rewrite Hps. simpl. rewrite <-!app_assoc. f_equal. len. }
    rewrite Hps, Hmid.
    assert (worker_count m - 1 = Z.of_nat (length (survivors tr ps ++ qs))) as ->
      by (unfold m, mid_job; len).
    destruct (decide (survivors tr ps ++ qs = [])) as [E|E].
    + rewrite (proj2 (Z.eqb_eq _ 0)); [done|]. by rewrite E.
    + rewrite (proj2 (Z.eqb_neq _ 0)); [done|]. intros E0. apply E, length_zero_iff_nil. lia.
  - assert (survivors tr [r] = [t]) as Hone by (unfold survivors; csimpl; by rewrite Hs).
    unfold store_rank_list, load_job, store_job, store_rank_2_job, store_rank_ignore.
    cbn. rewrite Hld. cbn. rewrite (mid_job_store _ _ _ _ _ _ Hs).
    cbn. rewrite Hst. cbn. rewrite (astore_Some a) by lia.
    cbn. rewrite (astore_Some ign) by lia. cbn.
    set (m := mid_job jid ps (r :: qs) rest).
    assert (MkJob (j_job_id m) (worker_count m) (rank_list (mid_job jid (ps ++ [r]) qs rest)) =
            mid_job jid (ps ++ [r]) qs rest) as Hmid.
    { unfold m, mid_job. rewrite survivors_app, Hone. simpl. f_equal. len. }
    rewrite Hmid, Hone, survivors_app, Hone, decide_False by (by destruct (survivors tr ps)).
    rewrite length_app. simpl length. rewrite Nat2Z.inj_add. reflexivity.
Qed.

Lemma r2j_job_app k l1 l2 a : r2j_job k (l1 ++ l2) a = r2j_job k l2 (r2j_job k l1 a).
Proof. unfold r2j_job. by rewrite foldl_app. Qed.

(** The loop over the workers [qs], after [ps] were met. *)
Lemma compact_workers_spec jid qs : ∀ ps rest jl a ign g,
  0 ≤ i → Forall (λ r, 0 ≤ r < size) qs →
  size ≤ Z.of_nat (length a) → size ≤ Z.of_nat (length ign) →
  jl !! Z.to_nat i = Some (Some (mid_job jid ps qs rest)) →
  survivors tr ps ++ qs ≠ [] →
  let run := foldM (compact_worker size (Some <$> tr) i) (Z.of_nat (length (survivors tr ps)))
               (seqZ (Z.of_nat (length ps)) (Z.of_nat (length qs))) (with_tables jl a ign g) in
  if decide (survivors tr (ps ++ qs) = []) then ∃ g', run = Stop (Aborted 200) g'
  else run = Done (Z.of_nat (length (survivors tr (ps ++ qs))))
    (with_tables (<[Z.to_nat i := Some (mid_job jid (ps ++ qs) [] rest)]> jl)
       (r2j_job i (survivors tr qs) a) (r2j_job 0 (survivors tr qs) ign) g).
Proof.
  induction qs as [|r qs IH]; intros ps rest jl a ign g Hi Hqs Ha Hign Hjob Hne run; subst run.
  - rewrite app_nil_r in Hne. rewrite app_nil_r, decide_False by done.
    rewrite list_insert_id by done. done.
  - apply Forall_cons in Hqs as [Hr Hqs].
    rewrite seqZ_cons by (simpl; lia). cbn [foldM bind].
    rewrite (compact_worker_spec _ _ _ _ _ _ _ _ _ Hi Hr Ha Hign Hjob). cbv zeta.
    replace (Z.pred (Z.of_nat (length (r :: qs)))) with (Z.of_nat (length qs)) by len.
    replace (Z.succ (Z.of_nat (length ps))) with (Z.of_nat (length (ps ++ [r]))) by len.
    assert (ps ++ r :: qs = (ps ++ [r]) ++ qs) as -> by (by rewrite <-app_assoc).
    destruct (decide (survivors tr (ps ++ [r]) ++ qs = [])) as [E|E].
    + apply app_eq_nil in E as [E ->]. rewrite app_nil_r, E. simpl. by eexists.
    + specialize (IH (ps ++ [r]) rest
        (<[Z.to_nat i := Some (mid_job jid (ps ++ [r]) qs rest)]> jl)
        (r2j_job i (survivors tr [r]) a) (r2j_job 0 (survivors tr [r]) ign) g Hi Hqs).
      rewrite !length_r2j_job in IH. specialize (IH Ha Hign).
      rewrite list_lookup_insert_eq in IH by (by eapply lookup_lt_Some).
      specialize (IH eq_refl E). rewrite list_insert_insert_eq in IH.
      change (r :: qs) with ([r] ++ qs). rewrite (survivors_app tr [r] qs), !r2j_job_app.
      exact IH.
Qed.

(** The whole job. *)
Lemma compact_job_spec j jl a ign g :
  0 ≤ i → job_ok size j → workers j ≠ [] →
  size ≤ Z.of_nat (length a) → size ≤ Z.of_nat (length ign) →
  jl !! Z.to_nat i = Some (Some j) →
  let run := compact_job size (Some <$> tr) i (with_tables jl a ign g) in
  let s := survivors tr (workers j) in
  if decide (s = []) then ∃ g', run = Stop (Aborted 200) g'
  else run = Done tt (with_tables (<[Z.to_nat i := Some (compacted tr j)]> jl)
                        (r2j_job i s a) (r2j_job 0 s ign) g).
Proof.
  intros Hi (rs & rest & Hj & Hrs) Hne Ha Hign Hjob. rewrite Hj in Hne, Hjob |- *.
  rewrite workers_app in Hne |- *. set (jid := j_job_id j) in *. cbv zeta.
  unfold compact_job, load_job. cbn [bind gets of_option with_tables job_list set_job_list].
  cbn [option_bind mbind]. rewrite (aload_Some jl i _ Hi Hjob). cbn [bind of_option worker_count].
  pose proof (compact_workers_spec jid rs [] rest jl a ign g Hi Hrs Ha Hign) as Hrun.
  specialize (Hrun Hjob Hne). cbv zeta in Hrun.
  change (Z.of_nat (length (survivors tr []))) with 0 in Hrun.
  change (Z.of_nat (length (@nil Z))) with 0 in Hrun. rewrite !app_nil_l in Hrun.
  destruct (decide (survivors tr rs = [])) as [E|E].
  - destruct Hrun as [g' Hrun]. exists g'. by rewrite Hrun.
  - rewrite Hrun. unfold compacted. rewrite workers_app. unfold mid_job.
    by rewrite !app_nil_r.
Qed.
End compact.

(** *** All jobs *)
Section compact_all.
Context `{MpiConst}.
Context (size : Z) (tr : list Z).
Context (Hsize : Z.of_nat (length tr) = size).
Context (Htr : Forall (λ t, t = MPI_UNDEFINED ∨ 0 ≤ t < size) tr).

(** The entries of [rank_2_job] written for the jobs [k], [k + 1], ... *)
Fixpoint retable (k : Z) (rss : list (list Z)) (a : list cell) : list cell :=
  match rss with
  | [] => a
  | rs :: rss' => retable (k + 1) rss' (r2j_job k rs a)
  end.

Definition alive (j : Job) : Prop := survivors tr (workers j) ≠ [].
#[export] Instance alive_dec j : Decision (alive j).
Proof. unfold alive. apply _. Defined.

Definition new_workers (js : list Job) : list (list Z) :=
  (λ j, survivors tr (workers j)) <$> js.

Lemma compact_jobs_spec js : ∀ pre a ign g,
  Forall (job_ok size) js → Forall (λ j, workers j ≠ []) js →
  size ≤ Z.of_nat (length a) → size ≤ Z.of_nat (length ign) →
  let run := iterM (compact_job size (Some <$> tr))
               (seqZ (Z.of_nat (length pre)) (Z.of_nat (length js)))
               (with_tables (Some <$> (pre ++ js)) a ign g) in
  if decide (Forall alive js) then
    run = Done tt (with_tables (Some <$> (pre ++ (compacted tr <$> js)))
            (retable (Z.of_nat (length pre)) (new_workers js) a)
            (r2j_job 0 (concat (new_workers js)) ign) g)
  else ∃ g', run = Stop (Aborted 200) g'.
Proof.
  induction js as [|j js IH]; intros pre a ign g Hok Hne Ha Hign run; subst run.
  { rewrite decide_True by constructor. done. }
  apply Forall_cons in Hok as [Hj Hok]. apply Forall_cons in Hne as [Hn Hne].
  unfold iterM in *. rewrite seqZ_cons by (simpl; lia). cbn [foldM bind].
  assert ((Some <$> (pre ++ j :: js)) !! Z.to_nat (Z.of_nat (length pre)) = Some (Some j)) as Hlk.
  { rewrite Nat2Z.id, list_lookup_fmap, lookup_app_r, Nat.sub_diag by done. done. }
  pose proof (compact_job_spec size tr (Z.of_nat (length pre)) Hsize Htr j _ a ign g
    ltac:(lia) Hj Hn Ha Hign Hlk) as Hrun. cbv zeta in Hrun.
  replace (Z.pred (Z.of_nat (length (j :: js)))) with (Z.of_nat (length js)) by len.
  replace (Z.succ (Z.of_nat (length pre))) with (Z.of_nat (length (pre ++ [compacted tr j]))) by len.
  destruct (decide (survivors tr (workers j) = [])) as [E|E].
  - destruct Hrun as [g' ->]. rewrite decide_False; [by eexists|].
    intros [Hal _]%Forall_cons. done.
  - rewrite Hrun, Nat2Z.id. rewrite fmap_app, fmap_cons.
    rewrite insert_app_r_alt by len. rewrite length_fmap, Nat.sub_diag. simpl insert.
    assert ((Some <$> pre) ++ Some (compacted tr j) :: (Some <$> js)
            = Some <$> ((pre ++ [compacted tr j]) ++ js)) as ->
      by (by rewrite <-app_assoc, fmap_app).
    specialize (IH (pre ++ [compacted tr j]) (r2j_job (Z.of_nat (length pre)) (survivors tr (workers j)) a)
      (r2j_job 0 (survivors tr (workers j)) ign) g Hok Hne).
    rewrite !length_r2j_job in IH. specialize (IH Ha Hign).
    destruct (decide (Forall alive js)) as [Hal|Hal].
    + rewrite decide_True by (by constructor). cbv zeta in IH. rewrite IH.
      unfold new_workers. csimpl. rewrite r2j_job_app, <-app_assoc.
      replace (Z.of_nat (length (pre ++ [compacted tr j]))) with (Z.of_nat (length pre) + 1) by len.
      done.
    + rewrite decide_False; [exact IH|]. by intros [_ ?]%Forall_cons.
Qed.
End compact_all.

(** ** The tables after an update *)
Lemma retable_r2j k rss a : retable k rss a = r2j_jobs k (MkGoJob 0 <$> rss) a.
Proof. revert k a. induction rss as [|rs rss IH]; intros k a; [done|]. simpl. apply IH. Qed.

Lemma retable_in rss a k rs r :
  NoDup (concat rss) → Forall (λ r, 0 ≤ r < Z.of_nat (length a)) (concat rss) →
  rss !! k = Some rs → r ∈ rs →
  retable 0 rss a !! Z.to_nat r = Some (Some (Z.of_nat k)).
Proof.
  intros Hnd Hr Hk Hin. rewrite retable_r2j.
  assert (all_ranks (MkGoJob 0 <$> rss) = concat rss) as Hall.
  { unfold all_ranks. rewrite <-list_fmap_compose. f_equal. by rewrite <-(list_fmap_id rss) at 2. }
  apply (r2j_jobs_in 0 _ a k (MkGoJob 0 rs)); rewrite ?Hall; [done|done| |done].
  rewrite list_lookup_fmap, Hk. done.
Qed.

Section updated.
Context `{MpiConst}.
Implicit Types (tr : list Z) (js : list Job).

(** [tr] is the answer of [MPI_Group_translate_ranks] for a world of [size]
    processes: each gets a rank of its own, or [MPI_UNDEFINED]. *)
Record translation (size : Z) tr : Prop := {
  tr_length : Z.of_nat (length tr) = size;
  tr_range : Forall (λ t, t = MPI_UNDEFINED ∨ 0 ≤ t < size) tr;
  tr_inj a b t : 0 ≤ a < size → 0 ≤ b < size →
    translate tr a = Some t → translate tr b = Some t → a = b
}.

(** The tables of [globals] for the jobs [js] on [size] processes. *)
Record tables (size : Z) js (a ign : list cell) (g : globals) : Prop := {
  tab_jobs : job_list g = Some (Some <$> js);
  tab_r2j : rank_2_job g = Some a;
  tab_ign : rank_ignore_list g = Some ign;
  tab_count : jobs_count (node g) = Z.of_nat (length js);
  tab_ok : Forall (job_ok size) js;
  tab_nonempty : Forall (λ j, workers j ≠ []) js;
  tab_r2j_length : size ≤ Z.of_nat (length a);
  tab_ign_length : size ≤ Z.of_nat (length ign);
  tab_NoDup : NoDup (concat (workers <$> js))
}.

Lemma survivors_range size tr rs :
  translation size tr → Forall (λ t, 0 ≤ t < size) (survivors tr rs).
Proof.
  intros [_ Hr _]. apply Forall_forall. intros t (r & _ & Ht)%list_elem_of_omap.
  unfold translate in Ht. destruct (tr !! Z.to_nat r) as [u|] eqn:E; simpl in Ht; [|done].
  destruct (u =? MPI_UNDEFINED) eqn:Eu; [done|]. injection Ht as ->.
  rewrite Forall_forall in Hr. apply list_elem_of_lookup_2 in E.
  destruct (Hr _ E) as [->|?]; [by rewrite Z.eqb_refl in Eu|done].
Qed.

Lemma survivors_NoDup size tr rs :
  translation size tr → Forall (λ r, 0 ≤ r < size) rs → NoDup rs → NoDup (survivors tr rs).
Proof.
  intros Htr. induction rs as [|r rs IH]; intros Hrs Hnd; [constructor|].
  apply Forall_cons in Hrs as [Hr Hrs]. apply NoDup_cons in Hnd as [Hn Hnd].
  unfold survivors. csimpl. destruct (translate tr r) as [t|] eqn:E; [|by apply IH].
  constructor; [|by apply IH]. intros (r' & Hr' & E')%list_elem_of_omap.
  rewrite Forall_forall in Hrs. assert (r = r') as ->; [|done].
  eapply (tr_inj _ _ Htr); eauto.
Qed.

Lemma concat_new_workers tr js :
  concat (new_workers tr js) = survivors tr (concat (workers <$> js)).
Proof.
  unfold new_workers. induction js as [|j js IH]; [done|]. csimpl.
  by rewrite survivors_app, <-IH.
Qed.

Lemma tables_range size js a ign g :
  tables size js a ign g → Forall (λ r, 0 ≤ r < size) (concat (workers <$> js)).
Proof.
  intros Ht. pose proof (tab_ok _ _ _ _ _ Ht) as Hok. clear Ht.
  induction js as [|j js IH]; [constructor|]. apply Forall_cons in Hok as [Hj Hok].
  csimpl. apply Forall_app. split; [|by apply IH].
  destruct Hj as (rs & rest & -> & Hrs). by rewrite workers_app.
Qed.

(** The node after the update. *)
Definition renumbered tr js (n : Node) : Node :=
  let r := default 0 (translate tr (rank n)) in
  set_node_checkpoint_master
    (if decide ((j ← js !! Z.to_nat (job_id n); head (survivors tr (workers j))) = Some r)
     then YES else NO)
    (set_rank r n).

Definition updated tr js a ign (g : globals) : globals :=
  with_tables (Some <$> (compacted tr <$> js)) (retable 0 (new_workers tr js) a)
    (r2j_job 0 (concat (new_workers tr js)) ign) (set_node (renumbered tr js (node g)) g).

Lemma update_job_list_spec size tr js a ign g r :
  translation size tr → tables size js a ign g →
  0 ≤ rank (node g) < size → translate tr (rank (node g)) = Some r →
  0 ≤ job_id (node g) < Z.of_nat (length js) →
  let run := update_job_list size (Some <$> tr) g in
  if decide (Forall (alive tr) js) then run = Done tt (updated tr js a ign g)
  else ∃ g', run = Stop (Aborted 200) g'.
Proof.
  intros Htr Ht Hr Hown Hjob run. subst run.
  set (g1 := set_node (set_node_checkpoint_master NO (node g)) g).
  assert (g1 = with_tables (Some <$> ([] ++ js)) a ign g1) as Hg1.
  { destruct Ht as [H1 H2 H3 _ _ _ _ _ _]. unfold g1, with_tables. destruct g; simpl in *.
    by subst. }
  pose proof (compact_jobs_spec size tr (tr_length _ _ Htr) (tr_range _ _ Htr) js [] a ign g1
    (tab_ok _ _ _ _ _ Ht) (tab_nonempty _ _ _ _ _ Ht) (tab_r2j_length _ _ _ _ _ Ht)
    (tab_ign_length _ _ _ _ _ Ht)) as Hrun. cbv zeta in Hrun. rewrite <-Hg1 in Hrun.
  unfold update_job_list, upd_node. cbn [bind modify gets]. fold g1.
  assert (jobs_count (node g1) = Z.of_nat (length js)) as -> by apply Ht.
  change (Z.of_nat (length (@nil Job))) with 0 in Hrun.
  destruct (decide (Forall (alive tr) js)) as [Hal|Hal].
  - rewrite Hrun, app_nil_l. cbn [bind gets with_tables node set_job_list set_rank_2_job set_rank_ignore_list].
    destruct (translate_spec size tr (tr_length _ _ Htr) (tr_range _ _ Htr) _ Hr)
      as (t & Hld & Hcase).
    assert (t = r ∧ 0 ≤ t < size) as [-> _].
    { destruct Hcase as [[_ ?]|(_ & ? & ?)]; [congruence|]. split; [congruence|done]. }
    change (rank (node g1)) with (rank (node g)). rewrite Hld. cbn.
    destruct (lookup_lt_is_Some_2 js (Z.to_nat (job_id (node g)))) as [j Hj]; [lia|].
    rewrite Forall_forall in Hal. pose proof (Hal j ltac:(by eapply list_elem_of_lookup_2)) as Hj'.
    unfold alive in Hj'. destruct (survivors tr (workers j)) as [|x s] eqn:Es; [done|].
    assert (aload (rank_list (compacted tr j)) 0 = Some x) as Hx.
    { apply aload_Some; [done|]. unfold compacted. rewrite Es. done. }
    unfold load_job. cbn -[compacted].
    rewrite (aload_Some (Some <$> (compacted tr <$> js)) (job_id (node g)) (compacted tr j))
      by (lia || by rewrite !list_lookup_fmap, Hj). cbn -[compacted].
    rewrite Hx. cbn -[compacted].
    unfold updated, renumbered. rewrite Hown, Hj. simpl. rewrite Es. simpl.
    destruct (decide (Some x = Some r)) as [[= ->]|Hne].
    + by rewrite Z.eqb_refl.
    + rewrite (proj2 (Z.eqb_neq x r)) by congruence. done.
  - destruct Hrun as [g' ->]. by eexists.
Qed.

Lemma compacted_workers size tr js a ign g :
  translation size tr → tables size js a ign g →
  workers <$> (compacted tr <$> js) = new_workers tr js.
Proof.
  intros Htr Ht. rewrite <-list_fmap_compose. apply list_fmap_ext. intros i j Hj.
  eapply job_ok_compacted; [|apply Htr]. pose proof (tab_ok _ _ _ _ _ Ht) as Hok.
  rewrite Forall_forall in Hok. apply Hok. by eapply list_elem_of_lookup_2.
Qed.

Lemma new_workers_NoDup size tr js a ign g :
  translation size tr → tables size js a ign g → NoDup (concat (new_workers tr js)).
Proof.
  intros Htr Ht. rewrite concat_new_workers.
  eapply survivors_NoDup; [done|by eapply tables_range|apply Ht].
Qed.

Lemma new_workers_range size tr js :
  translation size tr → Forall (λ t, 0 ≤ t < size) (concat (new_workers tr js)).
Proof. intros Htr. rewrite concat_new_workers. by apply survivors_range. Qed.

Lemma length_retable k rss a : length (retable k rss a) = length a.
Proof. by rewrite retable_r2j, length_r2j_jobs. Qed.

(** The update keeps the tables well formed, so the next failure finds them so. *)
Lemma updated_tables size tr js a ign g :
  translation size tr → tables size js a ign g → Forall (alive tr) js →
  tables size (compacted tr <$> js) (retable 0 (new_workers tr js) a)
    (r2j_job 0 (concat (new_workers tr js)) ign) (updated tr js a ign g).
Proof.
  intros Htr Ht Hal. pose proof (compacted_workers _ _ _ _ _ _ Htr Ht) as Hw.
  split; try done.
  - simpl. rewrite length_fmap. apply Ht.
  - rewrite Forall_fmap. eapply Forall_impl; [apply Ht|]. intros j Hj.
    by eapply job_ok_compacted; [|apply Htr].
  - rewrite Forall_forall. intros j (j0 & -> & Hj0)%list_elem_of_fmap.
    rewrite Forall_forall in Hal. apply Hal in Hj0 as Hj0'.
    assert (workers (compacted tr j0) = survivors tr (workers j0)) as ->; [|done].
    eapply job_ok_compacted; [|apply Htr]. pose proof (tab_ok _ _ _ _ _ Ht) as Hok.
    rewrite Forall_forall in Hok. by apply Hok.
  - rewrite length_retable. apply Ht.
  - rewrite length_r2j_job. apply Ht.
  - rewrite Hw. by eapply new_workers_NoDup.
Qed.
(** Every worker of the new jobs is found in [rank_2_job], and is not ignored. *)
Lemma updated_indexed size tr js a ign g k j t :
  translation size tr → tables size js a ign g →
  (compacted tr <$> js) !! k = Some j → t ∈ workers j →
  aload (retable 0 (new_workers tr js) a) t = Some (Z.of_nat k) ∧
  aload (r2j_job 0 (concat (new_workers tr js)) ign) t = Some 0.
Proof.
  intros Htr Ht Hk Hin. pose proof (compacted_workers _ _ _ _ _ _ Htr Ht) as Hw.
  pose proof (new_workers_NoDup _ _ _ _ _ _ Htr Ht) as Hnd.
  pose proof (new_workers_range size tr js Htr) as Hrange.
  assert (new_workers tr js !! k = Some (workers j)) as Hrs by (by rewrite <-Hw, list_lookup_fmap, Hk).
  assert (t ∈ concat (new_workers tr js)) as Hin'.
  { apply list_elem_of_In, in_concat. exists (workers j).
    split; apply list_elem_of_In; [by eapply list_elem_of_lookup_2|done]. }
  pose proof Hrange as Hall. rewrite Forall_forall in Hall. pose proof (Hall _ Hin') as Ht0.
  split; apply aload_Some; try lia.
  - apply retable_in with (rs := workers j); [done| |done|done].
    eapply Forall_impl; [exact Hrange|]. intros x Hx. simpl in Hx.
    pose proof (tab_r2j_length _ _ _ _ _ Ht). lia.
  - apply r2j_job_in; [done|].
    eapply Forall_impl; [exact Hrange|]. intros x Hx. simpl in Hx.
    pose proof (tab_ign_length _ _ _ _ _ Ht). lia.
Qed.
End updated.

(** ** The handler *)
Section handler_spec.
Context {W : Type} `{MpiConst} `{PmpiSplit W} `{Ulfm W}.

(** The first calls of [repair_world]: the failed group, the shrunk world,
    the group before the failure, and the new ranks. *)
Record shrinking : Type := MkShrinking {
  sh_failed : MPI_Group;
  sh_comm : MPI_Comm;
  sh_before : MPI_Group;
  sh_ranks : list Z;
  sh_world : W
}.
Definition shrink (world : MPI_Comm) (w : W) : shrinking :=
  let '(failed, w1) := PMPIX_Comm_failure_get_acked world w in
  let '(shrinked, w2) := PMPIX_Comm_shrink world w1 in
  let '(before, w3) := PMPI_Comm_group world w2 in
  let '(now, w4) := PMPI_Comm_group shrinked w3 in
  MkShrinking failed shrinked before
    (PMPI_Group_translate_ranks before (seqZ 0 (PMPI_Group_size before w4)) now w4) w4.

(** What ULFM documents of these calls: the shrunk communicator holds the
    survivors, so that translating gives each of them a rank of its own. *)
Class UlfmLaws : Prop := {
  shrink_size world w :
    PMPI_Group_size (sh_before (shrink world w)) (sh_world (shrink world w)) =
    Z.of_nat (length (sh_ranks (shrink world w)));
  shrink_translation world w :
    translation (Z.of_nat (length (sh_ranks (shrink world w)))) (sh_ranks (shrink world w))
}.

(** The rest of the repair, after the tables were updated. *)
Definition rebuilt (sh : shrinking) (g : globals) (g' : globals) (w' : W) : Prop :=
  ∃ world' a b w1 w2 w3 w4 w5,
    PMPI_Comm_dup (sh_comm sh) w1 = (world', w2) ∧
    let n := node g in
    PMPI_Comm_split world' (active_split n).1 (active_split n).2 w3 = (a, w4) ∧
    PMPI_Comm_split world' (world_job_split n).1 (world_job_split n).2 w4 = (b, w5) ∧
    w' = w5 ∧
    g' = set_node (set_world_job_comm b (set_active_comm a (set_rep_mpi_comm_world world' n)))
           (set_previous_world_group (sh_before sh) (set_last_group_failed (sh_failed sh) g)).

Lemma of_globals_Stop {A} (m : M globals A) g (w : W) e g' :
  m g = Stop e g' → of_globals m (g, w) = Stop e (g', w).
Proof. unfold of_globals, zoom. simpl. by intros ->. Qed.

Lemma tables_frame size js a ign g f p :
  tables size js a ign g →
  tables size js a ign (set_previous_world_group p (set_last_group_failed f g)).
Proof. by intros []. Qed.

Lemma updated_frame tr js a ign g f p :
  updated tr js a ign (set_previous_world_group p (set_last_group_failed f g)) =
  set_previous_world_group p (set_last_group_failed f (updated tr js a ign g)).
Proof. done. Qed.

Lemma rebuild_comms_spec world sh g (w : W) :
  ∃ g' w', rebuild_comms world (sh_comm sh) (g, w) = Done tt (g', w') ∧
    ∃ world' a b w1 w2 w3 w4 w5,
      PMPI_Comm_dup (sh_comm sh) w1 = (world', w2) ∧
      let n := node g in
      PMPI_Comm_split world' (active_split n).1 (active_split n).2 w3 = (a, w4) ∧
      PMPI_Comm_split world' (world_job_split n).1 (world_job_split n).2 w4 = (b, w5) ∧
      w' = w5 ∧
      g' = set_node (set_world_job_comm b (set_active_comm a (set_rep_mpi_comm_world world' n))) g.
Proof.
  unfold rebuild_comms, mpi_call, comm_free, of_globals, zoom, upd_node.
  cbn [bind modify gets fst snd].
  destruct (PMPI_Comm_dup (sh_comm sh) _) as [world' w2] eqn:E. cbn [bind modify gets fst snd].
  unfold when. destruct (negb _); cbn [bind modify ret gets fst snd];
    rewrite update_comms_spec; unfold active_split, world_job_split; cbn;
    (destruct (PMPI_Comm_split world' _ (job_id (node g)) _) as [a w3] eqn:E1);
    (destruct (PMPI_Comm_split world' (job_id (node g)) _ w3) as [b w4] eqn:E2);
    eexists _, _; (split; [reflexivity|]);
    exists world', a, b; do 5 eexists; (split; [exact E|]); (split; [exact E1|]);
    (split; [exact E2|]); done.
Qed.

Context `{!UlfmLaws}.

(** The handler up to the tables. *)
Lemma repair_world_start g w :
  let world := rep_mpi_comm_world (node g) in
  let sh := shrink world w in
  repair_world world (g, w) =
    (of_globals (update_job_list (Z.of_nat (length (sh_ranks sh))) (Some <$> sh_ranks sh)) ;;;
     rebuild_comms world (sh_comm sh))
      (set_previous_world_group (sh_before sh) (set_last_group_failed (sh_failed sh) g), sh_world sh).
Proof.
  intros world sh. pose proof (shrink_size world w) as Hsize. fold sh in Hsize.
  unfold repair_world, mpi_call. unfold sh, shrink in *. cbn [bind gets fst snd].
  destruct (PMPIX_Comm_failure_get_acked _ w) as [failed w1]. cbn.
  destruct (PMPIX_Comm_shrink world w1) as [shrinked w2]. cbn.
  destruct (PMPI_Comm_group world w2) as [before w3]. cbn.
  destruct (PMPI_Comm_group shrinked w3) as [now w4]. cbn in *. rewrite <-Hsize. reflexivity.
Qed.

Lemma repair_world_spec js a ign g w r :
  let world := rep_mpi_comm_world (node g) in
  let sh := shrink world w in
  let size := Z.of_nat (length (sh_ranks sh)) in
  tables size js a ign g → 0 ≤ rank (node g) < size →
  translate (sh_ranks sh) (rank (node g)) = Some r →
  0 ≤ job_id (node g) < Z.of_nat (length js) →
  if decide (Forall (alive (sh_ranks sh)) js) then
    ∃ g' w', repair_world world (g, w) = Done tt (g', w') ∧
             rebuilt sh (updated (sh_ranks sh) js a ign g) g' w'
  else ∃ s, repair_world world (g, w) = Stop (Aborted 200) s.
Proof.
  intros world sh size Ht Hr Hown Hjob.
  pose proof (shrink_translation world w) as Htr. fold sh in Htr. fold size in Htr.
  set (g1 := set_previous_world_group (sh_before sh) (set_last_group_failed (sh_failed sh) g)).
  unfold world at 1 2. rewrite (repair_world_start g w). fold world sh size g1.
  pose proof (update_job_list_spec size (sh_ranks sh) js a ign g1 r Htr
    (tables_frame _ _ _ _ _ _ _ Ht) Hr Hown Hjob) as Hrun. cbv zeta in Hrun.
  cbn [bind]. destruct (decide (Forall (alive (sh_ranks sh)) js)) as [Hal|Hal].
  - rewrite (of_globals_Done _ _ _ _ _ Hrun).
    unfold g1. rewrite updated_frame. set (g2 := updated _ js a ign g).
    destruct (rebuild_comms_spec world sh (set_previous_world_group (sh_before sh)
      (set_last_group_failed (sh_failed sh) g2)) (sh_world sh)) as (g' & w' & Hrb & Hreb).
    exists g', w'. split; [exact Hrb|].
    destruct Hreb as (world' & a' & b & x1 & x2 & x3 & x4 & x5 & Hd & Hs1 & Hs2 & -> & ->).
    by exists world', a', b, x1, x2, x3, x4, x5.
  - destruct Hrun as [g' Hrun]. rewrite (of_globals_Stop _ _ _ _ _ Hrun). by eexists.
Qed.
End handler_spec.

Section ignoring.
Context {W : Type} `{MpiConst} `{PmpiSplit W} `{Ulfm W}.

(** The failed ranks a process is told of: some may not be members. *)
Definition noted (ranks : list Z) : list Z := filter (λ r, r ≠ MPI_UNDEFINED) ranks.

Lemma ignore_ranks_spec js a ranks : ∀ ign g,
  job_list g = Some (Some <$> js) → rank_2_job g = Some a → rank_ignore_list g = Some ign →
  (∀ r, r ∈ noted ranks → 0 ≤ r < Z.of_nat (length ign) ∧
     ∃ k, aload a r = Some k ∧ 0 ≤ k < Z.of_nat (length js)) →
  iterM ignore_rank ranks g =
  Done tt (set_rank_ignore_list (Some (r2j_job 1 (noted ranks) ign)) g).
Proof.
  unfold iterM. induction ranks as [|r ranks IH]; intros ign g Hj Ha Hi Hr.
  { destruct g; simpl in *. by subst. }
  cbn [foldM]. unfold ignore_rank at 1. unfold noted in *. rewrite filter_cons in Hr |- *.
  destruct (decide (r ≠ MPI_UNDEFINED)) as [Hu|Hu].
  - rewrite (proj2 (Z.eqb_neq _ _) Hu). destruct (Hr r) as (Hlt & k & Hk & Hkl); [set_solver|].
    destruct (lookup_lt_is_Some_2 js (Z.to_nat k)) as [j Hjk]; [lia|].
    unfold store_rank_ignore, load_job. cbn [bind gets of_option].
    rewrite Hi. cbn [option_bind mbind]. rewrite astore_Some by done.
    cbn [bind of_option modify rank_2_job set_rank_ignore_list]. rewrite Ha.
    cbn [option_bind mbind of_option bind job_list]. rewrite Hk. cbn [of_option bind job_list set_rank_ignore_list].
    rewrite Hj. cbn [option_bind mbind].
    rewrite (aload_Some (Some <$> js) k j) by (lia || by rewrite list_lookup_fmap, Hjk).
    cbn [of_option bind ret].
    erewrite IH; [reflexivity|done|done|done|].
    intros r' Hr'. len. apply Hr. set_solver.
  - assert (r = MPI_UNDEFINED) as -> by (destruct (decide (r = MPI_UNDEFINED)); done).
    rewrite Z.eqb_refl. cbn [bind ret]. by apply IH.
Qed.

(** The state after [note_failures] and the ranks it noted. *)
Definition failed_ranks (world : MPI_Comm) (w : W) : MPI_Group * list Z * W :=
  let '(failed, w1) := PMPIX_Comm_failure_get_acked world w in
  let '(now, w2) := PMPI_Comm_group world w1 in
  (failed, PMPI_Group_translate_ranks failed (seqZ 0 (PMPI_Group_size failed w2)) now w2, w2).

Lemma note_failures_spec js a ign g w :
  let '(failed, ranks, w') := failed_ranks (rep_mpi_comm_world (node g)) w in
  job_list g = Some (Some <$> js) → rank_2_job g = Some a → rank_ignore_list g = Some ign →
  (∀ r, r ∈ noted ranks → 0 ≤ r < Z.of_nat (length ign) ∧
     ∃ k, aload a r = Some k ∧ 0 ≤ k < Z.of_nat (length js)) →
  note_failures (g, w) =
  Done tt (set_rank_ignore_list (Some (r2j_job 1 (noted ranks) ign))
            (set_process_shrinking_pending 1 (set_last_group_failed failed g)), w').
Proof.
  unfold failed_ranks, note_failures, mpi_call. cbn [bind gets fst snd].
  destruct (PMPIX_Comm_failure_get_acked _ w) as [failed w1].
  destruct (PMPI_Comm_group _ w1) as [now w2] eqn:E.
  intros Hj Ha Hi Hr. cbn. rewrite E. cbn.
  set (g1 := set_process_shrinking_pending 1 (set_last_group_failed failed g)).
  by rewrite (of_globals_Done _ _ _ _ _ (ignore_ranks_spec js a _ ign g1 Hj Ha Hi Hr)).
Qed.
End ignoring.

(** ** The search for a failed root *)
Definition root_in (failed : list Z) (j : Job) : Prop :=
  Exists (λ r, head (workers j) = Some r) failed.
#[export] Instance root_in_dec failed j : Decision (root_in failed j).
Proof. unfold root_in. apply _. Defined.

Lemma root_search_job j i (failed : list Z) g (found : Z) x :
  load_job i g = Done j g → aload (rank_list j) 0 = Some x → head (workers j) = Some x →
  found = 0 ∨ found = 1 →
  foldM (λ (found r : Z),
    if found =? 1 then ret 1
    else
      let! job := load_job i in
      let! first := of_option Undef (aload (rank_list job) 0) in
      ret (if first =? r then 1 else 0)) found failed g =
  Done (if decide (found = 1 ∨ root_in failed j) then 1 else 0) g.
Proof.
  intros Hj Hx Hh. revert found. induction failed as [|r failed IH]; intros found Hf.
  - cbn. destruct Hf as [-> | ->]; [|done]. rewrite decide_False; [done|].
    intros [?|He]; [done|]. by apply Exists_nil in He.
  - cbn [foldM bind]. destruct Hf as [-> | ->].
    + cbn -[load_job]. rewrite Hj. cbn. rewrite Hx. cbn. rewrite IH by (case_match; auto).
      f_equal. apply decide_ext. unfold root_in. rewrite Exists_cons, Hh.
      destruct (x =? r) eqn:E; rewrite ?Z.eqb_eq, ?Z.eqb_neq in E; naive_solver.
    + cbn -[load_job]. rewrite IH by auto. by rewrite !decide_True by auto.
Qed.

Lemma root_search_spec size (failed : list Z) js : ∀ pre g (found : Z),
  job_list g = Some (Some <$> (pre ++ js)) → Forall (job_ok size) js →
  Forall (λ j, workers j ≠ []) js → found = 0 ∨ found = 1 →
  foldM (λ found i,
    foldM (λ (found r : Z),
      if found =? 1 then ret 1
      else
        let! job := load_job i in
        let! first := of_option Undef (aload (rank_list job) 0) in
        ret (if first =? r then 1 else 0)) found failed) found
    (seqZ (Z.of_nat (length pre)) (Z.of_nat (length js))) g =
  Done (if decide (found = 1 ∨ Exists (root_in failed) js) then 1 else 0) g.
Proof.
  induction js as [|j js IH]; intros pre g found Hj Hok Hne Hf.
  - cbn. destruct Hf as [-> | ->]; [|done]. rewrite decide_False; [done|].
    intros [?|He]; [done|]. by apply Exists_nil in He.
  - apply Forall_cons in Hok as [Hjob Hok]. apply Forall_cons in Hne as [Hn Hne].
    rewrite seqZ_cons by (simpl; lia). cbn [foldM bind].
    destruct Hjob as (rs & rest & Hjeq & _).
    assert (workers j = rs) as Hw by (rewrite Hjeq; apply workers_app).
    destruct rs as [|x rs]; [by rewrite Hw in Hn|].
    rewrite (root_search_job j _ failed g found x).
    + replace (Z.pred (Z.of_nat (length (j :: js)))) with (Z.of_nat (length js)) by len.
      replace (Z.succ (Z.of_nat (length pre))) with (Z.of_nat (length (pre ++ [j]))) by len.
      rewrite IH; [|by rewrite <-app_assoc|done|done|by case_match; auto].
      f_equal. apply decide_ext. rewrite Exists_cons.
      destruct (decide (found = 1 ∨ root_in failed j)) as [E|E]; naive_solver.
    + unfold load_job. cbn. rewrite Hj. cbn. rewrite (aload_Some _ _ j); [done|lia|].
      rewrite Nat2Z.id, list_lookup_fmap, lookup_app_r, Nat.sub_diag by done. done.
    + rewrite Hjeq. by apply aload_Some.
    + by rewrite Hw.
    + done.
Qed.

(** A process failure reported by the world, outside a point-to-point call. *)
Lemma rep_errhandler_run {W} `{MpiConst} `{PmpiSplit W} `{Ulfm W} g (w : W) err :
  let world := rep_mpi_comm_world (node g) in
  err = PROC_SHRINK_PENDING ∨ PMPI_Error_class err w = MPIX_ERR_PROC_FAILED →
  ignore_process_failure g = 0 →
  rep_errhandler world err (g, w) = repair_world world (g, w).
Proof.
  intros world Herr Hign. unfold rep_errhandler. cbn [bind gets ensure fst snd]. unfold world.
  assert ((if err =? PROC_SHRINK_PENDING then MPIX_ERR_PROC_FAILED else PMPI_Error_class err w)
          = MPIX_ERR_PROC_FAILED) as ->.
  { destruct Herr as [-> | ->]; [done|]. by destruct (err =? _). }
  rewrite Z.eqb_refl. cbn [bind fst snd]. by rewrite Hign, !Z.eqb_refl.
Qed.

(** ** Properties *)

(** C9: [update_job_list].  The rank each process has in the shrunk world is
    given by the translation.  When some job has no living worker the call
    ends in [PMPI_Abort(.., 200)].  Otherwise it returns; every job keeps its
    living workers, in their order and under their new ranks, and counts them;
    [rank_2_job] and the ignore list agree with the jobs again; and this
    process has its new rank and is master iff it is first in its job. *)
Theorem update_job_list_correct `{MpiConst} size tr js a ign g r :
  translation size tr → tables size js a ign g →
  0 ≤ rank (node g) < size → translate tr (rank (node g)) = Some r →
  0 ≤ job_id (node g) < Z.of_nat (length js) →
  if decide (Forall (alive tr) js) then
    ∃ g' js' a' ign', update_job_list size (Some <$> tr) g = Done tt g' ∧
      tables size js' a' ign' g' ∧
      workers <$> js' = survivors tr <$> (workers <$> js) ∧
      (∀ k j t, js' !! k = Some j → t ∈ workers j →
         aload a' t = Some (Z.of_nat k) ∧ aload ign' t = Some 0) ∧
      rank (node g') = r ∧ job_id (node g') = job_id (node g) ∧
      (node_checkpoint_master (node g') = YES ↔
       ∃ j, js' !! Z.to_nat (job_id (node g)) = Some j ∧ head (workers j) = Some r)
  else ∃ g', update_job_list size (Some <$> tr) g = Stop (Aborted 200) g'.
Proof.
  intros Htr Ht Hr Hown Hjob.
  pose proof (update_job_list_spec _ _ _ _ _ _ _ Htr Ht Hr Hown Hjob) as Hrun. cbv zeta in Hrun.
  destruct (decide (Forall (alive tr) js)) as [Hal|_]; [|done].
  eexists _, (compacted tr <$> js), _, _. split; [exact Hrun|].
  assert (workers <$> (compacted tr <$> js) = new_workers tr js) as Hw
    by by eapply compacted_workers.
  pose proof (new_workers_NoDup _ _ _ _ _ _ Htr Ht) as Hnd.
  pose proof (new_workers_range size tr js Htr) as Hrange.
  split; [by eapply updated_tables|]. split; [|split; [|split; [|split]]].
  - rewrite Hw. unfold new_workers. by rewrite <-list_fmap_compose.
  - intros k j t Hk Hin. by eapply (updated_indexed size tr js a ign g k j t).
  - simpl. by rewrite Hown.
  - done.
  - simpl. unfold renumbered. rewrite Hown. simpl.
    rewrite list_lookup_fmap. destruct (js !! Z.to_nat (job_id (node g))) as [j|] eqn:Ej; simpl.
    + assert (workers (compacted tr j) = survivors tr (workers j)) as Hwj.
      { eapply job_ok_compacted; [|apply Htr]. pose proof (tab_ok _ _ _ _ _ Ht) as Hok.
        rewrite Forall_forall in Hok. apply Hok. by eapply list_elem_of_lookup_2. }
      destruct (decide _) as [E|E]; split; intros HH; try done.
      * exists (compacted tr j). split; [done|]. by rewrite Hwj.
      * destruct HH as (j' & [= <-] & HH). by rewrite Hwj in HH.
    + split; [done|]. by intros (? & ? & _).
Qed.

(** C10: [rep_errhandler] in a collective call, when a process of the world
    failed.  The failed processes are acknowledged and the world is shrunk.
    If a job has no living worker the process aborts; otherwise the handler
    returns, the tables are those of [update_job_list] for the shrunk world,
    the world communicator is a copy of it, and the other two are what the
    splits with the process's new role return. *)
Theorem rep_errhandler_repairs {W} `{MpiConst} `{PmpiSplit W} `{Ulfm W} `{!UlfmLaws}
    js a ign g (w : W) err r :
  let world := rep_mpi_comm_world (node g) in
  let sh := shrink world w in
  let size := Z.of_nat (length (sh_ranks sh)) in
  err = PROC_SHRINK_PENDING ∨ PMPI_Error_class err w = MPIX_ERR_PROC_FAILED →
  ignore_process_failure g = 0 →
  tables size js a ign g → 0 ≤ rank (node g) < size →
  translate (sh_ranks sh) (rank (node g)) = Some r →
  0 ≤ job_id (node g) < Z.of_nat (length js) →
  if decide (Forall (alive (sh_ranks sh)) js) then
    ∃ g' w', rep_errhandler world err (g, w) = Done tt (g', w') ∧
      rebuilt sh (updated (sh_ranks sh) js a ign g) g' w' ∧
      ∃ a' ign', tables size (compacted (sh_ranks sh) <$> js) a' ign' g'
  else ∃ s, rep_errhandler world err (g, w) = Stop (Aborted 200) s.
Proof.
  intros world sh size Herr Hign Ht Hr Hown Hjob.
  unfold world. rewrite (rep_errhandler_run g w err Herr Hign). fold world.
  pose proof (repair_world_spec js a ign g w r Ht Hr Hown Hjob) as Hrun. fold world sh in Hrun.
  destruct (decide (Forall _ js)) as [Hal|_]; [|done].
  destruct Hrun as (g' & w' & Hrun & Hreb). exists g', w'. split; [done|]. split; [done|].
  pose proof (updated_tables _ _ _ _ _ _ (shrink_translation world w) Ht Hal) as Ht'.
  destruct Hreb as (? & ? & ? & ? & ? & ? & ? & ? & _ & _ & _ & _ & ->).
  eexists _, _. destruct Ht' as [H1' H2' H3' H4' H5' H6' H7' H8' H9']. by split.
Qed.

(** [rep_errhandler] while failures are ignored (in a point-to-point call).
    It leaves the jobs and the communicators alone, marks the world as to be
    shrunk later, and sets the ignore entry of exactly the failed ranks. *)
Theorem rep_errhandler_ignores {W} `{MpiConst} `{PmpiSplit W} `{Ulfm W}
    js a ign g (w : W) err failed ranks w' :
  let world := rep_mpi_comm_world (node g) in
  PMPI_Error_class err w = MPIX_ERR_PROC_FAILED ∨ err = PROC_SHRINK_PENDING →
  ignore_process_failure g ≠ 0 →
  failed_ranks world w = (failed, ranks, w') →
  job_list g = Some (Some <$> js) → rank_2_job g = Some a → rank_ignore_list g = Some ign →
  (∀ r, r ∈ noted ranks → 0 ≤ r < Z.of_nat (length ign) ∧
     ∃ k, aload a r = Some k ∧ 0 ≤ k < Z.of_nat (length js)) →
  ∃ g' ign', rep_errhandler world err (g, w) = Done tt (g', w') ∧
    node g' = node g ∧ job_list g' = job_list g ∧ rank_2_job g' = rank_2_job g ∧
    process_shrinking_pending g' = 1 ∧ last_group_failed g' = failed ∧
    rank_ignore_list g' = Some ign' ∧
    (∀ r, 0 ≤ r → ign' !! Z.to_nat r = if decide (r ∈ noted ranks) then Some (Some 1)
                                         else ign !! Z.to_nat r).
Proof.
  intros world Herr Hign Hf Hj Ha Hi Hr.
  pose proof (note_failures_spec js a ign g w) as Hrun. unfold world in Hf. rewrite Hf in Hrun.
  specialize (Hrun Hj Ha Hi Hr). eexists _, _. split.
  { unfold rep_errhandler. cbn [bind gets ensure fst snd]. unfold world.
    assert ((if err =? PROC_SHRINK_PENDING then MPIX_ERR_PROC_FAILED else PMPI_Error_class err w)
            = MPIX_ERR_PROC_FAILED) as ->.
    { destruct Herr as [-> | ->]; [|done]. by destruct (err =? _). }
    rewrite Z.eqb_refl. cbn [bind fst snd].
    rewrite (proj2 (Z.eqb_neq _ _) Hign), Z.eqb_refl. exact Hrun. }
  do 6 (split; [done|]). intros r Hr0.
  assert (Forall (λ r, 0 ≤ r < Z.of_nat (length ign)) (noted ranks)) as Hall.
  { apply Forall_forall. intros x Hx. by apply Hr. }
  destruct (decide (r ∈ noted ranks)) as [Hin|Hin]; [by apply r2j_job_in|].
  apply r2j_job_notin; [done|done|]. eapply Forall_impl; [exact Hall|]. simpl. lia.
Qed.

(** The other calls of [rep_errhandler]: an error that is not a process
    failure aborts the program, and a failure that another communicator
    reports changes nothing. *)
Theorem rep_errhandler_other {W} `{MpiConst} `{PmpiSplit W} `{Ulfm W} comm g (w : W) err :
  err ≠ PROC_SHRINK_PENDING →
  rep_errhandler comm err (g, w) =
    if decide (PMPI_Error_class err w = MPIX_ERR_PROC_FAILED) then
      if decide (comm = rep_mpi_comm_world (node g)) then
        if decide (ignore_process_failure g = 0) then repair_world comm (g, w)
        else note_failures (g, w)
      else Done tt (g, w)
    else Stop (Aborted 300) (g, w).
Proof.
  intros Herr. unfold rep_errhandler. cbn [bind gets ensure fst snd].
  rewrite (proj2 (Z.eqb_neq _ _) Herr).
  destruct (decide (PMPI_Error_class err w = _)) as [->|Hc].
  - rewrite Z.eqb_refl. cbn [bind fst snd]. destruct (decide (comm = _)) as [->|Hne].
    + rewrite Z.eqb_refl. destruct (decide _) as [->|Hi]; [done|].
      rewrite (proj2 (Z.eqb_neq _ _) Hi). done.
    + rewrite (proj2 (Z.eqb_neq _ _) Hne). done.
  - rewrite (proj2 (Z.eqb_neq _ _)); [done|]. intros E. by apply Hc.
Qed.

(** [is_failed_node_world_job_comm_root] on well-formed tables: it returns
    1 when the first worker of some job is one of the failed ranks, as the
    group of the previous world numbers them, and 0 otherwise; it changes
    nothing. *)
Theorem root_check_correct {W} `{MpiConst} `{PmpiSplit W} `{Ulfm W} js size a ign g (w : W) :
  tables size js a ign g →
  let failed := PMPI_Group_translate_ranks (last_group_failed g)
    (seqZ 0 (PMPI_Group_size (last_group_failed g) w)) (previous_world_group g) w in
  is_failed_node_world_job_comm_root (g, w) =
    Done (if decide (Exists (λ j, Exists (λ r, head (workers j) = Some r) failed) js)
          then 1 else 0) (g, w).
Proof.
  intros Ht failed. unfold is_failed_node_world_job_comm_root. cbn [bind gets fst snd].
  fold failed. rewrite (tab_count _ _ _ _ _ Ht). apply of_globals_Done.
  pose proof (root_search_spec size failed js [] g 0 (tab_jobs _ _ _ _ _ Ht)
    (tab_ok _ _ _ _ _ Ht) (tab_nonempty _ _ _ _ _ Ht)) as Hrun.
  change (Z.of_nat (length (@nil Job))) with 0 in Hrun. rewrite Hrun by auto.
  f_equal. apply decide_ext. unfold root_in. naive_solver.
Qed.

(** ** A small fault-tolerant MPI library

    For the witnesses.  It knows the members of every communicator and group,
    as processes of the original world, and which processes are dead. *)
Record ulfm_world : Type := UlfmWorld {
  uw_members : gmap Z (list Z);
  uw_dead : list Z;
  uw_next : Z
}.

Definition uw_new (ms : list Z) (w : ulfm_world) : Z * ulfm_world :=
  (uw_next w, UlfmWorld (<[uw_next w := ms]> (uw_members w)) (uw_dead w) (uw_next w + 1)).
Definition uw_get (c : Z) (w : ulfm_world) : list Z := remove_dups (default [] (uw_members w !! c)).

Fixpoint index_of (p : Z) (l : list Z) : option Z :=
  match l with
  | [] => None
  | q :: l' => if p =? q then Some 0 else Z.succ <$> index_of p l'
  end.

Definition uw_translate (g : Z) (ranks : list Z) (g' : Z) (w : ulfm_world) : list Z :=
  (λ r, default MPI_UNDEFINED (p ← uw_get g w !! Z.to_nat r; index_of p (uw_get g' w))) <$> ranks.

#[local] Instance small_ulfm : Ulfm ulfm_world := {
  PMPI_Error_class e _ := e;
  PMPIX_Comm_failure_get_acked c w := uw_new (filter (λ p, p ∈ uw_dead w) (uw_get c w)) w;
  PMPIX_Comm_shrink c w := uw_new (filter (λ p, p ∉ uw_dead w) (uw_get c w)) w;
  PMPI_Comm_group c w := uw_new (uw_get c w) w;
  PMPI_Group_size c w := Z.of_nat (length (uw_get c w));
  PMPI_Group_translate_ranks := uw_translate;
  PMPI_Comm_free c w := UlfmWorld (delete c (uw_members w)) (uw_dead w) (uw_next w);
  PMPI_Comm_dup c w := uw_new (uw_get c w) w
}.

(** The witnesses split for one process only. *)
#[local] Instance small_split : PmpiSplit ulfm_world := {|
  PMPI_Comm_rank _ _ := 0;
  PMPI_Comm_size c w := Z.of_nat (length (uw_get c w));
  PMPI_Comm_split _ _ _ w := uw_new [0] w
|}.

(** Four processes run the jobs [0; 2] and [1; 3]; this one is process 2. *)
Definition crash_world (dead : list Z) : ulfm_world :=
  UlfmWorld {[ 10 := [0; 1; 2; 3] ]} dead 20.
Definition crash_jobs : list Job :=
  [MkJob 0 2 [Some 0; Some 2]; MkJob 1 2 [Some 1; Some 3]].
Definition crash_r2j : list cell := [Some 0; Some 1; Some 0; Some 1].
Definition crash_globals (ignore : Z) : globals :=
  MkGlobals (Some (Some <$> crash_jobs)) (MkNode 0 2 2 1 2 NODE_DATA_NONE NO 10 11 12)
    (Some crash_r2j) (Some (replicate 4 (Some 0))) RESTORE_NO 0 ignore 0 0 0 0 0 0 0 (-1) (-1).

Lemma index_of_range p l i : index_of p l = Some i → 0 ≤ i < Z.of_nat (length l).
Proof.
  revert i. induction l as [|q l IH]; intros i; simpl; [done|].
  destruct (p =? q); [intros [= <-]; lia|].
  destruct (index_of p l) as [k|]; simpl; [|done]. intros [= <-]. specialize (IH _ eq_refl). lia.
Qed.

Lemma index_of_inj p p' l i : index_of p l = Some i → index_of p' l = Some i → p = p'.
Proof.
  revert i. induction l as [|q l IH]; intros i; simpl; [done|].
  destruct (p =? q) eqn:E1, (p' =? q) eqn:E2; rewrite ?Z.eqb_eq in *; subst; try done.
  - destruct (index_of p' l) eqn:E; simpl; [|done]. apply index_of_range in E.
    intros [= <-] [=]. lia.
  - destruct (index_of p l) eqn:E; simpl; [|done]. apply index_of_range in E.
    intros [= <-] [=]. lia.
  - destruct (index_of p l) as [a|] eqn:Ea, (index_of p' l) as [b|] eqn:Eb; simpl; try done.
    intros [= <-] [= Hab]. apply (IH a); [done|]. f_equal. lia.
Qed.

Definition rerank (before now : list Z) (r : Z) : Z :=
  default MPI_UNDEFINED (p ← before !! Z.to_nat r; index_of p now).

Lemma rerank_translation (before now : list Z) :
  NoDup before → (length now ≤ length before)%nat →
  let tr := rerank before now <$> seqZ 0 (Z.of_nat (length before)) in
  translation (Z.of_nat (length tr)) tr.
Proof.
  intros Hnd Hle tr.
  assert (length tr = length before) as Hlen by (unfold tr; len; rewrite length_seqZ; lia).
  assert (∀ r t, 0 ≤ r < Z.of_nat (length before) → translate tr r = Some t →
    ∃ p, before !! Z.to_nat r = Some p ∧ index_of p now = Some t) as Hinv.
  { intros r t Hr. unfold translate, tr. rewrite list_lookup_fmap.
    rewrite lookup_seqZ_lt by lia. simpl. unfold rerank.
    rewrite Z2Nat.id by lia. rewrite Z.add_0_l.
    destruct (before !! Z.to_nat r) as [p|]; simpl; [|done].
    destruct (index_of p now) as [i|] eqn:E; simpl; [|done].
    case_match; [done|]. intros [= <-]. by exists p. }
  split; [done| |].
  - apply Forall_fmap, Forall_forall. intros r Hr. simpl. unfold rerank.
    destruct (before !! Z.to_nat r) as [p|]; simpl; [|by left].
    destruct (index_of p now) as [i|] eqn:E; simpl; [|by left].
    apply index_of_range in E. right. lia.
  - rewrite Hlen. intros x y t Hx Hy (p & Hp & Ep)%Hinv (q & Hq & Eq)%Hinv; [|done|done].
    assert (p = q) as -> by by eapply index_of_inj.
    pose proof (NoDup_lookup _ _ _ _ Hnd Hp Hq). lia.
Qed.

Lemma uw_get_new c ms w : uw_get c (uw_new ms w).2 =
  if decide (c = uw_next w) then remove_dups ms else uw_get c w.
Proof.
  unfold uw_get, uw_new. simpl. destruct (decide (c = uw_next w)) as [->|Hne].
  - by rewrite lookup_insert_eq.
  - by rewrite lookup_insert_ne.
Qed.

Lemma uw_get_NoDup c w : NoDup (uw_get c w).
Proof. apply NoDup_remove_dups. Qed.
Lemma remove_dups_NoDup (l : list Z) : NoDup l → remove_dups l = l.
Proof.
  induction 1 as [|x l Hx _ IH]; [done|]. simpl.
  destruct (decide_rel _ _ _); [done|by rewrite IH].
Qed.

(** The ranks after a shrink are those among the processes that are not dead. *)
Lemma small_shrink world (w : ulfm_world) : ∃ before now, NoDup before ∧ (length now ≤ length before)%nat ∧
  sh_ranks (shrink world w) = rerank before now <$> seqZ 0 (Z.of_nat (length before)) ∧
  PMPI_Group_size (sh_before (shrink world w)) (sh_world (shrink world w)) = Z.of_nat (length before) ∧
  (world < uw_next w → before = uw_get world w ∧ now = filter (λ p, p ∉ uw_dead w) (uw_get world w)).
Proof.
  set (w1 := (uw_new (filter (λ p, p ∈ uw_dead w) (uw_get world w)) w).2).
  set (alive := filter (λ p, p ∉ uw_dead w1) (uw_get world w1)).
  set (w2 := (uw_new alive w1).2).
  set (w3 := (uw_new (uw_get world w2) w2).2).
  set (w4 := (uw_new (uw_get (uw_next w1) w3) w3).2).
  assert (uw_next w1 = uw_next w + 1) as N1 by done.
  assert (uw_next w2 = uw_next w1 + 1) as N2 by done.
  assert (uw_next w3 = uw_next w2 + 1) as N3 by done.
  exists (uw_get (uw_next w2) w4), (uw_get (uw_next w3) w4).
  assert (remove_dups alive = alive) as Halive by apply remove_dups_NoDup, NoDup_filter, uw_get_NoDup.
  assert (uw_get (uw_next w1) w2 = alive) as E1
    by (unfold w2; by rewrite uw_get_new, decide_True by done).
  assert (uw_get (uw_next w1) w3 = alive) as E2.
  { unfold w3. rewrite uw_get_new, decide_False by lia. done. }
  assert (uw_get (uw_next w3) w4 = alive) as E5.
  { unfold w4. by rewrite uw_get_new, decide_True, E2 by done. }
  split; [apply uw_get_NoDup|].
  assert (uw_get (uw_next w2) w4 = uw_get world w2) as E3.
  { unfold w4. rewrite uw_get_new, decide_False by lia.
    unfold w3. rewrite uw_get_new, decide_True by done. apply remove_dups_NoDup, uw_get_NoDup. }
  split; [|split; [reflexivity|split; [reflexivity|]]]; rewrite E3, E5; unfold w2; rewrite uw_get_new, Halive.
  - destruct (decide _); [done|]. unfold alive. apply length_filter.
  - intros Hw. assert (uw_get world w1 = uw_get world w) as E4
      by (unfold w1; by rewrite uw_get_new, decide_False by lia).
    rewrite decide_False by lia. unfold alive. by rewrite E4.
Qed.

#[local] Instance small_ulfm_laws : UlfmLaws (W := ulfm_world).
Proof.
  split; intros world w; destruct (small_shrink world w) as (before & now & Hnd & Hle & Heq & Hsz & _).
  - rewrite Hsz, Heq. rewrite length_fmap, length_seqZ. lia.
  - rewrite Heq. by apply rerank_translation.
Qed.

Lemma crash_tables ignore : tables 4 crash_jobs crash_r2j (replicate 4 (Some 0)) (crash_globals ignore).
Proof.
  split; try done.
  - apply Forall_cons. split; [exists [0; 2], []; split; [done|repeat constructor; lia]|].
    apply Forall_singleton. exists [1; 3], []. split; [done|repeat constructor; lia].
  - by apply (bool_decide_unpack _).
  - apply (bool_decide_unpack _). vm_compute. done.
Qed.

(** Process 3, the second worker of job 1, died: ranks do not change. *)
Lemma update_job_list_correct_witness : ∃ g' js',
  update_job_list 4 (Some <$> [0; MPI_UNDEFINED; 1; 2]) (crash_globals 0) = Done tt g' ∧
  workers <$> js' = [[0; 1]; [2]] ∧ rank (node g') = 1.
Proof.
  assert (translation 4 [0; MPI_UNDEFINED; 1; 2]) as Htr.
  { apply (rerank_translation [0; 1; 2; 3] [0; 2; 3]); [|simpl; lia].
    apply (bool_decide_unpack _). vm_compute. done. }
  destruct (update_job_list_correct 4 _ crash_jobs crash_r2j _ (crash_globals 0) 1 Htr
    (crash_tables 0) ltac:(done) ltac:(done) ltac:(done))
    as (g' & js' & a' & ign' & H1 & _ & H2 & _ & H3 & _).
  exists g', js'. split; [exact H1|]. split; [exact H2|exact H3].
Defined.

Lemma rep_errhandler_repairs_witness : ∃ g' w',
  rep_errhandler 10 75 (crash_globals 0, crash_world [1]) = Done tt (g', w') ∧
  rebuilt (shrink 10 (crash_world [1]))
    (updated [0; MPI_UNDEFINED; 1; 2] crash_jobs crash_r2j (replicate 4 (Some 0)) (crash_globals 0)) g' w'.
Proof.
  destruct (rep_errhandler_repairs crash_jobs crash_r2j (replicate 4 (Some 0)) (crash_globals 0)
    (crash_world [1]) 75 1 ltac:(by right) ltac:(done) (crash_tables 0) ltac:(done) ltac:(done)
    ltac:(done)) as (g' & w' & H1 & H2 & _).
  exists g', w'. split; [exact H1|exact H2].
Defined.

Lemma rep_errhandler_ignores_witness : ∃ g' ign' w',
  rep_errhandler 10 75 (crash_globals 1, crash_world [1]) = Done tt (g', w') ∧
  process_shrinking_pending g' = 1 ∧ rank_ignore_list g' = Some ign' ∧ ign' !! 1%nat = Some (Some 1).
Proof.
  destruct (rep_errhandler_ignores crash_jobs crash_r2j (replicate 4 (Some 0)) (crash_globals 1)
    (crash_world [1]) 75 20 [1] _ ltac:(by left) ltac:(done) ltac:(vm_compute; reflexivity) eq_refl eq_refl eq_refl)
    as (g' & ign' & H1 & _ & _ & _ & H2 & _ & H3 & H4).
  - intros r Hr. assert (r = 1) as -> by (unfold noted in Hr; set_solver).
    split; [done|]. by exists 1.
  - eexists g', ign', _. split; [exact H1|]. split; [exact H2|]. split; [exact H3|].
    exact (H4 1 ltac:(done)).
Defined.

Lemma rep_errhandler_other_witness :
  rep_errhandler 10 5 (crash_globals 0, crash_world []) =
  Stop (Aborted 300) (crash_globals 0, crash_world []).
Proof. exact (rep_errhandler_other 10 (crash_globals 0) (crash_world []) 5 ltac:(done)). Defined.

Lemma root_check_correct_witness :
  is_failed_node_world_job_comm_root (crash_globals 0, crash_world []) =
  Done 0 (crash_globals 0, crash_world []).
Proof.
  exact (root_check_correct crash_jobs 4 crash_r2j _ (crash_globals 0) (crash_world []) (crash_tables 0)).
Defined.

(** [is_failed_node_world_job_comm_root] misses the death of a root.  It
    runs after the handler did, when the job list holds the ranks of the shrunk
    world, and compares them with the failed ranks of the world before.  Here
    process 1, the first worker of job 1, dies in a collective call, and the
    answer is 0. *)
Theorem root_check_misses_root : ∃ g w,
  (head ∘ workers <$> crash_jobs) = [Some 0; Some 1] ∧ uw_dead (crash_world [1]) = [1] ∧
  rep_errhandler 10 75 (crash_globals 0, crash_world [1]) = Done tt (g, w) ∧
  is_failed_node_world_job_comm_root (g, w) = Done 0 (g, w).
Proof.
  do 2 eexists. split; [reflexivity|]. split; [reflexivity|].
  split; [vm_compute; reflexivity|vm_compute; reflexivity].
Qed.
