(* ===== verification/Context.v ===== *)
(** * The saved context and the hexadecimal parser: [src/replication/rep.c]

    [setjmp] leaves the program counter and the two stack registers in a
    [jmp_buf], mangled with a secret word of the process; [getPC], [setPC] and
    the others read and write them through [PTR_DECRYPT] and [PTR_ENCRYPT].
    [charArray2Long] reads the addresses of [/proc/self/maps]. *)

From Stdlib Require Import Ascii.
From S2P Require Import Prelude MapFile.

(** ** The pointer guard

    [guard] is the word at [%fs:0x30]; the two rotations are those of a 64-bit
    register. *)
Definition rol17 (v : Z) : Z := Z.lor (wrap64 (Z.shiftl v 17)) (Z.shiftr v 47).
Definition ror17 (v : Z) : Z := Z.lor (Z.shiftr v 17) (wrap64 (Z.shiftl v 47)).

Definition PTR_ENCRYPT (guard v : Z) : Z := rol17 (Z.lxor guard v).
Definition PTR_DECRYPT (guard v : Z) : Z := Z.lxor guard (ror17 v).

Definition word (v : Z) : Prop := 0 ≤ v < 2 ^ 64.

(** ** The context: [__jmpbuf] is an array of eight words *)
Record jmp_buf : Type := MkJmpBuf {
  jmpbuf : list Z;
  mask_was_saved : Z
}.

Definition jmp_ok (c : jmp_buf) : Prop := length (jmpbuf c) = 8%nat.

Definition JB_RBP : nat := 1.
Definition JB_RSP : nat := 6.
Definition JB_PC : nat := 7.

Section registers.
Context (guard : Z).

Definition get_reg (i : nat) (c : jmp_buf) : Z := PTR_DECRYPT guard (jmpbuf c !!! i).
Definition set_reg (i : nat) (c : jmp_buf) (v : Z) : jmp_buf :=
  MkJmpBuf (<[i := PTR_ENCRYPT guard v]> (jmpbuf c)) (mask_was_saved c).

Definition getPC : jmp_buf → Z := get_reg JB_PC.
Definition getRBP : jmp_buf → Z := get_reg JB_RBP.
Definition getRSP : jmp_buf → Z := get_reg JB_RSP.
Definition setPC : jmp_buf → Z → jmp_buf := set_reg JB_PC.
Definition setRBP : jmp_buf → Z → jmp_buf := set_reg JB_RBP.
Definition setRSP : jmp_buf → Z → jmp_buf := set_reg JB_RSP.
End registers.

(** The other five words, which are not mangled: [rbx] and [r12] to [r15].  No
    function of the repository reads or writes them. *)
Definition callee_saved (c : jmp_buf) : list Z := (λ i, jmpbuf c !!! i) <$> [0; 2; 3; 4; 5]%nat.

Lemma callee_saved_set guard i c v :
  i ∈ [JB_RBP; JB_RSP; JB_PC] → callee_saved (set_reg guard i c v) = callee_saved c.
Proof.
  intros Hi. unfold callee_saved, set_reg. cbn [jmpbuf]. apply list_fmap_ext. intros _ j Hj%list_elem_of_lookup_2.
  apply list_lookup_total_insert_ne. intros ->. revert Hj.
  repeat (apply elem_of_cons in Hi as [->|Hi]; [by apply (bool_decide_unpack (_ ∉ _))|]).
  by apply elem_of_nil in Hi.
Qed.

(** The loop of [copy_jmp_buf], which leaves what [dest] has beyond the eight
    words (the saved signal mask). *)
Definition copy_jmp_buf (source dest : jmp_buf) : jmp_buf :=
  MkJmpBuf (foldl (λ d i, <[i := jmpbuf source !!! i]> d) (jmpbuf dest) (seq 0 8))
    (mask_was_saved source).

(** ** Hexadecimal numbers *)
Definition parseChar (c : ascii) : Z :=
  let v := code c in
  if (code "0" <=? v) && (v <=? code "9") then v - code "0"
  else if (code "a" <=? v) && (v <=? code "f") then 10 + v - code "a"
  else if (code "A" <=? v) && (v <=? code "F") then 10 + v - code "A"
  else 30.

(** The characters before the terminating NUL; [arr[0]] of the empty string is
    the NUL itself. *)
Definition charArray2Long (arr : list ascii) : Z :=
  let first := default "000"%char (head arr) in
  foldl (λ result c, wrap64 (wrap64 (Z.shiftl result 4) + parseChar c)) (parseChar first)
    (tail arr).

(** What the kernel prints for an address: lower case digits, the most
    significant first. *)
Definition hex_char (d : Z) : ascii :=
  ascii_of_N (Z.to_N (if d <? 10 then d + code "0" else d - 10 + code "a")).
Fixpoint hex_digits (n : nat) (v : Z) : list ascii :=
  match n with
  | O => []
  | S n' => hex_digits n' (v / 16) ++ [hex_char (v mod 16)]
  end.

(** ** Rotations *)
Lemma wrap64_testbit v i : 0 ≤ i → Z.testbit (wrap64 v) i = (i <? 64) && Z.testbit v i.
Proof.
  intros Hi. unfold wrap64. destruct (Z.ltb_spec i 64).
  - by rewrite Z.mod_pow2_bits_low.
  - rewrite Z.mod_pow2_bits_high by lia. done.
Qed.

Lemma word_testbit v i : word v → 64 ≤ i → Z.testbit v i = false.
Proof.
  intros Hv Hi. rewrite <-(wrap64_small v) by exact Hv. rewrite wrap64_testbit by lia.
  by rewrite (proj2 (Z.ltb_ge i 64)).
Qed.

Lemma word_intro v : (∀ i, 64 ≤ i → Z.testbit v i = false) → word v.
Proof.
  intros Hi. assert (v = wrap64 v) as ->; [|apply wrap64_range].
  apply Z.bits_inj'. intros i Hi0. rewrite wrap64_testbit by done.
  destruct (Z.ltb_spec i 64); [done|]. by rewrite Hi.
Qed.

Lemma word_lxor a b : word a → word b → word (Z.lxor a b).
Proof.
  intros Ha Hb. apply word_intro. intros i Hi. rewrite Z.lxor_spec.
  by rewrite (word_testbit a), (word_testbit b).
Qed.

Lemma rol17_testbit v i : word v → 0 ≤ i →
  Z.testbit (rol17 v) i =
    (i <? 64) && (if i <? 17 then Z.testbit v (i + 47) else Z.testbit v (i - 17)).
Proof.
  intros Hv Hi. unfold rol17.
  rewrite Z.lor_spec, wrap64_testbit, Z.shiftl_spec, Z.shiftr_spec by lia.
  destruct (Z.ltb_spec i 64); simpl.
  - destruct (Z.ltb_spec i 17).
    + rewrite (Z.testbit_neg_r v (i - 17)) by lia. done.
    + rewrite (word_testbit v (i + 47)) by (done || lia). by rewrite orb_false_r.
  - apply word_testbit; [done|lia].
Qed.

Lemma rol17_word v : word v → word (rol17 v).
Proof.
  intros Hv. apply word_intro. intros i Hi. rewrite rol17_testbit by (done || lia).
  by rewrite (proj2 (Z.ltb_ge i 64)).
Qed.

Lemma ror17_rol17 v : word v → ror17 (rol17 v) = v.
Proof.
  intros Hv. apply Z.bits_inj'. intros i Hi. unfold ror17.
  rewrite Z.lor_spec, wrap64_testbit, Z.shiftl_spec, Z.shiftr_spec by lia.
  rewrite rol17_testbit by (done || lia).
  destruct (Z.ltb_spec i 47).
  - rewrite (proj2 (Z.ltb_lt (i + 17) 64)) by lia.
    rewrite (proj2 (Z.ltb_ge (i + 17) 17)) by lia.
    rewrite (Z.testbit_neg_r _ (i - 47)) by lia.
    rewrite andb_false_r, orb_false_r. simpl. f_equal. lia.
  - rewrite (proj2 (Z.ltb_ge (i + 17) 64)) by lia. simpl.
    destruct (Z.ltb_spec i 64); simpl; [|symmetry; by apply word_testbit].
    rewrite rol17_testbit by (done || lia).
    rewrite (proj2 (Z.ltb_lt (i - 47) 64)) by lia.
    rewrite (proj2 (Z.ltb_lt (i - 47) 17)) by lia. simpl. f_equal. lia.
Qed.

Lemma decrypt_encrypt guard v : word guard → word v → PTR_DECRYPT guard (PTR_ENCRYPT guard v) = v.
Proof.
  intros Hg Hv. unfold PTR_DECRYPT, PTR_ENCRYPT.
  rewrite ror17_rol17 by by apply word_lxor.
  by rewrite <-Z.lxor_assoc, Z.lxor_nilpotent.
Qed.

Section contexts.
Context (guard : Z) (Hguard : word guard).

Lemma get_set_reg i c v :
  jmp_ok c → (i < 8)%nat → word v → get_reg guard i (set_reg guard i c v) = v.
Proof.
  intros Hc Hi Hv. unfold get_reg, set_reg, jmp_ok in *. simpl.
  rewrite list_lookup_total_insert_eq by lia. by apply decrypt_encrypt.
Qed.

Lemma get_set_reg_ne i j c v :
  i ≠ j → get_reg guard i (set_reg guard j c v) = get_reg guard i c.
Proof. intros Hij. unfold get_reg, set_reg. simpl. by rewrite list_lookup_total_insert_ne. Qed.

Lemma set_reg_ok i c v : jmp_ok c → jmp_ok (set_reg guard i c v).
Proof. unfold jmp_ok, set_reg. simpl. by rewrite length_insert. Qed.
End contexts.

Lemma stack_registers guard c pc rsp rbp :
  word guard → jmp_ok c → word pc → word rsp → word rbp →
  let c' := setRBP guard (setRSP guard (setPC guard c pc) rsp) rbp in
  getPC guard c' = pc ∧ getRSP guard c' = rsp ∧ getRBP guard c' = rbp.
Proof.
  intros Hg Hc H1 H2 H3 c'. unfold c', getPC, getRSP, getRBP, setPC, setRSP, setRBP.
  assert (jmp_ok (set_reg guard JB_PC c pc)) as Hc1 by by apply set_reg_ok.
  assert (jmp_ok (set_reg guard JB_RSP (set_reg guard JB_PC c pc) rsp)) as Hc2 by by apply set_reg_ok.
  split; [|split].
  - rewrite !get_set_reg_ne by done. apply get_set_reg; [done|done|unfold JB_PC; lia|done].
  - rewrite get_set_reg_ne by done. apply get_set_reg; [done|done|unfold JB_RSP; lia|done].
  - apply get_set_reg; [done|done|unfold JB_RBP; lia|done].
Qed.

(** ** Properties *)

(** The three registers of a context are independent variables: a set is
    read back whatever the guard is, and leaves the other two alone. *)
Theorem context_registers guard c pc rsp rbp :
  word guard → jmp_ok c → word pc → word rsp → word rbp →
  let c' := setRBP guard (setRSP guard (setPC guard c pc) rsp) rbp in
  getPC guard c' = pc ∧ getRSP guard c' = rsp ∧ getRBP guard c' = rbp ∧
  ∀ i, i ≠ JB_PC → i ≠ JB_RSP → i ≠ JB_RBP → jmpbuf c' !! i = jmpbuf c !! i.
Proof.
  intros Hg Hc H1 H2 H3 c'.
  destruct (stack_registers guard c pc rsp rbp Hg Hc H1 H2 H3) as (R1 & R2 & R3).
  split; [done|]. split; [done|]. split; [done|].
  intros i Hi1 Hi2 Hi3. simpl. by rewrite !list_lookup_insert_ne.
Qed.

(** [copy_jmp_buf] makes the eight words and the flag of [dest] those of
    [source]; with a new stack pointer the copy resumes at the same place on
    another stack. *)
Theorem copy_jmp_buf_correct guard source dest sp :
  word guard → jmp_ok source → jmp_ok dest → word sp →
  copy_jmp_buf source dest = source ∧
  getPC guard (setRSP guard (copy_jmp_buf source dest) sp) = getPC guard source ∧
  getRSP guard (setRSP guard (copy_jmp_buf source dest) sp) = sp.
Proof.
  intros Hg Hs Hd Hsp.
  assert (copy_jmp_buf source dest = source) as Hcopy.
  { unfold copy_jmp_buf, jmp_ok in *. destruct source as [s m], dest as [d md]. simpl in *.
    f_equal. do 8 (destruct s as [|? s]; [done|]). destruct s; [|done].
    do 8 (destruct d as [|? d]; [done|]). by destruct d. }
  rewrite Hcopy. split; [done|]. unfold getPC, getRSP, setRSP. split.
  - by apply get_set_reg_ne.
  - apply get_set_reg; [done|done|unfold JB_RSP; lia|done].
Qed.

(** *** The parser *)
Lemma parseChar_hex d : 0 ≤ d < 16 → parseChar (hex_char d) = d.
Proof.
  intros Hd. assert (d ∈ seqZ 0 16) as Hin by (apply elem_of_seqZ; lia). clear Hd.
  revert d Hin. apply Forall_forall. vm_compute. repeat constructor.
Qed.

Lemma hex_digits_length n v : length (hex_digits n v) = n.
Proof. revert v. induction n as [|n IH]; intros v; simpl; [done|]. rewrite length_app, IH. simpl. lia. Qed.

Lemma charArray2Long_snoc l c :
  l ≠ [] → charArray2Long (l ++ [c]) = wrap64 (wrap64 (Z.shiftl (charArray2Long l) 4) + parseChar c).
Proof. destruct l as [|x l]; [done|]. intros _. unfold charArray2Long. simpl. by rewrite foldl_app. Qed.

(** [charArray2Long] reads an address of up to 16 hexadecimal digits
    exactly, and of a longer string of digits the value modulo 2^64. *)
Theorem charArray2Long_hex n v :
  (0 < n)%nat → 0 ≤ v < 16 ^ Z.of_nat n → charArray2Long (hex_digits n v) = wrap64 v.
Proof.
  intros Hn Hv. destruct n as [|n]; [lia|]. clear Hn. revert v Hv.
  induction n as [|n IH]; intros v Hv.
  - change (hex_digits 1 v) with [hex_char (v mod 16)]. unfold charArray2Long. simpl foldl.
    cbn [head default from_option id]. rewrite parseChar_hex by (apply Z.mod_pos_bound; lia).
    change (16 ^ Z.of_nat 1) with 16 in Hv. rewrite Z.mod_small by done.
    symmetry. apply wrap64_small. lia.
  - change (hex_digits (S (S n)) v) with (hex_digits (S n) (v / 16) ++ [hex_char (v mod 16)]).
    rewrite charArray2Long_snoc.
    2:{ intros E. apply (f_equal length) in E. by rewrite hex_digits_length in E. }
    rewrite Nat2Z.inj_succ, Z.pow_succ_r in Hv by lia.
    rewrite IH by (split; [apply Z.div_pos; lia|apply Z.div_lt_upper_bound; lia]).
    rewrite parseChar_hex by (apply Z.mod_pos_bound; lia).
    rewrite Z.shiftl_mul_pow2 by done. change (2 ^ 4) with 16. unfold wrap64.
    rewrite Z.mul_mod_idemp_l, Z.add_mod_idemp_l by done. f_equal.
    pose proof (Z.div_mod v 16 ltac:(done)). lia.
Qed.

(** ** Witnesses *)
Definition context_ex : jmp_buf := MkJmpBuf [1; 2; 3; 4; 5; 6; 7; 8] 0.

Lemma context_registers_witness :
  getPC 12345 (setRBP 12345 (setRSP 12345 (setPC 12345 context_ex 4198400) 140737488347136) 0)
  = 4198400.
Proof.
  refine (proj1 (context_registers 12345 context_ex 4198400 140737488347136 0 _ _ _ _ _));
    unfold word, jmp_ok; try lia; reflexivity.
Defined.

Lemma copy_jmp_buf_correct_witness :
  copy_jmp_buf context_ex (MkJmpBuf (replicate 8 0) 1) = context_ex.
Proof.
  refine (proj1 (copy_jmp_buf_correct 12345 context_ex (MkJmpBuf (replicate 8 0) 1) 4096 _ _ _ _));
    unfold word, jmp_ok; try lia; reflexivity.
Defined.

Lemma charArray2Long_hex_witness :
  charArray2Long (hex_digits 6 6296448) = 6296448.
Proof.
  rewrite (charArray2Long_hex 6 6296448) by (lia || (split; [lia|reflexivity])). reflexivity.
Defined.
