(* ===== verification/ProcMap.v ===== *)
(** * The mappings of the process: [readProcMapFile] of [src/replication/rep.c]

    The function prints [/proc/self/maps] and takes the two addresses of its
    second line, which it cuts in place, for those of the data segment. *)

From Stdlib Require Import Ascii Strings.String.
From S2P Require Import Prelude MapFile Context.

Definition NUL : ascii := "000".
Definition DASH : ascii := "-".
Definition BLANK : ascii := " ".

(** ** What the function reads and prints *)

(** [getline]: the characters up to the end of the line, which is kept. *)
Fixpoint getline (l : list ascii) : list ascii * list ascii :=
  match l with
  | [] => ([], [])
  | c :: l' => if Ascii.eqb c NL then ([c], l') else let '(a, b) := getline l' in (c :: a, b)
  end.

(** The string in an array: what is before the first NUL. *)
Fixpoint c_string (l : list ascii) : list ascii :=
  match l with
  | [] => []
  | c :: l' => if Ascii.eqb c NUL then [] else c :: c_string l'
  end.

(** The loop over the characters of the line: each dash before the first blank
    ends a string and the next one, [secondAddr], starts behind it. *)
Fixpoint cut_line (n i : nat) (line : list ascii) (secondAddr : option nat) : list ascii * option nat :=
  match n with
  | O => (line, secondAddr)
  | S n' =>
      match line !! i with
      | None => (line, secondAddr)
      | Some c =>
          if Ascii.eqb c DASH then cut_line n' (S i) (<[i := NUL]> line) (Some (S i))
          else if Ascii.eqb c BLANK then (<[i := NUL]> line, secondAddr)
          else cut_line n' (S i) line secondAddr
      end
  end.

(** The two addresses; [None] when [secondAddr] is still [NULL]. *)
Definition line_addresses (line : list ascii) : option (Z * Z) :=
  let '(line', secondAddr) := cut_line (length line) 0 line None in
  s ← secondAddr;
  Some (charArray2Long (c_string line'), charArray2Long (c_string (drop s line'))).

(** What was printed, and the two local variables. *)
Record proc_map : Type := MkProcMap { output : list ascii; dataSegStart : Z; dataSegEnd : Z }.

Definition print_line (l : list ascii) (s : proc_map) : proc_map :=
  MkProcMap (output s ++ c_string l) (dataSegStart s) (dataSegEnd s).
Definition set_segment (a : Z * Z) (s : proc_map) : proc_map := MkProcMap (output s) (fst a) (snd a).

Fixpoint read_maps (fuel : nat) (lineNumber : Z) (text : list ascii) : M proc_map unit :=
  match text, fuel with
  | [], _ => ret tt
  | _, O => halt NoFuel
  | _, S fuel' =>
      let '(line, text') := getline text in
      modify (print_line line) ;;;
      when (lineNumber =? 2) (let! a := of_option Undef (line_addresses line) in modify (set_segment a)) ;;;
      let! next := of_option Undef (c_int (lineNumber + 1)) in
      read_maps fuel' next text'
  end.

(** [file] is [None] when [fopen] fails.  A turn takes at least one character. *)
Definition readProcMapFile (file : option (list ascii)) : M proc_map Z :=
  match file with
  | None => ret 1
  | Some text => modify (set_segment (0, 0)) ;;; read_maps (length text) 1 text ;;; ret 0
  end.

(** ** The lines of the kernel *)
Record mapping : Type := MkMapping { digits : nat; m_start : Z; m_end : Z; m_rest : list ascii }.

Definition map_line (m : mapping) : list ascii :=
  hex_digits (digits m) (m_start m) ++ DASH :: hex_digits (digits m) (m_end m) ++ BLANK :: m_rest m.
Definition map_text (ms : list mapping) : list ascii := concat ((λ m, map_line m ++ [NL]) <$> ms).

Record mapping_ok (m : mapping) : Prop := {
  mapping_digits : (0 < digits m ≤ 16)%nat;
  mapping_start : 0 ≤ m_start m < 16 ^ Z.of_nat (digits m);
  mapping_end : 0 ≤ m_end m < 16 ^ Z.of_nat (digits m);
  mapping_rest : Forall (λ c, c ≠ NL ∧ c ≠ NUL) (m_rest m)
}.

(** ** Strings and lines *)
Definition inside (c : ascii) : Prop := c ≠ DASH ∧ c ≠ BLANK ∧ c ≠ NL ∧ c ≠ NUL.

Lemma hex_char_inside d : 0 ≤ d < 16 → inside (hex_char d).
Proof.
  intros Hd. assert (d ∈ seqZ 0 16) as Hin by (apply elem_of_seqZ; lia). clear Hd.
  revert d Hin. apply Forall_forall. vm_compute. repeat constructor; discriminate.
Qed.

Lemma hex_digits_inside n : ∀ v, Forall inside (hex_digits n v).
Proof.
  induction n as [|n IH]; intros v; simpl; [constructor|]. apply Forall_app. split; [apply IH|].
  constructor; [|constructor]. apply hex_char_inside, Z.mod_pos_bound. lia.
Qed.

Lemma eqb_other (a b : ascii) : a ≠ b → Ascii.eqb a b = false.
Proof. by rewrite Ascii.eqb_neq. Qed.

Lemma c_string_app l l' : Forall (λ c, c ≠ NUL) l → c_string (l ++ l') = l ++ c_string l'.
Proof. induction 1 as [|c l Hc _ IH]; [done|]. simpl. by rewrite eqb_other, IH by done. Qed.

Lemma c_string_plain l : Forall (λ c, c ≠ NUL) l → c_string l = l.
Proof. intros Hl. rewrite <-(app_nil_r l) at 1. by rewrite c_string_app, app_nil_r. Qed.

Lemma getline_app l l' : Forall (λ c, c ≠ NL) l → getline (l ++ NL :: l') = (l ++ [NL], l').
Proof. induction 1 as [|c l Hc _ IH]; [done|]. simpl. by rewrite eqb_other, IH by done. Qed.

(** The loop passes over characters that are neither dash nor blank. *)
Lemma cut_line_skip a : ∀ n p q second, Forall inside a →
  cut_line (length a + n) (length p) (p ++ a ++ q) second = cut_line n (length (p ++ a)) ((p ++ a) ++ q) second.
Proof.
  induction a as [|c a IH]; intros n p q second Ha; [by rewrite app_nil_r|].
  apply Forall_cons in Ha as [(Hd & Hb & _) Ha]. simpl. rewrite list_lookup_middle by done.
  rewrite !eqb_other by done. specialize (IH n (p ++ [c]) q second Ha).
  rewrite length_app, <-!app_assoc in IH. simpl in IH. rewrite Nat.add_1_r in IH. by rewrite IH, <-app_assoc.
Qed.

Lemma cut_line_two a b q : Forall inside a → Forall inside b →
  cut_line (length (a ++ DASH :: b ++ BLANK :: q)) 0 (a ++ DASH :: b ++ BLANK :: q) None =
    (a ++ NUL :: b ++ NUL :: q, Some (S (length a))).
Proof.
  intros Ha Hb. rewrite length_app. simpl.
  etransitivity; [exact (cut_line_skip a _ [] (DASH :: b ++ BLANK :: q) None Ha)|]. simpl.
  rewrite list_lookup_middle, insert_app_r_alt, Nat.sub_diag by done. simpl. rewrite length_app.
  pose proof (cut_line_skip b (length (BLANK :: q)) (a ++ [NUL]) (BLANK :: q) (Some (S (length a))) Hb) as E.
  rewrite length_app, Nat.add_1_r, <-!app_assoc in E. etransitivity; [exact E|]. simpl.
  replace (a ++ NUL :: b ++ BLANK :: q) with ((a ++ NUL :: b) ++ BLANK :: q) by (by rewrite <-app_assoc).
  rewrite list_lookup_middle by (rewrite !length_app; simpl; lia).
  change (Ascii.eqb BLANK DASH) with false. change (Ascii.eqb BLANK BLANK) with true. cbn iota.
  rewrite insert_app_r_alt by (rewrite !length_app; simpl; lia).
  replace (length (a ++ NUL :: b) - length (a ++ NUL :: b))%nat with 0%nat by lia. simpl.
  by rewrite <-app_assoc.
Qed.

Lemma hex_digits_value n v : (0 < n ≤ 16)%nat → 0 ≤ v < 16 ^ Z.of_nat n → charArray2Long (hex_digits n v) = v.
Proof.
  intros Hn Hv. rewrite charArray2Long_hex by (lia || done). apply wrap64_small.
  assert (16 ^ Z.of_nat n ≤ 16 ^ 16) by (apply Z.pow_le_mono_r; lia). lia.
Qed.

Lemma inside_no_nul l : Forall inside l → Forall (λ c, c ≠ NUL) l.
Proof. intros Hl. eapply Forall_impl; [exact Hl|]. by intros c (_ & _ & _ & ?). Qed.
Lemma inside_no_nl l : Forall inside l → Forall (λ c, c ≠ NL) l.
Proof. intros Hl. eapply Forall_impl; [exact Hl|]. by intros c (_ & _ & ? & _). Qed.

#[local] Hint Resolve hex_digits_inside inside_no_nul inside_no_nl : core.

Lemma line_addresses_two a b q : Forall inside a → Forall inside b →
  line_addresses (a ++ DASH :: b ++ BLANK :: q) = Some (charArray2Long a, charArray2Long b).
Proof.
  intros Ha Hb. unfold line_addresses. rewrite cut_line_two by done. simpl. f_equal. f_equal.
  - rewrite c_string_app by auto. simpl. by rewrite app_nil_r.
  - replace (a ++ NUL :: b ++ NUL :: q) with ((a ++ [NUL]) ++ b ++ NUL :: q) by (by rewrite <-app_assoc).
    rewrite drop_app_length' by (rewrite length_app; simpl; lia).
    rewrite c_string_app by auto. simpl. by rewrite app_nil_r.
Qed.

Lemma map_line_addresses m l : mapping_ok m → line_addresses (map_line m ++ l) = Some (m_start m, m_end m).
Proof.
  intros [Hd Hs He _]. unfold map_line. rewrite <-app_assoc. simpl. rewrite <-app_assoc. simpl.
  rewrite line_addresses_two by auto. by rewrite !hex_digits_value.
Qed.

Lemma map_line_no_nl m : mapping_ok m → Forall (λ c, c ≠ NL) (map_line m).
Proof.
  intros [_ _ _ Hr]. unfold map_line. apply Forall_app. split; [auto|]. constructor; [done|].
  apply Forall_app. split; [auto|]. constructor; [done|]. eapply Forall_impl; [exact Hr|]. by intros c [? _].
Qed.

Lemma map_line_string m l : mapping_ok m → c_string (map_line m ++ NL :: l) = map_line m ++ c_string (NL :: l).
Proof.
  intros [_ _ _ Hr]. apply c_string_app. unfold map_line. apply Forall_app. split; [auto|]. constructor; [done|].
  apply Forall_app. split; [auto|]. constructor; [done|]. eapply Forall_impl; [exact Hr|]. by intros c [_ ?].
Qed.

Lemma map_text_cons m ms : map_text (m :: ms) = map_line m ++ NL :: map_text ms.
Proof. unfold map_text. simpl. by rewrite <-app_assoc. Qed.

(** The addresses of the second line, if it is still to come. *)
Definition segment_of (n : Z) (ms : list mapping) (d : Z * Z) : Z * Z :=
  match (if n <=? 2 then ms !! Z.to_nat (2 - n) else None) with Some m => (m_start m, m_end m) | None => d end.

Lemma read_maps_turn fuel n l : l ≠ [] →
  read_maps (S fuel) n l =
    (let '(line, text') := getline l in
     modify (print_line line) ;;;
     when (n =? 2) (let! a := of_option Undef (line_addresses line) in modify (set_segment a)) ;;;
     let! next := of_option Undef (c_int (n + 1)) in
     read_maps fuel next text').
Proof. by destruct l. Qed.

Lemma app_nonempty (l l' : list ascii) c : l ++ c :: l' ≠ [].
Proof. by destruct l. Qed.

Lemma read_maps_lines ms : Forall mapping_ok ms → ∀ fuel n s,
  (length (map_text ms) ≤ fuel)%nat → 1 ≤ n → n + Z.of_nat (length ms) ≤ INT_MAX →
  read_maps fuel n (map_text ms) s =
    Done tt (set_segment (segment_of n ms (dataSegStart s, dataSegEnd s))
      (MkProcMap (output s ++ map_text ms) (dataSegStart s) (dataSegEnd s))).
Proof.
  induction 1 as [|m ms Hm Hms IH]; intros fuel n s Hfuel Hn Hmax.
  { unfold segment_of. destruct s. destruct fuel, (n <=? 2); simpl; by rewrite app_nil_r. }
  rewrite map_text_cons in *. destruct fuel as [|fuel]; [rewrite length_app in Hfuel; simpl in Hfuel; lia|].
  rewrite read_maps_turn by apply app_nonempty.
  rewrite getline_app by (by apply map_line_no_nl).
  assert (c_int (n + 1) = Some (n + 1)) as Hnext.
  { apply c_int_Some. unfold INT_MIN, INT_MAX in *. simpl in Hmax. lia. }
  assert (∀ s', read_maps fuel (n + 1) (map_text ms) s' = Done tt
    (set_segment (segment_of (n + 1) ms (dataSegStart s', dataSegEnd s'))
      (MkProcMap (output s' ++ map_text ms) (dataSegStart s') (dataSegEnd s')))) as Hrest.
  { intros s'. apply IH; [|lia|simpl in Hmax; lia]. rewrite length_app in Hfuel. simpl in Hfuel. lia. }
  assert (c_string (map_line m ++ [NL]) = map_line m ++ [NL]) as Hstr by (by apply (map_line_string m [])).
  cbn [bind modify]. unfold print_line. rewrite Hstr.
  unfold segment_of in *. destruct (Z.eqb_spec n 2) as [->|Hne]; cbn [when bind ret].
  - rewrite map_line_addresses by done. cbn [of_option modify]. rewrite Hnext, Hrest. simpl.
    unfold set_segment. simpl. by rewrite <-!app_assoc.
  - cbn [of_option]. rewrite Hnext. cbn [bind]. rewrite Hrest. simpl. unfold set_segment. simpl. rewrite <-!app_assoc. simpl.
    destruct (Z.leb_spec n 2); [|by rewrite (proj2 (Z.leb_gt _ _)) by lia].
    assert (n = 1) as -> by lia. done.
Qed.

(** [readProcMapFile] prints the mappings as the kernel wrote them, takes the
    two addresses of the second for the data segment, and returns 0; it returns
    1 when the file cannot be opened. *)
Theorem readProcMapFile_correct ms s :
  Forall mapping_ok ms → Z.of_nat (length ms) < INT_MAX →
  readProcMapFile (Some (map_text ms)) s =
    Done 0 (let '(a, b) := match ms !! 1%nat with Some m => (m_start m, m_end m) | None => (0, 0) end in
            MkProcMap (output s ++ map_text ms) a b) ∧
  readProcMapFile None s = Done 1 s.
Proof.
  intros Hms Hlen. split; [|done]. unfold readProcMapFile. cbn [bind modify].
  rewrite read_maps_lines by (done || lia). simpl. unfold segment_of. by destruct ms as [|? [|? ?]].
Qed.

(** A second line without a dash before its first blank leaves [secondAddr]
    [NULL], from which the function reads. *)
Theorem readProcMapFile_null ms a q s :
  (∃ m, ms = [m] ∧ mapping_ok m) → Forall inside a → Forall (λ c, c ≠ NL) q →
  ∃ s', readProcMapFile (Some (map_text ms ++ a ++ BLANK :: q ++ [NL])) s = Stop Undef s'.
Proof.
  intros (m & -> & Hm) Ha Hq. unfold readProcMapFile. cbn [bind modify].
  rewrite map_text_cons, <-app_assoc. simpl app. set (rest := a ++ BLANK :: q ++ [NL]).
  assert (∃ f, length (map_line m ++ NL :: rest) = S (S f)) as [f ->].
  { exists (length (map_line m) + length a + length q + 1)%nat. unfold rest.
    rewrite !length_app. simpl. rewrite !length_app. simpl. rewrite length_app. simpl. lia. }
  assert (line_addresses rest = None) as Hnone.
  { unfold line_addresses. unfold rest. rewrite length_app.
    rewrite (cut_line_skip a _ [] (BLANK :: q ++ [NL]) None Ha : cut_line _ 0 _ _ = _). simpl.
    by rewrite list_lookup_middle. }
  assert (getline rest = (rest, [])) as Hrest.
  { unfold rest. replace (a ++ BLANK :: q ++ [NL]) with ((a ++ BLANK :: q) ++ [NL]) by (by rewrite <-app_assoc).
    rewrite getline_app; [done|]. apply Forall_app. auto. }
  assert (rest ≠ []) as Hne by apply app_nonempty. clearbody rest.
  rewrite read_maps_turn, getline_app by (apply app_nonempty || by apply map_line_no_nl). cbn -[read_maps].
  change (c_int (1 + 1)) with (Some 2). cbn -[read_maps]. rewrite read_maps_turn, Hrest by done. cbn.
  rewrite Hnone. by eexists.
Qed.

(** ** Witnesses *)
Definition maps_file_ex : list mapping :=
  [MkMapping 8 4194304 4198400 (list_ascii_of_string "r-xp 00000000 08:01 131 /bin/app");
   MkMapping 8 6295552 6299648 (list_ascii_of_string "rw-p 00001000 08:01 131 /bin/app");
   MkMapping 12 140727530262528 140727530397696 (list_ascii_of_string "rw-p 00000000 00:00 0 [stack]")].

Lemma maps_file_ok : Forall mapping_ok maps_file_ex.
Proof.
  repeat constructor; try (simpl; lia); apply (bool_decide_unpack _); by vm_compute.
Qed.

Lemma readProcMapFile_correct_witness :
  readProcMapFile (Some (map_text maps_file_ex)) (MkProcMap [] 0 0) =
    Done 0 (MkProcMap (map_text maps_file_ex) 6295552 6299648).
Proof. exact (proj1 (readProcMapFile_correct maps_file_ex (MkProcMap [] 0 0) maps_file_ok ltac:(by vm_compute))). Defined.

Lemma readProcMapFile_null_witness : ∃ s',
  readProcMapFile (Some (map_text (take 1 maps_file_ex) ++ [] ++ BLANK :: [] ++ [NL])) (MkProcMap [] 0 0) = Stop Undef s'.
Proof.
  apply (readProcMapFile_null (take 1 maps_file_ex) [] [] (MkProcMap [] 0 0)); [|constructor|constructor].
  eexists. split; [reflexivity|]. exact (Forall_inv maps_file_ok).
Defined.
