(* ===== verification/Install.v ===== *)
(** * Copying allocations into another process

    A transfer and the restoration of a checkpoint give a process the
    allocations of another one.  [install] is what both do for one allocation,
    over the heap alone: a new block with the bytes, the address of the block in
    the variable, a new element of the list.  This file shows what a sequence of
    installs builds; [Transfer] and [Checkpoint] show that their loops are
    sequences of installs. *)

From S2P Require Import Prelude Shared Memory HeapSeg Context.

(** ** What is copied *)

(** A container whose fields are machine words and whose size is an [int]. *)
Record block_ok (c : Malloc_container) : Prop := {
  blk_container : word (container_address c);
  blk_linked : word (linked_address c);
  blk_size : 0 ≤ size c ≤ INT_MAX;
  blk_owned : ¬ (size c = 0 ∧ linked_address c ≠ 0)
}.

(** What the sender's memory holds for it: the variable points to the bytes. *)
Definition block_bytes (m : memory) (c : Malloc_container) (bytes : list mbyte) : Prop :=
  ∃ ptr, load_word 8 m (container_address c) = Some ptr ∧
         load_bytes m ptr (Z.to_nat (size c)) = Some bytes.

Lemma size_word c : block_ok c → word (size c).
Proof. intros [_ _ [? H] _]. unfold INT_MAX in H. unfold word. lia. Qed.

(** ** The abstract operation *)
Section install.
Context `{Allocator}.

(** [bytes] to the memory at [a]. *)
Definition put_bytes (a : Z) (bytes : list mbyte) : M heap unit :=
  let! m := gets mem in
  let! m' := of_option Undef (store_bytes m a bytes) in
  modify (set_mem m').

Definition install (c : Malloc_container) (bytes : list mbyte) : M heap unit :=
  let! ptr := malloc (size c) in
  put_bytes ptr bytes ;;;
  store64 (container_address c) ptr ;;;
  let! allocated := load64 (container_address c) in
  rep_append (MkContainer (container_address c) (linked_address c) allocated (size c)).

Definition install_all (cbs : list (Malloc_container * list mbyte)) : M heap unit :=
  iterM (λ d, install d.1 d.2) cbs.
End install.

(** Accesses that succeed. *)
Lemma put_bytes_run a l h m' : store_bytes (mem h) a l = Some m' → put_bytes a l h = Done tt (set_mem m' h).
Proof. intros H. unfold put_bytes. cbn [bind gets]. by rewrite H. Qed.
Lemma put_bytes_inv a l h u h' : put_bytes a l h = Done u h' →
  ∃ m', store_bytes (mem h) a l = Some m' ∧ h' = set_mem m' h.
Proof.
  unfold put_bytes. cbn [bind gets]. destruct (store_bytes (mem h) a l) as [m'|]; [|done].
  intros [= _ <-]. by exists m'.
Qed.
Lemma store64_run a v h m' : store_word 8 (mem h) a v = Some m' → store64 a v h = Done tt (set_mem m' h).
Proof. apply put_bytes_run. Qed.
Lemma store64_inv a v h u h' : store64 a v h = Done u h' →
  ∃ m', store_word 8 (mem h) a v = Some m' ∧ h' = set_mem m' h.
Proof. apply put_bytes_inv. Qed.
Lemma load64_run a v h : load_word 8 (mem h) a = Some v → load64 a h = Done v h.
Proof. intros H. unfold load64. by rewrite H. Qed.
Lemma load64_inv a v h h' : load64 a h = Done v h' → load_word 8 (mem h) a = Some v ∧ h' = h.
Proof. unfold load64. destruct (load_word 8 (mem h) a); [|done]. by intros [= <- <-]. Qed.

(** *** A block that is live stays live

    None of the operations of an install frees anything. *)
Section live.
Context `{Allocator} (a : Z).

Definition live (h : heap) : Prop := is_Some (blocks h !! a).

Lemma live_insert b n (bl : gmap Z Z) : is_Some (bl !! a) → is_Some (<[b := n]> bl !! a).
Proof. rewrite lookup_insert_is_Some'. by right. Qed.

Lemma live_malloc n : keeps live (malloc n).
Proof. intros h Hh. apply (live_insert _ _ _ Hh). Qed.
Lemma live_malloc_element e : keeps live (malloc_element e).
Proof. intros h Hh. apply (live_insert _ _ _ Hh). Qed.
Lemma live_mem m : keeps live (modify (set_mem m)).
Proof. by apply keeps_modify. Qed.
Lemma live_count n : keeps live (modify (set_count n)).
Proof. by apply keeps_modify. Qed.
Lemma live_head n : keeps live (modify (set_head n)).
Proof. by apply keeps_modify. Qed.
Lemma live_tail n : keeps live (modify (set_tail n)).
Proof. by apply keeps_modify. Qed.
Lemma live_load64 b : keeps live (load64 b).
Proof. intros h Hh. unfold load64, wp. by destruct (load_word 8 (mem h) b). Qed.
Lemma live_load_node p : keeps live (load_node p).
Proof. intros h Hh. unfold load_node, wp. by destruct (lnodes h !! p). Qed.
#[local] Hint Resolve live_malloc live_malloc_element live_mem live_head live_tail live_load64
  live_load_node : keeps.

Lemma live_store_node p n : keeps live (store_node p n).
Proof. unfold store_node. apply keeps_bind; [auto with keeps|]. intros _. by apply keeps_modify. Qed.
Lemma live_put_bytes b l : keeps live (put_bytes b l).
Proof. unfold put_bytes. eauto 10 with keeps. Qed.
Lemma live_store64 b v : keeps live (store64 b v).
Proof. apply live_put_bytes. Qed.
#[local] Hint Resolve live_store_node live_put_bytes live_store64 : keeps.

Lemma live_rep_append c : keeps live (rep_append c).
Proof.
  unfold rep_append. do 3 (apply keeps_bind; [auto with keeps|intros ?]).
  apply keeps_bind; [case_match; eauto 10 with keeps|auto with keeps].
Qed.
#[local] Hint Resolve live_rep_append : keeps.

Lemma live_install_all cbs : keeps live (install_all cbs).
Proof. unfold install_all, iterM, install. eauto 20 with keeps. Qed.
End live.
#[export] Hint Resolve live_malloc live_count live_load64 live_put_bytes live_store64 live_rep_append : keeps.

(** *** [total_malloc_allocation_size] has no part in it *)
Section commutes.
Context {S : Type} (f : S → S).

(** [m] commutes with a change [f] of the state. *)
Definition commutes {A} (m : M S A) : Prop :=
  ∀ s, m (f s) = match m s with Done a s' => Done a (f s') | Stop e s' => Stop e (f s') end.

Lemma commutes_bind {A B} (m : M S A) (k : A → M S B) :
  commutes m → (∀ a, commutes (k a)) → commutes (bind m k).
Proof. intros Hm Hk s. cbn. rewrite Hm. destruct (m s); [apply Hk|done]. Qed.
Lemma commutes_gets {A} (g : S → A) : (∀ s, g (f s) = g s) → commutes (gets g).
Proof. intros Hg s. cbn. by rewrite Hg. Qed.
Lemma commutes_modify g : (∀ s, g (f s) = f (g s)) → commutes (modify g).
Proof. intros Hg s. cbn. by rewrite Hg. Qed.
Lemma commutes_option {A} e (o : option A) : commutes (of_option e o).
Proof. intros s. by destruct o. Qed.
End commutes.

Create HintDb commutes.
#[local] Hint Resolve commutes_bind commutes_gets commutes_modify commutes_option : commutes.

Section total.
Context `{Allocator} (t : Z).

Lemma install_total c bytes : commutes (set_total t) (install c bytes).
Proof.
  unfold install, put_bytes, store64, rep_append, store_node.
  assert (∀ n, commutes (set_total t) (malloc n)) by done.
  assert (∀ e, commutes (set_total t) (malloc_element e)) by done.
  assert (∀ a, commutes (set_total t) (load64 a))
    by (intros a h; unfold load64; cbn; by case_match).
  assert (∀ a, commutes (set_total t) (load_node a))
    by (intros a h; unfold load_node; cbn; by case_match).
  repeat first [done | apply commutes_bind; [|intros ?] | case_match | by auto with commutes].
Qed.

Lemma install_all_total cbs : commutes (set_total t) (install_all cbs).
Proof.
  induction cbs as [|[c bytes] cbs IH]; [done|].
  apply commutes_bind; [apply install_total|]. intros []. exact IH.
Qed.
End total.

(** ** One block *)
Section install_one.
Context `{!Allocator} `{!AllocatorLaws alloc}.


(** The state after one block was received. *)
Record received (c : Malloc_container) (bytes : list mbyte) (h h' : heap) (a ptr : Z) : Prop := {
  rcv_ptr : ptr = alloc (blocks h) (size c);
  rcv_elem : a = alloc (<[ptr := size c]> (blocks h)) sizeof_Malloc_list;
  rcv_apart : blocks h !! a = None ∧ a ≠ ptr;
  rcv_blocks : blocks h' = <[a := sizeof_Malloc_list]> (<[ptr := size c]> (blocks h));
  rcv_bytes : ∃ m1, store_bytes (fresh_bytes ptr (Z.to_nat (size c)) (mem h)) ptr bytes = Some m1 ∧
                    store_word 8 m1 (container_address c) ptr = Some (mem h');
  rcv_count : malloc_number_of_allocations h' = malloc_number_of_allocations h
}.

Lemma fresh_bytes_valid_self a n m : valid_range (fresh_bytes a n m) a n.
Proof.
  revert a. induction n as [|n IH]; intros a i Hi; [lia|]. simpl.
  destruct (decide (i = 0)) as [->|Hne]; [by rewrite Z.add_0_r, lookup_insert_eq|].
  rewrite lookup_insert_ne by lia. replace (a + i) with (a + 1 + (i - 1)) by lia.
  apply IH. lia.
Qed.

(** The intermediate states: after [malloc], after the bytes, after the
    address; then the list has one element more. *)
Lemma install_spec h c bytes l :
  block_ok c → length bytes = Z.to_nat (size c) → is_list h l → blocks_wf h →
  valid_range (mem h) (container_address c) 8 → alloc (blocks h) (size c) < 2 ^ 64 →
  ∃ h' a ptr, install c bytes h = Done tt h' ∧ received c bytes h h' a ptr ∧ blocks_wf h' ∧
    is_list h' (l ++ [(a, MkContainer (container_address c) (linked_address c) ptr (size c))]).
Proof.
  intros Hc Hlen Hl Hwf Hv Hmax. set (ptr := alloc (blocks h) (size c)) in *.
  assert (0 ≤ size c) as Hsz by apply Hc.
  assert (blocks h !! ptr = None) as Hptr by (apply alloc_not_live; [done|apply Hwf]).
  set (h1 := set_blocks (<[ptr := size c]> (blocks h))
               (set_mem (fresh_bytes ptr (Z.to_nat (size c)) (mem h)) h)).
  assert (blocks_wf h1) as Hwf1 by (intros b s; by apply (blocks_wf_insert h)).
  assert (is_list h1 l) as Hl1.
  { destruct Hl as [Hs Hnd Hb]. split; [done|done|]. intros b Hb'. simpl.
    rewrite lookup_insert_ne; [by apply Hb|]. intros ->. apply Hb in Hb'. congruence. }
  destruct (store_bytes_Some (mem h1) ptr bytes) as [m1 Hm1].
  { rewrite Hlen. apply fresh_bytes_valid_self. }
  destruct (store_word_Some 8 m1 (container_address c) ptr) as [m2 Hm2].
  { intros j Hj. destruct (store_bytes_lookup _ _ _ _ Hm1) as (_ & _ & Hdom).
    apply Hdom. exact (fresh_bytes_valid _ _ _ _ _ Hv j Hj). }
  assert (load_word 8 m2 (container_address c) = Some ptr) as Hld.
  { rewrite (load_store_word _ _ _ _ _ Hm2), Z.mod_small; [done|].
    split; [|exact Hmax]. pose proof (alloc_pos (blocks h) (size c)) as Hpos.
    fold ptr in Hpos. lia. }
  set (h3 := set_mem m2 h1).
  assert (is_list h3 l) as Hl3 by by apply (is_list_ext h1).
  set (cr := MkContainer (container_address c) (linked_address c) ptr (size c)).
  destruct (rep_append_spec h3 l cr Hwf1 Hl3) as (a & h' & Hrun & Hl' & [Hf Hm Hb Ht Hn Ha]).
  assert (a ≠ ptr) as Hap by (intros ->; simpl in Hf; by rewrite lookup_insert_eq in Hf).
  exists h', a, ptr. split; [|split; [|split; [|exact Hl']]].
  - unfold install, malloc. cbn [bind]. fold ptr h1. unfold put_bytes at 1.
    cbn [bind gets]. rewrite Hm1. cbn [of_option bind modify].
    unfold store64 at 1. cbn [bind gets]. change (mem (set_mem m1 h1)) with m1.
    rewrite Hm2. cbn [of_option bind modify]. unfold load64 at 1.
    change (mem (set_mem m2 (set_mem m1 h1))) with m2. rewrite Hld. cbn [of_option bind].
    exact Hrun.
  - split; [done|exact Ha| |done| |done].
    + split; [|done]. simpl in Hf. by rewrite lookup_insert_ne in Hf.
    + exists m1. split; [done|]. by rewrite Hm.
  - intros x s. rewrite Hb. simpl. destruct (decide (a = x)) as [->|Hax].
    + rewrite lookup_insert_eq. by intros [= <-].
    + rewrite lookup_insert_ne by done. apply Hwf1.
Qed.
End install_one.

(** ** The whole list *)
Section install_all.
Context `{!Allocator} `{!AllocatorLaws alloc}.
Context (statics : list (Z * Z)).

(** The objects of the program that hold the containers (its data segment and
    its stack): the allocator knows them as live blocks. *)
Definition statics_ok (h : heap) : Prop :=
  ∀ b s, (b, s) ∈ statics → blocks h !! b = Some s ∧ valid_range (mem h) b (Z.to_nat s).
Definition in_static (c : Malloc_container) : Prop :=
  ∃ b s, (b, s) ∈ statics ∧ b ≤ container_address c ∧ container_address c + 8 ≤ b + s.
Definition apart (c c' : Malloc_container) : Prop :=
  container_address c + 8 ≤ container_address c' ∨ container_address c' + 8 ≤ container_address c.

(** An address in one of these objects, and one in none of the containers. *)
Definition in_statics (x : Z) : Prop := ∃ b s, (b, s) ∈ statics ∧ b ≤ x < b + s.
Definition outside (cs : list Malloc_container) (x : Z) : Prop :=
  Forall (λ c, ¬ (container_address c ≤ x < container_address c + 8)) cs.

(** The replica has the block of [c]: its variable points to a live block with
    the sender's bytes. *)
Definition copied (h : heap) (c : Malloc_container) (bytes : list mbyte) : Prop :=
  ∃ ptr, load_word 8 (mem h) (container_address c) = Some ptr ∧
    load_bytes (mem h) ptr (Z.to_nat (size c)) = Some bytes ∧
    blocks h !! ptr = Some (size c) ∧
    ∀ b s, (b, s) ∈ statics → ptr + size c ≤ b ∨ b + s ≤ ptr.

(** The addresses the allocator hands out are machine words. *)
Fixpoint fits (bl : gmap Z Z) (cs : list Malloc_container) : Prop :=
  match cs with
  | [] => True
  | c :: cs' =>
      let bl1 := <[alloc bl (size c) := size c]> bl in
      alloc bl (size c) < 2 ^ 64 ∧
      fits (<[alloc bl1 sizeof_Malloc_list := sizeof_Malloc_list]> bl1) cs'
  end.

Lemma received_other c bytes h h' a ptr x :
  received c bytes h h' a ptr → length bytes = Z.to_nat (size c) → 0 ≤ size c →
  ¬ (ptr ≤ x < ptr + size c) → ¬ (container_address c ≤ x < container_address c + 8) →
  mem h' !! x = mem h !! x.
Proof.
  intros [_ _ _ _ (m1 & H1 & H2) _] Hlen Hsz Hx1 Hx2.
  destruct (store_bytes_lookup _ _ _ _ H2) as (_ & Ho2 & _).
  rewrite Ho2 by (rewrite length_fmap, length_encode; lia).
  destruct (store_bytes_lookup _ _ _ _ H1) as (_ & Ho1 & _).
  rewrite Ho1 by lia. apply fresh_bytes_other. lia.
Qed.

Lemma received_valid c bytes h h' a ptr b n :
  received c bytes h h' a ptr → valid_range (mem h) b n → valid_range (mem h') b n.
Proof.
  intros [_ _ _ _ (m1 & H1 & H2) _] Hv i Hi.
  destruct (store_bytes_lookup _ _ _ _ H2) as (_ & _ & Hd2). apply Hd2.
  destruct (store_bytes_lookup _ _ _ _ H1) as (_ & _ & Hd1). apply Hd1.
  exact (fresh_bytes_valid _ _ _ _ _ Hv i Hi).
Qed.

Lemma received_live c bytes h h' a ptr b s :
  received c bytes h h' a ptr → blocks_wf h → 0 ≤ size c →
  blocks h !! b = Some s → blocks h' !! b = Some s ∧ (ptr + size c ≤ b ∨ b + s ≤ ptr).
Proof.
  intros [-> -> [Ha Hap] Hb _ _] Hwf Hsz Hbs.
  destruct (alloc_fresh (blocks h) (size c) b s Hbs Hsz (Hwf _ _ Hbs)) as [Hd|Hd].
  - split; [|lia]. rewrite Hb, lookup_insert_ne by congruence.
    rewrite lookup_insert_ne; [done|]. intros E. lia.
  - split; [|lia]. rewrite Hb, lookup_insert_ne by congruence.
    rewrite lookup_insert_ne; [done|]. intros E. pose proof (Hwf _ _ Hbs). lia.
Qed.

Lemma load_word_ext m m' a n :
  (∀ i, 0 ≤ i < Z.of_nat n → m' !! (a + i) = m !! (a + i)) → load_word n m' a = load_word n m a.
Proof. intros Heq. unfold load_word. by rewrite (load_bytes_ext m' m). Qed.

Section step.
Context (c : Malloc_container) (bytes : list mbyte) (h h' : heap) (a ptr : Z).
Context (Hrcv : received c bytes h h' a ptr) (Hlen : length bytes = Z.to_nat (size c)).
Context (Hwf : blocks_wf h) (Hok : block_ok c) (Hst : statics_ok h) (Hin : in_static c).

Lemma received_static : ∃ b s, (b, s) ∈ statics ∧ b ≤ container_address c ∧
  container_address c + 8 ≤ b + s ∧ (ptr + size c ≤ b ∨ b + s ≤ ptr).
Proof.
  destruct Hin as (b & s & Hbs & H1 & H2). exists b, s. split; [done|]. split; [done|].
  split; [done|]. eapply received_live; [done|done|apply Hok|by apply Hst].
Qed.

Lemma received_statics_ok : statics_ok h'.
Proof.
  intros b s Hbs. destruct (Hst b s Hbs) as [Hb Hv]. split; [|by eapply received_valid].
  by eapply received_live; [| |apply Hok|].
Qed.

(** The other bytes of the program's objects are as they were. *)
Lemma received_statics_same x :
  in_statics x → ¬ (container_address c ≤ x < container_address c + 8) →
  mem h' !! x = mem h !! x.
Proof.
  intros (b & s & Hbs & Hx) Hxc. eapply received_other; [done|done|apply Hok| |done].
  destruct (Hst b s Hbs) as [Hb _].
  destruct (received_live _ _ _ _ _ _ _ _ Hrcv Hwf (proj1 (blk_size _ Hok)) Hb). lia.
Qed.

Lemma received_copied : ptr < 2 ^ 64 → copied h' c bytes.
Proof.
  intros Hmax. destruct received_static as (b & s & Hbs & Hb1 & Hb2 & Hdis).
  pose proof Hrcv as [Hptr Hael [Ha Hap] Hbl (m1 & H1 & H2) _]. exists ptr.
  split; [|split; [|split]].
  - rewrite (load_store_word _ _ _ _ _ H2), Z.mod_small; [done|].
    split; [|exact Hmax]. rewrite Hptr. pose proof (alloc_pos (blocks h) (size c)). lia.
  - rewrite <-Hlen. rewrite (load_bytes_ext _ m1).
    + exact (load_store_bytes _ _ _ _ H1).
    + intros i Hi. destruct (store_bytes_lookup _ _ _ _ H2) as (_ & Ho & _). apply Ho.
      rewrite length_fmap, length_encode. pose proof (blk_size c Hok). lia.
  - rewrite Hbl, lookup_insert_ne by done. apply lookup_insert_eq.
  - intros b' s' Hbs'. eapply received_live; [done|done|apply Hok|by apply Hst].
Qed.

Lemma received_keeps c0 bytes0 :
  copied h c0 bytes0 → in_static c0 → apart c0 c → 0 ≤ size c0 → copied h' c0 bytes0.
Proof.
  intros (p0 & Hw & Hb & Hbl & Hd) (b0 & s0 & Hbs0 & Hc1 & Hc2) Hap Hs0.
  assert (0 ≤ size c) as Hsz by apply Hok.
  destruct (received_live _ _ _ _ _ _ _ _ Hrcv Hwf Hsz Hbl) as [Hbl' Hdis].
  destruct (Hst b0 s0 Hbs0) as [Hst0 _].
  destruct (received_live _ _ _ _ _ _ _ _ Hrcv Hwf Hsz Hst0) as [_ Hdis0].
  destruct Hin as (b & s & Hbs & H1 & H2). pose proof (Hd b s Hbs) as Hd1.
  exists p0. split; [|split; [|split; [done|done]]].
  - rewrite <-Hw. apply load_word_ext. intros i Hi.
    eapply received_other; [done|done|done| |]; [lia|]. unfold apart in Hap. lia.
  - rewrite <-Hb. apply load_bytes_ext. intros i Hi.
    eapply received_other; [done|done|done| |]; lia.
Qed.
End step.

(** What the replica records of a container. *)
Definition same_container (c c' : Malloc_container) : Prop :=
  container_address c = container_address c' ∧ linked_address c = linked_address c' ∧
  size c = size c'.

Definition sendable (d : Malloc_container * list mbyte) : Prop :=
  block_ok d.1 ∧ length d.2 = Z.to_nat (size d.1) ∧ in_static d.1.

(** The blocks of a memory are as long as their containers say. *)
Lemma blocks_sendable m cs bytes :
  Forall block_ok cs → Forall2 (block_bytes m) cs bytes → Forall in_static cs →
  Forall sendable (zip cs bytes).
Proof.
  intros Hok Hb Hin. apply Forall_lookup. intros k [c x] Hk.
  apply lookup_zip_with_Some in Hk as (c' & x' & [= <- <-] & Hc & Hx).
  destruct (Forall2_lookup_lr _ _ _ _ _ _ Hb Hc Hx) as (ptr & _ & Hld).
  rewrite Forall_lookup in Hok, Hin. split; [by eapply Hok|]. split; [|by eapply Hin].
  by apply load_bytes_length in Hld.
Qed.

Lemma static_valid h c : statics_ok h → in_static c → valid_range (mem h) (container_address c) 8.
Proof.
  intros Hst (b & s & Hbs & H1 & H2) i Hi. destruct (Hst b s Hbs) as [_ Hv].
  replace (container_address c + i) with (b + (container_address c + i - b)) by lia.
  apply Hv. lia.
Qed.

Lemma install_all_spec cbs : ∀ l done h,
  Forall sendable cbs → ForallOrdPairs apart cbs.*1 →
  Forall (λ d, copied h d.1 d.2 ∧ in_static d.1 ∧ 0 ≤ size d.1 ∧
               Forall (apart d.1) cbs.*1) done →
  is_list h l → blocks_wf h → statics_ok h → fits (blocks h) cbs.*1 →
  ∃ h' l', install_all cbs h = Done tt h' ∧
    is_list h' (l ++ l') ∧ Forall2 same_container l'.*2 cbs.*1 ∧
    Forall (λ d, copied h' d.1 d.2) (done ++ cbs) ∧ blocks_wf h' ∧ statics_ok h' ∧
    malloc_number_of_allocations h' = malloc_number_of_allocations h ∧
    (∀ x, in_statics x → outside cbs.*1 x → mem h' !! x = mem h !! x).
Proof.
  induction cbs as [|[c bytes] cbs IH]; intros l done h Hs Hap Hdone Hl Hwf Hst Hfit.
  - exists h, []. rewrite !app_nil_r. split; [done|].
    split; [done|]. split; [constructor|]. split; [|done].
    eapply Forall_impl; [exact Hdone|]. by intros d (? & _).
  - apply Forall_cons in Hs as [(Hc & Hlen & Hin) Hs]. csimpl in *.
    inversion Hap as [|? ? Hap1 Hap2]; subst. destruct Hfit as [Hmax Hfit].
    destruct (install_spec h c bytes l Hc Hlen Hl Hwf (static_valid _ _ Hst Hin) Hmax)
      as (h1 & a & ptr & Hrun & Hrcv & Hwf1 & Hl1).
    assert (blocks h1 = <[alloc (<[alloc (blocks h) (size c) := size c]> (blocks h))
              sizeof_Malloc_list := sizeof_Malloc_list]>
              (<[alloc (blocks h) (size c) := size c]> (blocks h))) as Hbl.
    { destruct Hrcv as [-> -> _ Hb _ _]. exact Hb. }
    assert (ptr < 2 ^ 64) as Hptr by (destruct Hrcv as [-> _ _ _ _ _]; exact Hmax).
    pose proof (received_copied _ _ _ _ _ _ Hrcv Hlen Hwf Hc Hst Hin Hptr) as Hcop.
    destruct (IH (l ++ [(a, MkContainer (container_address c) (linked_address c) ptr (size c))])
      (done ++ [(c, bytes)]) h1 Hs Hap2) as (h' & l' & Hrun' & Hl' & Hsame & Hall & Hwf' & Hst' & Hn & Hx).
    { apply Forall_app. split.
      - eapply Forall_impl; [exact Hdone|]. intros d (Hd & Hdi & Hds & Hda).
        apply Forall_cons in Hda as [Hd1 Hda]. split; [|done].
        by eapply received_keeps.
      - apply Forall_singleton. split; [done|]. split; [done|]. split; [apply Hc|done]. }
    { done. }
    { done. }
    { by eapply received_statics_ok. }
    { by rewrite Hbl. }
    exists h', ((a, MkContainer (container_address c) (linked_address c) ptr (size c)) :: l').
    split; [|split; [|split; [|split; [|split; [done|split; [done|split]]]]]].
    + unfold install_all, iterM. cbn [foldM fst snd]. erewrite bind_Done by exact Hrun. exact Hrun'.
    + by rewrite <-app_assoc in Hl'.
    + csimpl. constructor; [done|exact Hsame].
    + by rewrite <-app_assoc in Hall.
    + rewrite Hn. by destruct Hrcv.
    + intros x Hxs Hxo. apply Forall_cons in Hxo as [Hxc Hxo]. rewrite Hx by done.
      by eapply received_statics_same.
Qed.
End install_all.
