(* ===== verification/Transfer.v ===== *)
(** * Replica creation: [src/replication/{rep,dataseg,stackseg,heapseg}.c]

    [init_rep] copies a process to the members of [job_comm].  Rank 0 is the
    sender; every step is a [PMPI_Bcast] with root 0.  MPI matches the
    broadcasts of a communicator in the order they are called, so the members
    see one sequence of messages: the sender appends to its [outbox], a
    receiver takes from its [inbox], and a run of the protocol gives a
    receiver the sender's outbox.  The variables of the library live outside
    the copied segments. *)

From S2P Require Import Prelude Shared Memory HeapSeg Context Install.

(** ** One member of [job_comm] *)
Record chan : Type := MkChan {
  c_rank : Z;
  inbox : list (list mbyte);
  outbox : list (list mbyte)
}.

Record proc : Type := MkProc {
  p_transit : NodeTransitState;
  p_heap : heap;
  context : jmp_buf;
  stackHigherAddress : Z;
  stackLowerAddress : Z;
  pass_sender_cont_add : Z;
  pass_receiver_cont_add : Z;
  p_chan : chan
}.

Definition set_heap v p := MkProc (p_transit p) v (context p) (stackHigherAddress p)
  (stackLowerAddress p) (pass_sender_cont_add p) (pass_receiver_cont_add p) (p_chan p).
Definition set_context v p := MkProc (p_transit p) (p_heap p) v (stackHigherAddress p)
  (stackLowerAddress p) (pass_sender_cont_add p) (pass_receiver_cont_add p) (p_chan p).
Definition set_lower v p := MkProc (p_transit p) (p_heap p) (context p) (stackHigherAddress p)
  v (pass_sender_cont_add p) (pass_receiver_cont_add p) (p_chan p).
Definition set_pass_sender v p := MkProc (p_transit p) (p_heap p) (context p)
  (stackHigherAddress p) (stackLowerAddress p) v (pass_receiver_cont_add p) (p_chan p).
Definition set_pass_receiver v p := MkProc (p_transit p) (p_heap p) (context p)
  (stackHigherAddress p) (stackLowerAddress p) (pass_sender_cont_add p) v (p_chan p).
Definition set_chan v p := MkProc (p_transit p) (p_heap p) (context p) (stackHigherAddress p)
  (stackLowerAddress p) (pass_sender_cont_add p) (pass_receiver_cont_add p) v.

(** An operation on the heap of the process. *)
Definition on_heap {A} (m : M heap A) : M proc A := zoom p_heap set_heap m.

(** ** [PMPI_Bcast(buf, n, MPI_BYTE, 0, job_comm)]

    [l] is what the buffer holds; the result is what it holds afterwards.  A
    receiver whose buffer has another length than the message is outside what
    MPI defines. *)
Definition bcast (l : list mbyte) : M proc (list mbyte) := λ p,
  let c := p_chan p in
  if c_rank c =? 0 then
    Done l (set_chan (MkChan (c_rank c) (inbox c) (outbox c ++ [l])) p)
  else match inbox c with
       | [] => Stop Undef p
       | m :: rest =>
           if (length m =? length l)%nat
           then Done m (set_chan (MkChan (c_rank c) rest (outbox c)) p)
           else Stop Undef p
       end.

(** Broadcast of a variable of [n] bytes. *)
Definition bcast_var (n : nat) (v : cell) : M proc Z :=
  let! l := bcast (cells n v) in of_option Undef (value l).

(** Broadcast of the [count] bytes at [a]; [count] is an [int]. *)
Definition bcast_mem (a count : Z) : M proc unit :=
  ensure (0 <=? count) Undef ;;;
  let! m := gets (λ p, mem (p_heap p)) in
  let! l := of_option Undef (load_bytes m a (Z.to_nat count)) in
  let! l' := bcast l in
  let! m' := of_option Undef (store_bytes m a l') in
  on_heap (modify (set_mem m')).

(** ** Data segments

    The four symbols of the linker; the barrier before has no effect on the
    state. *)
Section segments.
Context (data_start edata bss_start bss_end : Z).

Definition transfer_init_data_seg : M proc unit :=
  bcast_mem data_start (wrap32s (edata - data_start)).
Definition transfer_uninit_data_seg : M proc unit :=
  bcast_mem bss_start (wrap32s (bss_end - bss_start)).
Definition transfer_data_seg : M proc unit :=
  transfer_init_data_seg ;;; transfer_uninit_data_seg.
End segments.

(** ** Stack *)
Section stack.
Context (guard : Z).

(** [int stack_size = (higher - lower) + 4], truncated to [int]. *)
Definition get_stack_size (p : proc) : Z :=
  wrap32s (stackHigherAddress p - stackLowerAddress p + 4).

(** The locals a sender fills: [processContext.{rip, rsp, rbp}] and
    [stack_size]. *)
Definition sender_locals : M proc (cell * cell * cell * cell) :=
  let! t := gets p_transit in
  if decide (t = NODE_DATA_SENDER) then
    let! c := gets context in
    modify (set_lower (getRSP guard c)) ;;;
    let! size := gets get_stack_size in
    ret (Some (getPC guard c), Some (getRSP guard c), Some (getRBP guard c), Some size)
  else ret (None, None, None, None).

Definition receiver_context (rip rsp rbp size : Z) : M proc unit :=
  let! t := gets p_transit in
  when (bool_decide (t = NODE_DATA_RECEIVER))
    (modify (λ p, set_context
       (setRBP guard (setRSP guard (setPC guard (context p) rip) rsp) rbp) p) ;;;
     modify (λ p, set_lower (wrap64 (stackHigherAddress p - (size - 4))) p)).

Definition transfer_stack_seg : M proc unit :=
  let! (rip, rsp, rbp, size) := sender_locals in
  let! l := bcast (cells 8 rip ++ cells 8 rsp ++ cells 8 rbp) in
  let! rip := of_option Undef (value (take 8 l)) in
  let! rsp := of_option Undef (value (take 8 (drop 8 l))) in
  let! rbp := of_option Undef (value (drop 16 l)) in
  let! s := bcast_var 4 size in
  let size := wrap32s s in
  receiver_context rip rsp rbp size ;;;
  let! lower := gets stackLowerAddress in
  let! comp := bcast_var 8 (Some lower) in
  ensure (comp =? lower) (Aborted 800) ;;;
  bcast_mem lower size.
End stack.

(** ** Heap *)
Section heap.
Context `{Allocator}.

(** The message of one container: its [allocated_address] is indeterminate,
    as the sender does not set it. *)
Definition container_cells (c : Malloc_container) : list mbyte :=
  cells 8 (Some (container_address c)) ++ cells 8 (Some (linked_address c)) ++
  cells 8 None ++ cells 8 (Some (size c)).

Definition read_container (l : list mbyte) : option (Z * Z * Z) :=
  ca ← value (take 8 l); la ← value (take 8 (drop 8 l)); sz ← value (drop 24 l);
  Some (ca, la, sz).

(** The body of the loop; the sender's cursor [temp] is its state. *)
Definition transfer_block (temp : Z) (_ : Z) : M proc Z :=
  let! rank := gets (λ p, c_rank (p_chan p)) in
  let! (cells, temp') :=
    (if rank =? 0 then
       let! e := on_heap (load_node temp) in
       ret (container_cells (container e), next e)
     else ret (replicate 32 None, temp)) in
  let! l := bcast cells in
  let! (ca, la, sz) := of_option Undef (read_container l) in
  if (sz =? 0) && negb (la =? 0) then
    when (negb (rank =? 0)) (let! v := on_heap (load64 la) in on_heap (store64 ca v)) ;;;
    ret temp'
  else
    let! heap_start := (if rank =? 0 then on_heap (load64 ca) else on_heap (malloc sz)) in
    bcast_mem heap_start (wrap32s sz) ;;;
    when (negb (rank =? 0))
      (on_heap (store64 ca heap_start) ;;;
       let! allocated := on_heap (load64 ca) in
       on_heap (rep_append (MkContainer ca la allocated sz))) ;;;
    ret temp'.

(** The four low bytes of [total_malloc_allocation_size] are broadcast as an
    [int]; the high ones stay. *)
Definition bcast_total : M proc unit :=
  let! total := gets (λ p, total_malloc_allocation_size (p_heap p)) in
  let! v := bcast_var 4 (Some total) in
  on_heap (modify (set_total (total / 2 ^ 32 * 2 ^ 32 + v))).

Definition bcast_count : M proc unit :=
  let! n := gets (λ p, malloc_number_of_allocations (p_heap p)) in
  let! v := bcast_var 4 (Some n) in
  on_heap (modify (set_count (wrap32s v))).

Definition transfer_heap_seg : M proc unit :=
  let! temp := gets (λ p, head (p_heap p)) in
  let! rank := gets (λ p, c_rank (p_chan p)) in
  bcast_total ;;;
  let! state := gets (λ p, mem_state (p_heap p)) in
  when (negb (rank =? 0))
    (match state with
     | CONTIGUOUS => on_heap rep_clear
     | DISCONTIGUOUS => on_heap rep_clear_discontiguous
     end) ;;;
  on_heap rep_display ;;;
  bcast_count ;;;
  let! n := gets (λ p, malloc_number_of_allocations (p_heap p)) in
  foldM transfer_block temp (seqZ 0 n) ;;;
  ret tt.
End heap.

(** ** The whole replica *)
Definition transfer_framework_data : M proc unit :=
  let! s := gets pass_sender_cont_add in
  let! s' := bcast_var 4 (Some s) in
  modify (set_pass_sender (wrap32s s')) ;;;
  let! r := gets pass_receiver_cont_add in
  let! r' := bcast_var 4 (Some r) in
  modify (set_pass_receiver (wrap32s r')).

Definition MAX_REP : Z := 100.

(** [___rep_time[___rep_counter]], which the time is stored to; the array of
    doubles itself is not part of the model. *)
Definition rep_timer (counter : Z) : M proc unit :=
  ensure ((0 <=? counter) && (counter <? MAX_REP)) Undef.

Definition init_rep `{Allocator} (guard data_start edata bss_start bss_end counter : Z) : M proc unit :=
  rep_timer counter ;;;
  transfer_data_seg data_start edata bss_start bss_end ;;;
  transfer_stack_seg guard ;;;
  transfer_heap_seg ;;;
  transfer_framework_data ;;;
  rep_timer counter.

(** ** The two sides of a protocol

    [sends m s ms a s']: run by rank 0 in state [s], [m] returns [a], appends
    the messages [ms] to the outbox and ends in [s'].  [receives] is the
    other side: a receiver takes exactly [ms] from its inbox.  Neither depends
    on the rest of the channel. *)
Definition sends {A} (m : M proc A) (s : proc) (ms : list (list mbyte)) (a : A) (s' : proc) : Prop :=
  ∀ i o, m (set_chan (MkChan 0 i o) s) = Done a (set_chan (MkChan 0 i (o ++ ms)) s').
Definition receives {A} (m : M proc A) (r : proc) (ms : list (list mbyte)) (a : A) (r' : proc) : Prop :=
  ∀ k rest o, k ≠ 0 →
    m (set_chan (MkChan k (ms ++ rest) o) r) = Done a (set_chan (MkChan k rest o) r').
(** The receiver stops. *)
Definition receiver_stops {A} (m : M proc A) (r : proc) (ms : list (list mbyte)) (e : stop) : Prop :=
  ∀ k rest o, k ≠ 0 → ∃ p, m (set_chan (MkChan k (ms ++ rest) o) r) = Stop e p.

Section protocol.
Context {A B : Type}.
Implicit Types (s r : proc) (ms : list (list mbyte)).

Lemma sends_bind (m : M proc A) (f : A → M proc B) s ms1 a s1 ms2 b s2 :
  sends m s ms1 a s1 → sends (f a) s1 ms2 b s2 → sends (bind m f) s (ms1 ++ ms2) b s2.
Proof. intros H1 H2 i o. rewrite (bind_Done _ _ _ _ _ (H1 i o)), H2. by rewrite app_assoc. Qed.

Lemma receives_bind (m : M proc A) (f : A → M proc B) r ms1 a r1 ms2 b r2 :
  receives m r ms1 a r1 → receives (f a) r1 ms2 b r2 → receives (bind m f) r (ms1 ++ ms2) b r2.
Proof.
  intros H1 H2 k rest o Hk. rewrite <-app_assoc.
  rewrite (bind_Done _ _ _ _ _ (H1 k (ms2 ++ rest) o Hk)). by apply H2.
Qed.

Lemma stops_bind (m : M proc A) (f : A → M proc B) r ms1 a r1 ms2 e :
  receives m r ms1 a r1 → receiver_stops (f a) r1 ms2 e → receiver_stops (bind m f) r (ms1 ++ ms2) e.
Proof.
  intros H1 H2 k rest o Hk. rewrite <-app_assoc.
  rewrite (bind_Done _ _ _ _ _ (H1 k (ms2 ++ rest) o Hk)). by apply H2.
Qed.

(** A step that does not touch the channel runs on both sides. *)
Definition silent (m : M proc A) p (a : A) p' : Prop :=
  ∀ c, m (set_chan c p) = Done a (set_chan c p').

Lemma sends_silent (m : M proc A) p a p' : silent m p a p' → sends m p [] a p'.
Proof. intros H i o. rewrite H. by rewrite app_nil_r. Qed.
Lemma receives_silent (m : M proc A) p a p' : silent m p a p' → receives m p [] a p'.
Proof. intros H k rest o _. by rewrite H. Qed.

Lemma sends_silent_bind (m : M proc A) (f : A → M proc B) s a s1 ms b s2 :
  silent m s a s1 → sends (f a) s1 ms b s2 → sends (bind m f) s ms b s2.
Proof. intros H1 H2. by eapply (sends_bind _ _ _ [] a s1); [apply sends_silent|]. Qed.
Lemma receives_silent_bind (m : M proc A) (f : A → M proc B) r a r1 ms b r2 :
  silent m r a r1 → receives (f a) r1 ms b r2 → receives (bind m f) r ms b r2.
Proof. intros H1 H2. by eapply (receives_bind _ _ _ [] a r1); [apply receives_silent|]. Qed.
Lemma stops_silent_bind (m : M proc A) (f : A → M proc B) r a r1 ms e :
  silent m r a r1 → receiver_stops (f a) r1 ms e → receiver_stops (bind m f) r ms e.
Proof. intros H1 H2. by eapply (stops_bind _ _ _ [] a r1); [apply receives_silent|]. Qed.
End protocol.

Lemma silent_ret {A} (a : A) p : silent (ret a) p a p.
Proof. done. Qed.
Lemma silent_gets {A} (f : proc → A) p : (∀ c, f (set_chan c p) = f p) → silent (gets f) p (f p) p.
Proof. intros Hf c. cbn. by rewrite Hf. Qed.
Lemma silent_modify f p : (∀ c, f (set_chan c p) = set_chan c (f p)) → silent (modify f) p tt (f p).
Proof. intros Hf c. cbn. by rewrite Hf. Qed.
Lemma silent_option {A} e (o : option A) a p : o = Some a → silent (of_option e o) p a p.
Proof. by intros ->. Qed.
Lemma silent_ensure b e p : b = true → silent (ensure b e) p tt p.
Proof. by intros ->. Qed.
Lemma set_heap_id p : set_heap (p_heap p) p = p.
Proof. by destruct p. Qed.
Lemma silent_on_heap {A} (m : M heap A) p a h' :
  m (p_heap p) = Done a h' → silent (on_heap m) p a (set_heap h' p).
Proof. intros H c. unfold on_heap, zoom. simpl. by rewrite H. Qed.

Lemma silent_on_heap_same {A} (m : M heap A) p a :
  m (p_heap p) = Done a (p_heap p) → silent (on_heap m) p a p.
Proof. intros H. rewrite <-(set_heap_id p) at 2. by apply silent_on_heap. Qed.

(** *** Broadcasts *)
Lemma sends_bcast l s : sends (bcast l) s [l] l s.
Proof. by intros i o. Qed.
Lemma receives_bcast l m r : length m = length l → receives (bcast l) r [m] m r.
Proof.
  intros Hl k rest o Hk. unfold bcast. simpl.
  rewrite (proj2 (Z.eqb_neq _ _) Hk), Hl, Nat.eqb_refl. done.
Qed.

Lemma sends_bcast_var n v s :
  sends (bcast_var n (Some v)) s [cells n (Some v)] (v mod 256 ^ Z.of_nat n) s.
Proof.
  eapply (sends_bind _ _ _ [_]); [apply sends_bcast|].
  apply sends_silent, silent_option, value_cells.
Qed.
Lemma receives_bcast_var n v w r :
  receives (bcast_var n w) r [cells n (Some v)] (v mod 256 ^ Z.of_nat n) r.
Proof.
  eapply (receives_bind _ _ _ [_]); [apply receives_bcast; by rewrite !length_cells|].
  apply receives_silent, silent_option, value_cells.
Qed.

Lemma set_heap_mem_id s : set_heap (set_mem (mem (p_heap s)) (p_heap s)) s = s.
Proof. by destruct s as [? []]. Qed.

Lemma sends_bcast_mem a n s l :
  0 ≤ n → load_bytes (mem (p_heap s)) a (Z.to_nat n) = Some l → sends (bcast_mem a n) s [l] tt s.
Proof.
  intros Hn Hl. unfold bcast_mem.
  eapply sends_silent_bind; [by apply silent_ensure, Z.leb_le|].
  eapply sends_silent_bind; [by apply (silent_gets (λ p, mem (p_heap p)))|].
  eapply sends_silent_bind; [by apply silent_option|].
  eapply (sends_bind _ _ _ [l] _ _ []); [apply sends_bcast|].
  eapply sends_silent_bind; [eapply silent_option, store_load_bytes, Hl|].
  rewrite <-(set_heap_mem_id s) at 3. by apply sends_silent, silent_on_heap.
Qed.

Lemma receives_bcast_mem a n r l :
  0 ≤ n → length l = Z.to_nat n → valid_range (mem (p_heap r)) a (Z.to_nat n) →
  ∃ m', store_bytes (mem (p_heap r)) a l = Some m' ∧
    receives (bcast_mem a n) r [l] tt (set_heap (set_mem m' (p_heap r)) r).
Proof.
  intros Hn Hlen Hv. destruct (load_bytes_Some _ _ _ Hv) as [l0 Hl0].
  destruct (store_bytes_Some (mem (p_heap r)) a l) as [m' Hm']; [by rewrite Hlen|].
  exists m'. split; [done|]. unfold bcast_mem.
  eapply receives_silent_bind; [by apply silent_ensure, Z.leb_le|].
  eapply receives_silent_bind; [by apply (silent_gets (λ p, mem (p_heap p)))|].
  eapply receives_silent_bind; [by apply silent_option|].
  eapply (receives_bind _ _ _ [l] _ _ []).
  { apply receives_bcast. by rewrite (load_bytes_length _ _ _ _ Hl0). }
  eapply receives_silent_bind; [by eapply silent_option|].
  by apply receives_silent, silent_on_heap.
Qed.

(** ** The data segments *)
Section data_transfer.
Context (d e b f : Z) (Hd : 0 ≤ e - d ≤ INT_MAX) (Hb : 0 ≤ f - b ≤ INT_MAX).

Lemma data_sends s l1 l2 :
  load_bytes (mem (p_heap s)) d (Z.to_nat (e - d)) = Some l1 →
  load_bytes (mem (p_heap s)) b (Z.to_nat (f - b)) = Some l2 →
  sends (transfer_data_seg d e b f) s [l1; l2] tt s.
Proof.
  intros L1 L2. unfold transfer_data_seg, transfer_init_data_seg, transfer_uninit_data_seg.
  rewrite !wrap32s_small by (unfold INT_MIN; lia).
  apply (sends_bind _ _ s [l1] tt s [l2]); apply sends_bcast_mem; (lia || done).
Qed.

Lemma data_receives r l1 l2 m1 m2 :
  length l1 = Z.to_nat (e - d) → length l2 = Z.to_nat (f - b) →
  valid_range (mem (p_heap r)) d (Z.to_nat (e - d)) →
  valid_range (mem (p_heap r)) b (Z.to_nat (f - b)) →
  store_bytes (mem (p_heap r)) d l1 = Some m1 → store_bytes m1 b l2 = Some m2 →
  receives (transfer_data_seg d e b f) r [l1; l2] tt (set_heap (set_mem m2 (p_heap r)) r).
Proof.
  intros N1 N2 V1 V2 S1 S2.
  unfold transfer_data_seg, transfer_init_data_seg, transfer_uninit_data_seg.
  rewrite !wrap32s_small by (unfold INT_MIN; lia).
  destruct (receives_bcast_mem d (e - d) r l1) as (m1' & S1' & R1); [lia|done|done|].
  assert (m1' = m1) as -> by congruence.
  destruct (store_bytes_lookup _ _ _ _ S1) as (_ & _ & A3).
  destruct (receives_bcast_mem b (f - b) (set_heap (set_mem m1 (p_heap r)) r) l2)
    as (m2' & S2' & R2); [lia|done|by intros i Hi; apply A3, V2|].
  cbn in S2'. assert (m2' = m2) as -> by congruence.
  exact (receives_bind _ _ r [l1] tt _ [l2] _ _ R1 R2).
Qed.
End data_transfer.

(** ** The stack *)
Lemma take_app_3 (a b c : list mbyte) :
  length a = 8%nat → length b = 8%nat → length c = 8%nat →
  take 8 (a ++ b ++ c) = a ∧ take 8 (drop 8 (a ++ b ++ c)) = b ∧ drop 16 (a ++ b ++ c) = c.
Proof.
  intros Ha Hb Hc. split; [by rewrite take_app_length'|]. split.
  - by rewrite drop_app_length', take_app_length'.
  - change 16%nat with (8 + 8)%nat. rewrite <-drop_drop. by rewrite !drop_app_length'.
Qed.

Section stack_transfer.
Context (guard : Z) (Hguard : word guard).

(** The messages: the three registers, the size, the lower end, the bytes. *)
Definition stack_messages (rip lo rbp size : Z) (bytes : list mbyte) : list (list mbyte) :=
  [cells 8 (Some rip) ++ cells 8 (Some lo) ++ cells 8 (Some rbp);
   cells 4 (Some size); cells 8 (Some lo); bytes].

Lemma stack_sends s lo size bytes :
  p_transit s = NODE_DATA_SENDER → getRSP guard (context s) = lo →
  size = stackHigherAddress s - lo + 4 → 0 ≤ size ≤ INT_MAX →
  word lo → word (getPC guard (context s)) → word (getRBP guard (context s)) →
  load_bytes (mem (p_heap s)) lo (Z.to_nat size) = Some bytes →
  sends (transfer_stack_seg guard) s
    (stack_messages (getPC guard (context s)) lo (getRBP guard (context s)) size bytes) tt
    (set_lower lo s).
Proof.
  intros Ht Hlo Hsize Hrange Hwlo Hwpc Hwbp Hb.
  assert (INT_MIN ≤ size ≤ INT_MAX) as Hint by (unfold INT_MIN; lia).
  set (pc := getPC guard (context s)) in *. set (bp := getRBP guard (context s)) in *.
  pose proof (take_app_3 (cells 8 (Some pc)) (cells 8 (Some lo)) (cells 8 (Some bp))
    (length_cells _ _) (length_cells _ _) (length_cells _ _)) as (T1 & T2 & T3).
  unfold transfer_stack_seg, stack_messages.
  eapply (sends_silent_bind _ _ _ (Some pc, Some lo, Some bp, Some size) (set_lower lo s)).
  { intros c. unfold sender_locals. cbn -[decide]. rewrite Ht, decide_True by done.
    cbn. rewrite Hlo. unfold get_stack_size. cbn. rewrite <-Hsize, wrap32s_small by done. done. }
  cbn match. eapply (sends_bind _ _ _ [_]); [apply sends_bcast|].
  eapply sends_silent_bind; [apply silent_option; rewrite T1; by apply value_word|].
  eapply sends_silent_bind; [apply silent_option; rewrite T2; by apply value_word|].
  eapply sends_silent_bind; [apply silent_option; rewrite T3; by apply value_word|].
  eapply (sends_bind _ _ _ [_]); [apply sends_bcast_var|]. cbv zeta.
  rewrite int_message by done.
  eapply (sends_silent_bind _ _ _ tt (set_lower lo s)).
  { intros c. unfold receiver_context. cbn. by rewrite Ht. }
  eapply sends_silent_bind; [by apply (silent_gets stackLowerAddress)|].
  eapply (sends_bind _ _ _ [_]); [apply sends_bcast_var|].
  change (256 ^ Z.of_nat 8) with (2 ^ 64). rewrite Z.mod_small by done.
  eapply sends_silent_bind; [by apply silent_ensure, Z.eqb_eq|].
  apply sends_bcast_mem; [lia|done].
Qed.

(** The receiver up to the comparison of the lower ends. *)
Definition adopted (pc sp bp size : Z) (r : proc) : proc :=
  set_lower (wrap64 (stackHigherAddress r - (size - 4)))
    (set_context (setRBP guard (setRSP guard (setPC guard (context r) pc) sp) bp) r).

Lemma stack_receives r pc lo bp size bytes :
  p_transit r = NODE_DATA_RECEIVER → INT_MIN ≤ size ≤ INT_MAX → word lo → word pc → word bp →
  let r1 := adopted pc lo bp size r in
  (stackLowerAddress r1 = lo → 0 ≤ size → length bytes = Z.to_nat size →
   valid_range (mem (p_heap r)) lo (Z.to_nat size) →
   ∃ m', store_bytes (mem (p_heap r)) lo bytes = Some m' ∧
     receives (transfer_stack_seg guard) r (stack_messages pc lo bp size bytes) tt
       (set_heap (set_mem m' (p_heap r)) r1)) ∧
  (stackLowerAddress r1 ≠ lo →
   receiver_stops (transfer_stack_seg guard) r (stack_messages pc lo bp size bytes) (Aborted 800)).
Proof.
  intros Ht Hint Hwlo Hwpc Hwbp r1.
  pose proof (take_app_3 (cells 8 (Some pc)) (cells 8 (Some lo)) (cells 8 (Some bp))
    (length_cells _ _) (length_cells _ _) (length_cells _ _)) as (T1 & T2 & T3).
  assert (silent (sender_locals guard) r (None, None, None, None) r) as Hlocals.
  { intros c. unfold sender_locals. cbn -[decide]. by rewrite Ht, decide_False. }
  assert (silent (receiver_context guard pc lo bp size) r tt r1) as Hctx.
  { intros c. unfold receiver_context. cbn. by rewrite Ht. }
  assert (∀ w, length (cells 8 (Some pc) ++ cells 8 (Some lo) ++ cells 8 (Some bp)) =
               length (cells 8 w ++ cells 8 w ++ cells 8 w)) as Hlen
    by (intros w; by rewrite !length_app, !length_cells).
  unfold transfer_stack_seg, stack_messages. split.
  - intros Hlow Hs0 Hb Hv.
    destruct (receives_bcast_mem lo size r1 bytes Hs0 Hb Hv) as (m' & Hm' & Hrun).
    exists m'. split; [done|].
    eapply receives_silent_bind; [exact Hlocals|]. cbn match.
    eapply (receives_bind _ _ _ [_]); [by apply receives_bcast|].
    eapply receives_silent_bind; [apply silent_option; rewrite T1; by apply value_word|].
    eapply receives_silent_bind; [apply silent_option; rewrite T2; by apply value_word|].
    eapply receives_silent_bind; [apply silent_option; rewrite T3; by apply value_word|].
    eapply (receives_bind _ _ _ [_]); [apply receives_bcast_var|]. cbv zeta.
    rewrite int_message by done.
    eapply receives_silent_bind; [exact Hctx|].
    eapply receives_silent_bind; [by apply (silent_gets stackLowerAddress)|].
    rewrite Hlow. eapply (receives_bind _ _ _ [_]); [apply receives_bcast_var|].
    change (256 ^ Z.of_nat 8) with (2 ^ 64). rewrite Z.mod_small by done.
    eapply receives_silent_bind; [by apply silent_ensure, Z.eqb_eq|]. exact Hrun.
  - intros Hlow.
    eapply stops_silent_bind; [exact Hlocals|]. cbn match.
    eapply (stops_bind _ _ _ [_]); [by apply receives_bcast|].
    eapply stops_silent_bind; [apply silent_option; rewrite T1; by apply value_word|].
    eapply stops_silent_bind; [apply silent_option; rewrite T2; by apply value_word|].
    eapply stops_silent_bind; [apply silent_option; rewrite T3; by apply value_word|].
    eapply (stops_bind _ _ _ [_]); [apply receives_bcast_var|]. cbv zeta.
    rewrite int_message by done.
    eapply stops_silent_bind; [exact Hctx|].
    eapply stops_silent_bind; [by apply (silent_gets stackLowerAddress)|].
    eapply (stops_bind _ _ _ [_] _ _ [_]); [apply receives_bcast_var|].
    change (256 ^ Z.of_nat 8) with (2 ^ 64). rewrite Z.mod_small by done.
    intros k rest o Hk. unfold ensure. cbn [bind].
    rewrite (proj2 (Z.eqb_neq lo _)) by congruence. by eexists.
Qed.
End stack_transfer.

(** ** The heap *)

Definition block_messages (c : Malloc_container) (bytes : list mbyte) : list (list mbyte) :=
  [container_cells c; bytes].

Lemma length_container_cells c : length (container_cells c) = 32%nat.
Proof. unfold container_cells. by rewrite !length_app, !length_cells. Qed.

(** Whatever the [allocated_address] is, which is not read. *)
Lemma read_container_words c z : block_ok c → length z = 8%nat →
  read_container (cells 8 (Some (container_address c)) ++ cells 8 (Some (linked_address c)) ++
                  z ++ cells 8 (Some (size c))) =
  Some (container_address c, linked_address c, size c).
Proof.
  intros Hc Hz. unfold read_container.
  set (x := cells 8 (Some (container_address c))). set (y := cells 8 (Some (linked_address c))).
  set (w := cells 8 (Some (size c))).
  assert (length x = 8%nat ∧ length y = 8%nat) as (Hx & Hy)
    by (unfold x, y; by rewrite !length_cells).
  assert (take 8 (x ++ y ++ z ++ w) = x) as -> by by apply take_app_length'.
  assert (drop 8 (x ++ y ++ z ++ w) = y ++ z ++ w) as -> by by apply drop_app_length'.
  assert (take 8 (y ++ z ++ w) = y) as -> by by apply take_app_length'.
  assert (drop 24 (x ++ y ++ z ++ w) = w) as ->.
  { rewrite !app_assoc. apply drop_app_length'. rewrite !length_app, Hx, Hy, Hz. done. }
  unfold x, y, w. rewrite (value_word (container_address c)) by apply Hc.
  rewrite (value_word (linked_address c)) by apply Hc.
  rewrite (value_word (size c)) by by apply size_word. done.
Qed.

Lemma read_container_cells c : block_ok c →
  read_container (container_cells c) =
  Some (container_address c, linked_address c, size c).
Proof. intros Hc. apply read_container_words; [done|apply length_cells]. Qed.

Lemma owned_test c : block_ok c → (size c =? 0) && negb (linked_address c =? 0) = false.
Proof.
  intros [_ _ _ Ho]. destruct (Z.eqb_spec (size c) 0); [|done].
  destruct (Z.eqb_spec (linked_address c) 0); [done|]. tauto.
Qed.

Lemma size_int c : block_ok c → wrap32s (size c) = size c.
Proof. intros [_ _ [H1 H2] _]. apply wrap32s_small. unfold INT_MIN. lia. Qed.

Section heap_sender.
Context `{Allocator}.

Lemma block_sends s a c n p i bytes :
  block_ok c → lnodes (p_heap s) !! a = Some (MkElement c n p) →
  block_bytes (mem (p_heap s)) c bytes →
  sends (transfer_block a i) s (block_messages c bytes) n s.
Proof.
  intros Hc Hn (ptr & Hptr & Hb). unfold transfer_block.
  intros i' o. cbn [bind gets]. change (c_rank (p_chan (set_chan _ s))) with 0. cbn [Z.eqb].
  revert i' o. change (sends (
    let! (cells, temp') := (let! e := on_heap (load_node a) in
                            ret (container_cells (container e), next e)) in
    let! l := bcast cells in
    let! (ca, la, sz) := of_option Undef (read_container l) in
    if (sz =? 0) && negb (la =? 0) then
      when (negb true) (let! v := on_heap (load64 la) in on_heap (store64 ca v)) ;;;
      ret temp'
    else
      let! heap_start := on_heap (load64 ca) in
      bcast_mem heap_start (wrap32s sz) ;;;
      when (negb true)
        (on_heap (store64 ca heap_start) ;;;
         let! allocated := on_heap (load64 ca) in
         on_heap (rep_append (MkContainer ca la allocated sz))) ;;;
      ret temp') s (block_messages c bytes) n s).
  eapply (sends_silent_bind _ _ _ (container_cells c, n) s).
  { intros c0. unfold on_heap, zoom, load_node. cbn. rewrite Hn. cbn. by destruct s. }
  cbn match. eapply (sends_bind _ _ _ [_] _ _ [_]); [apply sends_bcast|].
  eapply sends_silent_bind; [apply silent_option; by apply read_container_cells|].
  cbn match. rewrite owned_test by done.
  eapply (sends_silent_bind _ _ _ ptr s).
  { apply silent_on_heap_same. unfold load64. by rewrite Hptr. }
  rewrite size_int by done.
  eapply (sends_bind _ _ _ [_] _ _ []).
  { apply sends_bcast_mem; [apply Hc|done]. }
  apply sends_silent. by intros c0.
Qed.

Lemma blocks_send s l : ∀ p a last k bytes,
  dseg (lnodes (p_heap s)) p a l last 0 → Forall block_ok l.*2 →
  Forall2 (block_bytes (mem (p_heap s))) l.*2 bytes →
  sends (foldM transfer_block a (seqZ k (Z.of_nat (length l)))) s
    (concat (zip_with block_messages l.*2 bytes)) 0 s.
Proof.
  induction l as [|[b c] l IH]; intros p a last k bytes Hs Hok Hb.
  - destruct Hs as [-> _]. csimpl in Hb. apply Forall2_nil_inv_l in Hb as ->.
    intros i o. cbn. by rewrite app_nil_r.
  - destruct Hs as (-> & _ & n & Hn & Hs). csimpl in *.
    apply Forall_cons in Hok as [Hc Hok]. apply Forall2_cons_inv_l in Hb as (x & bs & Hx & Hb & ->).
    rewrite seqZ_cons by lia. cbn [foldM zip_with concat].
    replace (Z.pred (Z.of_nat (S (length l)))) with (Z.of_nat (length l)) by lia.
    eapply sends_bind; [by eapply block_sends|]. by eapply IH.
Qed.
End heap_sender.

(** *** The receiver *)
Section heap_receiver.
Context `{!Allocator}.

(** A receiver that is given the messages of a block installs it. *)
Lemma block_receives r c bytes t i h' :
  block_ok c → length bytes = Z.to_nat (size c) → install c bytes (p_heap r) = Done tt h' →
  receives (transfer_block t i) r (block_messages c bytes) t (set_heap h' r).
Proof.
  intros Hc Hlen Hrun. assert (0 ≤ size c) as Hsz by apply Hc.
  apply bind_Done_inv in Hrun as (ptr & h1 & Hm & Hrun).
  apply bind_Done_inv in Hrun as ([] & h2 & Hp & Hrun).
  apply bind_Done_inv in Hrun as ([] & h3 & Hs & Hrun).
  apply bind_Done_inv in Hrun as (al & h4 & Hl & Hrun).
  assert (mem h1 = fresh_bytes ptr (Z.to_nat (size c)) (mem (p_heap r))) as Hm1
    by (unfold malloc in Hm; by injection Hm as <- <-).
  destruct (receives_bcast_mem ptr (size c) (set_heap h1 r) bytes Hsz Hlen) as (m1 & Hm1' & Hrun1).
  { cbn. rewrite Hm1. apply fresh_bytes_valid_self. }
  assert (h2 = set_mem m1 h1) as ->.
  { unfold put_bytes in Hp. cbn in Hp, Hm1'. rewrite Hm1' in Hp. by injection Hp as <-. }
  intros k rest o Hk. unfold transfer_block. cbn [bind gets].
  change (c_rank (p_chan (set_chan _ r))) with k.
  rewrite (proj2 (Z.eqb_neq _ _) Hk). cbn [bind ret]. revert k rest o Hk.
  change (receives (let! l := bcast (replicate 32 None) in
    let! (ca, la, sz) := of_option Undef (read_container l) in
    if (sz =? 0) && negb (la =? 0) then
      when (negb false) (let! v := on_heap (load64 la) in on_heap (store64 ca v)) ;;; ret t
    else
      let! heap_start := on_heap (malloc sz) in
      bcast_mem heap_start (wrap32s sz) ;;;
      when (negb false)
        (on_heap (store64 ca heap_start) ;;;
         let! allocated := on_heap (load64 ca) in
         on_heap (rep_append (MkContainer ca la allocated sz))) ;;;
      ret t) r (block_messages c bytes) t (set_heap h' r)).
  eapply (receives_bind _ _ _ [_] _ _ [_]).
  { apply receives_bcast. by rewrite length_container_cells. }
  eapply receives_silent_bind; [apply silent_option; by apply read_container_cells|].
  cbn match. rewrite owned_test by done.
  eapply (receives_silent_bind _ _ _ ptr (set_heap h1 r)); [by apply silent_on_heap|].
  rewrite size_int by done.
  eapply (receives_bind _ _ _ [_] _ _ []); [exact Hrun1|]. cbn [negb when].
  apply receives_silent.
  assert (silent (on_heap (store64 (container_address c) ptr)) (set_heap (set_mem m1 h1) r) tt
            (set_heap h3 r)) as S1 by by apply (silent_on_heap _ (set_heap (set_mem m1 h1) r)).
  assert (silent (on_heap (load64 (container_address c))) (set_heap h3 r) al (set_heap h4 r)) as S2
    by by apply (silent_on_heap _ (set_heap h3 r)).
  assert (silent (on_heap (rep_append (MkContainer (container_address c) (linked_address c) al (size c))))
            (set_heap h4 r) tt (set_heap h' r)) as S3 by by apply (silent_on_heap _ (set_heap h4 r)).
  intros ch. unfold when. erewrite bind_Done; [reflexivity|].
  erewrite bind_Done; [|exact (S1 ch)]. erewrite bind_Done; [|exact (S2 ch)]. exact (S3 ch).
Qed.

Definition messages (cbs : list (Malloc_container * list mbyte)) : list (list mbyte) :=
  concat ((λ d, block_messages d.1 d.2) <$> cbs).

Lemma blocks_receive t cbs : ∀ k r h',
  Forall (λ d, block_ok d.1 ∧ length d.2 = Z.to_nat (size d.1)) cbs →
  install_all cbs (p_heap r) = Done tt h' →
  receives (foldM transfer_block t (seqZ k (Z.of_nat (length cbs)))) r (messages cbs) t
    (set_heap h' r).
Proof.
  induction cbs as [|[c bytes] cbs IH]; intros k r h' Hok Hrun.
  - injection Hrun as <-. rewrite set_heap_id. intros k' rest o _. done.
  - apply Forall_cons in Hok as [[Hc Hlen] Hok].
    apply bind_Done_inv in Hrun as ([] & h1 & Hrun1 & Hrun).
    rewrite seqZ_cons by (csimpl; lia). cbn [foldM].
    replace (Z.pred (Z.of_nat (length ((c, bytes) :: cbs)))) with (Z.of_nat (length cbs)) by (csimpl; lia).
    change (messages ((c, bytes) :: cbs)) with (block_messages c bytes ++ messages cbs).
    eapply receives_bind; [by apply block_receives|].
    change (set_heap h' r) with (set_heap h' (set_heap h1 r)). by apply IH.
Qed.
End heap_receiver.

Section heap_loop.
Context `{!Allocator} `{!AllocatorLaws alloc}.
Context (statics : list (Z * Z)).

(** *** [transfer_heap_seg] *)
Definition heap_messages (total count : Z) (cbs : list (Malloc_container * list mbyte)) :=
  [cells 4 (Some total)] ++ [cells 4 (Some count)] ++ messages cbs.

Lemma heap_sends s ls bytes :
  heap_ok (p_heap s) ls → Z.of_nat (length ls) ≤ INT_MAX →
  Forall block_ok ls.*2 → Forall2 (block_bytes (mem (p_heap s))) ls.*2 bytes →
  sends transfer_heap_seg s
    (heap_messages (total_malloc_allocation_size (p_heap s)) (Z.of_nat (length ls))
       (zip ls.*2 bytes)) tt s.
Proof.
  intros Hok Hlen Hblk Hb. set (h := p_heap s) in *.
  assert (malloc_number_of_allocations h = Z.of_nat (length ls)) as Hcount by apply Hok.
  unfold transfer_heap_seg, heap_messages.
  eapply sends_silent_bind; [by apply (silent_gets (λ p, head (p_heap p)))|].
  intros i o. cbn [bind gets]. change (c_rank (p_chan (set_chan _ s))) with 0. revert i o.
  change (sends (bcast_total ;;;
    let! state := gets (λ p, mem_state (p_heap p)) in
    when (negb true) (match state with
                      | CONTIGUOUS => on_heap rep_clear
                      | DISCONTIGUOUS => on_heap rep_clear_discontiguous end) ;;;
    on_heap rep_display ;;; bcast_count ;;;
    let! n := gets (λ p, malloc_number_of_allocations (p_heap p)) in
    foldM transfer_block (head h) (seqZ 0 n) ;;; ret tt) s
    ([cells 4 (Some (total_malloc_allocation_size h))] ++ [cells 4 (Some (Z.of_nat (length ls)))] ++
     messages (zip ls.*2 bytes)) tt s).
  eapply (sends_bind _ _ _ [_] tt s).
  { unfold bcast_total.
    eapply sends_silent_bind; [by apply (silent_gets (λ p, total_malloc_allocation_size (p_heap p)))|].
    eapply (sends_bind _ _ _ [_] _ _ []); [apply sends_bcast_var|].
    apply sends_silent, silent_on_heap_same. cbn [modify].
    change (256 ^ Z.of_nat 4) with (2 ^ 32). rewrite (Z.mul_comm _ (2 ^ 32)).
    rewrite <-Z.div_mod by done. by destruct (p_heap s). }
  eapply sends_silent_bind; [by apply (silent_gets (λ p, mem_state (p_heap p)))|].
  eapply (sends_silent_bind _ _ _ tt s); [done|].
  eapply sends_silent_bind; [by apply silent_on_heap_same, rep_display_spec, Hok|].
  eapply (sends_bind _ _ _ [_] tt s).
  { unfold bcast_count.
    eapply sends_silent_bind; [by apply (silent_gets (λ p, malloc_number_of_allocations (p_heap p)))|].
    fold h. rewrite Hcount.
    eapply (sends_bind _ _ _ [_] _ _ []); [apply sends_bcast_var|].
    apply sends_silent, silent_on_heap_same. cbn [modify].
    rewrite int_message by (unfold INT_MIN; lia). fold h. rewrite <-Hcount. by destruct h. }
  eapply sends_silent_bind; [by apply (silent_gets (λ p, malloc_number_of_allocations (p_heap p)))|].
  fold h. rewrite Hcount.
  rewrite <-(app_nil_r (messages _)).
  eapply sends_bind; [|by apply sends_silent]. unfold messages.
  assert ((λ d : Malloc_container * list mbyte, block_messages d.1 d.2) <$> zip ls.*2 bytes
          = zip_with block_messages ls.*2 bytes) as ->.
  { clear. generalize ls.*2. intros l. revert bytes. induction l as [|x l IH]; intros [|y bytes]; try done.
    csimpl. by rewrite IH. }
  eapply blocks_send; [apply (list_seg _ _ (ok_list _ _ Hok))|done|done].
Qed.

(** The objects of the program survive the clearing of the old list. *)
Definition statics_survive (h : heap) (l : list (Z * Malloc_container)) : Prop :=
  ∀ b s, (b, s) ∈ statics → b ∉ l.*1 ∧ b ∉ allocated l ∧
    ∀ x, b ≤ x < b + s → ¬ freed l (blocks h) x.

Lemma clear_for_transfer h l v :
  heap_ok h l → NoDup (allocated l) → statics_ok statics h → statics_survive h l →
  ∃ h1, rep_clear_discontiguous (set_total v h) = Done tt h1 ∧ is_list h1 [] ∧
    blocks h1 = cleared l (blocks h) ∧ statics_ok statics h1 ∧ blocks_wf h1 ∧
    (∀ x, in_statics statics x → mem h1 !! x = mem h !! x).
Proof.
  intros Hok Hnd Hst Hsv.
  assert (clearable (set_total v h) 0 (head h) l (tail h)) as Hcl.
  { destruct (heap_ok_clearable _ _ Hok) as [H1 H2 H3 H4]. by split. }
  assert (length l ≤ walk_fuel h)%nat as Hf
    by apply Nat.lt_le_incl, list_length_fuel, (ok_list _ _ Hok).
  assert (∀ x, x ∈ allocated l → is_Some (blocks h !! x)) as Hlive.
  { intros x ([a c] & -> & Hin)%list_elem_of_fmap. by apply (ok_live _ _ Hok a c). }
  pose proof (clear_loop_spec _ _ _ _ _ _ Hf Hcl Hlive) as Hrun. rewrite decide_True in Hrun by done.
  destruct Hrun as (h' & Hrun & Hb & Hm).
  unfold rep_clear_discontiguous. cbn [bind gets].
  change (walk_fuel (set_total v h)) with (walk_fuel h). change (head (set_total v h)) with (head h).
  rewrite Hrun. eexists. split; [reflexivity|]. split; [by apply is_list_empty|].
  split; [exact Hb|]. split; [|split].
  - intros b s Hbs. destruct (Hst b s Hbs) as [Hb1 Hb2], (Hsv b s Hbs) as (N1 & N2 & N3).
    cbn. split.
    + rewrite Hb. cbn. rewrite cleared_lookup, decide_False by tauto. done.
    + intros i Hi. rewrite Hm; [by apply Hb2|]. apply N3.
      lia.
  - intros x s. cbn. rewrite Hb. cbn. rewrite cleared_lookup. case_match; [done|].
    apply (ok_blocks _ _ Hok).
  - intros x (b & s & Hbs & Hx). destruct (Hsv b s Hbs) as (_ & _ & N3). cbn. by apply Hm, N3.
Qed.

(** The receiver installs the messages over the state it cleared. *)
Lemma heap_receives_run r total count cbs h1 h' :
  let h := p_heap r in
  let v := total_malloc_allocation_size h / 2 ^ 32 * 2 ^ 32 + total mod 256 ^ Z.of_nat 4 in
  mem_state h = DISCONTIGUOUS → rep_clear_discontiguous (set_total v h) = Done tt h1 →
  is_list h1 [] → Forall (λ d, block_ok d.1 ∧ length d.2 = Z.to_nat (size d.1)) cbs →
  count = Z.of_nat (length cbs) → count ≤ INT_MAX →
  install_all cbs (set_count count h1) = Done tt h' →
  malloc_number_of_allocations h' = count →
  receives transfer_heap_seg r (heap_messages total count cbs) tt (set_heap h' r).
Proof.
  intros h v Hms Hclear Hl1 Hsend Hcount Hmax Hrun Hn. set (h2 := set_count count h1) in *.
  pose proof (blocks_receive (head h) cbs 0 (set_heap h2 r) h' Hsend Hrun) as Hblocks.
  unfold transfer_heap_seg, heap_messages.
  eapply receives_silent_bind; [by apply (silent_gets (λ p, head (p_heap p)))|].
  intros k rest o Hk. cbn [bind gets]. change (c_rank (p_chan (set_chan _ r))) with k.
  rewrite (proj2 (Z.eqb_neq _ _) Hk). revert k rest o Hk.
  change (receives (bcast_total ;;;
    let! state := gets (λ p, mem_state (p_heap p)) in
    when (negb false) (match state with
                       | CONTIGUOUS => on_heap rep_clear
                       | DISCONTIGUOUS => on_heap rep_clear_discontiguous end) ;;;
    on_heap rep_display ;;; bcast_count ;;;
    let! n := gets (λ p, malloc_number_of_allocations (p_heap p)) in
    foldM transfer_block (head h) (seqZ 0 n) ;;; ret tt) r
    ([cells 4 (Some total)] ++ [cells 4 (Some count)] ++ messages cbs) tt (set_heap h' r)).
  eapply (receives_bind _ _ _ [_] tt (set_heap (set_total v h) r)).
  { unfold bcast_total.
    eapply receives_silent_bind; [by apply (silent_gets (λ p, total_malloc_allocation_size (p_heap p)))|].
    eapply (receives_bind _ _ _ [_] _ _ []); [apply receives_bcast_var|].
    by apply receives_silent, silent_on_heap. }
  eapply receives_silent_bind; [by apply (silent_gets (λ p, mem_state (p_heap p)))|].
  change (mem_state (p_heap (set_heap (set_total v h) r))) with (mem_state h). rewrite Hms.
  eapply (receives_silent_bind _ _ _ tt (set_heap h1 r)).
  { by apply (silent_on_heap _ (set_heap (set_total v h) r)). }
  eapply receives_silent_bind; [by apply silent_on_heap_same, rep_display_spec|].
  eapply (receives_bind _ _ _ [_] tt (set_heap h2 r)).
  { unfold bcast_count.
    eapply receives_silent_bind; [by apply (silent_gets (λ p, malloc_number_of_allocations (p_heap p)))|].
    eapply (receives_bind _ _ _ [_] _ _ []); [apply receives_bcast_var|].
    rewrite int_message by (unfold INT_MIN; lia).
    by apply receives_silent, (silent_on_heap _ (set_heap h1 r)). }
  eapply receives_silent_bind; [by apply (silent_gets (λ p, malloc_number_of_allocations (p_heap p)))|].
  change (malloc_number_of_allocations (p_heap (set_heap h2 r))) with count. rewrite Hcount.
  rewrite <-(app_nil_r (messages _)).
  eapply receives_bind; [exact Hblocks|by apply receives_silent].
Qed.

Lemma heap_receives r lr total count cbs :
  heap_ok (p_heap r) lr → NoDup (allocated lr) → mem_state (p_heap r) = DISCONTIGUOUS →
  statics_ok statics (p_heap r) → statics_survive (p_heap r) lr →
  Forall (sendable statics) cbs → ForallOrdPairs apart cbs.*1 →
  count = Z.of_nat (length cbs) → count ≤ INT_MAX →
  fits (cleared lr (blocks (p_heap r))) cbs.*1 →
  ∃ h' l', receives transfer_heap_seg r (heap_messages total count cbs) tt (set_heap h' r) ∧
    is_list h' l' ∧ Forall2 same_container l'.*2 cbs.*1 ∧
    Forall (λ d, copied statics h' d.1 d.2) cbs ∧ malloc_number_of_allocations h' = count.
Proof.
  intros Hok Hnd Hms Hst Hsv Hsend Hap Hcount Hmax Hfit. set (h := p_heap r) in *.
  set (v := total_malloc_allocation_size h / 2 ^ 32 * 2 ^ 32 + total mod 256 ^ Z.of_nat 4).
  destruct (clear_for_transfer h lr v Hok Hnd Hst Hsv) as (h1 & Hclear & Hl1 & Hb1 & Hst1 & Hwf1 & _).
  destruct (install_all_spec statics cbs [] [] (set_count count h1) Hsend Hap (Forall_nil_2 _))
    as (h' & l' & Hrun & Hl' & Hsame & Hcop & _ & _ & Hn & _); [by apply (is_list_ext h1)|done|done| |].
  { cbn. by rewrite Hb1. }
  exists h', l'. split; [|by split_and!].
  eapply heap_receives_run; try done.
  eapply Forall_impl; [exact Hsend|]. by intros d (? & ? & _).
Qed.
End heap_loop.

(** ** Properties *)

(** [transfer_stack_seg].  The sender reads its registers, its stack from
    the stack pointer to four bytes above [stackHigherAddress], and ends
    unchanged but for [stackLowerAddress].  A receiver that is given its
    messages and whose stack begins at the same address has, when the call
    returns, the sender's registers, lower end and every byte of its stack,
    and no other byte changed; a receiver whose stack begins elsewhere aborts
    with 800. *)
Theorem transfer_stack_seg_correct guard s r lo size :
  word guard → p_transit s = NODE_DATA_SENDER → p_transit r = NODE_DATA_RECEIVER →
  jmp_ok (context r) →
  getRSP guard (context s) = lo → word lo →
  word (getPC guard (context s)) → word (getRBP guard (context s)) →
  size = stackHigherAddress s - lo + 4 → 0 ≤ size ≤ INT_MAX →
  valid_range (mem (p_heap s)) lo (Z.to_nat size) →
  valid_range (mem (p_heap r)) lo (Z.to_nat size) →
  word (stackHigherAddress s) → word (stackHigherAddress r) →
  ∃ ms s', sends (transfer_stack_seg guard) s ms tt s' ∧ p_heap s' = p_heap s ∧
    if decide (stackHigherAddress r = stackHigherAddress s) then
      ∃ r', receives (transfer_stack_seg guard) r ms tt r' ∧
        getPC guard (context r') = getPC guard (context s) ∧
        getRSP guard (context r') = lo ∧
        getRBP guard (context r') = getRBP guard (context s) ∧
        stackLowerAddress r' = lo ∧
        (∀ x, lo ≤ x < lo + size → mem (p_heap r') !! x = mem (p_heap s) !! x) ∧
        (∀ x, ¬ (lo ≤ x < lo + size) → mem (p_heap r') !! x = mem (p_heap r) !! x)
    else receiver_stops (transfer_stack_seg guard) r ms (Aborted 800).
Proof.
  intros Hg Hts Htr Hjr Hlo Hwlo Hwpc Hwbp Hsize Hrange Hvs Hvr Hws Hwr.
  destruct (load_bytes_Some _ _ _ Hvs) as [bytes Hb].
  pose proof (stack_sends guard s lo size bytes Hts Hlo Hsize Hrange Hwlo Hwpc Hwbp Hb) as Hsend.
  assert (INT_MIN ≤ size ≤ INT_MAX) as Hint by (unfold INT_MIN; lia).
  destruct (stack_receives guard r (getPC guard (context s)) lo (getRBP guard (context s)) size bytes
    Htr Hint Hwlo Hwpc Hwbp) as [Hsame Hdiff].
  eexists _, _. split; [exact Hsend|]. split; [done|].
  destruct (decide (stackHigherAddress r = stackHigherAddress s)) as [E|E].
  - destruct Hsame as (m' & Hm' & Hrecv).
    { unfold adopted. cbn. rewrite E, <-(wrap64_small lo) by exact Hwlo. f_equal. lia. }
    { lia. }
    { by apply load_bytes_length in Hb. }
    { done. }
    eexists. split; [exact Hrecv|].
    destruct (stack_registers guard (context r) (getPC guard (context s)) lo
      (getRBP guard (context s)) Hg Hjr Hwpc Hwlo Hwbp) as (R1 & R2 & R3).
    split; [exact R1|]. split; [exact R2|]. split; [exact R3|]. split.
    { unfold adopted. cbn. rewrite E, <-(wrap64_small lo) by exact Hwlo. f_equal. lia. }
    destruct (store_bytes_lookup _ _ _ _ Hm') as (H1 & H2 & _).
    pose proof (load_bytes_length _ _ _ _ Hb) as Hlen. split; intros x Hx; cbn.
    + replace x with (lo + (x - lo)) by lia. rewrite H1 by lia.
      by rewrite (load_bytes_inv _ _ _ _ _ Hb) by lia.
    + apply H2. lia.
  - apply Hdiff. unfold adopted. cbn. intros Hw. apply E.
    unfold wrap64, word in *. rewrite Hsize in Hw.
    assert (∃ k, stackHigherAddress r - stackHigherAddress s = 2 ^ 64 * k) as [k Hk].
    { exists ((stackHigherAddress r - (stackHigherAddress s - lo + 4 - 4)) / 2 ^ 64).
      pose proof (Z.div_mod (stackHigherAddress r - (stackHigherAddress s - lo + 4 - 4)) (2 ^ 64)
        ltac:(lia)). lia. }
    lia.
Qed.

(** C27: [transfer_heap_seg] between a sender whose list is consistent (as long as
    its counter says: no [rep_free] before) and owns
    its blocks (no container shares one), and a receiver whose old list is
    consistent and has no shared block.  The sender is unchanged.  The receiver frees its old list and
    returns with one container for each of the sender's, in the order of the
    sender's list and with the same variable, link and size; each variable points to
    a live block of that size that holds the sender's bytes; and the counter
    is that of the sender. *)
Theorem transfer_heap_seg_correct `{!Allocator} `{!AllocatorLaws alloc} statics s r ls lr bytes :
  heap_ok (p_heap s) ls → Z.of_nat (length ls) ≤ INT_MAX → Forall block_ok ls.*2 →
  Forall2 (block_bytes (mem (p_heap s))) ls.*2 bytes →
  heap_ok (p_heap r) lr → NoDup (allocated lr) → mem_state (p_heap r) = DISCONTIGUOUS →
  statics_ok statics (p_heap r) → statics_survive statics (p_heap r) lr →
  Forall (in_static statics) ls.*2 → ForallOrdPairs apart ls.*2 →
  fits (cleared lr (blocks (p_heap r))) ls.*2 →
  ∃ ms h' l', sends transfer_heap_seg s ms tt s ∧
    receives transfer_heap_seg r ms tt (set_heap h' r) ∧
    is_list h' l' ∧ Forall2 same_container l'.*2 ls.*2 ∧
    Forall2 (copied statics h') ls.*2 bytes ∧
    malloc_number_of_allocations h' = malloc_number_of_allocations (p_heap s).
Proof.
  intros Hok Hlen Hblk Hb Hokr Hnd Hms Hst Hsv Hin Hap Hfit.
  pose proof (Forall2_length _ _ _ Hb) as Hlb. rewrite length_fmap in Hlb.
  assert ((zip ls.*2 bytes).*1 = ls.*2) as Hzip by (apply fst_zip; rewrite length_fmap; lia).
  assert (length (zip ls.*2 bytes) = length ls) as Hzl
    by (rewrite length_zip_with, length_fmap; lia).
  destruct (heap_receives statics r lr (total_malloc_allocation_size (p_heap s))
    (Z.of_nat (length ls)) (zip ls.*2 bytes)) as (h' & l' & Hrecv & Hl' & Hsame & Hcop & Hn); try done.
  - by eapply blocks_sendable.
  - by rewrite Hzip.
  - by rewrite Hzl.
  - by rewrite Hzip.
  - exists (heap_messages (total_malloc_allocation_size (p_heap s)) (Z.of_nat (length ls))
      (zip ls.*2 bytes)), h', l'.
    split; [by apply heap_sends|]. split; [done|]. split; [done|].
    split; [by rewrite Hzip in Hsame|]. split.
    + apply Forall2_same_length_lookup_2; [rewrite length_fmap; lia|].
      intros i c b Hc Hb'. rewrite Forall_lookup in Hcop.
      apply (Hcop i (c, b)). apply lookup_zip_with_Some. by exists c, b.
    + rewrite Hn. symmetry. apply Hok.
Qed.

(** [transfer_data_seg]: afterwards the bytes of the two data segments of
    the receiver are those of the sender, and nothing else changed. *)
Theorem transfer_data_seg_correct s r d e b f :
  0 ≤ e - d ≤ INT_MAX → 0 ≤ f - b ≤ INT_MAX → e ≤ b ∨ f ≤ d →
  valid_range (mem (p_heap s)) d (Z.to_nat (e - d)) →
  valid_range (mem (p_heap s)) b (Z.to_nat (f - b)) →
  valid_range (mem (p_heap r)) d (Z.to_nat (e - d)) →
  valid_range (mem (p_heap r)) b (Z.to_nat (f - b)) →
  ∃ ms m', sends (transfer_data_seg d e b f) s ms tt s ∧
    receives (transfer_data_seg d e b f) r ms tt (set_heap (set_mem m' (p_heap r)) r) ∧
    (∀ x, d ≤ x < e ∨ b ≤ x < f → m' !! x = mem (p_heap s) !! x) ∧
    (∀ x, ¬ (d ≤ x < e ∨ b ≤ x < f) → m' !! x = mem (p_heap r) !! x).
Proof.
  intros Hd Hb Hdis Vs1 Vs2 Vr1 Vr2.
  destruct (load_bytes_Some _ _ _ Vs1) as [l1 L1], (load_bytes_Some _ _ _ Vs2) as [l2 L2].
  pose proof (load_bytes_length _ _ _ _ L1) as N1. pose proof (load_bytes_length _ _ _ _ L2) as N2.
  destruct (store_bytes_Some (mem (p_heap r)) d l1) as [m1 S1]; [by rewrite N1|].
  destruct (store_bytes_lookup _ _ _ _ S1) as (_ & A2 & A3).
  destruct (store_bytes_Some m1 b l2) as [m2 S2]; [rewrite N2; intros i Hi; by apply A3, Vr2|].
  destruct (store_bytes_lookup _ _ _ _ S2) as (_ & B2 & _).
  exists [l1; l2], m2. split; [by apply data_sends|].
  split; [by eapply (data_receives d e b f Hd Hb r l1 l2 m1 m2)|]. split.
  - intros x Hx. destruct (decide (b ≤ x < f)) as [Hxb|Hxb].
    + rewrite (store_loaded _ _ _ _ _ _ _ x L2 S2) by lia. f_equal. lia.
    + rewrite B2 by lia. rewrite (store_loaded _ _ _ _ _ _ _ x L1 S1) by lia. f_equal. lia.
  - intros x Hx. rewrite B2 by lia. apply A2. lia.
Qed.

(** ** Concrete members *)
Definition member (k : Z) (msgs : list (list mbyte)) (h : heap) : proc :=
  MkProc (if k =? 0 then NODE_DATA_SENDER else NODE_DATA_RECEIVER) h
    (setRBP 12345 (setRSP 12345 (setPC 12345 context_ex 4198400) 1000) 1016) 1020 0 0 0
    (MkChan k msgs []).

(** The replica loses the aliases.  The sender's list has a block and a
    second container that shares it.  The replica copies the pointer but
    appends no element for the second container, while its counter says two;
    when this replica is the sender of a later transfer, the loop runs past the
    end of its list. *)
Theorem replica_loses_alias : ∃ s r,
  @transfer_heap_seg bump (member 0 [] heap_alias) = Done tt s ∧
  @transfer_heap_seg bump (member 1 (outbox (p_chan s)) heap_init) = Done tt r ∧
  load_word 8 (mem (p_heap r)) 108 = load_word 8 (mem (p_heap r)) 100 ∧
  rep_display (p_heap r) = Done [MkContainer 100 0 4096 16] (p_heap r) ∧
  malloc_number_of_allocations (p_heap r) = 2 ∧
  ∃ p, @transfer_heap_seg bump (member 0 [] (p_heap r)) = Stop Undef p.
Proof.
  do 2 eexists. split; [vm_compute; reflexivity|]. split; [vm_compute; reflexivity|].
  split; [vm_compute; reflexivity|]. split; [vm_compute; reflexivity|].
  split; [vm_compute; reflexivity|]. eexists. vm_compute. reflexivity.
Qed.

(** A heap whose data segment holds the three variables. *)
Definition heap_static : heap :=
  MkHeap (fresh_bytes 100 24 ∅) {[ 100 := 24 ]} ∅ 0 0 0 0 DISCONTIGUOUS.

Lemma valid_fresh a n m : valid_range (fresh_bytes a n m) a n.
Proof. apply fresh_bytes_valid_self. Qed.

Definition stack_mem (k : Z) : proc :=
  set_heap (MkHeap (fresh_bytes 1000 24 ∅) ∅ ∅ 0 0 0 0 DISCONTIGUOUS) (member k [] heap_init).

Lemma transfer_stack_seg_correct_witness : ∃ ms r',
  receives (transfer_stack_seg 12345) (stack_mem 1) ms tt r' ∧ stackLowerAddress r' = 1000.
Proof.
  destruct (transfer_stack_seg_correct 12345 (stack_mem 0) (stack_mem 1) 1000 24)
    as (ms & s' & _ & _ & r' & H1 & _ & _ & _ & H2 & _);
    try reflexivity; try (unfold word; split; vm_compute; congruence).
  - apply (valid_fresh 1000 24).
  - apply (valid_fresh 1000 24).
  - exists ms, r'. split; [exact H1|exact H2].
Defined.

Lemma transfer_data_seg_correct_witness : ∃ ms m',
  receives (transfer_data_seg 1000 1010 1012 1020) (stack_mem 1) ms tt
    (set_heap (set_mem m' (p_heap (stack_mem 1))) (stack_mem 1)) ∧
  m' !! 1015 = mem (p_heap (stack_mem 0)) !! 1015.
Proof.
  assert (∀ k d n, 1000 ≤ d → d + Z.of_nat n ≤ 1024 →
    valid_range (mem (p_heap (stack_mem k))) d n) as Hv.
  { intros k d n Hd Hn i Hi. replace (d + i) with (1000 + (d + i - 1000)) by lia.
    apply (valid_fresh 1000 24). lia. }
  destruct (transfer_data_seg_correct (stack_mem 0) (stack_mem 1) 1000 1010 1012 1020)
    as (ms & m' & _ & H1 & H2 & _); try (unfold INT_MAX; lia); try (apply Hv; lia).
  exists ms, m'. split; [exact H1|]. apply H2. lia.
Defined.

Lemma transfer_heap_seg_correct_witness : ∃ ms h' l',
  @sends unit (@transfer_heap_seg bump) (member 0 [] heap_ex) ms tt (member 0 [] heap_ex) ∧
  receives (@transfer_heap_seg bump) (member 1 [] heap_static) ms tt
    (set_heap h' (member 1 [] heap_static)) ∧
  is_list h' l' ∧ Forall2 same_container l'.*2 list_ex.*2.
Proof.
  destruct (@transfer_heap_seg_correct bump bump_laws [(100, 24)] (member 0 [] heap_ex)
    (member 1 [] heap_static) list_ex [] [replicate 16 None; replicate 8 None; replicate 32 None])
    as (ms & h' & l' & H1 & H2 & H3 & H4 & _).
  - apply heap_okb_sound, heap_ex_ok.
  - vm_compute. congruence.
  - repeat constructor; simpl; unfold word, INT_MAX; lia.
  - repeat constructor; (eexists; split; vm_compute; reflexivity).
  - apply heap_okb_sound. vm_compute. reflexivity.
  - constructor.
  - reflexivity.
  - intros b s [= -> ->]%list_elem_of_singleton. split; [reflexivity|]. apply (valid_fresh 100 24).
  - intros b s _. split; [csimpl; set_solver|]. split; [csimpl; set_solver|].
    intros x _ Hf. by apply Exists_nil in Hf.
  - repeat constructor; exists 100, 24; (split; [set_solver|simpl; lia]).
  - repeat constructor; unfold apart; simpl; lia.
  - vm_compute. repeat split.
  - exists ms, h', l'. split; [exact H1|]. split; [exact H2|]. split; [exact H3|exact H4].
Defined.
