(* ===== verification/Image.v ===== *)
(** * The image of a process

    What a replica gets by messages, a restarted process gets from a file: the
    two data segments, the registers and the stack, the allocations and the two
    flags.  This file says which processes have such an image ([savable]),
    which can take it ([target]), and when a process is the one that was
    copied again ([restored]); [Replica] and [Checkpoint] show that their
    operations lead there. *)

From S2P Require Import Prelude Shared Memory HeapSeg Context Install Transfer.

Record image : Type := MkImage {
  im_data : list mbyte;
  im_bss : list mbyte;
  im_pc : Z; im_sp : Z; im_bp : Z;
  im_stack : list mbyte;
  im_blocks : list (Malloc_container * list mbyte);
  im_sender : Z; im_receiver : Z
}.

Section image.
Context (guard d e b f : Z).

(** The bytes of the stack of [s], from its stack pointer to four bytes above
    [stackHigherAddress]. *)
Definition stack_bytes (s : proc) : Z :=
  stackHigherAddress s - getRSP guard (context s) + 4.

(** The image is that of the process [s], with the list [ls]. *)
Record image_of (s : proc) (ls : list (Z * Malloc_container)) (i : image) : Prop := {
  io_data : load_bytes (mem (p_heap s)) d (Z.to_nat (e - d)) = Some (im_data i);
  io_bss : load_bytes (mem (p_heap s)) b (Z.to_nat (f - b)) = Some (im_bss i);
  io_pc : im_pc i = getPC guard (context s);
  io_sp : im_sp i = getRSP guard (context s);
  io_bp : im_bp i = getRBP guard (context s);
  io_stack : load_bytes (mem (p_heap s)) (im_sp i) (Z.to_nat (stack_bytes s)) = Some (im_stack i);
  io_blocks : im_blocks i = zip ls.*2 (im_blocks i).*2;
  io_bytes : Forall2 (block_bytes (mem (p_heap s))) ls.*2 (im_blocks i).*2;
  io_sender : im_sender i = pass_sender_cont_add s;
  io_receiver : im_receiver i = pass_receiver_cont_add s
}.

(** What the process that is copied needs: its segments, its stack and its
    blocks are in its memory, and its registers are machine words. *)
Record savable (s : proc) (ls : list (Z * Malloc_container)) : Prop := {
  sv_heap : heap_ok (p_heap s) ls;
  sv_length : Z.of_nat (length ls) ≤ INT_MAX;
  sv_owned : Forall block_ok ls.*2;
  sv_blocks : Forall (λ c, ∃ ptr, load_word 8 (mem (p_heap s)) (container_address c) = Some ptr ∧
                valid_range (mem (p_heap s)) ptr (Z.to_nat (size c))) ls.*2;
  sv_data : 0 ≤ e - d < 2 ^ 64 ∧ valid_range (mem (p_heap s)) d (Z.to_nat (e - d));
  sv_bss : 0 ≤ f - b < 2 ^ 64 ∧ valid_range (mem (p_heap s)) b (Z.to_nat (f - b));
  sv_stack : 0 ≤ stack_bytes s ≤ INT_MAX ∧
    valid_range (mem (p_heap s)) (getRSP guard (context s)) (Z.to_nat (stack_bytes s));
  sv_words : word (getPC guard (context s)) ∧ word (getRSP guard (context s)) ∧
    word (getRBP guard (context s));
  sv_sender : INT_MIN ≤ pass_sender_cont_add s ≤ INT_MAX;
  sv_receiver : INT_MIN ≤ pass_receiver_cont_add s ≤ INT_MAX
}.

Lemma savable_image s ls : savable s ls → ∃ i, image_of s ls i.
Proof.
  intros [_ _ _ Hb [_ Hd] [_ Hbs] [_ Hst] _ _ _].
  destruct (load_bytes_Some _ _ _ Hd) as [l1 L1], (load_bytes_Some _ _ _ Hbs) as [l2 L2],
    (load_bytes_Some _ _ _ Hst) as [l3 L3].
  assert (∃ bytes, Forall2 (block_bytes (mem (p_heap s))) ls.*2 bytes) as [bytes Hbytes].
  { induction Hb as [|c cs (ptr & Hp & Hv) _ [bytes IH]]; [by exists []|].
    destruct (load_bytes_Some _ _ _ Hv) as [l L]. exists (l :: bytes). constructor; [|done].
    by exists ptr. }
  assert ((zip ls.*2 bytes).*2 = bytes) as Hz by (apply snd_zip; by rewrite (Forall2_length _ _ _ Hbytes)).
  by eexists (MkImage l1 l2 _ _ _ l3 (zip ls.*2 bytes) _ _); split; cbn; rewrite ?Hz.
Qed.

(** ** Taking an image

    [lo] is where the stack of the process begins; the allocator knows the
    segments and the stack. *)
Definition program (lo n : Z) : list (Z * Z) := [(d, e - d); (b, f - b); (lo, n)].

(** The process [r] has room for the segments, a stack of [n] bytes and the
    variables of the containers [cs]. *)
Record target (r : proc) (lo n : Z) (cs : list Malloc_container) : Prop := {
  tg_jmp : jmp_ok (context r);
  tg_word : word lo;
  tg_program : statics_ok (program lo n) (p_heap r);
  tg_in : Forall (in_static (program lo n)) cs;
  tg_apart : ForallOrdPairs apart cs;
  tg_stack : (e ≤ lo ∨ lo + n ≤ d) ∧ (f ≤ lo ∨ lo + n ≤ b)
}.

(** The process that was copied again: the registers, what was added to its
    list [l], and its memory against that of [s]. *)
Record restored (s : proc) (ls : list (Z * Malloc_container)) (lo : Z)
    (l : list (Z * Malloc_container)) (r' : proc) : Prop := {
  re_pc : getPC guard (context r') = getPC guard (context s);
  re_sp : getRSP guard (context r') = lo;
  re_bp : getRBP guard (context r') =
    wrap64 (getRBP guard (context s) + (lo - getRSP guard (context s)));
  re_lower : stackLowerAddress r' = lo;
  re_sender : pass_sender_cont_add r' = pass_sender_cont_add s;
  re_receiver : pass_receiver_cont_add r' = pass_receiver_cont_add s;
  re_list : ∃ l', is_list (p_heap r') (l ++ l') ∧ Forall2 same_container l'.*2 ls.*2;
  re_count : malloc_number_of_allocations (p_heap r') = malloc_number_of_allocations (p_heap s);
  re_copied : Forall (λ c, ∃ x, copied (program lo (stack_bytes s)) (p_heap r') c x ∧
                       block_bytes (mem (p_heap s)) c x) ls.*2;
  re_data x : d ≤ x < e ∨ b ≤ x < f → outside ls.*2 x →
    mem (p_heap r') !! x = mem (p_heap s) !! x;
  re_stack k : 0 ≤ k < stack_bytes s → outside ls.*2 (lo + k) →
    mem (p_heap r') !! (lo + k) = mem (p_heap s) !! (getRSP guard (context s) + k)
}.

Section copy.
Context `{!Allocator} `{!AllocatorLaws alloc}.
Context (s : proc) (ls : list (Z * Malloc_container)) (i : image) (lo : Z).
Context (Hs : savable s ls) (Hi : image_of s ls i).

Lemma stack_length : Z.of_nat (length (im_stack i)) = stack_bytes s.
Proof.
  destruct (sv_stack _ _ Hs) as [Hz _]. rewrite (load_bytes_length _ _ _ _ (io_stack _ _ _ Hi)). lia.
Qed.
Lemma data_length : length (im_data i) = Z.to_nat (e - d) ∧ length (im_bss i) = Z.to_nat (f - b).
Proof.
  split; [apply (load_bytes_length _ _ _ _ (io_data _ _ _ Hi))|].
  apply (load_bytes_length _ _ _ _ (io_bss _ _ _ Hi)).
Qed.
Lemma blocks_length : (im_blocks i).*1 = ls.*2 ∧ length (im_blocks i) = length ls.
Proof.
  pose proof (Forall2_length _ _ _ (io_bytes _ _ _ Hi)) as Hl.
  assert ((im_blocks i).*1 = ls.*2) as H1 by (rewrite (io_blocks _ _ _ Hi); apply fst_zip; lia).
  split; [done|]. by rewrite <-(length_fmap fst), H1, length_fmap.
Qed.

(** The blocks of an image of a savable process can be installed. *)
Lemma image_sendable r :
  target r lo (stack_bytes s) ls.*2 → Forall (sendable (program lo (stack_bytes s))) (im_blocks i).
Proof.
  intros Hr. rewrite (io_blocks _ _ _ Hi).
  eapply blocks_sendable; [apply Hs|apply Hi|apply Hr].
Qed.

(** The memory after the segments and the stack were stored. *)
Lemma segments_stored r :
  target r lo (stack_bytes s) ls.*2 →
  ∃ m1 m2 m3, store_bytes (mem (p_heap r)) d (im_data i) = Some m1 ∧
    store_bytes m1 b (im_bss i) = Some m2 ∧ store_bytes m2 lo (im_stack i) = Some m3 ∧
    (∀ x, d ≤ x < e ∨ b ≤ x < f → m3 !! x = mem (p_heap s) !! x) ∧
    (∀ k, 0 ≤ k < stack_bytes s → m3 !! (lo + k) = mem (p_heap s) !! (im_sp i + k)) ∧
    (∀ x, is_Some (m3 !! x) ↔ is_Some (mem (p_heap r) !! x)).
Proof.
  intros Hr. destruct (sv_data _ _ Hs) as [Hd _], (sv_bss _ _ Hs) as [Hb _], data_length as [N1 N2].
  pose proof stack_length as N3.
  assert (∀ x n, (x, n) ∈ program lo (stack_bytes s) → valid_range (mem (p_heap r)) x (Z.to_nat n)) as Hv
    by (intros x n Hin; by apply (tg_program _ _ _ _ Hr)).
  destruct (store_bytes_Some (mem (p_heap r)) d (im_data i)) as [m1 H1].
  { rewrite N1. apply (Hv d (e - d)). left. }
  destruct (store_bytes_lookup _ _ _ _ H1) as (_ & A2 & A3).
  destruct (store_bytes_Some m1 b (im_bss i)) as [m2 H2].
  { rewrite N2. intros k Hk. apply A3, (Hv b (f - b)); [right; left|done]. }
  destruct (store_bytes_lookup _ _ _ _ H2) as (_ & B2 & B3).
  destruct (store_bytes_Some m2 lo (im_stack i)) as [m3 H3].
  { intros k Hk. apply B3, A3. apply (Hv lo (stack_bytes s)); [right; right; left|lia]. }
  destruct (store_bytes_lookup _ _ _ _ H3) as (_ & C2 & C3). destruct (tg_stack _ _ _ _ Hr) as [D1 D2].
  exists m1, m2, m3. split; [done|]. split; [done|]. split; [done|]. split; [|split].
  - intros x Hx. rewrite C2 by lia. destruct (decide (b ≤ x < f)) as [Hxb|Hxb].
    + rewrite (store_loaded _ _ _ _ _ _ _ x (io_bss _ _ _ Hi) H2) by lia. f_equal. lia.
    + rewrite B2, (store_loaded _ _ _ _ _ _ _ x (io_data _ _ _ Hi) H1) by lia. f_equal. lia.
  - intros k Hk. rewrite (store_loaded _ _ _ _ _ _ _ (lo + k) (io_stack _ _ _ Hi) H3) by lia.
    f_equal. lia.
  - intros x. by rewrite C3, B3, A3.
Qed.

(** The allocations installed in a heap [h] that has the program's objects. *)
Lemma restored_heap r l h :
  target r lo (stack_bytes s) ls.*2 → statics_ok (program lo (stack_bytes s)) h →
  is_list h l → blocks_wf h → fits (blocks h) ls.*2 →
  let n := Z.of_nat (length (im_blocks i)) in
  ∃ h' l', install_all (im_blocks i) (set_count n h) = Done tt h' ∧ is_list h' (l ++ l') ∧
    Forall2 same_container l'.*2 ls.*2 ∧ malloc_number_of_allocations h' = n ∧
    Forall (λ c, ∃ x, copied (program lo (stack_bytes s)) h' c x ∧
              block_bytes (mem (p_heap s)) c x) ls.*2 ∧
    (∀ x, in_statics (program lo (stack_bytes s)) x → outside ls.*2 x → mem h' !! x = mem h !! x).
Proof.
  intros Hr Hst Hl Hwf Hfit n. destruct blocks_length as [H1 _].
  destruct (install_all_spec (program lo (stack_bytes s)) (im_blocks i) l [] (set_count n h)
    (image_sendable r Hr)) as (h' & l' & Hrun & Hl' & Hsame & Hcop & _ & _ & Hn & Hx);
    [rewrite H1; apply Hr|constructor|by apply (is_list_ext h)|done|done|by rewrite H1|].
  exists h', l'. rewrite H1 in *. split_and!; try done.
  apply Forall_lookup. intros k c Hc. pose proof (io_bytes _ _ _ Hi) as Hb.
  destruct (Forall2_lookup_l _ _ _ _ _ Hb Hc) as (x & Hk & Hbx). exists x. split; [|done].
  apply (Forall_lookup_1 _ _ k (c, x) Hcop). rewrite (io_blocks _ _ _ Hi).
  apply lookup_zip_with_Some. by exists c, x.
Qed.

(** The process that has the registers, the flags and this heap is restored. *)
Lemma restored_intro r r' l l' (m3 : memory) :
  let p := program lo (stack_bytes s) in
  getPC guard (context r') = im_pc i → getRSP guard (context r') = lo →
  getRBP guard (context r') = wrap64 (im_bp i + (lo - im_sp i)) → stackLowerAddress r' = lo →
  pass_sender_cont_add r' = im_sender i → pass_receiver_cont_add r' = im_receiver i →
  target r lo (stack_bytes s) ls.*2 →
  (∀ x, d ≤ x < e ∨ b ≤ x < f → m3 !! x = mem (p_heap s) !! x) →
  (∀ k, 0 ≤ k < stack_bytes s → m3 !! (lo + k) = mem (p_heap s) !! (im_sp i + k)) →
  is_list (p_heap r') (l ++ l') → Forall2 same_container l'.*2 ls.*2 →
  malloc_number_of_allocations (p_heap r') = Z.of_nat (length (im_blocks i)) →
  Forall (λ c, ∃ x, copied p (p_heap r') c x ∧ block_bytes (mem (p_heap s)) c x) ls.*2 →
  (∀ x, in_statics p x → outside ls.*2 x → mem (p_heap r') !! x = m3 !! x) →
  restored s ls lo l r'.
Proof.
  intros p R1 R2 R3 R4 R5 R6 Hr Hdata Hstack Hl' Hsame Hn Hcop Hx.
  split; [| |by rewrite R3, (io_bp _ _ _ Hi), (io_sp _ _ _ Hi)|done| | |by exists l'| |done| |].
  - rewrite R1. apply Hi.
  - exact R2.
  - rewrite R5. apply Hi.
  - rewrite R6. apply Hi.
  - rewrite Hn, (proj2 blocks_length). symmetry. apply (ok_count _ _ (sv_heap _ _ Hs)).
  - intros x Hxx Ho. rewrite Hx; [by apply Hdata| |done].
    destruct Hxx; [exists d, (e - d)|exists b, (f - b)]; (split; [|lia]); [left|right; left].
  - intros k Hk Ho. rewrite <-(io_sp _ _ _ Hi). rewrite Hx; [by apply Hstack| |done].
    exists lo, (stack_bytes s). split; [right; right; left|lia].
Qed.
End copy.
End image.

(** ** A concrete process

    The data segment has three variables at 100, the other one eight bytes at
    124, and the stack 24 bytes at 1000. *)
Definition heap_prog : heap :=
  MkHeap (fresh_bytes 100 32 (fresh_bytes 1000 24 ∅)) {[ 100 := 24; 124 := 8; 1000 := 24 ]} ∅
    0 0 0 0 DISCONTIGUOUS.
Definition proc_of (t : NodeTransitState) (h : heap) : proc :=
  MkProc t h (setRBP 12345 (setRSP 12345 (setPC 12345 context_ex 4198400) 1000) 1016) 1020 0 1 0
    (MkChan 0 [] []).

Definition heap_saved_ex : heap := after (@rep_malloc bump 100 16 ;;; @rep_malloc bump 108 8) heap_prog.
Definition list_saved_ex : list (Z * Malloc_container) :=
  [(4112, MkContainer 100 0 4096 16); (4168, MkContainer 108 0 4160 8)].

Lemma savable_ex t : savable 12345 100 124 124 132 (proc_of t heap_saved_ex) list_saved_ex.
Proof.
  split.
  - apply heap_okb_sound. vm_compute. reflexivity.
  - vm_compute. congruence.
  - repeat constructor; simpl; unfold word, INT_MAX; lia.
  - repeat constructor; eexists; (split; [vm_compute; reflexivity|]);
      apply valid_rangeb_sound; vm_compute; reflexivity.
  - split; [lia|]. apply valid_rangeb_sound. vm_compute. reflexivity.
  - split; [lia|]. apply valid_rangeb_sound. vm_compute. reflexivity.
  - split; [vm_compute; split; congruence|]. apply valid_rangeb_sound. vm_compute. reflexivity.
  - split; [|split]; vm_compute; split; congruence.
  - vm_compute. split; congruence.
  - vm_compute. split; congruence.
Qed.

Lemma program_ex : statics_ok [(100, 24); (124, 8); (1000, 24)] heap_prog.
Proof.
  intros x n Hx. repeat (apply elem_of_cons in Hx as [[= -> ->]|Hx];
    [split; [vm_compute; reflexivity|apply valid_rangeb_sound; vm_compute; reflexivity]|]).
  by apply elem_of_nil in Hx.
Qed.

Lemma heap_prog_empty : is_list heap_prog [].
Proof. apply is_list_empty. split; reflexivity. Qed.

Lemma heap_prog_wf : blocks_wf heap_prog.
Proof.
  apply (bool_decide_eq_true (map_Forall (λ _ s, 0 ≤ s) (blocks heap_prog))). vm_compute. reflexivity.
Qed.

Lemma target_ex t : target 100 124 124 132 (proc_of t heap_prog) 1000 24 list_saved_ex.*2.
Proof.
  split.
  - reflexivity.
  - split; [lia|reflexivity].
  - exact program_ex.
  - repeat constructor; exists 100, 24; (split; [left|simpl; lia]).
  - repeat constructor; unfold apart; simpl; lia.
  - split; left; lia.
Qed.
