(* ===== verification/Replica.v ===== *)
(** * The whole replica: [init_rep] of [src/replication/rep.c]

    The four transfers in a row make the receiver a copy of the sender: its
    program counter and stack registers, its stack, its data segments, its
    allocations and its flags. *)

From S2P Require Import Prelude Shared Memory HeapSeg Context Install Transfer Image.

(** ** The flags *)
Definition framework_messages (s : proc) : list (list mbyte) :=
  [cells 4 (Some (pass_sender_cont_add s)); cells 4 (Some (pass_receiver_cont_add s))].

Section flags.
Context (s : proc) (Hx : INT_MIN ≤ pass_sender_cont_add s ≤ INT_MAX).
Context (Hy : INT_MIN ≤ pass_receiver_cont_add s ≤ INT_MAX).

Lemma framework_sends : sends transfer_framework_data s (framework_messages s) tt s.
Proof.
  unfold transfer_framework_data, framework_messages.
  eapply sends_silent_bind; [by apply (silent_gets pass_sender_cont_add)|].
  eapply (sends_bind _ _ _ [_]); [apply sends_bcast_var|]. rewrite int_message by done.
  eapply (sends_silent_bind _ _ _ tt s); [intros c; by destruct s|].
  eapply sends_silent_bind; [by apply (silent_gets pass_receiver_cont_add)|].
  eapply (sends_bind _ _ _ [_] _ _ []); [apply sends_bcast_var|]. rewrite int_message by done.
  apply sends_silent. intros c. by destruct s.
Qed.

Lemma framework_receives r :
  receives transfer_framework_data r (framework_messages s) tt
    (set_pass_receiver (pass_receiver_cont_add s) (set_pass_sender (pass_sender_cont_add s) r)).
Proof.
  unfold transfer_framework_data, framework_messages.
  eapply receives_silent_bind; [by apply (silent_gets pass_sender_cont_add)|].
  eapply (receives_bind _ _ _ [_]); [apply receives_bcast_var|]. rewrite int_message by done.
  eapply receives_silent_bind; [by apply silent_modify|].
  eapply receives_silent_bind; [by apply (silent_gets pass_receiver_cont_add)|].
  eapply (receives_bind _ _ _ [_] _ _ []); [apply receives_bcast_var|]. rewrite int_message by done.
  by apply receives_silent, silent_modify.
Qed.
End flags.

Lemma silent_timer counter p : 0 ≤ counter < MAX_REP → silent (rep_timer counter) p tt p.
Proof.
  intros Hc. apply silent_ensure. by rewrite (proj2 (Z.leb_le _ _)), (proj2 (Z.ltb_lt _ _)) by lia.
Qed.

(** ** The sender and its replica *)
Section replica.
Context `{!Allocator} `{!AllocatorLaws alloc}.
Context (guard d e b f : Z) (Hguard : word guard).
Context (Hd : 0 ≤ e - d ≤ INT_MAX) (Hb : 0 ≤ f - b ≤ INT_MAX).

(** What a receiver with the old list [lr] needs to take over the list [ls]. *)
Record replaceable (s r : proc) (ls lr : list (Z * Malloc_container)) : Prop := {
  rp_transit : p_transit r = NODE_DATA_RECEIVER;
  rp_higher : stackHigherAddress r = stackHigherAddress s;
  rp_target : target d e b f r (getRSP guard (context s)) (stack_bytes guard s) ls.*2;
  rp_heap : heap_ok (p_heap r) lr;
  rp_distinct : NoDup (allocated lr);
  rp_state : mem_state (p_heap r) = DISCONTIGUOUS;
  rp_survive : statics_survive (program d e b f (getRSP guard (context s)) (stack_bytes guard s))
                 (p_heap r) lr;
  rp_fits : fits (cleared lr (blocks (p_heap r))) ls.*2
}.

Definition replica_messages (s : proc) (i : image) : list (list mbyte) :=
  [im_data i; im_bss i] ++
  stack_messages (im_pc i) (im_sp i) (im_bp i) (stack_bytes guard s) (im_stack i) ++
  heap_messages (total_malloc_allocation_size (p_heap s)) (Z.of_nat (length (im_blocks i)))
    (im_blocks i) ++
  framework_messages s.

Lemma replica_sends s ls i counter :
  p_transit s = NODE_DATA_SENDER → 0 ≤ counter < MAX_REP →
  savable guard d e b f s ls → image_of guard d e b f s ls i →
  sends (init_rep guard d e b f counter) s (replica_messages s i) tt (set_lower (im_sp i) s).
Proof.
  intros Ht Hc Hs Hi. destruct (sv_words _ _ _ _ _ _ _ Hs) as (Wpc & Wsp & Wbp).
  pose proof (io_sp _ _ _ _ _ _ _ _ Hi) as Hsp. unfold init_rep, replica_messages.
  eapply sends_silent_bind; [by apply silent_timer|].
  eapply sends_bind; [apply data_sends; [done|done|apply Hi|apply Hi]|].
  eapply sends_bind.
  { rewrite (io_pc _ _ _ _ _ _ _ _ Hi), (io_bp _ _ _ _ _ _ _ _ Hi).
    apply stack_sends; try done; [unfold stack_bytes; by rewrite Hsp|apply Hs|by rewrite Hsp|apply Hi]. }
  set (s1 := set_lower (im_sp i) s). eapply sends_bind.
  { rewrite (io_blocks _ _ _ _ _ _ _ _ Hi), length_zip_with, <-(Forall2_length _ _ _ (io_bytes _ _ _ _ _ _ _ _ Hi)),
      Nat.min_id, length_fmap.
    apply (heap_sends s1 ls); apply Hs || apply Hi. }
  rewrite <-(app_nil_r (framework_messages s)).
  eapply sends_bind; [apply (framework_sends s1); apply Hs|].
  by apply sends_silent, silent_timer.
Qed.

(** The receiver frees its list and installs that of the sender, in the memory
    that has the sender's segments. *)
Lemma replica_heap s ls i r lr r1 m3 :
  savable guard d e b f s ls → image_of guard d e b f s ls i → replaceable s r ls lr →
  p_heap r1 = set_mem m3 (p_heap r) →
  (∀ x, is_Some (m3 !! x) ↔ is_Some (mem (p_heap r) !! x)) →
  let p := program d e b f (getRSP guard (context s)) (stack_bytes guard s) in
  let n := Z.of_nat (length (im_blocks i)) in
  ∃ h' l', receives transfer_heap_seg r1
      (heap_messages (total_malloc_allocation_size (p_heap s)) n (im_blocks i)) tt (set_heap h' r1) ∧
    is_list h' l' ∧ Forall2 same_container l'.*2 ls.*2 ∧ malloc_number_of_allocations h' = n ∧
    Forall (λ c, ∃ x, copied p h' c x ∧ block_bytes (mem (p_heap s)) c x) ls.*2 ∧
    (∀ x, in_statics p x → outside ls.*2 x → mem h' !! x = m3 !! x) ∧
    (∀ a, is_Some (cleared lr (blocks (p_heap r)) !! a) → live a h').
Proof.
  intros Hs Hi Hr Hh Hdom p n. pose proof (rp_target _ _ _ _ Hr) as Ht.
  destruct (blocks_length _ _ _ _ _ _ _ _ Hi) as [_ Hlen].
  set (v := total_malloc_allocation_size (p_heap r) / 2 ^ 32 * 2 ^ 32 +
              total_malloc_allocation_size (p_heap s) mod 256 ^ Z.of_nat 4).
  set (h := set_mem m3 (p_heap r)).
  assert (heap_ok h lr) as Hok.
  { destruct (rp_heap _ _ _ _ Hr). split; try done. by apply (is_list_ext (p_heap r)). }
  assert (statics_ok p h) as Hst.
  { intros x z Hx. destruct (tg_program _ _ _ _ _ _ _ _ Ht x z Hx) as [Hbl Hv]. split; [done|].
    intros k Hk. apply Hdom, Hv, Hk. }
  destruct (clear_for_transfer p h lr v Hok (rp_distinct _ _ _ _ Hr) Hst (rp_survive _ _ _ _ Hr))
    as (h1 & Hclear & Hl1 & Hb1 & Hst1 & Hwf1 & Hx1).
  destruct (restored_heap _ _ _ _ _ _ _ _ _ Hs Hi r [] h1 Ht Hst1 Hl1 Hwf1)
    as (h' & l' & Hrun & Hl' & Hsame & Hn & Hcop & Hx).
  { rewrite Hb1. apply Hr. }
  exists h', l'. split_and!; try done.
  - eapply (heap_receives_run r1); rewrite ?Hh; try done.
    + apply Hr.
    + eapply Forall_impl; [by eapply image_sendable|]. by intros c (? & ? & _).
    + unfold n. rewrite Hlen. apply Hs.
  - intros x Hxs Ho. by rewrite Hx, Hx1.
  - intros a Ha. eapply keeps_Done; [apply (live_install_all a)|exact Hrun|].
    unfold live. cbn. by rewrite Hb1.
Qed.

(** The receiver after the stack, and at the end. *)
Definition on_stack (s : proc) (i : image) (h : heap) (r : proc) : proc :=
  set_heap h (adopted guard (im_pc i) (getRSP guard (context s)) (im_bp i) (stack_bytes guard s) r).
Definition replica_of (s : proc) (i : image) (h : heap) (r : proc) : proc :=
  set_pass_receiver (pass_receiver_cont_add s) (set_pass_sender (pass_sender_cont_add s)
    (on_stack s i h r)).

Lemma on_stack_lower s ls i h r lr :
  savable guard d e b f s ls → replaceable s r ls lr →
  stackLowerAddress (on_stack s i h r) = getRSP guard (context s).
Proof.
  intros Hs Hr. destruct (sv_words _ _ _ _ _ _ _ Hs) as (_ & Wsp & _). cbn.
  rewrite (rp_higher _ _ _ _ Hr), <-(wrap64_small (getRSP guard (context s))) at 1 by exact Wsp.
  f_equal. unfold stack_bytes. lia.
Qed.

Lemma stack_copied s ls i r lr m2 m3 :
  savable guard d e b f s ls → image_of guard d e b f s ls i → replaceable s r ls lr →
  store_bytes m2 (getRSP guard (context s)) (im_stack i) = Some m3 →
  (∀ x, is_Some (m2 !! x) ↔ is_Some (mem (p_heap r) !! x)) →
  receives (transfer_stack_seg guard) (set_heap (set_mem m2 (p_heap r)) r)
    (stack_messages (im_pc i) (im_sp i) (im_bp i) (stack_bytes guard s) (im_stack i)) tt
    (on_stack s i (set_mem m3 (p_heap r)) r).
Proof.
  intros Hs Hi Hr Hm Hdom. destruct (sv_words _ _ _ _ _ _ _ Hs) as (Wpc & Wsp & Wbp).
  destruct (sv_stack _ _ _ _ _ _ _ Hs) as [Hz _]. pose proof (stack_length _ _ _ _ _ _ _ _ Hs Hi) as N3.
  set (r1 := set_heap (set_mem m2 (p_heap r)) r).
  destruct (stack_receives guard r1 (im_pc i) (getRSP guard (context s)) (im_bp i)
    (stack_bytes guard s) (im_stack i)) as [Hsame _].
  - apply Hr.
  - unfold INT_MIN. lia.
  - done.
  - by rewrite (io_pc _ _ _ _ _ _ _ _ Hi).
  - by rewrite (io_bp _ _ _ _ _ _ _ _ Hi).
  - destruct Hsame as (m3' & Hm3 & Hrun).
    + by apply (on_stack_lower s ls i (p_heap r1) r lr).
    + apply Hz.
    + lia.
    + intros k Hk. apply Hdom.
      apply (tg_program _ _ _ _ _ _ _ _ (rp_target _ _ _ _ Hr) (getRSP guard (context s)) (stack_bytes guard s));
        [right; right; left|done].
    + cbn in Hm3. assert (m3' = m3) as -> by congruence.
      rewrite (io_sp _ _ _ _ _ _ _ _ Hi). exact Hrun.
Qed.

Lemma replica_receives s ls i r lr counter :
  0 ≤ counter < MAX_REP → savable guard d e b f s ls → image_of guard d e b f s ls i →
  replaceable s r ls lr →
  ∃ r', receives (init_rep guard d e b f counter) r (replica_messages s i) tt r' ∧
    restored guard d e b f s ls (getRSP guard (context s)) [] r' ∧
    ∀ a, is_Some (cleared lr (blocks (p_heap r)) !! a) → live a (p_heap r').
Proof.
  intros Hc Hs Hi Hr. pose proof (rp_target _ _ _ _ Hr) as Ht. set (lo := getRSP guard (context s)) in *.
  destruct (sv_words _ _ _ _ _ _ _ Hs) as (Wpc & Wsp & Wbp).
  destruct (data_length _ _ _ _ _ _ _ _ Hi) as [N1 N2].
  destruct (segments_stored _ _ _ _ _ _ _ _ lo Hs Hi _ Ht)
    as (m1 & m2 & m3 & S1 & S2 & S3 & Hdata & Hstack & Hdom).
  destruct (replica_heap s ls i r lr (on_stack s i (set_mem m3 (p_heap r)) r) m3 Hs Hi Hr eq_refl Hdom)
    as (h' & l' & Hheap & Hl' & Hsame & Hn & Hcop & Hx & Hlive).
  exists (replica_of s i h' r). split; [|split; [|exact Hlive]].
  - unfold init_rep, replica_messages. eapply receives_silent_bind; [by apply silent_timer|].
    eapply receives_bind.
    { apply (data_receives d e b f Hd Hb r _ _ m1 m2); try done; apply Ht; (left || (right; left)). }
    eapply receives_bind.
    { apply (stack_copied s ls i r lr m2 m3); try done.
      intros x. by rewrite (proj2 (proj2 (store_bytes_lookup _ _ _ _ S2))),
        (proj2 (proj2 (store_bytes_lookup _ _ _ _ S1))). }
    eapply receives_bind; [exact Hheap|]. rewrite <-(app_nil_r (framework_messages s)).
    eapply receives_bind; [apply framework_receives; apply Hs|].
    by apply receives_silent, silent_timer.
  - destruct (stack_registers guard (context r) (im_pc i) lo (im_bp i)) as (R1 & R2 & R3);
      [done|apply Ht|by rewrite (io_pc _ _ _ _ _ _ _ _ Hi)|done|by rewrite (io_bp _ _ _ _ _ _ _ _ Hi)|].
    eapply (restored_intro _ _ _ _ _ _ _ _ _ Hs Hi r _ []); try done.
    + rewrite (io_sp _ _ _ _ _ _ _ _ Hi), Z.sub_diag, Z.add_0_r, wrap64_small; [exact R3|].
      by rewrite (io_bp _ _ _ _ _ _ _ _ Hi).
    + exact (on_stack_lower s ls i h' r lr Hs Hr).
    + symmetry. apply Hi.
    + symmetry. apply Hi.
Qed.
End replica.

(** ** Properties *)

(** [init_rep] makes a copy of the process.  The sender ends unchanged but for
    [stackLowerAddress].  A receiver with the same [stackHigherAddress], whose
    old list has no shared block, returns from the four transfers with: the
    registers, the stack and the data segments of the sender; in place of its
    old list one element for each of the sender's, whose variable points to a
    new block with the sender's bytes; the counter and the two flags.  Only
    the variables that point to blocks differ. *)
Theorem init_rep_correct `{!Allocator} `{!AllocatorLaws alloc} guard d e b f counter s r ls lr :
  word guard → 0 ≤ e - d ≤ INT_MAX → 0 ≤ f - b ≤ INT_MAX → 0 ≤ counter < MAX_REP →
  p_transit s = NODE_DATA_SENDER → savable guard d e b f s ls →
  replaceable guard d e b f s r ls lr →
  ∃ ms r', sends (init_rep guard d e b f counter) s ms tt (set_lower (getRSP guard (context s)) s) ∧
    receives (init_rep guard d e b f counter) r ms tt r' ∧
    restored guard d e b f s ls (getRSP guard (context s)) [] r'.
Proof.
  intros Hg Hd Hb Hc Ht Hs Hr. destruct (savable_image _ _ _ _ _ _ _ Hs) as [i Hi].
  destruct (replica_receives guard d e b f Hg Hd Hb s ls i r lr counter Hc Hs Hi Hr) as (r' & H1 & H2 & _).
  exists (replica_messages guard s i), r'. split; [|by split].
  rewrite <-(io_sp _ _ _ _ _ _ _ _ Hi). by eapply replica_sends.
Qed.

(** ** Witness *)
Lemma init_rep_correct_witness : ∃ ms r',
  sends (@init_rep bump 12345 100 124 124 132 0) (proc_of NODE_DATA_SENDER heap_saved_ex) ms tt
    (set_lower 1000 (proc_of NODE_DATA_SENDER heap_saved_ex)) ∧
  receives (@init_rep bump 12345 100 124 124 132 0) (proc_of NODE_DATA_RECEIVER heap_prog) ms tt r' ∧
  malloc_number_of_allocations (p_heap r') = 2.
Proof.
  destruct (@init_rep_correct bump bump_laws 12345 100 124 124 132 0
    (proc_of NODE_DATA_SENDER heap_saved_ex) (proc_of NODE_DATA_RECEIVER heap_prog) list_saved_ex [])
    as (ms & r' & H1 & H2 & H3).
  - split; [lia|reflexivity].
  - unfold INT_MAX. lia.
  - unfold INT_MAX. lia.
  - split; [lia|reflexivity].
  - reflexivity.
  - apply savable_ex.
  - split.
    + reflexivity.
    + reflexivity.
    + exact (target_ex NODE_DATA_RECEIVER).
    + apply heap_okb_sound. vm_compute. reflexivity.
    + constructor.
    + reflexivity.
    + intros x s _. split; [csimpl; set_solver|]. split; [csimpl; set_solver|].
      intros y _ Hf. by apply Exists_nil in Hf.
    + vm_compute. repeat split.
  - exists ms, r'. split; [exact H1|]. split; [exact H2|]. exact (re_count _ _ _ _ _ _ _ _ _ _ H3).
Defined.
