(* ===== verification/Update.v ===== *)
(** * Applying a new map: [src/replication/rep.c], [src/misc/file.c] and
    [MPI_Init] of [src/mpi/init.c]

    The application calls [is_file_update_set] at its own pace.  When the
    time stamp of the map moved and no process has an unfinished request, the
    processes read the map, split their communicators, and each does what its
    new role asks for: restore, checkpoint, take part in a transfer, or
    nothing. *)

From Stdlib Require Import Ascii.
From S2P Require Import Prelude Shared Mpi MapFile Comm Memory Stat.

(** The end of [is_file_update_set], after the communicators were made: the
    work it switches to the temporary stack for.  [Work ckpt rep]: [init_ckpt]
    when [ckpt], then [init_rep] when [rep]. *)
Inductive action : Type :=
  | NotModified
  | Retry
  | NotRequired
  | RestoreCkpt
  | Work (ckpt rep : bool).

Section update.
Context {W : Type} `{MpiConst} `{PmpiSplit W} `{Files W}.

Definition is_file_modified : M (globals * W) Z :=
  let! restore := gets (λ s, ckpt_restore s.1) in
  if decide (restore = RESTORE_YES) then ret 1
  else
    let! mtime := gets (λ s, st_mtime s.2) in
    let! last := gets (λ s, last_file_update s.1) in
    if last <? mtime then of_globals (modify (set_last_file_update mtime)) ;;; ret 1
    else ret 0.

Definition set_last_file_update_now : M (globals * W) unit :=
  let! mtime := gets (λ s, st_mtime s.2) in
  of_globals (modify (set_last_file_update mtime)).

(** Which of the branches after [setjmp] runs on the temporary stack. *)
Definition role_action (g : globals) : action :=
  if decide (ckpt_restore g = RESTORE_YES) then RestoreCkpt
  else Work (bool_decide (node_checkpoint_master (node g) = YES)) (negb (rep_flag g =? 0)).

Definition apply_map : M (globals * W) action :=
  let! file := gets (λ s, map_text s.2) in
  of_globals (parse_map_file file) ;;;
  update_comms ;;;
  create_migration_comm ;;;
  let! g := gets fst in
  let! idx := of_option Undef (c_int (replication_idx g + 1)) in
  of_globals (modify (set_replication_idx idx)) ;;;
  save_rep_and_stack_info idx ;;;
  let! g := gets fst in
  let! rep := of_option Undef (c_int (rep_counter g + 1)) in
  of_globals (modify (set_rep_counter rep)) ;;;
  let! ckpt := of_option Undef (c_int (ckpt_counter g + 1)) in
  of_globals (modify (set_ckpt_counter ckpt)) ;;;
  let! g := gets fst in
  if (rep_flag g =? 0) && bool_decide (node_checkpoint_master (node g) = NO) &&
     bool_decide (ckpt_restore g = RESTORE_NO)
  then ret NotRequired else ret (role_action g).

Definition is_file_update_set : M (globals * W) action :=
  let! modified := is_file_modified in
  if modified =? 0 then ret NotModified
  else
    let! g := gets fst in
    let! status := (λ s, let '(v, w) := PMPI_Allreduce_sum (request_pending g)
                                         (rep_mpi_comm_world (node g)) s.2 in
                         Done v (s.1, w)) in
    if negb (status =? 0) then
      of_globals (modify (λ g, set_last_file_update (last_file_update g - 1) g)) ;;;
      ret Retry
    else apply_map.

(** [MPI_Init], after [PMPI_Init]: [dup] is what [PMPI_Comm_dup] of the world
    returns. *)
Definition MPI_Init (dup : MPI_Comm) : M (globals * W) action :=
  of_globals (upd_node (set_rep_mpi_comm_world dup)) ;;;
  let! file := gets (λ s, map_text s.2) in
  init_node file ;;;
  set_last_file_update_now ;;;
  let! bit := gets (λ s, ckpt_access (job_id (node s.1)) s.2) in
  when bit (of_globals (modify (set_ckpt_restore RESTORE_YES))) ;;;
  network_stat_init ;;;
  of_globals (modify (set_replication_idx 0)) ;;;
  save_rep_and_stack_info 0 ;;;
  if bit then is_file_update_set else ret NotModified.
End update.

(** ** What the collective part does *)
Section applied.
Context {W : Type} `{MpiConst} `{PmpiSplit W} `{Files W}.

Lemma is_file_modified_spec g (w : W) :
  ckpt_restore g = RESTORE_NO →
  is_file_modified (g, w) =
    if last_file_update g <? st_mtime w
    then Done 1 (set_last_file_update (st_mtime w) g, w) else Done 0 (g, w).
Proof.
  intros Hc. unfold is_file_modified. cbn [bind gets fst snd]. rewrite Hc, decide_False by done.
  cbn [bind gets fst snd]. by destruct (last_file_update g <? st_mtime w).
Qed.

Lemma create_migration_comm_spec g (w : W) :
  ckpt_restore g = RESTORE_NO →
  ∃ c w', create_migration_comm (g, w) =
    Done (if (migration_flag (node g) =? 0) && (master_flag (node g) =? 0) then 0 else 1)
      (set_job_comm c (set_rep_flag (migration_flag (node g)) g), w') ∧
    PMPI_Comm_split (rep_mpi_comm_world (node g)) (migration_split (node g)).1 (migration_split (node g)).2 w =
      (c, w').
Proof.
  intros Hc. unfold create_migration_comm. cbn [bind gets fst]. rewrite Hc, decide_False by done.
  unfold of_globals, zoom, comm_split. cbn [bind gets modify fst snd].
  destruct (PMPI_Comm_split _ _ _ w) as [c w'] eqn:E. eexists c, w'.
  cbn [bind modify fst snd ret]. done.
Qed.

(** What [save_rep_and_stack_info] makes of the world, once the update counts. *)
Definition stack_info_saved (g : globals) (w : W) : W :=
  PMPI_File_write_at STACK_REP_INFO_FILE_NAME (16 * rank (node g))
    (rep_and_stack_info (replication_idx g) (rank (node g)) (stack_top w)) w.

(** The counters of updates can be increased. *)
Definition counters_ok (g : globals) : Prop :=
  0 ≤ replication_idx g < INT_MAX ∧ -1 ≤ rep_counter g < INT_MAX ∧ -1 ≤ ckpt_counter g < INT_MAX.

(** The state and the action after a map was applied. *)
Lemma apply_map_spec jm g (w : W) :
  ckpt_restore g = RESTORE_NO → jobs_readable g → map_for jm g →
  map_text w = Some (WriteToFile jm) → counters_ok g →
  let n := node (parsed jm g) in
  ∃ g' w1 w2, apply_map (g, w) =
    Done (if decide (node_transit_state n = NODE_DATA_NONE ∧ node_checkpoint_master n = NO)
          then NotRequired
          else Work (bool_decide (node_checkpoint_master n = YES))
                    (bool_decide (node_transit_state n ≠ NODE_DATA_NONE))) (g', stack_info_saved g' w2) ∧
    comms_made (node g') w w1 ∧
    PMPI_Comm_split (rep_mpi_comm_world (node g')) (migration_split (node g')).1 (migration_split (node g')).2 w1 =
      (job_comm g', w2) ∧
    rep_mpi_comm_world (node g') = rep_mpi_comm_world (node g) ∧
    job_list g' = job_list (parsed jm g) ∧ rank_2_job g' = rank_2_job (parsed jm g) ∧
    job_id (node g') = job_id n ∧ rank (node g') = rank n ∧
    node_checkpoint_master (node g') = node_checkpoint_master n ∧
    node_transit_state (node g') = node_transit_state n ∧
    replication_idx g' = replication_idx g + 1 ∧ last_file_update g' = last_file_update g ∧
    rep_counter g' = rep_counter g + 1 ∧ ckpt_counter g' = ckpt_counter g + 1 ∧
    jobs_count (node g') = jobs_count n ∧ rank_ignore_list g' = rank_ignore_list g ∧
    ckpt_restore g' = RESTORE_NO.
Proof.
  intros Hc Hr Hm Ht (Hidx & Hrep & Hck) n. unfold apply_map. cbn [bind gets snd]. rewrite Ht.
  rewrite (of_globals_Done _ _ w _ _ (parse_map_file_parsed jm g Hc Hr Hm)). cbn [bind].
  destruct (update_comms_made (parsed jm g) w) as (a & b & w2 & Hcomms & Hmade).
  fold n in Hcomms, Hmade. rewrite Hcomms. cbn [bind].
  set (g1 := set_node (set_world_job_comm b (set_active_comm a n)) (parsed jm g)).
  destruct (create_migration_comm_spec g1 w2 Hc) as (c & w3 & Hrun & Hsplit).
  destruct (parsed_same_place jm g) as (_ & _ & Hworld).
  rewrite Hrun. cbn [bind gets fst].
  set (g2 := set_job_comm c (set_rep_flag (migration_flag (node g1)) g1)).
  assert (replication_idx g2 = replication_idx g ∧ rep_counter g2 = rep_counter g ∧
          ckpt_counter g2 = ckpt_counter g) as (Hri & Hrr & Hrc) by done.
  rewrite Hri, c_int_Some by (unfold INT_MIN; lia).
  unfold save_rep_and_stack_info, of_globals, zoom. cbn [bind of_option modify gets fst snd].
  change (rep_counter (set_replication_idx _ g2)) with (rep_counter g2).
  rewrite Hrr, c_int_Some by (unfold INT_MIN; lia). cbn [bind of_option modify gets fst snd].
  change (ckpt_counter (set_replication_idx _ g2)) with (ckpt_counter g2).
  rewrite Hrc, c_int_Some by (unfold INT_MIN; lia). cbn [bind of_option modify gets fst snd].
  set (g3 := set_ckpt_counter _ _).
  exists g3, w2, w3. split; [|by repeat (split; [done|])]. unfold role_action.
  assert (ckpt_restore g3 = RESTORE_NO) as -> by done.
  assert (rep_flag g3 = migration_flag n) as -> by done.
  assert (node_checkpoint_master (node g3) = node_checkpoint_master n) as -> by done.
  unfold migration_flag. destruct (node_transit_state n), (node_checkpoint_master n); reflexivity.
Qed.

(** While a checkpoint is to be restored the map is not read: the tables stay,
    the communicators are split again, and the process is told to restore. *)
Definition restoring (n : Node) (g : globals) : globals :=
  set_ckpt_counter (ckpt_counter g + 1) (set_rep_counter (rep_counter g + 1)
    (set_replication_idx (replication_idx g + 1) (set_rep_flag 0 (set_node n g)))).

Lemma apply_map_restores g (w : W) :
  ckpt_restore g = RESTORE_YES → counters_ok g →
  ∃ a b w', let n := set_world_job_comm b (set_active_comm a (node g)) in
    apply_map (g, w) = Done RestoreCkpt (restoring n g, stack_info_saved (restoring n g) w') ∧
    comms_made n w w'.
Proof.
  intros Hc (Hidx & Hrep & Hck). unfold apply_map. cbn [bind gets snd].
  assert (∀ file, parse_map_file file g = Done tt g) as Hparse
    by (intros file; unfold parse_map_file; cbn [bind gets]; by rewrite Hc, decide_True).
  rewrite (of_globals_Done _ _ w _ _ (Hparse _)). cbn [bind].
  destruct (update_comms_made g w) as (a & b & w2 & Hcomms & Hmade). rewrite Hcomms. exists a, b, w2. cbv zeta. cbn [bind].
  set (g1 := set_node (set_world_job_comm b (set_active_comm a (node g))) g).
  assert (create_migration_comm (g1, w2) = Done 1 (set_rep_flag 0 g1, w2)) as ->
    by (unfold create_migration_comm; cbn [bind gets fst]; change (ckpt_restore g1) with (ckpt_restore g);
        by rewrite Hc, decide_True).
  cbn [bind gets fst]. change (replication_idx (set_rep_flag 0 g1)) with (replication_idx g).
  rewrite c_int_Some by (unfold INT_MIN; lia).
  unfold save_rep_and_stack_info, of_globals, zoom. cbn [bind of_option modify gets fst snd].
  change (rep_counter (set_replication_idx _ _)) with (rep_counter g).
  rewrite c_int_Some by (unfold INT_MIN; lia). cbn [bind of_option modify gets fst snd].
  change (ckpt_counter (set_replication_idx _ _)) with (ckpt_counter g).
  rewrite c_int_Some by (unfold INT_MIN; lia). cbn [bind of_option modify gets fst snd].
  set (g2 := set_ckpt_counter _ _). unfold role_action.
  assert (ckpt_restore g2 = RESTORE_YES) as -> by done.
  rewrite (bool_decide_eq_false_2 (RESTORE_YES = RESTORE_NO)) by done. rewrite andb_false_r, decide_True by done.
  by split.
Qed.

Lemma update_restores g (w : W) w1 :
  ckpt_restore g = RESTORE_YES → counters_ok g →
  PMPI_Allreduce_sum (request_pending g) (rep_mpi_comm_world (node g)) w = (0, w1) →
  ∃ a b w', let n := set_world_job_comm b (set_active_comm a (node g)) in
    is_file_update_set (g, w) = Done RestoreCkpt (restoring n g, stack_info_saved (restoring n g) w') ∧
    comms_made n w1 w'.
Proof.
  intros Hc Hcnt Hs. unfold is_file_update_set, is_file_modified. cbn [bind gets fst snd].
  rewrite Hc, decide_True by done. cbn [bind ret gets fst snd Z.eqb]. rewrite Hs. cbn [bind Z.eqb negb].
  by apply apply_map_restores.
Qed.
End applied.

(** ** Properties *)

(** C31: an update waits for pending requests and is not lost.  While some
    process has an unfinished request, [is_file_update_set] leaves everything
    but [last_file_update] alone and sets that to just before the time stamp
    of the map, so that the next call sees the map as modified again. *)
Theorem update_retried {W} `{MpiConst} `{PmpiSplit W} `{Files W} g (w : W) status w' :
  ckpt_restore g = RESTORE_NO → last_file_update g < st_mtime w →
  PMPI_Allreduce_sum (request_pending g) (rep_mpi_comm_world (node g)) w = (status, w') →
  status ≠ 0 → st_mtime w ≤ st_mtime w' →
  ∃ g', is_file_update_set (g, w) = Done Retry (g', w') ∧
    g' = set_last_file_update (st_mtime w - 1) g ∧
    ∃ g'', is_file_modified (g', w') = Done 1 (g'', w').
Proof.
  intros Hc Hl Hs Hne Hm. eexists. split; [|split; [reflexivity|]].
  - unfold is_file_update_set. cbn [bind].
    rewrite (is_file_modified_spec g w Hc), (proj2 (Z.ltb_lt _ _) Hl).
    cbn [bind gets fst snd Z.eqb set_last_file_update request_pending node]. rewrite Hs. cbn [bind].
    rewrite (proj2 (Z.eqb_neq _ _) Hne). reflexivity.
  - rewrite is_file_modified_spec by exact Hc.
    rewrite (proj2 (Z.ltb_lt _ _)) by (simpl; lia). by eexists.
Qed.

(** C30: a map the manager wrote is applied when no request is pending: the
    list of jobs is that of the map and [rank_2_job] sends every rank of it to
    its job, the update is counted, the time stamp is remembered, and the
    process is told to work exactly when its new role is that of a master
    (checkpoint) or of a sender or receiver (transfer).  It takes the job the
    map lists it in when that job is marked as updated, and keeps its job, with
    no part in a transfer, when it is not. *)
Theorem update_applied {W} `{MpiConst} `{PmpiSplit W} `{Files W} jm g (w : W) w1 k p j :
  ckpt_restore g = RESTORE_NO → last_file_update g < st_mtime w →
  PMPI_Allreduce_sum (request_pending g) (rep_mpi_comm_world (node g)) w = (0, w1) →
  map_text w1 = Some (WriteToFile jm) → jobs_readable g → map_for jm g →
  counters_ok g →
  NoDup (all_ranks jm) → placed jm (rank (node g)) k p j →
  let transit := transit_after (Modified j) k p (length (RankList j)) (node g) in
  ∃ g' w', is_file_update_set (g, w) =
      Done (if decide (transit = NODE_DATA_NONE ∧ p ≠ 0%nat) then NotRequired
            else Work (p =? 0)%nat (bool_decide (transit ≠ NODE_DATA_NONE))) (g', w') ∧
    job_list g' = Some (jobs_of jm) ∧
    (∃ a, rank_2_job g' = Some a ∧ ∀ r k i j, placed jm r k i j → aload a r = Some (Z.of_nat k)) ∧
    job_id (node g') = (if Modified j =? 1 then Z.of_nat k else job_id (node g)) ∧
    replication_idx g' = replication_idx g + 1 ∧ last_file_update g' = st_mtime w ∧
    rep_counter g' = rep_counter g + 1 ∧ ckpt_counter g' = ckpt_counter g + 1.
Proof.
  intros Hc Hl Hs Ht Hr Hm Hidx Hnd Hp transit.
  set (g1 := set_last_file_update (st_mtime w) g).
  assert (is_file_update_set (g, w) = apply_map (g1, w1)) as ->.
  { unfold is_file_update_set. cbn [bind].
    rewrite (is_file_modified_spec g w Hc), (proj2 (Z.ltb_lt _ _) Hl).
    cbn [bind gets fst snd Z.eqb set_last_file_update request_pending node]. rewrite Hs. done. }
  destruct (apply_map_spec jm g1 w1 Hc Hr Hm Ht Hidx)
    as (g' & wa & wb & Hrun & _ & _ & _ & Hjl & Hr2j & Hjob & _ & Hmaster & Htransit & Hi & Hlast & Hrc & Hcc & _).
  exists g', (stack_info_saved g' wb). pose proof (parsed_master jm g1 k p j Hnd Hp) as Em.
  pose proof (parsed_transit jm g1 k p j Hnd Hp) as Et.
  pose proof (parsed_job_id jm g1 k p j Hnd Hp) as Ej.
  change (node g1) with (node g) in Et, Ej. fold transit in Et.
  destruct (parsed_rank_2_job jm g1 Hm Hnd) as (a & Ha & Hall).
  split; [|split; [by rewrite Hjl|split; [exists a; by rewrite Hr2j|split; [by rewrite Hjob, Ej|done]]]].
  rewrite Hrun, Em, Et. f_equal. destruct p as [|p]; simpl.
  - rewrite !decide_False by naive_solver. done.
  - destruct (decide (transit = NODE_DATA_NONE)) as [E|E].
    + rewrite !decide_True by done. done.
    + rewrite !decide_False by naive_solver. done.
Qed.

(** Without a new time stamp nothing happens at all. *)
Theorem update_unmodified {W} `{MpiConst} `{PmpiSplit W} `{Files W} g (w : W) :
  ckpt_restore g = RESTORE_NO → st_mtime w ≤ last_file_update g →
  is_file_update_set (g, w) = Done NotModified (g, w).
Proof.
  intros Hc Hl. unfold is_file_update_set. cbn [bind].
  by rewrite (is_file_modified_spec g w Hc), (proj2 (Z.ltb_ge _ _) Hl).
Qed.

(** ** Witnesses: a world with a clock and one other pending count *)
Record disk_world : Type := DiskWorld {
  dw_next : Z;
  dw_mtime : Z;
  dw_others : Z;
  dw_text : option (list ascii)
}.

#[local] Instance disk_split : PmpiSplit disk_world := {|
  PMPI_Comm_rank _ _ := 2;
  PMPI_Comm_size _ _ := 3;
  PMPI_Comm_split _ _ _ w :=
    (dw_next w, DiskWorld (dw_next w + 1) (dw_mtime w) (dw_others w) (dw_text w))
|}.

#[local] Instance disk_files : Files disk_world := {|
  st_mtime := dw_mtime;
  map_text := dw_text;
  ckpt_access _ _ := false;
  PMPI_File_write_at _ _ _ w := w;
  stack_top _ := 4096;
  gethostname _ _ := hostname_ex;
  getpid _ := 77;
  PMPI_Allreduce_sum v _ w := (v + dw_others w, w)
|}.

Definition disk_ex (others : Z) : disk_world :=
  DiskWorld 20 200 others (Some (WriteToFile map_ex)).
(** Process 2, so far in job 1. *)
Definition globals_ex : globals :=
  set_last_file_update 100 (set_node (set_job_id 1 (set_rank 2 node0)) globals0).

Lemma update_retried_witness : ∃ g',
  is_file_update_set (globals_ex, disk_ex 1) = Done Retry (g', disk_ex 1).
Proof.
  destruct (update_retried globals_ex (disk_ex 1) 1 (disk_ex 1) eq_refl ltac:(done) eq_refl
    ltac:(done) ltac:(done)) as (g' & H1 & _).
  exists g'. exact H1.
Defined.

Lemma update_applied_witness : ∃ g' w',
  is_file_update_set (globals_ex, disk_ex 0) = Done (Work false true) (g', w') ∧ job_id (node g') = 0.
Proof.
  destruct (update_applied map_ex globals_ex (disk_ex 0) (disk_ex 0) 0 1 (MkGoJob 1 [0; 2])
    eq_refl ltac:(done) eq_refl eq_refl) as (g' & w' & H1 & _ & _ & H2 & _).
  - intros i. simpl. lia.
  - split; repeat constructor; by vm_compute.
  - repeat split; vm_compute; congruence.
  - exact map_ex_NoDup.
  - done.
  - exists g', w'. split; [exact H1|exact H2].
Defined.

Lemma update_unmodified_witness :
  is_file_update_set (set_last_file_update 200 globals_ex, disk_ex 0) =
  Done NotModified (set_last_file_update 200 globals_ex, disk_ex 0).
Proof. apply (update_unmodified (set_last_file_update 200 globals_ex) (disk_ex 0)); [reflexivity|vm_compute; congruence]. Defined.
