(* ===== verification/FleetUpdate.v ===== *)
(** * A map update of a whole fleet: [src/replication/rep.c], [src/mpi/comm.c]

    [Update] runs [is_file_update_set] in one process.  This file runs it in
    every process of the program and follows the calls of [PMPI_Comm_split]
    each one makes: the calls on the world communicator match one by one, and
    the communicators the processes store in [active_comm], [world_job_comm]
    and [job_comm] have the groups of [CommSystem]. *)

From Stdlib Require Import Ascii.
From S2P Require Import Prelude Shared Mpi MapFile Comm CommSystem Memory Stat Update.

(** ** Matching the collective calls

    [split_calls c w]: the colours and keys this process has passed so far in
    its calls of [PMPI_Comm_split] on [c], in their order, which is how MPI
    matches the calls of the processes.  [made c w]: the communicator and the
    number of the call that returned the handle [c]. *)
Class SplitCalls (W : Type) : Type := {
  split_calls : MPI_Comm → W → list (Z * Z);
  made : MPI_Comm → W → option (MPI_Comm * nat)
}.

Class SplitCallsLaws (W : Type) `{MpiConst} `{PmpiSplit W} `{Files W} `{!SplitCalls W} : Prop := {
  split_records c col key w nc w' :
    PMPI_Comm_split c col key w = (nc, w') → split_calls c w' = split_calls c w ++ [(col, key)];
  split_makes c col key w nc w' :
    PMPI_Comm_split c col key w = (nc, w') → col ≠ MPI_UNDEFINED →
    nc ≠ MPI_COMM_NULL ∧ made nc w' = Some (c, length (split_calls c w));
  split_null c col key w nc w' :
    PMPI_Comm_split c col key w = (nc, w') → col = MPI_UNDEFINED → nc = MPI_COMM_NULL;
  split_keeps c col key w nc w' c' x :
    PMPI_Comm_split c col key w = (nc, w') → made c' w = Some x → made c' w' = Some x;
  write_calls n off bs c w : split_calls c (PMPI_File_write_at n off bs w) = split_calls c w;
  write_made n off bs c w : made c (PMPI_File_write_at n off bs w) = made c w;
  vote_calls v c c' w : split_calls c' (PMPI_Allreduce_sum v c w).2 = split_calls c' w;
  vote_made v c c' w : made c' (PMPI_Allreduce_sum v c w).2 = made c' w
}.

(** The processes of the program, by rank. *)
Abbreviation fleet W := (list (globals * W)).
Abbreviation world_of p := (rep_mpi_comm_world (node p.1)).

Section fleet.
Context {W : Type} `{MpiConst} `{!MpiConstLaws} `{PmpiSplit W} `{Files W}.
Context `{!SplitCalls W} `{!SplitCallsLaws W}.

(** The group of the handle [c] of process [i], when the world communicator of
    each process split it: the group of the calls with its number. *)
Definition members (sg : SplitGroup) (ps : fleet W) (i : nat) (c : MPI_Comm) : list nat :=
  match ps !! i with
  | Some p =>
      match made c p.2 with
      | Some (c0, k) =>
          if decide (c0 = world_of p)
          then match mapM (λ q, split_calls (world_of q) q.2 !! k) ps with
               | Some args => split_group args i
               | None => []
               end
          else []
      | None => []
      end
  | None => []
  end.

(** The vote on the pending requests, and the processes when all of them have
    called [is_file_update_set]. *)
Definition vote (p : globals * W) : Z * W := PMPI_Allreduce_sum (request_pending p.1) (world_of p) p.2.
Definition updated_fleet (ps : fleet W) : fleet W := final is_file_update_set <$> ps.

(** Before an update: every process sees a new map, the same one, no request is
    pending anywhere, and all have made the same number of splits. *)
Record update_due (jm : list GoJob) (n : nat) (p : globals * W) : Prop := {
  ud_running : ckpt_restore p.1 = RESTORE_NO;
  ud_new : last_file_update p.1 < st_mtime p.2;
  ud_vote : (vote p).1 = 0;
  ud_map : map_text (vote p).2 = Some (WriteToFile jm);
  ud_readable : jobs_readable p.1;
  ud_for : map_for jm p.1;
  ud_counters : counters_ok p.1;
  ud_calls : length (split_calls (world_of p) p.2) = n
}.

Record in_step (jm : list GoJob) (ps : fleet W) : Prop := {
  is_fleet : fleet_ok jm ps.*1;
  is_due : ∃ n, Forall (update_due jm n) ps
}.

(** ** One process *)
Lemma split_pair c (sp : Z * Z) w nc w' :
  PMPI_Comm_split c sp.1 sp.2 w = (nc, w') → split_calls c w' = split_calls c w ++ [sp].
Proof. intros E. rewrite (split_records _ _ _ _ _ _ E). by destruct sp. Qed.

(** The handle a split with the arguments [sp] returns, as the [k]-th call. *)
Definition handle_of (c : MPI_Comm) (sp : Z * Z) (k : nat) (nc : MPI_Comm) (w : W) : Prop :=
  if decide (sp.1 = MPI_UNDEFINED) then nc = MPI_COMM_NULL else made nc w = Some (c, k).

Lemma split_handle c sp w nc w' :
  PMPI_Comm_split c sp.1 sp.2 w = (nc, w') → handle_of c sp (length (split_calls c w)) nc w'.
Proof.
  intros E. unfold handle_of. case_decide as Hu; [by eapply split_null|].
  by destruct (split_makes _ _ _ _ _ _ E Hu).
Qed.

Lemma handle_kept c sp k nc c1 sp1 w nc1 w' :
  handle_of c sp k nc w → PMPI_Comm_split c1 sp1.1 sp1.2 w = (nc1, w') → handle_of c sp k nc w'.
Proof. unfold handle_of. case_decide; [done|]. intros Hm E. by eapply split_keeps. Qed.

(** What an update makes of a process, as far as the fleet sees it. *)
Record updated (jm : list GoJob) (n : nat) (p p' : globals * W) : Prop := {
  up_world : world_of p' = world_of p;
  up_job : job_id (node p'.1) = job_id (node (parsed jm p.1));
  up_master : node_checkpoint_master (node p'.1) = node_checkpoint_master (node (parsed jm p.1));
  up_transit : node_transit_state (node p'.1) = node_transit_state (node (parsed jm p.1));
  up_calls : split_calls (world_of p) p'.2 = split_calls (world_of p) p.2 ++
    [active_split (node (parsed jm p.1)); world_job_split (node (parsed jm p.1));
     migration_split (node (parsed jm p.1))];
  up_active : handle_of (world_of p) (active_split (node (parsed jm p.1))) n (active_comm (node p'.1)) p'.2;
  up_world_job : handle_of (world_of p) (world_job_split (node (parsed jm p.1))) (S n)
    (world_job_comm (node p'.1)) p'.2;
  up_migration : handle_of (world_of p) (migration_split (node (parsed jm p.1))) (S (S n)) (job_comm p'.1) p'.2
}.

Lemma update_runs jm n p :
  update_due jm n p → ∃ act p', is_file_update_set p = Done act p' ∧ updated jm n p p'.
Proof.
  destruct p as [g w]. intros [Hc Hnew Hv Hmap Hr Hm Hcnt Hn]. cbn [fst snd] in *.
  unfold vote in Hv, Hmap. cbn [fst snd] in Hv, Hmap.
  set (g1 := set_last_file_update (st_mtime w) g). set (w1 := (PMPI_Allreduce_sum _ _ w).2) in Hmap.
  assert (is_file_update_set (g, w) = apply_map (g1, w1)) as ->.
  { unfold is_file_update_set. cbn [bind].
    rewrite (is_file_modified_spec g w Hc), (proj2 (Z.ltb_lt _ _) Hnew). cbn [bind gets fst snd Z.eqb].
    change (request_pending (set_last_file_update _ g)) with (request_pending g).
    change (node (set_last_file_update _ g)) with (node g).
    rewrite (surjective_pairing (PMPI_Allreduce_sum _ _ w)), Hv. reflexivity. }
  destruct (apply_map_spec jm g1 w1 Hc Hr Hm Hmap Hcnt)
    as (g' & w2 & w3 & Hrun & (wa & Ha & Hb) & Hj & Hworld & _ & _ & Ejob & _ & Emaster & Etransit & _).
  eexists _, _. split; [exact Hrun|]. change (node (parsed jm g1)) with (node (parsed jm g)) in *.
  set (m := node (parsed jm g)) in *. change (rep_mpi_comm_world (node g1)) with (rep_mpi_comm_world (node g)) in Hworld.
  set (c := rep_mpi_comm_world (node g)) in *.
  assert (active_split (node g') = active_split m) as Ea by (unfold active_split; by rewrite Emaster, Ejob).
  assert (world_job_split (node g') = world_job_split m) as Eb by (unfold world_job_split; by rewrite Emaster, Ejob).
  assert (migration_split (node g') = migration_split m) as Ej by (unfold migration_split; by rewrite Etransit, Ejob).
  rewrite Ea, Hworld in Ha. rewrite Eb, Hworld in Hb. rewrite Ej, Hworld in Hj.
  pose proof (split_pair _ _ _ _ _ Ha) as La. pose proof (split_pair _ _ _ _ _ Hb) as Lb.
  pose proof (split_pair _ _ _ _ _ Hj) as Lj.
  pose proof (split_handle _ _ _ _ _ Ha) as Ma. pose proof (split_handle _ _ _ _ _ Hb) as Mb.
  pose proof (split_handle _ _ _ _ _ Hj) as Mj.
  assert (split_calls c w1 = split_calls c w) as E1 by apply vote_calls.
  rewrite Lb, La, E1 in Mj, Lj. rewrite La, E1 in Mb. rewrite E1 in Ma. fold c in Hn.
  rewrite !length_app, Hn in Mj. rewrite length_app, Hn in Mb. rewrite Hn in Ma. cbn [length] in Mb, Mj.
  rewrite Nat.add_1_r in Mb, Mj. rewrite Nat.add_1_r in Mj.
  pose proof (handle_kept _ _ _ _ _ _ _ _ _ Ma Hb) as Ma'.
  split; cbn [fst snd]; fold m; try done.
  - unfold stack_info_saved. rewrite write_calls. fold c. by rewrite Lj, <-!app_assoc.
  - fold c. pose proof (handle_kept _ _ _ _ _ _ _ _ _ Ma' Hj) as Hh.
    unfold handle_of, stack_info_saved in *. by rewrite write_made.
  - fold c. pose proof (handle_kept _ _ _ _ _ _ _ _ _ Mb Hj) as Hh.
    unfold handle_of, stack_info_saved in *. by rewrite write_made.
  - fold c. unfold handle_of, stack_info_saved in *. by rewrite write_made.
Qed.

(** ** All processes *)
Section all.
Context (sg : SplitGroup) `{!SplitLaws sg} (jm : list GoJob) (ps : fleet W) (Hin : in_step jm ps).

Lemma fleet_updates : ∃ n,
  (∀ p, p ∈ ps → length (split_calls (world_of p) p.2) = n ∧
    (∃ act, is_file_update_set p = Done act (final is_file_update_set p)) ∧
    updated jm n p (final is_file_update_set p)).
Proof.
  destruct (is_due _ _ Hin) as [n Hn]. exists n. intros p Hp. rewrite Forall_forall in Hn.
  split; [by apply (ud_calls jm n p), Hn|]. destruct (update_runs jm n p (Hn p Hp)) as (act & p' & Hrun & Hup).
  unfold final. rewrite Hrun. split; [by exists act|done].
Qed.

(** The group of a handle the update made, when the [d]-th split of all
    processes has the arguments [f]. *)
Lemma members_split (f : Node → Z * Z) (d : nat) i p c :
  (∀ m, [active_split m; world_job_split m; migration_split m] !! d = Some (f m)) →
  ps !! i = Some p → (f (node (parsed jm p.1))).1 ≠ MPI_UNDEFINED →
  (∀ n, length (split_calls (world_of p) p.2) = n →
    handle_of (world_of p) (f (node (parsed jm p.1))) (n + d) c (final is_file_update_set p).2) →
  members sg (updated_fleet ps) i c = split_group (args_of jm ps.*1 f) i.
Proof.
  intros Hf Hi Hdef Hc. destruct fleet_updates as (n & Hall).
  destruct (Hall p (list_elem_of_lookup_2 _ _ _ Hi)) as (Hn & _ & Hup).
  specialize (Hc n Hn). unfold handle_of in Hc. rewrite decide_False in Hc by done.
  unfold members, updated_fleet. rewrite list_lookup_fmap, Hi. cbn [fmap option_fmap option_map].
  rewrite Hc, (up_world _ _ _ _ Hup), decide_True by done.
  assert (mapM (λ q, split_calls (world_of q) q.2 !! (n + d)%nat) (final is_file_update_set <$> ps) =
    Some (args_of jm ps.*1 f)) as ->; [|done].
  apply mapM_Some. unfold args_of. rewrite <-list_fmap_compose, Forall2_fmap. apply Forall_Forall2_diag, Forall_forall.
  intros q Hq. destruct (Hall q Hq) as (Hnq & _ & Huq). cbn [compose].
  rewrite (up_world _ _ _ _ Huq), (up_calls _ _ _ _ Huq), lookup_app_r by lia.
  by rewrite Hnq, Nat.add_comm, Nat.add_sub, Hf.
Qed.
End all.
End fleet.

(** ** Properties *)

(** C13: after a map update, that is after every process of the program has run
    [is_file_update_set] on a new map with no request pending,
    [world_job_comm] of a process of job [k] is made of exactly the workers
    the map lists for the job, and its rank 0, the root of every broadcast to
    the replicas, is the first worker of the job, which is the one that calls
    itself checkpoint master. *)
Theorem world_job_comm_correct {W} `{MpiConst} `{!MpiConstLaws} `{PmpiSplit W} `{Files W} `{!SplitCalls W}
    `{!SplitCallsLaws W} (sg : SplitGroup) `{!SplitLaws sg} jm (ps : fleet W) i p k q j h t :
  in_step jm ps → ps !! i = Some p → placed jm (Z.of_nat i) k q j → RankList j = h :: t →
  ∃ act g' w', is_file_update_set p = Done act (g', w') ∧
    let group := members sg (updated_fleet ps) i (world_job_comm (node g')) in
    (∃ rest, group = Z.to_nat h :: rest) ∧
    (∀ x, x ∈ group ↔ Z.of_nat x ∈ RankList j) ∧
    (node_checkpoint_master (node g') = YES ↔ i = Z.to_nat h).
Proof.
  intros Hin Hi Hp Hj. destruct (fleet_updates jm ps Hin) as (n & Hall).
  destruct (Hall p (list_elem_of_lookup_2 _ _ _ Hi)) as (Hn & [act Hrun] & Hup).
  assert (ps.*1 !! i = Some p.1) as Hg by by rewrite list_lookup_fmap, Hi.
  destruct (world_job_group sg jm ps.*1 i p.1 k q j h t (is_fleet _ _ Hin) Hg Hp Hj) as (Hroot & Hmem & Hmaster).
  exists act, (final is_file_update_set p).1, (final is_file_update_set p).2.
  split; [by rewrite <-surjective_pairing|]. cbv zeta.
  assert (members sg (updated_fleet ps) i (world_job_comm (node (final is_file_update_set p).1)) =
    split_group (args_of jm ps.*1 world_job_split) i) as ->.
  { apply (members_split sg jm ps Hin world_job_split 1 i p); [done|done| |].
    - unfold world_job_split. cbn [fst].
      destruct (fleet_node _ _ (is_fleet _ _ Hin) _ _ _ _ _ Hg Hp) as (-> & _).
      pose proof undefined_neg. lia.
    - intros n' Hn'. rewrite Nat.add_1_r, <-Hn', Hn. apply Hup. }
  split; [done|]. split; [done|]. by rewrite (up_master _ _ _ _ Hup).
Qed.

(** C14: after a map update, [active_comm] of a master holds exactly the
    masters of the jobs, in the order of the job ids: the process with rank
    [k] in it is the first worker of job [k].  So the ranks the application
    uses (job ids) are the ranks of [active_comm].  A process that is no
    master has [MPI_COMM_NULL] there, which is what the collective calls
    test. *)
Theorem active_comm_correct {W} `{MpiConst} `{!MpiConstLaws} `{PmpiSplit W} `{Files W} `{!SplitCalls W}
    `{!SplitCallsLaws W} (sg : SplitGroup) `{!SplitLaws sg} jm (ps : fleet W) i p k q j :
  in_step jm ps → ps !! i = Some p → placed jm (Z.of_nat i) k q j →
  ∃ act g' w', is_file_update_set p = Done act (g', w') ∧
    let group := members sg (updated_fleet ps) i (active_comm (node g')) in
    if (q =? 0)%nat then group = head_of <$> jm ∧ group !! k = Some i
    else active_comm (node g') = MPI_COMM_NULL.
Proof.
  intros Hin Hi Hp. destruct (fleet_updates jm ps Hin) as (n & Hall).
  destruct (Hall p (list_elem_of_lookup_2 _ _ _ Hi)) as (Hn & [act Hrun] & Hup).
  assert (ps.*1 !! i = Some p.1) as Hg by by rewrite list_lookup_fmap, Hi.
  destruct (fleet_node _ _ (is_fleet _ _ Hin) _ _ _ _ _ Hg Hp) as (_ & Hm & _).
  exists act, (final is_file_update_set p).1, (final is_file_update_set p).2.
  split; [by rewrite <-surjective_pairing|]. cbv zeta. pose proof undefined_neg.
  pose proof (up_active _ _ _ _ Hup) as Ha. destruct q as [|q]; cbn [Nat.eqb] in *.
  - assert (members sg (updated_fleet ps) i (active_comm (node (final is_file_update_set p).1)) =
      split_group (args_of jm ps.*1 active_split) i) as ->.
    { apply (members_split sg jm ps Hin active_split 0 i p); [done|done| |].
      - unfold active_split. rewrite Hm, decide_False by done. cbn. lia.
      - intros n' Hn'. by rewrite Nat.add_0_r, <-Hn', Hn. }
    by apply (active_group sg jm ps.*1 i p.1 k j (is_fleet _ _ Hin) Hg Hp).
  - unfold handle_of, active_split in Ha. rewrite Hm in Ha. cbn [fst] in Ha.
    by rewrite !decide_True in Ha by done.
Qed.


(** ** Witnesses: the fleet of [CommSystem], process 2 of which moves to job 0

    The world of a process is the list of its splits; the handle of the [k]-th
    one is [10 + k]. *)
Abbreviation splits_world := (list (MPI_Comm * (Z * Z))) (only parsing).
Definition calls_on (c : MPI_Comm) (w : splits_world) : list (Z * Z) := (filter (λ x, x.1 = c) w).*2.

#[local] Instance splits_split : PmpiSplit splits_world := {|
  PMPI_Comm_rank _ _ := 0;
  PMPI_Comm_size _ _ := 3;
  PMPI_Comm_split c col key w :=
    (if decide (col = MPI_UNDEFINED) then MPI_COMM_NULL else 10 + Z.of_nat (length w), w ++ [(c, (col, key))])
|}.

#[local] Instance splits_files : Files splits_world := {|
  st_mtime _ := 7;
  map_text _ := Some (WriteToFile map_moved);
  ckpt_access _ _ := false;
  PMPI_File_write_at _ _ _ w := w;
  stack_top _ := 4096;
  gethostname _ _ := hostname_ex;
  getpid _ := 77;
  PMPI_Allreduce_sum v _ w := (v, w)
|}.

#[local] Instance splits_calls : SplitCalls splits_world := {|
  split_calls := calls_on;
  made c w :=
    if decide (10 ≤ c) then
      x ← w !! Z.to_nat (c - 10); Some (x.1, length (calls_on x.1 (take (Z.to_nat (c - 10)) w)))
    else None
|}.

Lemma calls_on_snoc c c' sp w :
  calls_on c (w ++ [(c', sp)]) = calls_on c w ++ (if decide (c' = c) then [sp] else []).
Proof. unfold calls_on. rewrite filter_app, fmap_app, filter_cons. f_equal. cbn. by case_decide. Qed.

#[local] Instance splits_laws : SplitCallsLaws splits_world.
Proof.
  split; cbn; try done.
  - intros c col key w nc w' [= _ <-]. by rewrite calls_on_snoc, decide_True.
  - intros c col key w nc w' [= <- <-] Hu. rewrite decide_False by done. split; [unfold MPI_COMM_NULL; cbn; lia|].
    rewrite decide_True by lia. replace (Z.to_nat (10 + Z.of_nat (length w) - 10)) with (length w) by lia.
    rewrite list_lookup_middle by done. cbn. by rewrite take_app_length.
  - intros c col key w nc w' [= <- <-] Hu. by rewrite decide_True.
  - intros c col key w nc w' c' x [= _ <-]. case_decide; [|done].
    destruct (w !! Z.to_nat (c' - 10)) as [y|] eqn:E; [|done]. intros [= <-].
    rewrite lookup_app_l by (by eapply lookup_lt_Some). rewrite E. cbn.
    by rewrite take_app_le by (apply lookup_lt_Some in E; lia).
Qed.

Definition fleet_due : fleet splits_world := (λ g, (g, [])) <$> fleet_ex.

Lemma fleet_due_in_step : in_step map_moved fleet_due.
Proof.
  split; [exact fleet_ex_ok|]. exists 0%nat. repeat constructor; cbn; try lia; try done; try (vm_compute; congruence).
  all: intros n; cbn; lia.
Qed.

Lemma world_job_comm_correct_witness : ∃ act g' w',
  is_file_update_set (process_of 2 1, [] : splits_world) = Done act (g', w') ∧
  members standard_split (updated_fleet fleet_due) 2 (world_job_comm (node g')) = [0; 2]%nat.
Proof.
  destruct (world_job_comm_correct standard_split map_moved fleet_due 2 (process_of 2 1, []) 0 1
    (MkGoJob 1 [0; 2]) 0 [2]) as (act & g' & w' & Hrun & _); [exact fleet_due_in_step|done..|].
  exists act, g', w'. split; [exact Hrun|]. vm_compute in Hrun. injection Hrun as _ <- _. vm_compute. reflexivity.
Defined.

Lemma active_comm_correct_witness : ∃ act g' w',
  is_file_update_set (process_of 1 1, [] : splits_world) = Done act (g', w') ∧
  members standard_split (updated_fleet fleet_due) 1 (active_comm (node g')) = [0; 1]%nat.
Proof.
  destruct (active_comm_correct standard_split map_moved fleet_due 1 (process_of 1 1, []) 1 0
    (MkGoJob 0 [1])) as (act & g' & w' & Hrun & Hgroup & _); [exact fleet_due_in_step|done..|].
  exists act, g', w'. split; [exact Hrun|exact Hgroup].
Defined.

