(* ===== verification/Lifecycle.v ===== *)
(** * The life of a process

    The tables and the role of a process change when it starts ([init_node],
    called by [MPI_Init]),
    when a new map is applied ([is_file_update_set]) and when a failure is
    handled ([rep_errhandler]), in any order.  This file puts these together:
    [step] is one of them, in an environment that keeps its promises (the
    manager writes maps of the processes there are, and the shrunk world
    numbers the survivors), and every state the steps reach is consistent. *)

From Stdlib Require Import Ascii.
From S2P Require Import Prelude Shared Mpi Memory Stat MapFile Comm Ulfm Update.

(** ** Consistent processes *)

(** [rank_2_job] maps the workers of each job to the job. *)
Definition indexed (js : list Job) (a : list cell) : Prop :=
  ∀ k j r, js !! k = Some j → r ∈ workers j → aload a r = Some (Z.of_nat k).

(** The process is a worker of its job, and master iff it is the first one. *)
Record role (js : list Job) (n : Node) : Prop := {
  role_nonneg : 0 ≤ job_id n;
  role_job : ∃ j, js !! Z.to_nat (job_id n) = Some j ∧ rank n ∈ workers j ∧
    (node_checkpoint_master n = YES ↔ head (workers j) = Some (rank n))
}.

(** The globals of a process in a world of [size] processes. *)
Definition process_ok (size : Z) (g : globals) : Prop :=
  ckpt_restore g = RESTORE_NO ∧
  ∃ js a ign, tables size js a ign g ∧ indexed js a ∧ role js (node g).

(** A map of the processes of the world: it lists the process, and when it does
    not mark its job as changed, that job is the one the process is in. *)
Record map_fits (size : Z) (jm : list GoJob) (g : globals) : Prop := {
  mf_wf : wf_map size jm;
  mf_NoDup : NoDup (all_ranks jm);
  mf_placed : ∃ k i j, placed jm (rank (node g)) k i j ∧
    (Modified j = 1 ∨ job_id (node g) = Z.of_nat k ∧ jobs_count (node g) = Z.of_nat (length jm))
}.

(** ** A map gives a consistent process *)
Lemma wf_map_mono c c' jm : c ≤ c' → wf_map c jm → wf_map c' jm.
Proof.
  intros Hc [Hj Hn Ht]. split; [|done|done]. eapply Forall_impl; [exact Hj|].
  intros j [H1 H2 H3 H4]. split; [done|done|done|].
  eapply Forall_impl; [exact H4|]. intros r [H5 H6]. split; [lia|done].
Qed.

Definition job_table (jm : list GoJob) : list Job := imap (λ k j, job_of (Z.of_nat k) j) jm.

Lemma jobs_of_table jm : jobs_of jm = Some <$> job_table jm.
Proof. unfold jobs_of, job_table. by rewrite fmap_imap. Qed.

Lemma job_table_lookup jm k j :
  job_table jm !! k = Some j ↔ ∃ gj, jm !! k = Some gj ∧ j = job_of (Z.of_nat k) gj.
Proof.
  unfold job_table. rewrite list_lookup_imap. destruct (jm !! k) as [gj|]; simpl; naive_solver.
Qed.

Lemma workers_job_of k j : workers (job_of k j) = RankList j.
Proof. unfold job_of. rewrite <-(app_nil_r (Some <$> RankList j)). apply workers_app. Qed.

Lemma workers_table jm : workers <$> job_table jm = RankList <$> jm.
Proof.
  apply list_eq. intros k. unfold job_table. rewrite !list_lookup_fmap, list_lookup_imap.
  destruct (jm !! k); simpl; [|done]. by rewrite workers_job_of.
Qed.

Lemma all_ranks_range size jm : wf_map size jm → Forall (λ r, 0 ≤ r < size) (all_ranks jm).
Proof.
  intros [Hj _ _]. unfold all_ranks. rewrite Forall_concat, Forall_fmap.
  eapply Forall_impl; [exact Hj|]. intros j [_ _ _ Hr]. eapply Forall_impl; [exact Hr|].
  by intros ? [].
Qed.

Section parsed.
Context (size : Z) (jm : list GoJob) (g : globals) (Hfit : map_fits size jm g).

Lemma fits_jobs_count : jobs_count (node (parsed jm g)) = Z.of_nat (length jm).
Proof.
  destruct (mf_placed _ _ _ Hfit) as (k & i & j & Hp & Hm).
  rewrite (parsed_jobs_count _ _ _ _ _ (mf_NoDup _ _ _ Hfit) Hp).
  destruct Hm as [-> | [_ Hc]]; [done|by destruct (Modified j =? 1)].
Qed.

Lemma parsed_role : role (job_table jm) (node (parsed jm g)).
Proof.
  pose proof (mf_NoDup _ _ _ Hfit) as Hnd.
  destruct (mf_placed _ _ _ Hfit) as (k & i & j & Hp & Hm).
  destruct (parsed_same_place jm g) as (Hrank & _ & _).
  assert (job_id (node (parsed jm g)) = Z.of_nat k) as Hk.
  { rewrite (parsed_job_id _ _ _ _ _ Hnd Hp). destruct Hm as [-> | [Hk _]]; [done|].
    by destruct (Modified j =? 1). }
  destruct Hp as [Hj Hr]. split; [rewrite Hk; apply Nat2Z.is_nonneg|]. exists (job_of (Z.of_nat k) j).
  rewrite Hk, Nat2Z.id, workers_job_of, Hrank. split; [apply job_table_lookup; by exists j|].
  split; [by eapply list_elem_of_lookup_2|].
  rewrite (parsed_master jm g k i j Hnd (conj Hj Hr)), head_lookup.
  assert (NoDup (RankList j)) as Hndj.
  { unfold all_ranks in Hnd. apply list_elem_of_lookup_2 in Hj.
    apply list_elem_of_split in Hj as (l1 & l2 & ->). rewrite fmap_app, concat_app in Hnd.
    apply NoDup_app in Hnd as (_ & _ & Hnd). cbn in Hnd. by apply NoDup_app in Hnd as (? & _ & _). }
  destruct i as [|i]; simpl; [done|]. split; [done|]. intros H0.
  by pose proof (NoDup_lookup _ _ _ _ Hndj H0 Hr).
Qed.

Context (Ha : size ≤ Z.of_nat (length (r2j_array (CountTotalRanks jm) g))).
Abbreviation a := (r2j_jobs 0 jm (r2j_array (CountTotalRanks jm) g)) (only parsing).

Lemma fits_map_for : map_for jm g.
Proof. eapply wf_map_mono; [exact Ha|]. apply Hfit. Qed.

Lemma parsed_indexed : indexed (job_table jm) a.
Proof.
  intros k j r (gj & Hk & ->)%job_table_lookup Hr. rewrite workers_job_of in Hr.
  pose proof (all_ranks_range _ _ (mf_wf _ _ _ Hfit)) as Hall.
  assert (r ∈ all_ranks jm) as Hin.
  { apply list_elem_of_lookup in Hr as [i Hi]. apply all_ranks_placed. by exists k, i, gj. }
  assert (0 ≤ r < size) as Hr0 by (rewrite Forall_forall in Hall; by apply Hall).
  apply aload_Some; [lia|]. apply (r2j_jobs_in 0 jm _ k gj); [apply Hfit| |done|done].
  eapply Forall_impl; [exact Hall|]. simpl. lia.
Qed.

Context (ign : list cell) (Hign : rank_ignore_list g = Some ign) (Hi : size ≤ Z.of_nat (length ign)).

Lemma parsed_tables : tables size (job_table jm) a ign (parsed jm g).
Proof.
  pose proof (mf_wf _ _ _ Hfit) as [Hj _ _].
  split; [by simpl; rewrite jobs_of_table|done|done| | | | |done|].
  - rewrite fits_jobs_count. unfold job_table. by rewrite length_imap.
  - apply Forall_forall. intros j (k & (gj & Hk & ->)%job_table_lookup)%list_elem_of_lookup.
    exists (RankList gj), []. rewrite app_nil_r. split; [done|].
    rewrite Forall_forall in Hj. apply list_elem_of_lookup_2, Hj in Hk as [_ _ _ Hr].
    eapply Forall_impl; [exact Hr|]. by intros ? [].
  - apply Forall_forall. intros j (k & (gj & Hk & ->)%job_table_lookup)%list_elem_of_lookup.
    rewrite workers_job_of. rewrite Forall_forall in Hj. by apply list_elem_of_lookup_2, Hj in Hk as [].
  - by rewrite length_r2j_jobs.
  - rewrite workers_table. apply Hfit.
Qed.
End parsed.

(** ** A repair keeps the process consistent

    The survivors have ranks below the size of the new world. *)
Section repaired.
Context `{MpiConst} (size size' : Z) (tr : list Z) (js : list Job) (a ign : list cell) (g : globals).
Context (Htr : translation size tr) (Hle : size' ≤ size).
Context (Hnew : Forall (λ t, t = MPI_UNDEFINED ∨ 0 ≤ t < size') tr).
Context (Ht : tables size js a ign g) (Hal : Forall (alive tr) js).

Lemma compacted_lookup k j :
  (compacted tr <$> js) !! k = Some j →
  ∃ j0, js !! k = Some j0 ∧ j = compacted tr j0 ∧ workers j = survivors tr (workers j0).
Proof.
  rewrite list_lookup_fmap. intros (j0 & Hj0 & ->)%fmap_Some. exists j0.
  pose proof (tab_ok _ _ _ _ _ Ht) as Hok. rewrite Forall_forall in Hok.
  split; [done|]. split; [done|]. eapply job_ok_compacted; [|exact Hnew].
  apply Hok. by eapply list_elem_of_lookup_2.
Qed.

Lemma repaired_tables :
  tables size' (compacted tr <$> js) (retable 0 (new_workers tr js) a)
    (r2j_job 0 (concat (new_workers tr js)) ign) (updated tr js a ign g).
Proof.
  destruct (updated_tables _ _ _ _ _ _ Htr Ht Hal) as [H1 H2 H3 H4 _ H6 H7 H8 H9].
  split; try done; [|lia|lia].
  rewrite Forall_fmap. eapply Forall_impl; [apply Ht|]. intros j Hj.
  by eapply job_ok_compacted; [|exact Hnew].
Qed.

Lemma repaired_role r :
  role js (node g) → translate tr (rank (node g)) = Some r →
  role (compacted tr <$> js) (node (updated tr js a ign g)).
Proof.
  intros [Hj0 (j & Hj & Hin & _)] Hr. simpl.
  assert ((compacted tr <$> js) !! Z.to_nat (job_id (node g)) = Some (compacted tr j)) as Hc
    by (by rewrite list_lookup_fmap, Hj).
  destruct (compacted_lookup _ _ Hc) as (j1 & Hj1 & _ & Hw). assert (j1 = j) as -> by congruence.
  split; [done|]. exists (compacted tr j). split; [done|]. rewrite Hw.
  unfold renumbered. rewrite Hr. cbn. rewrite Hj. cbn. split.
  - apply list_elem_of_omap. by exists (rank (node g)).
  - by destruct (decide _).
Qed.
End repaired.

(** ** The steps *)
Section steps.
Context {W : Type} `{MpiConst} `{PmpiSplit W} `{Ulfm W} `{Files W}.

(** The size of the world, the globals, and what is outside the process. *)
Abbreviation state := (Z * globals * W)%type.

(** What [is_file_update_set] finds when it reads the map. *)
Definition map_read (g : globals) (w : W) : option (list ascii) :=
  map_text (PMPI_Allreduce_sum (request_pending g) (rep_mpi_comm_world (node g)) w).2.

(** The processes [note_failures] marks are workers of some job. *)
Definition known_failures (g : globals) (w : W) : Prop :=
  ∃ js, job_list g = Some (Some <$> js) ∧
    ∀ r, r ∈ noted (failed_ranks (rep_mpi_comm_world (node g)) w).1.2 →
      r ∈ concat (workers <$> js).

(** The world after a shrink: every process has an entry, and the survivors
    are numbered below the new size; the process itself is one of them. *)
Record shrinks (size size' : Z) (g : globals) (sh : shrinking (W := W)) : Prop := {
  sk_length : Z.of_nat (length (sh_ranks sh)) = size;
  sk_size : size' ≤ size;
  sk_ranks : Forall (λ t, t = MPI_UNDEFINED ∨ 0 ≤ t < size') (sh_ranks sh);
  sk_own : is_Some (translate (sh_ranks sh) (rank (node g)))
}.

Inductive step : state → state → Prop :=
  (** A call that looks for a new map, and finds none, one it cannot use yet, or
      one it applies. *)
  | step_map size g w act g' w' jm :
      map_read g w = Some (WriteToFile jm) → map_fits size jm g → counters_ok g →
      is_file_update_set (g, w) = Done act (g', w') →
      step (size, g, w) (size, g', w')
  (** A failure in a collective call, or one that waited. *)
  | step_repair size size' g w err g' w' :
      err = PROC_SHRINK_PENDING ∨ PMPI_Error_class err w = MPIX_ERR_PROC_FAILED →
      ignore_process_failure g = 0 →
      shrinks size size' g (shrink (rep_mpi_comm_world (node g)) w) →
      rep_errhandler (rep_mpi_comm_world (node g)) err (g, w) = Done tt (g', w') →
      step (size, g, w) (size', g', w')
  (** A failure in a point-to-point call. *)
  | step_note size g w err g' w' :
      PMPI_Error_class err w = MPIX_ERR_PROC_FAILED →
      ignore_process_failure g ≠ 0 → known_failures g w →
      rep_errhandler (rep_mpi_comm_world (node g)) err (g, w) = Done tt (g', w') →
      step (size, g, w) (size, g', w')
  (** The counters and flags the calls set for themselves. *)
  | step_ignore size g w v : step (size, g, w) (size, set_ignore_process_failure v g, w)
  | step_pending size g w v : step (size, g, w) (size, set_process_shrinking_pending v g, w)
  | step_request size g w n : step (size, g, w) (size, set_request_pending n g, w)
  (** The rest of the world moves on. *)
  | step_world size g w w' : step (size, g, w) (size, g, w').

Lemma tables_readable size js a ign g : tables size js a ign g → jobs_readable g.
Proof.
  intros Ht i Hi. rewrite (tab_count _ _ _ _ _ Ht) in Hi.
  destruct (lookup_lt_is_Some_2 js (Z.to_nat i)) as [j Hj]; [lia|].
  exists (Some <$> js), j. split; [apply Ht|].
  apply aload_Some; [lia|]. by rewrite list_lookup_fmap, Hj.
Qed.

Lemma tables_array size js a ign g jm :
  tables size js a ign g → r2j_array (CountTotalRanks jm) g = a.
Proof. intros Ht. unfold r2j_array. by rewrite (tab_r2j _ _ _ _ _ Ht). Qed.

(** *** A new map *)
Lemma process_ok_same size g g' :
  process_ok size g → ckpt_restore g' = RESTORE_NO →
  job_list g' = job_list g → rank_2_job g' = rank_2_job g → rank_ignore_list g' = rank_ignore_list g →
  jobs_count (node g') = jobs_count (node g) → job_id (node g') = job_id (node g) →
  rank (node g') = rank (node g) → node_checkpoint_master (node g') = node_checkpoint_master (node g) →
  process_ok size g'.
Proof.
  intros [_ (js & a & ign & [T1 T2 T3 T4 T5 T6 T7 T8 T9] & Hidx & [R1 R2])] Ec Ej Ea Ei En E1 E2 E3.
  split; [done|]. exists js, a, ign. split; [|split; [done|split; rewrite ?E1, ?E2, ?E3; done]].
  split; rewrite ?En, ?Ej, ?Ea, ?Ei; done.
Qed.

Lemma process_ok_frame size g g' :
  process_ok size g → node g' = node g → job_list g' = job_list g → rank_2_job g' = rank_2_job g →
  rank_ignore_list g' = rank_ignore_list g → ckpt_restore g' = ckpt_restore g → process_ok size g'.
Proof.
  intros Hok En Ej Ea Ei Ec. pose proof Hok as [Hc _].
  apply (process_ok_same size g); rewrite ?En; congruence.
Qed.

Lemma apply_map_ok size jm g w :
  process_ok size g → map_fits size jm g → counters_ok g → map_text w = Some (WriteToFile jm) →
  ∃ act g' w', apply_map (g, w) = Done act (g', w') ∧ process_ok size g'.
Proof.
  intros [Hc (js & a & ign & Ht & _ & _)] Hfit Hcnt Htext.
  pose proof (tables_array _ _ _ _ _ jm Ht) as Ha.
  assert (size ≤ Z.of_nat (length (r2j_array (CountTotalRanks jm) g))) as Hla by (rewrite Ha; apply Ht).
  pose proof (fits_map_for size jm g Hfit Hla) as Hfor.
  destruct (apply_map_spec jm g w Hc (tables_readable _ _ _ _ _ Ht) Hfor Htext Hcnt)
    as (g' & w1 & w2 & Hrun & _ & _ & _ & E1 & E2 & E3 & E4 & E5 & _ & _ & _ & _ & _ & E6 & E7 & E8).
  eexists _, g', _. split; [exact Hrun|]. split; [done|].
  pose proof (parsed_tables size jm g Hfit Hla ign (tab_ign _ _ _ _ _ Ht)
    (tab_ign_length _ _ _ _ _ Ht)) as [T1 T2 T3 T4 T5 T6 T7 T8 T9].
  eexists (job_table jm), _, ign. split; [|split].
  - split; [by rewrite E1, T1|by rewrite E2, T2|by rewrite E7, (tab_ign _ _ _ _ _ Ht)|by rewrite E6, T4|..];
      done.
  - by apply (parsed_indexed size jm g).
  - destruct (parsed_role size jm g Hfit) as [R1 (j & R2 & R3 & R4)].
    split; [by rewrite E3|]. exists j. by rewrite E3, E4, E5.
Qed.

Lemma update_ok size jm g w :
  process_ok size g → map_fits size jm g → counters_ok g → map_read g w = Some (WriteToFile jm) →
  ∃ act g' w', is_file_update_set (g, w) = Done act (g', w') ∧ process_ok size g'.
Proof.
  intros Hok Hfit Hcnt Hread. pose proof Hok as [Hc _]. unfold map_read in Hread.
  unfold is_file_update_set. cbn [bind]. rewrite (is_file_modified_spec g w Hc).
  destruct (last_file_update g <? st_mtime w); [|by exists NotModified, g, w].
  cbn [bind gets fst snd Z.eqb]. set (g1 := set_last_file_update (st_mtime w) g).
  assert (process_ok size g1) as Hok1 by by apply (process_ok_frame size g).
  change (request_pending g1) with (request_pending g).
  change (rep_mpi_comm_world (node g1)) with (rep_mpi_comm_world (node g)).
  destruct (PMPI_Allreduce_sum _ _ w) as [v w1]. cbn [bind].
  destruct (v =? 0); cbn [negb].
  - assert (map_fits size jm g1) by (destruct Hfit; by split).
    by apply (apply_map_ok size jm g1 w1).
  - eexists Retry, _, w1. split; [reflexivity|]. by apply (process_ok_frame size g1).
Qed.

(** *** The start *)
Section start.
Context (jm : list GoJob) (g : globals) (w : W).
Abbreviation n := (PMPI_Comm_size (rep_mpi_comm_world (node g)) w) (only parsing).
Context (Hc : ckpt_restore g = RESTORE_NO) (Hj : jobs_count (node g) = 0) (Ha : rank_2_job g = None).
Context (Hn : CountTotalRanks jm = n) (Hfit : map_fits n jm (booted g w)).

Lemma init_array : n ≤ Z.of_nat (length (r2j_array (CountTotalRanks jm) (booted g w))).
Proof.
  unfold r2j_array. change (rank_2_job (booted g w)) with (rank_2_job g). rewrite Ha, length_replicate. lia.
Qed.

Lemma init_run : ∃ a b w',
  let n := set_world_job_comm b (set_active_comm a (node (parsed jm (booted g w)))) in
  init_node (Some (WriteToFile jm)) (g, w) =
    Done tt (set_node (set_node_transit_state NODE_DATA_NONE n) (parsed jm (booted g w)), w') ∧
  comms_made n w w'.
Proof.
  set (g1 := booted g w).
  assert (parse_map_file (Some (WriteToFile jm)) g1 = Done tt (parsed jm g1)) as Hparse.
  { apply parse_map_file_parsed; [done| |apply (fits_map_for n); [done|exact init_array]].
    intros i. cbn. rewrite Hj. lia. }
  unfold init_node. cbn [bind gets fst snd of_globals zoom upd_node modify].
  rewrite (of_globals_Done _ _ _ _ _ Hparse). cbn [bind].
  destruct (update_comms_made (parsed jm g1) w) as (a & b & w2 & Hcomms & Hmade). rewrite Hcomms.
  by exists a, b, w2.
Qed.

Lemma init_ok g' w' :
  init_node (Some (WriteToFile jm)) (g, w) = Done tt (g', w') → process_ok n g'.
Proof.
  destruct init_run as (a & b & w2 & -> & Hmade). intros [= <- <-].
  pose proof (parsed_tables n jm _ Hfit init_array (replicate (Z.to_nat n) (Some 0)) eq_refl)
    as [T1 T2 T3 T4 T5 T6 T7 T8 T9]; [rewrite length_replicate; lia|].
  split; [done|]. eexists (job_table jm), _, _. split; [by split|].
  split; [apply (parsed_indexed n); [done|exact init_array]|].
  destruct (parsed_role n jm _ Hfit) as [R1 R2]. by split.
Qed.

End start.



(** *** A failure *)
Lemma role_ranges size js a ign g :
  tables size js a ign g → role js (node g) →
  0 ≤ rank (node g) < size ∧ 0 ≤ job_id (node g) < Z.of_nat (length js).
Proof.
  intros Ht [Hj0 (j & Hj & Hin & _)]. pose proof (tab_ok _ _ _ _ _ Ht) as Hok. rewrite Forall_forall in Hok.
  split; [|split; [done|]; apply lookup_lt_Some in Hj; lia].
  eapply job_ok_range; [|exact Hin]. apply Hok. by eapply list_elem_of_lookup_2.
Qed.

Lemma repair_ok `{!UlfmLaws} size size' g w err :
  let world := rep_mpi_comm_world (node g) in
  process_ok size g → err = PROC_SHRINK_PENDING ∨ PMPI_Error_class err w = MPIX_ERR_PROC_FAILED →
  ignore_process_failure g = 0 → shrinks size size' g (shrink world w) →
  (∃ g' w', rep_errhandler world err (g, w) = Done tt (g', w') ∧ process_ok size' g') ∨
  (∃ s, rep_errhandler world err (g, w) = Stop (Aborted 200) s).
Proof.
  intros world (Hc & js & a & ign & Ht & Hidx & Hrole) Herr Hign [Hlen Hle Hnew [r Hr]].
  pose proof (shrink_translation world w) as Htr. rewrite Hlen in Htr.
  destruct (role_ranges _ _ _ _ _ Ht Hrole) as [Hrank Hjob].
  unfold world. rewrite (rep_errhandler_run g w err Herr Hign). fold world.
  rewrite <-Hlen in Ht, Hrank. pose proof (repair_world_spec js a ign g w r Ht Hrank Hr Hjob) as Hrun.
  rewrite Hlen in Ht. fold world in Hrun.
  destruct (decide (Forall (alive (sh_ranks (shrink world w))) js)) as [Hal|Hal]; [left|by right].
  destruct Hrun as (g' & w' & Hrun & Hreb). exists g', w'. split; [done|].
  destruct Hreb as (world' & x & y & ? & ? & ? & ? & ? & _ & _ & _ & _ & ->).
  pose proof (repaired_tables size size' _ js a ign g Htr Hle Hnew Ht Hal) as [T1 T2 T3 T4 T5 T6 T7 T8 T9].
  split; [done|]. eexists _, _, _. split; [by split|]. split.
  - intros k j1 t Hk Hin1. by eapply (updated_indexed size _ js a ign g k j1 t).
  - pose proof (repaired_role size size' _ js a ign g Hnew Ht r Hrole Hr) as [R1 R2]. by split.
Qed.

Lemma note_ok size g w err :
  process_ok size g → PMPI_Error_class err w = MPIX_ERR_PROC_FAILED → ignore_process_failure g ≠ 0 →
  known_failures g w →
  ∃ g' w', rep_errhandler (rep_mpi_comm_world (node g)) err (g, w) = Done tt (g', w') ∧ process_ok size g'.
Proof.
  intros (Hc & js & a & ign & Ht & Hidx & Hrole) Herr Hign (js' & Hjs' & Hknown).
  pose proof (tab_jobs _ _ _ _ _ Ht) as Hjs.
  assert (js' = js) as -> by (rewrite Hjs in Hjs'; injection Hjs' as E; by apply (inj (fmap Some)) in E).
  pose proof (note_failures_spec js a ign g w) as Hrun.
  destruct (failed_ranks _ w) as [[failed ranks] w'] eqn:Ef. cbn in Hknown.
  pose proof (tables_range _ _ _ _ _ Ht) as Hrange. rewrite Forall_forall in Hrange.
  specialize (Hrun Hjs (tab_r2j _ _ _ _ _ Ht) (tab_ign _ _ _ _ _ Ht)).
  eexists _, _. split.
  { unfold rep_errhandler. cbn [bind gets ensure fst snd].
    assert ((if err =? PROC_SHRINK_PENDING then MPIX_ERR_PROC_FAILED else PMPI_Error_class err w)
            = MPIX_ERR_PROC_FAILED) as -> by (by destruct (err =? _)).
    rewrite Z.eqb_refl. cbn [bind fst snd].
    rewrite (proj2 (Z.eqb_neq _ _) Hign), Z.eqb_refl. apply Hrun.
    intros r Hr%Hknown. specialize (Hrange _ Hr). pose proof (tab_ign_length _ _ _ _ _ Ht).
    split; [lia|]. apply list_elem_of_In, in_concat in Hr as (rs & Hrs & Hr).
    apply list_elem_of_In, list_elem_of_fmap in Hrs as (j & -> & Hj). apply list_elem_of_In in Hr.
    apply list_elem_of_lookup in Hj as (k & Hk). exists (Z.of_nat k).
    split; [by eapply Hidx|]. apply lookup_lt_Some in Hk. lia. }
  destruct Ht as [T1 T2 T3 T4 T5 T6 T7 T8 T9]. split; [done|].
  eexists js, a, _. split; [|by split]. split; try done. by rewrite length_r2j_job.
Qed.

Lemma step_ok `{!UlfmLaws} s s' :
  step s s' → process_ok s.1.1 s.1.2 → process_ok s'.1.1 s'.1.2.
Proof.
  intros Hstep. destruct Hstep as
    [size g w act g' w' jm Hread Hfit Hcnt Hrun|size size' g w err g' w' Herr Hign Hsk Hrun|
     size g w err g' w' Herr Hign Hk Hrun|size g w v|size g w v|size g w n|]; intros Hok; cbn [fst snd] in *.
  - destruct (update_ok size jm g w Hok Hfit Hcnt Hread) as (? & ? & ? & E & ?). rewrite Hrun in E. by simplify_eq.
  - destruct (repair_ok size size' g w err Hok Herr Hign Hsk) as [(? & ? & E & ?)|(? & E)];
      rewrite Hrun in E; by simplify_eq.
  - destruct (note_ok size g w err Hok Herr Hign Hk) as (? & ? & E & ?). rewrite Hrun in E. by simplify_eq.
  - by apply (process_ok_frame size g).
  - by apply (process_ok_frame size g).
  - by apply (process_ok_frame size g).
  - done.
Qed.

(** By induction over the steps. *)
Lemma steps_ok `{!UlfmLaws} s s' :
  rtc step s s' → process_ok s.1.1 s.1.2 → process_ok s'.1.1 s'.1.2.
Proof. induction 1 as [s|s1 s2 s3 Hstep _ IH]; [done|]. intros Hok. by eapply IH, step_ok. Qed.
End steps.

(** ** Properties *)

(** C3: the invariant of a process.  From a consistent process, any sequence of new
    maps, repaired failures, noted failures and calls, in any order, reaches
    only consistent processes: the tables are those of well-formed jobs whose
    ranks are in the world and distinct, [rank_2_job] names the job of every
    worker, and the process is a worker of its own job and its checkpoint
    master exactly when it is the first. *)
Theorem process_invariant {W} `{MpiConst} `{PmpiSplit W} `{Ulfm W} `{Files W} `{!UlfmLaws}
    (s s' : Z * globals * W) :
  rtc step s s' → process_ok s.1.1 s.1.2 → process_ok s'.1.1 s'.1.2.
Proof. apply steps_ok. Qed.

(** C4: no map and no failure takes a process that started from a good map to
    undefined behaviour.  A process that [init_node] set up, however many steps
    it made, returns from [is_file_update_set] when the map it reads fits;
    returns from the handler, or aborts because a job has no living worker,
    when a process of the world failed; and marks the failures and returns
    when they are ignored. *)
Theorem process_progress {W} `{MpiConst} `{PmpiSplit W} `{Ulfm W} `{Files W} `{!UlfmLaws}
    jm0 g0 (w0 : W) g w size g' w' :
  let comm := rep_mpi_comm_world (node g0) in
  let n := PMPI_Comm_size comm w0 in
  ckpt_restore g0 = RESTORE_NO → jobs_count (node g0) = 0 → rank_2_job g0 = None →
  CountTotalRanks jm0 = n → map_fits n jm0 (booted g0 w0) →
  init_node (Some (WriteToFile jm0)) (g0, w0) = Done tt (g, w) →
  rtc step (n, g, w) (size, g', w') →
  (∀ jm, map_read g' w' = Some (WriteToFile jm) → map_fits size jm g' → counters_ok g' →
     ∃ act s, is_file_update_set (g', w') = Done act s) ∧
  (∀ err size', err = PROC_SHRINK_PENDING ∨ PMPI_Error_class err w' = MPIX_ERR_PROC_FAILED →
     let world := rep_mpi_comm_world (node g') in
     ignore_process_failure g' = 0 → shrinks size size' g' (shrink world w') →
     ∃ s, rep_errhandler world err (g', w') = Done tt s ∨
          rep_errhandler world err (g', w') = Stop (Aborted 200) s) ∧
  (∀ err, PMPI_Error_class err w' = MPIX_ERR_PROC_FAILED → ignore_process_failure g' ≠ 0 →
     known_failures g' w' →
     ∃ s, rep_errhandler (rep_mpi_comm_world (node g')) err (g', w') = Done tt s).
Proof.
  intros comm n Hc Hj Ha Hn Hfit Hinit Hsteps.
  assert (process_ok n g) as Hok by by eapply (init_ok jm0 g0 w0).
  assert (process_ok size g') as Hok'
    by by apply (steps_ok (n, g, w) (size, g', w')).
  split; [|split].
  - intros jm Hread Hf Hcnt. destruct (update_ok size jm g' w' Hok' Hf Hcnt Hread) as (act & x & y & E & _).
    by exists act, (x, y).
  - intros err size' Herr world Hign Hsk.
    destruct (repair_ok size size' g' w' err Hok' Herr Hign Hsk) as [(x & y & E & _)|[x E]];
      [exists (x, y); by left|exists x; by right].
  - intros err Herr Hign Hk. destruct (note_ok size g' w' err Hok' Herr Hign Hk) as (x & y & E & _).
    by exists (x, y).
Qed.


(** ** Witnesses: the four processes of [Ulfm], and a map that is always new *)
#[local] Existing Instance small_ulfm.
#[local] Existing Instance small_split.
#[local] Existing Instance small_ulfm_laws.

Definition map_four : list GoJob := [MkGoJob 1 [0; 2]; MkGoJob 1 [1; 3]].

Definition map_files (saved : bool) : Files ulfm_world := {|
  st_mtime _ := 7;
  map_text _ := Some (WriteToFile map_four);
  ckpt_access _ _ := saved;
  PMPI_File_write_at _ _ _ w := w;
  stack_top _ := 4096;
  gethostname _ _ := hostname_ex;
  getpid _ := 77;
  PMPI_Allreduce_sum v _ w := (v, w)
|}.
#[local] Instance new_map : Files ulfm_world := map_files false.

Lemma crash_ok ignore : process_ok 4 (crash_globals ignore).
Proof.
  split; [done|]. exists crash_jobs, crash_r2j, (replicate 4 (Some 0)). split; [apply crash_tables|].
  split.
  - intros k j r Hk Hr. destruct k as [|[|k]]; simpl in Hk; simplify_eq;
      unfold workers in Hr; simpl in Hr;
      repeat (apply elem_of_cons in Hr as [->|Hr]; [reflexivity|]); by apply elem_of_nil in Hr.
  - split; [done|]. exists (MkJob 0 2 [Some 0; Some 2]). split; [done|]. split; [|done].
    apply list_elem_of_In. simpl. tauto.
Qed.

Lemma process_invariant_witness : ∃ g w,
  rtc step (4, crash_globals 0, crash_world [1]) (3, set_ignore_process_failure 1 g, w) ∧
  rank (node g) = 1 ∧ process_ok 3 (set_ignore_process_failure 1 g).
Proof.
  destruct (rep_errhandler 10 75 (crash_globals 0, crash_world [1])) as [[] [g w]|? ?] eqn:E;
    [|by vm_compute in E].
  assert (rank (node g) = 1) as Hr by (vm_compute in E; by injection E as <- <-).
  assert (rtc step (4, crash_globals 0, crash_world [1]) (3, set_ignore_process_failure 1 g, w)) as Hs.
  { eapply rtc_l.
    { eapply (step_repair 4 3 (crash_globals 0) (crash_world [1]) 75).
      - by right.
      - done.
      - split; [by vm_compute|lia| |by eexists].
        apply (bool_decide_eq_true (Forall (λ t, t = MPI_UNDEFINED ∨ 0 ≤ t < 3) [0; MPI_UNDEFINED; 1; 2])).
        vm_compute. reflexivity.
      - exact E. }
    eapply rtc_l; [apply step_ignore|apply rtc_refl]. }
  exists g, w. split; [exact Hs|]. split; [exact Hr|].
  exact (process_invariant _ _ Hs (crash_ok 0)).
Defined.

Lemma map_four_fits g : rank (node g) = 0 → map_fits 4 map_four g.
Proof.
  intros Hr. split.
  - split; repeat constructor; by vm_compute.
  - apply (bool_decide_unpack _). vm_compute. done.
  - exists 0%nat, 0%nat, (MkGoJob 1 [0; 2]). rewrite Hr. split; [done|by left].
Qed.

Lemma process_progress_witness : ∃ g w act s,
  init_node (Some (WriteToFile map_four))
    (set_node (set_rep_mpi_comm_world 10 node0) globals0, crash_world []) = Done tt (g, w) ∧
  is_file_update_set (g, w) = Done act s.
Proof.
  set (g0 := set_node (set_rep_mpi_comm_world 10 node0) globals0).
  destruct (init_node (Some (WriteToFile map_four)) (g0, crash_world [])) as [[] [g w]|? ?] eqn:E;
    [|by vm_compute in E].
  assert (rank (node g) = 0 ∧ counters_ok g) as [Hr Hc].
  { vm_compute in E. injection E as <- <-. split; [done|]. repeat split; vm_compute; congruence. }
  destruct (process_progress map_four g0 (crash_world []) g w 4 g w eq_refl eq_refl eq_refl)
    as [Hp _].
  - reflexivity.
  - apply map_four_fits. reflexivity.
  - exact E.
  - apply rtc_refl.
  - destruct (Hp map_four eq_refl (map_four_fits g Hr) Hc) as (act & s & Hrun).
    exists g, w, act, s. split; [reflexivity|exact Hrun].
Defined.

