(* ===== verification/Rng.v ===== *)
(** * Random numbers: [src/manager/rng/uniform.go]

    The tools draw numbers from [math/rand] through [Int32n].  Which numbers is
    a parameter of the model; two classes state what is relied on of them. *)

From S2P Require Import Prelude.

(** A panic of Go ends the process with status 2. *)
Definition panic {S A} : M S A := halt (Exited 2).

(** [Int31n] of [math/rand]. *)
Class Rand (R : Type) : Type := Int31n : Z → R → Z * R.
Class RandLaws {R : Type} `{Rand R} : Prop :=
  Int31n_range n r : 0 < n → 0 ≤ (Int31n n r).1 < n.

(** Whatever the state of the generator, each value below [n] is among its
    next [turns] draws. *)
Fixpoint drawn {R : Type} `{Rand R} (n : Z) (i : nat) (r : R) : Z :=
  match i with O => (Int31n n r).1 | S i' => drawn n i' (Int31n n r).2 end.
Class FairRand {R : Type} `{Rand R} (n : Z) (turns : nat) : Prop :=
  fair r k : 0 ≤ k < n → ∃ i, (i < turns)%nat ∧ drawn n i r = k.

Definition Int32n {R : Type} `{Rand R} (n : Z) : M R Z :=
  if n <=? 0 then panic
  else λ r, let '(v, r') := Int31n n r in Done v r'.

Lemma Int32n_run {R : Type} `{Rand R} n (r : R) :
  0 < n → Int32n n r = Done (Int31n n r).1 (Int31n n r).2.
Proof. intros Hn. unfold Int32n. rewrite (proj2 (Z.leb_gt _ _) Hn). by destruct (Int31n n r). Qed.

(** ** Two generators: draws that are written down, and a counter *)
#[export] Instance script : Rand (list Z) := λ n r,
  match r with v :: r' => (v mod n, r') | [] => (0, []) end.
#[export] Instance script_laws : RandLaws (R := list Z).
Proof. intros n [|v r] Hn; simpl; [lia|]. by apply Z.mod_pos_bound. Qed.

Definition counter : Type := Z.
#[export] Instance counting : Rand counter := λ n r, (r mod n, r + 1).
#[export] Instance counting_laws : RandLaws (R := counter).
Proof. intros n r Hn. by apply Z.mod_pos_bound. Qed.

Lemma counter_drawn n i : ∀ r : counter, 0 < n → drawn n i r = (r + Z.of_nat i) mod n.
Proof.
  induction i as [|i IH]; intros r Hn; simpl; [by rewrite Z.add_0_r|].
  change ((Int31n n r).2) with (r + 1). rewrite IH by done. f_equal. lia.
Qed.

#[export] Instance counter_fair n : FairRand (R := counter) (Z.of_nat n) n.
Proof.
  intros r k Hk. pose proof (Z.mod_pos_bound (k - r) (Z.of_nat n) ltac:(lia)) as Hb.
  exists (Z.to_nat ((k - r) mod Z.of_nat n)). split; [lia|]. rewrite counter_drawn by lia.
  rewrite Z2Nat.id, Zplus_mod_idemp_r by lia. replace (r + (k - r)) with k by lia. by apply Z.mod_small.
Qed.
