(* ===== verification/Manager.v ===== *)
(** * The process manager: [src/manager/manager/manager.go]

    The manager decides which processes run which job.  It deals the ranks out
    to the jobs ([InitJobMap]); in each turn of its loop it takes ranks out of
    random jobs that have more than one ([Choose]), hands them to random jobs
    ([Assign]), writes the map ([WriteToFile]), forgets which jobs it changed
    ([ResetModified]) and reads what the processes reported
    ([InitStackData]).  This file models all of it, and shows that its maps are
    what [parse_map_file] and the splits of the communicators rely on.

    The [map] of jobs has the keys [0 .. j_no - 1] and is a list; of the
    generator only the draws matter. *)

From Stdlib Require Import Strings.Byte Ascii.
From S2P Require Import Prelude Shared Mpi MapFile Comm CommSystem Memory Stat Ulfm Update Lifecycle Rng.

(** ** Data *)
Record ManagedRank : Type := MkRank { Rank : Z; PrevJob : Z; StackAdd : Z }.
Record ManagedJob : Type := MkManagedJob { JobID : Z; Ranks : list ManagedRank; ModifiedBit : Z }.

Definition set_ranks (rs : list ManagedRank) (j : ManagedJob) : ManagedJob :=
  MkManagedJob (JobID j) rs (ModifiedBit j).
Definition set_modified (v : Z) (j : ManagedJob) : ManagedJob :=
  MkManagedJob (JobID j) (Ranks j) v.

(** The state of the manager: the [JobMap], and its generator. *)
Record manager (R : Type) : Type := MkManager {
  JMap : list ManagedJob;
  RepIDx : Z;
  rand : R
}.
Arguments MkManager {R} _ _ _.
Arguments JMap {R} _.
Arguments RepIDx {R} _.
Arguments rand {R} _.

Definition set_jmap {R} (l : list ManagedJob) (m : manager R) : manager R := MkManager l (RepIDx m) (rand m).
Definition set_repidx {R} (i : Z) (m : manager R) : manager R := MkManager (JMap m) i (rand m).
Definition set_rand {R} (r : R) (m : manager R) : manager R := MkManager (JMap m) (RepIDx m) r.

(** What [WriteToFile] prints of a job. *)
Definition printed (j : ManagedJob) : GoJob := MkGoJob (ModifiedBit j) (Rank <$> Ranks j).
Definition map_of {R} (m : manager R) : list GoJob := printed <$> JMap m.

(** ** Operations *)
Definition NewJob (jobID : Z) : ManagedJob := MkManagedJob jobID [] 1.
Definition InsertRank (r : ManagedRank) (j : ManagedJob) : ManagedJob := set_ranks (Ranks j ++ [r]) j.

Section operations.
Context {R : Type} `{Rand R}.

Definition random (n : Z) : M (manager R) Z := zoom rand set_rand (Int32n n).

(** A job of the map; a key that is not there is a nil pointer. *)
Definition GetJob (j : Z) : M (manager R) ManagedJob :=
  let! jobs := gets JMap in
  if j <? 0 then panic else of_option (Exited 2) (jobs !! Z.to_nat j).
Definition put_job (j : Z) (v : ManagedJob) : M (manager R) unit :=
  modify (λ m, set_jmap (<[Z.to_nat j := v]> (JMap m)) m).

Definition GetRank (i : Z) (j : ManagedJob) : ManagedRank :=
  if Z.of_nat (length (Ranks j)) <? i + 1 then MkRank 0 0 0
  else default (MkRank 0 0 0) (Ranks j !! Z.to_nat i).
(** [RemoveI]: the slice behind the element starts after the end when there
    is no such element. *)
Definition RemoveI (i : Z) (j : ManagedJob) : M (manager R) ManagedJob :=
  if Z.of_nat (length (Ranks j)) <? i + 1 then panic
  else ret (set_ranks (delete (Z.to_nat i) (Ranks j)) j).

(** [InitJobMap]: one job after the other gets the next rank. *)
Definition InitJobMap (j_no r_no : Z) : M (manager R) unit :=
  modify (set_jmap (NewJob <$> seqZ 0 j_no)) ;;;
  modify (set_repidx 0) ;;;
  iterM (λ i,
    let! job := GetJob (Z.rem i j_no) in
    put_job (Z.rem i j_no) (InsertRank (MkRank i (-1) 0) job)) (seqZ 0 r_no).

(** One turn of the loop of [Choose]: the ranks that were taken so far. *)
Definition choose_turn (c : list ManagedRank) : M (manager R) (list ManagedRank) :=
  let! jobs := gets JMap in
  let! randomJob := random (wrap32s (Z.of_nat (length jobs))) in
  let! job := GetJob randomJob in
  if Z.of_nat (length (Ranks job)) =? 1 then ret c
  else
    let! randomRankIndex := random 2 in
    let rank := GetRank randomRankIndex job in
    let! job := RemoveI randomRankIndex job in
    put_job randomJob (set_modified 1 job) ;;;
    ret (c ++ [rank]).

Fixpoint choose_loop (turns : nat) (n : Z) (c : list ManagedRank) : M (manager R) (list ManagedRank) :=
  match turns with
  | O => ret c
  | S turns' =>
      if n <=? Z.of_nat (length c) then ret c
      else let! c := choose_turn c in choose_loop turns' n c
  end.

Definition Choose (n : Z) : M (manager R) (list ManagedRank) :=
  let! jobs := gets JMap in
  choose_loop (length jobs / 2) n [].

(** One turn of the loop of [Assign]: whether the rank found a job. *)
Definition assign_turn (r : ManagedRank) : M (manager R) bool :=
  let! jobs := gets JMap in
  let! randomJob := random (wrap32s (Z.of_nat (length jobs))) in
  let! job := GetJob randomJob in
  if Z.of_nat (length (Ranks job)) =? 2 then ret false
  else if PrevJob r =? randomJob then ret false
  else
    let! first := of_option (Exited 2) (head (Ranks job)) in
    if StackAdd first =? StackAdd r then
      put_job randomJob (set_modified 1 (InsertRank r job)) ;;; ret true
    else ret false.

(** The loop runs until every rank has a job; [fuel] bounds its turns. *)
Fixpoint Assign (fuel : nat) (newList : list ManagedRank) : M (manager R) unit :=
  match newList with
  | [] => ret tt
  | r :: rest =>
      match fuel with
      | O => halt NoFuel
      | S fuel' =>
          let! placed := assign_turn r in
          Assign fuel' (if placed : bool then rest else newList)
      end
  end.

Definition ResetModified : M (manager R) unit :=
  modify (λ m, set_jmap (set_modified 0 <$> JMap m) m).

(** *** [InitStackData] *)

(** A [StackAddrRepIdx] read from 16 bytes. *)
Definition stack_info (data : list byte) : Z * Z * Z :=
  (wrap32s (decode (take 4 data)), wrap32s (decode (take 4 (drop 4 data))),
   decode (take 8 (drop 8 data))).

(** The stack address of each rank; the last record of a rank counts. *)
Definition mappings (infos : list (Z * Z * Z)) : gmap Z Z := foldl (λ m '(_, r, a), <[r := a]> m) ∅ infos.

(** [None]: [os.Open] fails, and the manager panics. *)
Definition InitStackData (file : option (list byte)) (onlyRepIDx : bool) : M (manager R) bool :=
  match file with
  | None => panic
  | Some bytes =>
      let infos := stack_info <$> all_records 16 bytes in
      match infos with
      | (idx, _, _) :: _ =>
          if onlyRepIDx then
            let! old := gets RepIDx in
            if idx =? wrap32s old then ret true
            else modify (set_repidx idx) ;;; ret false
          else
            modify (set_repidx (default 0 (fst ∘ fst <$> last infos))) ;;;
            modify (λ m, set_jmap ((λ j, set_ranks
              ((λ r, MkRank (Rank r) (PrevJob r) (default 0 (mappings infos !! wrap32s (Rank r)))) <$> Ranks j) j)
                <$> JMap m) m) ;;;
            ret true
      | [] =>
          modify (set_repidx 0) ;;;
          modify (λ m, set_jmap ((λ j, set_ranks
            ((λ r, MkRank (Rank r) (PrevJob r) 0) <$> Ranks j) j) <$> JMap m) m) ;;;
          ret true
      end
  end.

(** *** The loop of [main]

    One turn: the map it writes; [file] is [rep_stack.info] as it is then. *)
Definition update_turn (fuel : nat) (choose : Z) (first : bool) (file : option (list byte)) :
    M (manager R) (list GoJob) :=
  let! c := Choose choose in
  Assign fuel c ;;;
  let! written := gets map_of in
  ResetModified ;;;
  let! _ := InitStackData file (negb first) in
  ret written.

(** The maps of all turns; [files] gives [rep_stack.info] at each of them. *)
Fixpoint update_loop (fuel : nat) (choose : Z) (first : bool) (files : list (option (list byte))) :
    M (manager R) (list (list GoJob)) :=
  match files with
  | [] => ret []
  | file :: files' =>
      let! jm := update_turn fuel choose first file in
      let! jms := update_loop fuel choose false files' in
      ret (jm :: jms)
  end.

(** [main] with the flags [-j], [-r] and [-c]; the number of turns, [-i], is
    the length of [files]. *)
Definition manager_main (fuel : nat) (jobs ranks choose : Z) (files : list (option (list byte))) :
    M (manager R) (list (list GoJob)) :=
  if (jobs =? 0) || (ranks =? 0) then halt (Exited 1)
  else if ranks <? jobs then halt (Exited 1)
  else
    let choose := if choose =? 0 then ranks - jobs else choose in
    InitJobMap jobs ranks ;;;
    update_loop fuel choose true files.
End operations.

(** ** What the manager does to a map *)

(** [Choose] takes ranks out, and marks the job; one stays. *)
Record thinned (j0 j : ManagedJob) : Prop := {
  th_ranks : Ranks j `sublist_of` Ranks j0;
  th_nonempty : Ranks j ≠ [];
  th_marked : Ranks j = Ranks j0 ∨ ModifiedBit j = 1;
  th_bit : ModifiedBit j = ModifiedBit j0 ∨ ModifiedBit j = 1
}.

(** [Assign] puts ranks in behind, and marks the job. *)
Record grown (j0 j : ManagedJob) : Prop := {
  gr_ranks : ∃ new, Ranks j = Ranks j0 ++ new;
  gr_marked : Ranks j = Ranks j0 ∨ ModifiedBit j = 1;
  gr_bit : ModifiedBit j = ModifiedBit j0 ∨ ModifiedBit j = 1
}.

Definition all_managed (l : list ManagedJob) : list ManagedRank := concat (Ranks <$> l).

(** The two together, on what is printed. *)
Record follows (j0 j : GoJob) : Prop := {
  fo_ranks : ∃ kept new, RankList j = kept ++ new ∧ kept ≠ [] ∧ kept ⊆ RankList j0;
  fo_marked : RankList j = RankList j0 ∨ Modified j = 1;
  fo_bit : Modified j = Modified j0 ∨ Modified j = 1
}.

(** A map of [jobs] jobs that deals out the ranks below [n]. *)
Record dealt (n jobs : Z) (jm : list GoJob) : Prop := {
  de_jobs : Z.of_nat (length jm) = jobs;
  de_nonempty : Forall (λ j, RankList j ≠ []) jm;
  de_bits : Forall (λ j, Modified j = 0 ∨ Modified j = 1) jm;
  de_ranks : all_ranks jm ≡ₚ seqZ 0 n
}.

(** Ranks of processes whose stacks begin at the same address. *)
Definition same_stack (a : Z) (rs : list ManagedRank) : Prop := Forall (λ r, PrevJob r = -1 ∧ StackAdd r = a) rs.
#[export] Instance same_stack_proper a : Proper ((≡ₚ) ==> iff) (same_stack a).
Proof. intros l l' E. unfold same_stack. by rewrite E. Qed.

(** ** Lemmas *)
Lemma all_managed_insert l k j j' :
  l !! k = Some j →
  all_managed l ≡ₚ Ranks j ++ all_managed (delete k l) ∧
  all_managed (<[k := j']> l) ≡ₚ Ranks j' ++ all_managed (delete k l).
Proof.
  intros Hk. pose proof (lookup_lt_Some _ _ _ Hk).
  assert (all_managed (delete k l) = all_managed (take k l) ++ all_managed (drop (S k) l)) as ->
    by (unfold all_managed; by rewrite delete_take_drop, fmap_app, concat_app).
  split.
  - rewrite <-(take_drop_middle l k j Hk) at 1. unfold all_managed. rewrite fmap_app, concat_app. simpl.
    by rewrite Permutation_app_swap_app.
  - rewrite insert_take_drop by done. unfold all_managed. rewrite fmap_app, concat_app. simpl.
    by rewrite Permutation_app_swap_app.
Qed.

Lemma Forall2_insert_r {A} (P : A → A → Prop) (l0 l : list A) k x :
  Forall2 P l0 l → (∀ x0, l0 !! k = Some x0 → P x0 x) → Forall2 P l0 (<[k := x]> l).
Proof.
  intros Hl Hx. apply Forall2_same_length_lookup. split; [by rewrite length_insert; apply Forall2_length in Hl|].
  intros i y0 y Hy0 Hy. apply list_lookup_insert_Some in Hy as [(<- & <- & _)|[Hne Hy]]; [by apply Hx|].
  by eapply (Forall2_lookup_lr P).
Qed.

Lemma Forall2_compose {A B C} (P : A → B → Prop) (Q : B → C → Prop) (S : A → C → Prop) l1 l2 l3 :
  (∀ x y z, P x y → Q y z → S x z) → Forall2 P l1 l2 → Forall2 Q l2 l3 → Forall2 S l1 l3.
Proof.
  intros HS H1. revert l3. induction H1; intros l3 H2; inversion H2; subst; constructor; eauto.
Qed.

Section turns.
Context {R : Type} `{Rand R} `{!RandLaws}.
Implicit Types (m : manager R).

Lemma random_run n m :
  0 < n → random n m = Done (Int31n n (rand m)).1 (set_rand (Int31n n (rand m)).2 m).
Proof. intros Hn. unfold random, zoom. by rewrite Int32n_run. Qed.

Lemma wp_random n (Q : Z → manager R → Prop) E m :
  0 < n → (∀ v r, 0 ≤ v < n → Q v (set_rand r m)) → wp (random n) Q E m.
Proof.
  intros Hn HQ. unfold wp. rewrite random_run by done. apply HQ, (Int31n_range n (rand m) Hn).
Qed.

Lemma wp_GetJob k (Q : ManagedJob → manager R → Prop) E m :
  0 ≤ k < Z.of_nat (length (JMap m)) → (∀ j, JMap m !! Z.to_nat k = Some j → Q j m) → wp (GetJob k) Q E m.
Proof.
  intros Hk HQ. unfold GetJob, wp. cbn [bind gets]. rewrite (proj2 (Z.ltb_ge _ _)) by lia.
  destruct (lookup_lt_is_Some_2 (JMap m) (Z.to_nat k)) as [j Hj]; [lia|]. rewrite Hj. by apply HQ.
Qed.

(** A manager that runs: there are jobs, not more than an [int32] counts. *)
Definition running (l : list ManagedJob) : Prop :=
  0 < Z.of_nat (length l) ≤ INT_MAX ∧ Forall (λ j, Ranks j ≠ []) l.

Lemma running_wrap l : running l → wrap32s (Z.of_nat (length l)) = Z.of_nat (length l).
Proof. intros [[? ?] _]. apply wrap32s_small. unfold INT_MIN. lia. Qed.

Lemma choose_turn_spec c m :
  running (JMap m) →
  wp (choose_turn c) (λ c' m', c' = c ∧ JMap m' = JMap m ∨
    ∃ k j i r, JMap m !! k = Some j ∧ length (Ranks j) ≠ 1%nat ∧ Ranks j !! i = Some r ∧ c' = c ++ [r] ∧
      JMap m' = <[k := set_modified 1 (set_ranks (delete i (Ranks j)) j)]> (JMap m)) (λ _ _, False) m.
Proof.
  intros Hrun. pose proof (running_wrap _ Hrun) as Hw. destruct Hrun as [Hlen Hne].
  unfold choose_turn. apply wp_bind, wp_gets. rewrite Hw.
  apply wp_bind, wp_random; [lia|]. intros k r0 Hk. apply wp_bind, wp_GetJob; [done|]. intros j Hj.
  change (JMap (set_rand r0 m)) with (JMap m) in Hj.
  destruct (Z.of_nat (length (Ranks j)) =? 1) eqn:E1; [by left|].
  apply wp_bind, wp_random; [lia|]. intros i r1 Hi.
  assert (length (Ranks j) ≠ 0%nat) as Hj0.
  { rewrite Forall_forall in Hne. specialize (Hne j ltac:(by eapply list_elem_of_lookup_2)).
    by destruct (Ranks j). }
  destruct (lookup_lt_is_Some_2 (Ranks j) (Z.to_nat i)) as [r Hr]; [lia|].
  unfold GetRank, RemoveI. rewrite (proj2 (Z.ltb_ge _ _)) by lia. rewrite Hr.
  right. exists (Z.to_nat k), j, (Z.to_nat i), r. repeat split; [done|lia|done].
Qed.

(** The job with index [v] takes the rank. *)
Definition accepts (l : list ManagedJob) (r : ManagedRank) (v : Z) : Prop :=
  ∃ j f, l !! Z.to_nat v = Some j ∧ length (Ranks j) ≠ 2%nat ∧ PrevJob r ≠ v ∧
    head (Ranks j) = Some f ∧ StackAdd f = StackAdd r.

Lemma assign_turn_run r m :
  running (JMap m) →
  let d := Int31n (Z.of_nat (length (JMap m))) (rand m) in
  ∃ b m', assign_turn r m = Done b m' ∧ rand m' = d.2 ∧ (b = true ↔ accepts (JMap m) r d.1) ∧
    if b then ∃ k j, JMap m !! k = Some j ∧ JMap m' = <[k := set_modified 1 (InsertRank r j)]> (JMap m)
    else JMap m' = JMap m.
Proof.
  intros Hrun d. pose proof (running_wrap _ Hrun) as Hw. destruct Hrun as [Hlen Hne].
  unfold assign_turn. cbn [bind gets]. rewrite Hw, random_run by lia.
  cbn [bind]. pose proof (Int31n_range (Z.of_nat (length (JMap m))) (rand m) ltac:(lia)) as Hd. fold d in Hd |- *.
  destruct d as [k r0]. cbn [fst snd] in *. unfold GetJob. cbn [bind gets JMap set_rand].
  rewrite (proj2 (Z.ltb_ge _ _)) by lia.
  destruct (lookup_lt_is_Some_2 (JMap m) (Z.to_nat k)) as [j Hj]; [lia|]. rewrite Hj. cbn [bind of_option].
  rewrite Forall_forall in Hne. specialize (Hne j ltac:(by eapply list_elem_of_lookup_2)).
  destruct (_ =? 2) eqn:E2.
  { eexists false, _. repeat split; [done|]. intros (j' & f & Hj' & Hl & _). simplify_eq. lia. }
  destruct (PrevJob r =? k) eqn:Ep.
  { eexists false, _. repeat split; [done|]. intros (j' & f & _ & _ & Hp & _). lia. }
  destruct (Ranks j) as [|f rs] eqn:Ej; [done|]. cbn [bind of_option head].
  destruct (StackAdd f =? StackAdd r) eqn:Ea.
  - eexists true, _. repeat split; [|by exists (Z.to_nat k), j]. intros _. exists j, f.
    rewrite Ej. repeat split; [done|lia|lia|lia].
  - eexists false, _. repeat split; [done|]. intros (j' & f' & Hj' & _ & _ & Hf & He). simplify_eq.
    rewrite Ej in Hf. injection Hf as ->. lia.
Qed.

Lemma assign_turn_spec r m :
  running (JMap m) →
  wp (assign_turn r) (λ b m', if b then
    ∃ k j, JMap m !! k = Some j ∧ JMap m' = <[k := set_modified 1 (InsertRank r j)]> (JMap m)
    else JMap m' = JMap m) (λ _ _, False) m.
Proof. intros Hrun. destruct (assign_turn_run r m Hrun) as (b & m' & E & _ & _ & Hb). unfold wp. by rewrite E. Qed.

Lemma thinned_running l0 l : Forall2 thinned l0 l → running l0 → running l.
Proof.
  intros Hl [Hlen _]. split; [rewrite <-(Forall2_length _ _ _ Hl); exact Hlen|].
  eapply Forall2_Forall_r; [exact Hl|]. apply Forall_true. by intros j0 j [].
Qed.
Lemma grown_running l0 l : Forall2 grown l0 l → running l0 → running l.
Proof.
  intros Hl [Hlen Hne]. split; [rewrite <-(Forall2_length _ _ _ Hl); exact Hlen|].
  eapply Forall2_Forall_r; [exact Hl|]. eapply Forall_impl; [exact Hne|].
  intros j0 Hj0 j [[new ->] _ _]. simpl in Hj0. by destruct (Ranks j0).
Qed.

Lemma choose_loop_spec l0 turns n : ∀ c m,
  running l0 → Forall2 thinned l0 (JMap m) → all_managed (JMap m) ++ c ≡ₚ all_managed l0 →
  wp (choose_loop turns n c) (λ c' m', Forall2 thinned l0 (JMap m') ∧
    all_managed (JMap m') ++ c' ≡ₚ all_managed l0) (λ _ _, False) m.
Proof.
  induction turns as [|turns IH]; intros c m Hrun Hth Hp; simpl; [done|].
  destruct (n <=? _); [done|]. apply wp_bind.
  eapply wp_mono; [apply choose_turn_spec; by eapply thinned_running| |done].
  intros c' m' [[-> E]|(k & j & i & r & Hk & Hj & Hr & -> & E)]; apply IH; rewrite ?E; try done.
  - apply Forall2_insert_r; [done|]. intros j0 Hj0.
    destruct (Forall2_lookup_lr _ _ _ _ _ _ Hth Hj0 Hk) as [T1 T2 T3 T4].
    split; simpl; [|intros E0|by right|by right].
    + etransitivity; [apply sublist_delete|done].
    + apply (f_equal length) in E0. rewrite length_delete in E0 by done. simpl in E0.
      apply lookup_lt_Some in Hr. lia.
  - destruct (all_managed_insert (JMap m) k j
      (set_modified 1 (set_ranks (delete i (Ranks j)) j)) Hk) as [P1 P2].
    rewrite P2, <-Hp, P1. simpl. pose proof (delete_Permutation _ _ _ Hr) as P3.
    set (d := delete i (Ranks j)) in *. clearbody d. rewrite P3. solve_Permutation.
Qed.

Lemma Choose_spec n m :
  running (JMap m) →
  wp (Choose n) (λ c m', Forall2 thinned (JMap m) (JMap m') ∧
    all_managed (JMap m') ++ c ≡ₚ all_managed (JMap m)) (λ _ _, False) m.
Proof.
  intros Hrun. unfold Choose. apply wp_bind, wp_gets. apply choose_loop_spec; [done| |by rewrite app_nil_r].
  destruct Hrun as [_ Hne]. apply Forall2_same_length_lookup. split; [done|].
  intros i j j' Hj Hj'. simplify_eq. rewrite Forall_forall in Hne.
  split; [done|apply Hne; by eapply list_elem_of_lookup_2|by left|by left].
Qed.

Lemma grown_refl l : Forall2 grown l l.
Proof.
  apply Forall2_same_length_lookup. split; [done|]. intros i j j' Hj Hj'. simplify_eq.
  split; [exists []; by rewrite app_nil_r|by left|by left].
Qed.

Lemma Assign_spec l0 ranks fuel : ∀ c m,
  running l0 → Forall2 grown l0 (JMap m) → all_managed (JMap m) ++ c ≡ₚ ranks →
  wp (Assign fuel c) (λ _ m', Forall2 grown l0 (JMap m') ∧ all_managed (JMap m') ≡ₚ ranks)
    (λ e _, e = NoFuel) m.
Proof.
  induction fuel as [|fuel IH]; intros [|r c] m Hrun Hgr Hp; simpl; try done.
  1, 2: split; [done|by rewrite app_nil_r in Hp].
  apply wp_bind. eapply wp_mono; [apply assign_turn_spec; by eapply grown_running| |done].
  intros [|] m'; [intros (k & j & Hk & E)|intros E]; apply IH; rewrite ?E; try done.
  - apply Forall2_insert_r; [done|]. intros j0 Hj0.
    destruct (Forall2_lookup_lr _ _ _ _ _ _ Hgr Hj0 Hk) as [[new Hnew] G2 G3].
    split; simpl; [|by right|by right]. exists (new ++ [r]). by rewrite Hnew, app_assoc.
  - destruct (all_managed_insert (JMap m) k j (set_modified 1 (InsertRank r j)) Hk) as [P1 P2].
    rewrite P2, <-Hp, P1. simpl. solve_Permutation.
Qed.

(** *** When [Assign] ends *)

(** The rank finds a job by the first draw that names one that takes it. *)
Lemma Assign_placed r rest i : ∀ m,
  running (JMap m) → accepts (JMap m) r (drawn (Z.of_nat (length (JMap m))) i (rand m)) →
  ∃ t m', (t ≤ S i)%nat ∧ (∀ fuel, Assign (t + fuel) (r :: rest) m = Assign fuel rest m') ∧
    ∃ k j, JMap m !! k = Some j ∧ JMap m' = <[k := set_modified 1 (InsertRank r j)]> (JMap m).
Proof.
  induction i as [|i IH]; intros m Hrun Hacc;
    destruct (assign_turn_run r m Hrun) as (b & m' & E & Er & Hb & Hm).
  - assert (b = true) as -> by by apply Hb. exists 1%nat, m'. split; [lia|]. split; [|done].
    intros fuel. simpl. by rewrite E.
  - destruct b.
    { exists 1%nat, m'. split; [lia|]. split; [|done]. intros fuel. simpl. by rewrite E. }
    destruct (IH m') as (t & m2 & Ht & Hrun2 & Hm2); [by rewrite Hm|by rewrite Hm, Er|].
    exists (S t), m2. split; [lia|]. split; [|by rewrite <-Hm]. intros fuel. simpl. by rewrite E, <-Hrun2.
Qed.


(** While a rank waits, and there are at most two for each job, some job has
    only one. *)
Lemma some_job_accepts l r a :
  running l → same_stack a (all_managed l) → PrevJob r = -1 → StackAdd r = a →
  (length (all_managed l) < 2 * length l)%nat → ∃ k, 0 ≤ k < Z.of_nat (length l) ∧ accepts l r k.
Proof.
  intros [_ Hne] Hs Hp Ha Hl. destruct (decide (Exists (λ j, length (Ranks j) ≠ 2%nat) l)) as [Hex|Hall].
  - apply Exists_exists in Hex as (j & [k Hk]%list_elem_of_lookup & Hj).
    pose proof (lookup_lt_Some _ _ _ Hk). exists (Z.of_nat k). split; [lia|].
    rewrite Forall_forall in Hne. specialize (Hne j ltac:(by eapply list_elem_of_lookup_2)).
    destruct (Ranks j) as [|f rs] eqn:Ej; [done|]. exists j, f. rewrite Nat2Z.id, Ej.
    repeat split; [done|done|lia|]. destruct (all_managed_insert l k j j Hk) as [P _].
    rewrite P, Ej in Hs. apply Forall_cons in Hs as [[_ ->] _]. done.
  - exfalso. apply not_Exists_Forall in Hall; [|intros j; apply _].
    assert (length (all_managed l) = 2 * length l)%nat; [|lia]. clear -Hall. unfold all_managed.
    induction Hall as [|j l Hj _ IH]; [done|]. rewrite fmap_cons. cbn [concat length]. rewrite length_app, IH.
    destruct (decide (length (Ranks j) = 2%nat)) as [->|]; [lia|done].
Qed.

Lemma Assign_ends a turns c : ∀ fuel m,
  running (JMap m) → same_stack a (all_managed (JMap m) ++ c) → FairRand (R := R) (Z.of_nat (length (JMap m))) turns →
  (length (all_managed (JMap m) ++ c) ≤ 2 * length (JMap m))%nat → (turns * length c ≤ fuel)%nat →
  ∃ m', Assign fuel c m = Done tt m'.
Proof.
  induction c as [|r c IH]; intros fuel m Hrun Hs Hfair Hl Hfuel; [exists m; by destruct fuel|].
  unfold same_stack in Hs. rewrite length_app in Hl. simpl in Hl, Hfuel.
  apply Forall_app in Hs as [Hs [[Hp Ha] Hc]%Forall_cons].
  destruct (some_job_accepts (JMap m) r a Hrun Hs Hp Ha) as (k & Hk & Hacc); [lia|].
  destruct (fair (rand m) k Hk) as (i & Hi & <-).
  destruct (Assign_placed r c i m Hrun Hacc) as (t & m1 & Ht & Hrest & k1 & j & Hk1 & E).
  replace fuel with (t + (fuel - t))%nat by lia. rewrite Hrest.
  destruct (all_managed_insert (JMap m) k1 j (set_modified 1 (InsertRank r j)) Hk1) as [P1 P2].
  assert (all_managed (JMap m1) ≡ₚ r :: all_managed (JMap m)) as P.
  { rewrite E, P2, P1. simpl. solve_Permutation. }
  apply IH; [|rewrite P|by rewrite E, length_insert|rewrite P, E, length_insert, length_app; simpl; lia|lia].
  - rewrite E. destruct Hrun as [H1 H2]. split; [by rewrite length_insert|]. apply Forall_insert; [done|].
    simpl. by destruct (Ranks j).
  - apply Forall_cons. split; [done|]. by apply Forall_app.
Qed.

(** No job takes the rank at the front, and none ever will. *)
Lemma Assign_stuck fuel r rest : ∀ m,
  running (JMap m) → (∀ k, ¬ accepts (JMap m) r k) → ∃ m', Assign fuel (r :: rest) m = Stop NoFuel m'.
Proof.
  induction fuel as [|fuel IH]; intros m Hrun Hno; simpl; [by eexists|].
  destruct (assign_turn_run r m Hrun) as ([|] & m' & E & _ & Hb & Hm).
  - destruct (Hno _ (proj1 Hb eq_refl)).
  - rewrite E. apply IH; by rewrite Hm.
Qed.

(** *** What is printed *)
Lemma printed_ranks l : all_ranks (printed <$> l) = Rank <$> all_managed l.
Proof.
  unfold all_ranks, all_managed. induction l as [|j l IH]; simpl; [done|]. rewrite fmap_app. f_equal. exact IH.
Qed.

Lemma thinned_grown j0 j1 j2 : thinned j0 j1 → grown j1 j2 → follows (printed j0) (printed j2).
Proof.
  intros [T1 T2 T3 T4] [[new G1] G2 G3]. split; simpl.
  - exists (Rank <$> Ranks j1), (Rank <$> new). rewrite G1, fmap_app. split; [done|]. split.
    + intros E. by apply fmap_nil_inv in E.
    + intros x (r & -> & Hr)%list_elem_of_fmap. apply list_elem_of_fmap. exists r. split; [done|].
      by eapply elem_of_sublist.
  - destruct G2 as [E2|E2]; [|by right]. destruct T3 as [E1|E1]; [left; by rewrite E2, E1|].
    right. by destruct G3 as [->|].
  - destruct G3 as [->|]; [done|by right].
Qed.

Lemma dealt_running n jobs l : dealt n jobs (printed <$> l) → 0 < jobs ≤ INT_MAX → running l.
Proof.
  intros [Hj Hne _ _] Hb. rewrite length_fmap in Hj. split; [lia|].
  rewrite Forall_fmap in Hne. eapply Forall_impl; [exact Hne|]. simpl. intros j Hn E. apply Hn. by rewrite E.
Qed.

Definition unmarked (j : GoJob) : GoJob := MkGoJob 0 (RankList j).

Lemma dealt_unmarked n jobs jm : dealt n jobs jm → dealt n jobs (unmarked <$> jm).
Proof.
  intros [H1 H2 H3 H4]. split; [by rewrite length_fmap| | |].
  - by rewrite Forall_fmap.
  - rewrite Forall_fmap. apply Forall_true. by left.
  - unfold all_ranks in *. by rewrite <-list_fmap_compose.
Qed.

Lemma set_modified_printed (l : list ManagedJob) : printed <$> (set_modified 0 <$> l) = unmarked <$> (printed <$> l).
Proof. rewrite <-!list_fmap_compose. done. Qed.

(** *** [InitStackData] changes addresses only *)
Definition restack (bytes : list byte) (only : bool) (r : ManagedRank) : ManagedRank :=
  match stack_info <$> all_records 16 bytes with
  | [] => MkRank (Rank r) (PrevJob r) 0
  | infos => if only then r else MkRank (Rank r) (PrevJob r) (default 0 (mappings infos !! wrap32s (Rank r)))
  end.
Definition restack_job (bytes : list byte) (only : bool) (j : ManagedJob) : ManagedJob :=
  set_ranks (restack bytes only <$> Ranks j) j.

Lemma restack_rank bytes only r : Rank (restack bytes only r) = Rank r.
Proof. unfold restack. destruct (_ <$> _); [done|]. by destruct only. Qed.

Lemma restack_printed bytes only (l : list ManagedJob) : printed <$> (restack_job bytes only <$> l) = printed <$> l.
Proof.
  rewrite <-list_fmap_compose. apply list_fmap_ext. intros i j _. unfold printed. simpl. f_equal.
  rewrite <-list_fmap_compose. apply list_fmap_ext. intros k r _. apply restack_rank.
Qed.

Lemma restack_managed bytes only (l : list ManagedJob) :
  all_managed (restack_job bytes only <$> l) = restack bytes only <$> all_managed l.
Proof. unfold all_managed. induction l as [|j l IH]; [done|]. simpl. rewrite fmap_app. f_equal. exact IH. Qed.

Lemma InitStackData_spec bytes only m :
  wp (InitStackData (Some bytes) only) (λ _ m', JMap m' = restack_job bytes only <$> JMap m) (λ _ _, False) m.
Proof.
  unfold InitStackData, restack_job, restack.
  destruct (stack_info <$> all_records 16 bytes) as [|[[idx r] a] infos].
  - by apply wp_bind, wp_modify, wp_bind, wp_modify, wp_ret.
  - destruct only; [|by apply wp_bind, wp_modify, wp_bind, wp_modify, wp_ret].
    assert (((λ j, set_ranks ((λ r0, r0) <$> Ranks j) j) <$> JMap m) = JMap m) as ->.
    { rewrite <-(list_fmap_id (JMap m)) at 2. apply list_fmap_ext. intros i j _. rewrite list_fmap_id. by destruct j. }
    apply wp_bind, wp_gets. by destruct (_ =? _).
Qed.

(** *** A turn, and all of them

    [E]: how [Assign] can stop. *)
Lemma update_turn_spec (E : stop → manager R → Prop) n jobs fuel choose first bytes m :
  dealt n jobs (map_of m) → 0 < jobs ≤ INT_MAX →
  (∀ c m1, running (JMap m1) → length (JMap m1) = length (JMap m) →
     all_managed (JMap m1) ++ c ≡ₚ all_managed (JMap m) → wp (Assign fuel c) (λ _ _, True) E m1) →
  wp (update_turn fuel choose first (Some bytes))
    (λ jm m', Forall2 follows (map_of m) jm ∧ dealt n jobs jm ∧ map_of m' = unmarked <$> jm ∧
       all_managed (JMap m') ≡ₚ restack bytes (negb first) <$> all_managed (JMap m)) E m.
Proof.
  intros Hd Hjobs Hends. pose proof (dealt_running _ _ _ Hd Hjobs) as Hrun.
  unfold update_turn. apply wp_bind. eapply wp_mono; [by apply Choose_spec| |done].
  intros c m1 [Hth Hp]. pose proof (thinned_running _ _ Hth Hrun) as Hrun1. apply wp_bind.
  pose proof (Assign_spec (JMap m1) (all_managed (JMap m)) fuel c m1 Hrun1 (grown_refl _) Hp) as Hspec.
  specialize (Hends c m1 Hrun1 ltac:(by rewrite (Forall2_length _ _ _ Hth)) Hp).
  unfold wp in Hspec, Hends |- * at 1. destruct (Assign fuel c m1) as [u m2|e m2]; [|done].
  destruct Hspec as [Hgr Hp2]. apply wp_bind, wp_gets, wp_bind, wp_modify, wp_bind.
  eapply wp_mono; [apply InitStackData_spec| |done]. intros b m3 Hm3. apply wp_ret.
  assert (Forall2 follows (map_of m) (map_of m2)) as Hf.
  { unfold map_of. apply Forall2_fmap. eapply Forall2_compose; [|exact Hth|exact Hgr].
    intros j0 j1 j2. apply thinned_grown. }
  split; [exact Hf|]. split; [|split].
  - destruct Hd as [D1 D2 D3 D4]. split.
    + by rewrite <-D1, (Forall2_length _ _ _ Hf).
    + eapply Forall2_Forall_r; [exact Hf|]. apply Forall_true. intros j0 j [(kept & new & -> & Hk & _) _ _].
      by destruct kept.
    + eapply Forall2_Forall_r; [exact Hf|]. eapply Forall_impl; [exact D3|].
      intros j0 Hj0 j [_ _ [->|]]; [done|by right].
    + unfold map_of in *. by rewrite printed_ranks, Hp2, <-printed_ranks.
  - unfold map_of at 1. rewrite Hm3, restack_printed. apply set_modified_printed.
  - rewrite Hm3, restack_managed. cbn [JMap set_jmap].
    assert (∀ l, all_managed (set_modified 0 <$> l) = all_managed l) as ->
      by (intros l; unfold all_managed; by rewrite <-list_fmap_compose).
    by rewrite Hp2.
Qed.

Lemma InitJobMap_spec jobs n m :
  0 < jobs ≤ n →
  wp (InitJobMap jobs n) (λ _ m', dealt n jobs (map_of m') ∧ Forall (λ j, Modified j = 1) (map_of m') ∧
    same_stack 0 (all_managed (JMap m'))) (λ _ _, False) m.
Proof.
  intros Hj. unfold InitJobMap. apply wp_bind, wp_modify, wp_bind, wp_modify.
  set (m0 := set_repidx 0 _).
  eapply wp_mono; [apply (wp_foldM (λ p _ m', Z.of_nat (length (JMap m')) = jobs ∧
    Forall (λ j, ModifiedBit j = 1) (JMap m') ∧ Rank <$> all_managed (JMap m') ≡ₚ p ∧ same_stack 0 (all_managed (JMap m')) ∧
    ∀ i j, i ∈ p → JMap m' !! Z.to_nat (Z.rem i jobs) = Some j → Ranks j ≠ [])
    _ _ (λ _ _, False))| |done].
  - intros p i q b m1 Hp (L & F & P & I & N).
    assert (i ∈ seqZ 0 n) as Hi by (rewrite Hp; set_solver). apply elem_of_seqZ in Hi.
    pose proof (Z.rem_bound_pos i jobs) as Hr.
    apply wp_bind, wp_GetJob; [lia|]. intros j Hjk. apply wp_modify. cbn [JMap set_jmap].
    destruct (all_managed_insert (JMap m1) _ j (InsertRank (MkRank i (-1) 0) j) Hjk) as [P1 P2].
    split; [by rewrite length_insert|]. split; [|split; [|split]].
    + apply Forall_insert; [done|]. simpl. rewrite Forall_forall in F. apply F. by eapply list_elem_of_lookup_2.
    + rewrite P2. rewrite P1 in P. rewrite <-P. simpl. rewrite !fmap_app. simpl. solve_Permutation.
    + rewrite P2. rewrite P1 in I. unfold same_stack in *. simpl. rewrite !Forall_app in *.
      destruct I. repeat split; [done|by constructor|done].
    + intros i' j' Hi' Hj'. apply list_lookup_insert_Some in Hj' as [(_ & <- & _)|[Hne Hj']].
      * simpl. by destruct (Ranks j).
      * apply elem_of_app in Hi' as [Hi'|Hi']; [by eapply N|]. apply list_elem_of_singleton in Hi' as ->. done.
  - unfold m0. cbn [JMap set_jmap set_repidx]. split; [rewrite length_fmap, length_seqZ; lia|].
    split; [by rewrite Forall_fmap; apply Forall_true|]. assert (∀ l, all_managed (NewJob <$> l) = []) as -> by (intros l; by induction l).
    split; [done|]. split; [by apply Forall_nil|by intros ? ? ?%not_elem_of_nil].
  - intros _ m1 (L & F & P & I & N). split; [|split; [by apply Forall_fmap|done]]. split.
    + unfold map_of. by rewrite length_fmap.
    + unfold map_of. rewrite Forall_fmap. apply Forall_lookup. intros k j Hk. simpl. intros E%fmap_nil_inv.
      pose proof (lookup_lt_Some _ _ _ Hk). revert E. apply (N (Z.of_nat k)); [apply elem_of_seqZ; lia|].
      by rewrite Z.rem_small, Nat2Z.id by lia.
    + apply Forall_fmap. eapply Forall_impl; [exact F|]. by right.
    + unfold map_of. by rewrite printed_ranks.
Qed.

(** The maps of one run: each follows the one before it, whose marks were
    taken off. *)
Fixpoint chain (n jobs : Z) (jm0 : list GoJob) (jms : list (list GoJob)) : Prop :=
  match jms with
  | [] => True
  | jm :: jms' => Forall2 follows jm0 jm ∧ dealt n jobs jm ∧ chain n jobs (unmarked <$> jm) jms'
  end.

Lemma update_loop_spec n jobs fuel choose files : ∀ first m,
  Forall is_Some files → dealt n jobs (map_of m) → 0 < jobs ≤ INT_MAX →
  wp (update_loop fuel choose first files) (λ jms _, length jms = length files ∧ chain n jobs (map_of m) jms)
    (λ e _, e = NoFuel) m.
Proof.
  induction files as [|file files IH]; intros first m Hf Hd Hj; [done|].
  apply Forall_cons in Hf as [[bytes ->] Hf]. cbn [update_loop].
  apply wp_bind. eapply wp_mono; [apply (update_turn_spec (λ e _, e = NoFuel) n jobs); [done|done|]| |done].
  { intros c m1 Hrun _ Hp. eapply wp_mono; [apply (Assign_spec (JMap m1) (all_managed (JMap m)));
      [done|apply grown_refl|done]|done|done]. }
  intros jm m1 (H1 & H2 & H3 & _). apply wp_bind. eapply wp_mono; [apply IH; [done| |done]| |done].
  { rewrite H3. by apply dealt_unmarked. }
  intros jms m2 [H4 H5]. apply wp_ret. split; [simpl; by rewrite H4|]. split; [done|]. split; [done|]. by rewrite <-H3.
Qed.

(** *** A run that ends

    A file in which every process reports the same stack address. *)
Definition reports (n a : Z) (file : option (list byte)) : Prop :=
  ∃ bytes idx, file = Some bytes ∧
    stack_info <$> all_records 16 bytes = (λ r, (idx, r, a)) <$> seqZ 0 n.

Lemma mappings_same a rs idx r :
  r ∈ rs → mappings ((λ r, (idx, r, a)) <$> rs) !! r = Some a.
Proof.
  unfold mappings. generalize (∅ : gmap Z Z) as m0. induction rs as [|x rs IH] using rev_ind; intros m0 Hr.
  { by apply not_elem_of_nil in Hr. }
  rewrite fmap_app, foldl_app. cbn [fmap list_fmap foldl].
  destruct (decide (r = x)) as [->|Hne]; [by rewrite lookup_insert_eq|].
  rewrite lookup_insert_ne by done. apply IH. apply elem_of_app in Hr as [Hr|Hr]; [done|].
  by apply list_elem_of_singleton in Hr.
Qed.

Lemma restack_same n a b file bytes only rs :
  0 < n ≤ INT_MAX → reports n b file → file = Some bytes → Rank <$> rs ≡ₚ seqZ 0 n → same_stack a rs →
  same_stack (if only : bool then a else b) (restack bytes only <$> rs).
Proof.
  intros Hn (bytes' & idx & -> & Hinfo) [= ->] Hrs Hs. unfold same_stack in *. rewrite Forall_fmap.
  apply Forall_forall. intros r Hr. simpl. rewrite Forall_forall in Hs. specialize (Hs r Hr).
  unfold restack. rewrite Hinfo. rewrite (seqZ_cons 0 n) by lia. cbn [fmap list_fmap].
  destruct only; [done|]. cbn [PrevJob StackAdd]. split; [by destruct Hs|].
  assert (Rank r ∈ seqZ 0 n) as Hin by (rewrite <-Hrs; apply list_elem_of_fmap; by exists r).
  rewrite wrap32s_small by (apply elem_of_seqZ in Hin; unfold INT_MIN; lia).
  pose proof (mappings_same b (seqZ 0 n) idx (Rank r) Hin) as E.
  rewrite (seqZ_cons 0 n) in E by lia. cbn [fmap list_fmap] in E. by rewrite E.
Qed.

Lemma update_loop_ends n jobs turns fuel choose b files : ∀ first a m,
  FairRand (R := R) jobs turns → 0 < n ≤ INT_MAX → n ≤ 2 * jobs → (turns * Z.to_nat n ≤ fuel)%nat →
  Forall (reports n b) files → dealt n jobs (map_of m) → same_stack a (all_managed (JMap m)) → 0 < jobs ≤ INT_MAX →
  ∃ jms m', update_loop fuel choose first files m = Done jms m'.
Proof.
  induction files as [|file files IH]; intros first a m Hfair Hn H2 Hfuel Hf Hd Hs Hj; [by eexists _, m|].
  apply Forall_cons in Hf as [Hfile Hf]. pose proof Hfile as (bytes & idx & -> & _). cbn [update_loop].
  assert (Rank <$> all_managed (JMap m) ≡ₚ seqZ 0 n) as Hrs by (rewrite <-printed_ranks; apply Hd).
  assert (length (all_managed (JMap m)) = Z.to_nat n) as Hlen
    by (by rewrite <-(length_fmap Rank), Hrs, length_seqZ).
  assert (Z.of_nat (length (JMap m)) = jobs) as Hjm by (rewrite <-(de_jobs _ _ _ Hd); unfold map_of; by rewrite length_fmap).
  assert (∀ c m1, running (JMap m1) → length (JMap m1) = length (JMap m) →
    all_managed (JMap m1) ++ c ≡ₚ all_managed (JMap m) →
    wp (Assign fuel c) (λ _ _, True) (λ _ _, False) m1) as Hends.
  { intros c m1 Hrun Hl Hp. pose proof (Permutation_length Hp) as Hlp. rewrite length_app, Hlen in Hlp.
    destruct (Assign_ends a turns c fuel m1) as (m2 & Hend);
      [done|by rewrite Hp|by rewrite Hl, Hjm|rewrite Hp, Hlen; lia|nia|]. unfold wp. by rewrite Hend. }
  destruct (wp_run _ _ _ (update_turn_spec _ n jobs fuel choose first bytes m Hd Hj Hends))
    as (jm & m1 & E & H3 & H4 & H5 & H6).
  rewrite (bind_Done _ _ _ _ _ E).
  destruct (IH false (if negb first then a else b) m1 Hfair Hn H2 Hfuel Hf) as (jms & m2 & E2); [| |done|].
  - rewrite H5. by apply dealt_unmarked.
  - rewrite H6. by apply (restack_same n a b (Some bytes)).
  - rewrite (bind_Done _ _ _ _ _ E2). by eexists _, _.
Qed.
End turns.

(** ** The processes that follow the maps *)

(** A fleet that can take the next map [jm]: the processes know their ranks, and
    each one is in the job that the map before, [jm0], lists it in, unless that
    job is still marked. *)
Definition ready (jm0 : list GoJob) (gs : list globals) : Prop :=
  ∀ i g, gs !! i = Some g → rank (node g) = Z.of_nat i ∧
    ∀ k p j, placed jm0 (Z.of_nat i) k p j →
      Modified j = 1 ∨ job_id (node g) = Z.of_nat k ∧ jobs_count (node g) = Z.of_nat (length jm0).

(** The same without the exception: every process applied the map. *)
Definition settled_in (jm : list GoJob) (gs : list globals) : Prop :=
  ∀ i g, gs !! i = Some g → rank (node g) = Z.of_nat i ∧
    ∀ k p j, placed jm (Z.of_nat i) k p j →
      job_id (node g) = Z.of_nat k ∧ jobs_count (node g) = Z.of_nat (length jm).

(** [g'] has the place and the role that [g] got from the map, whatever else it
    did since. *)
Definition same_role (g g' : globals) : Prop :=
  rank (node g') = rank (node g) ∧ job_id (node g') = job_id (node g) ∧
  jobs_count (node g') = jobs_count (node g).

Section dealt.
Context (n jobs : Z) (jm : list GoJob) (Hn : 0 < n ≤ INT_MAX) (Hd : dealt n jobs jm).

Lemma dealt_NoDup : NoDup (all_ranks jm).
Proof. rewrite (de_ranks _ _ _ Hd). apply NoDup_seqZ. Qed.

Lemma dealt_placed r : 0 ≤ r < n → ∃ k p j, placed jm r k p j.
Proof. intros Hr. apply all_ranks_placed. rewrite (de_ranks _ _ _ Hd). by apply elem_of_seqZ. Qed.

Lemma dealt_range r k p j : placed jm r k p j → 0 ≤ r < n.
Proof.
  intros Hp. assert (r ∈ seqZ 0 n) as Hin; [|apply elem_of_seqZ in Hin; lia].
  rewrite <-(de_ranks _ _ _ Hd). apply all_ranks_placed. by exists k, p, j.
Qed.

Lemma dealt_length j : j ∈ jm → Z.of_nat (length (RankList j)) ≤ n.
Proof.
  intros (l1 & l2 & E)%list_elem_of_split.
  assert (length (all_ranks jm) = Z.to_nat n) as Hl by (by rewrite (de_ranks _ _ _ Hd), length_seqZ).
  unfold all_ranks in Hl. rewrite E, fmap_app, concat_app in Hl. simpl in Hl. rewrite !length_app in Hl. lia.
Qed.

Lemma dealt_wf : wf_map n jm.
Proof.
  pose proof Hd as [D1 D2 D3 D4]. assert (∀ z, 0 ≤ z ≤ INT_MAX → is_int z) as Hint
    by (unfold is_int, INT_MIN; lia).
  assert (length jm ≤ length (all_ranks jm))%nat as Hle.
  { clear -D2. unfold all_ranks. induction D2 as [|j jm' Hj _ IH]; [simpl; lia|].
    rewrite fmap_cons. cbn [concat length]. rewrite length_app. destruct (RankList j); [done|cbn [length]; lia]. }
  rewrite D4, length_seqZ in Hle. split; [|apply Hint; lia|].
  - apply Forall_forall. intros j Hj. rewrite Forall_forall in D2, D3. split.
    + destruct (D3 j Hj) as [-> | ->]; by vm_compute.
    + by apply D2.
    + apply Hint. pose proof (dealt_length j Hj). lia.
    + apply Forall_forall. intros r (p & Hp)%list_elem_of_lookup.
      apply list_elem_of_lookup in Hj as (k & Hk). pose proof (dealt_range r k p j (conj Hk Hp)).
      split; [done|]. apply Hint. lia.
  - unfold CountTotalRanks. change (concat (RankList <$> jm)) with (all_ranks jm).
    rewrite D4, length_seqZ. apply Hint. lia.
Qed.

Lemma dealt_total : CountTotalRanks jm = n.
Proof.
  unfold CountTotalRanks. change (concat (RankList <$> jm)) with (all_ranks jm).
  rewrite (de_ranks _ _ _ Hd), length_seqZ. lia.
Qed.

End dealt.

Section fleet.
Context (n jobs : Z) (jm0 jm : list GoJob) (gs : list globals).
Context (Hn : 0 < n ≤ INT_MAX) (Hlen : Z.of_nat (length gs) = n).
Context (Hd : dealt n jobs jm) (Hf : Forall2 follows jm0 jm).

(** The job before. *)
Lemma follows_before k j : jm !! k = Some j → ∃ j0, jm0 !! k = Some j0 ∧ follows j0 j.
Proof.
  intros Hk. destruct (lookup_lt_is_Some_2 jm0 k) as [j0 Hj0].
  { rewrite (Forall2_length _ _ _ Hf). by eapply lookup_lt_Some. }
  exists j0. split; [done|]. by eapply (Forall2_lookup_lr follows).
Qed.

Context (Hready : ready jm0 gs).

Lemma ready_settled i g k p j :
  gs !! i = Some g → placed jm (Z.of_nat i) k p j →
  Modified j = 1 ∨ job_id (node g) = Z.of_nat k ∧ jobs_count (node g) = Z.of_nat (length jm).
Proof.
  intros Hg [Hk Hp]. destruct (follows_before k j Hk) as (j0 & Hk0 & [_ [E|E] B]); [|by left].
  destruct (Hready i g Hg) as [_ Hset]. rewrite E in Hp.
  destruct (Hset k p j0 (conj Hk0 Hp)) as [M|[E1 E2]].
  - left. destruct B as [->|]; done.
  - right. split; [done|]. by rewrite E2, (Forall2_length _ _ _ Hf).
Qed.

Lemma ready_fits i g : gs !! i = Some g → map_fits n jm g.
Proof.
  intros Hg. pose proof (lookup_lt_Some _ _ _ Hg). destruct (Hready i g Hg) as [Hr _].
  destruct (dealt_placed n jobs jm Hd (Z.of_nat i)) as (k & p & j & Hp); [lia|].
  split; [by apply (dealt_wf n jobs)|by apply (dealt_NoDup n jobs)|]. exists k, p, j. rewrite Hr. split; [done|].
  by eapply ready_settled.
Qed.

Lemma ready_fleet : fleet_ok jm gs.
Proof.
  split.
  - by apply (dealt_NoDup n jobs).
  - intros i g Hg. by apply Hready.
  - intros i g Hg. apply (dealt_placed n jobs jm Hd). apply lookup_lt_Some in Hg. lia.
  - intros r. rewrite (de_ranks _ _ _ Hd), elem_of_seqZ. lia.
  - intros j Hj. pose proof (de_nonempty _ _ _ Hd) as Hne. rewrite Forall_forall in Hne. by apply Hne.
  - intros i g k p j Hg Hp. destruct (ready_settled i g k p j Hg Hp) as [|[? _]]; [by left|by right].
Qed.

(** The first worker of a job was in the job before. *)
Lemma master_stays k i g j :
  settled_in jm0 gs → gs !! i = Some g → placed jm (Z.of_nat i) k 0 j → job_id (node g) = Z.of_nat k.
Proof.
  intros Hset Hg [Hk Hp]. destruct (follows_before k j Hk) as (j0 & Hk0 & [(kept & new & E & Hne & Hsub) _ _]).
  destruct kept as [|r kept]; [done|]. rewrite E in Hp. injection Hp as ->.
  assert (Z.of_nat i ∈ RankList j0) as (p & Hp0)%list_elem_of_lookup by (apply Hsub; set_solver).
  destruct (Hset i g Hg) as [_ Hk1]. by destruct (Hk1 k p j0 (conj Hk0 Hp0)).
Qed.

(** After the map every process is in its job. *)
Lemma applied_settled gs' :
  Forall2 same_role (parsed jm <$> gs) gs' → settled_in jm gs'.
Proof.
  intros Hap i g' Hg'. destruct (Forall2_lookup_r _ _ _ _ _ Hap Hg') as (g1 & Hg1 & E1 & E2 & E3).
  apply list_lookup_fmap_Some in Hg1 as (g & -> & Hg).
  pose proof (ready_fits i g Hg) as Hfit. destruct (Hready i g Hg) as [Hr _].
  assert (rank (node (parsed jm g)) = Z.of_nat i) as Hr'
    by (destruct (parsed_same_place jm g) as (-> & _); done).
  split; [by rewrite E1|]. intros k p j Hp. rewrite E2, E3. split; [|by eapply fits_jobs_count].
  assert (placed jm (rank (node g)) k p j) as Hp' by (by rewrite Hr).
  rewrite (parsed_job_id jm g k p j (dealt_NoDup n jobs jm Hd) Hp').
  destruct (ready_settled i g k p j Hg Hp) as [-> | [E _]]; [done|by case_match].
Qed.
End fleet.

Lemma placed_unmarked jm r k p j :
  placed (unmarked <$> jm) r k p j → ∃ j', placed jm r k p j' ∧ j = unmarked j'.
Proof. intros [(j' & -> & Hk)%list_lookup_fmap_Some Hp]. by exists j'. Qed.

Lemma settled_unmarked jm gs : settled_in jm gs → settled_in (unmarked <$> jm) gs.
Proof.
  intros Hs i g Hg. destruct (Hs i g Hg) as [H1 H2]. split; [done|].
  intros k p j (j' & Hp & _)%placed_unmarked. rewrite length_fmap. by eapply H2.
Qed.

Lemma settled_ready jm gs : settled_in jm gs → ready jm gs.
Proof. intros Hs i g Hg. destruct (Hs i g Hg) as [H1 H2]. split; [done|]. intros k p j Hp. right. by eapply H2. Qed.

(** What holds of every map of a run when each process applies each map. *)
Definition map_serves (n : Z) (jm : list GoJob) (gs : list globals) : Prop :=
  CountTotalRanks jm = n ∧ fleet_ok jm gs ∧ ∀ i g, gs !! i = Some g → map_fits n jm g.

Lemma chain_serves n jobs jms : ∀ jm0 (fleets : nat → list globals),
  0 < n ≤ INT_MAX → dealt n jobs jm0 → chain n jobs jm0 jms →
  Z.of_nat (length (fleets 0%nat)) = n → ready jm0 (fleets 0%nat) →
  (∀ t jm, jms !! t = Some jm → Forall2 same_role (parsed jm <$> fleets t) (fleets (S t))) →
  ∀ t jm, jms !! t = Some jm → map_serves n jm (fleets t) ∧
    ((0 < t)%nat ∨ settled_in jm0 (fleets 0%nat) → ∀ i g k j, fleets t !! i = Some g →
       placed jm (Z.of_nat i) k 0 j → job_id (node g) = Z.of_nat k).
Proof.
  induction jms as [|jm1 jms IH]; intros jm0 fleets Hn Hd0 Hch Hlen Hr Happ t jm Ht; [done|].
  destruct Hch as (Hf & Hd & Hch). destruct t as [|t].
  - injection Ht as <-. split; [split; [by apply (dealt_total n jobs)|split]|].
    + by eapply ready_fleet.
    + intros i g. by eapply ready_fits.
    + intros [?|Hset] i g k j; [lia|]. by eapply master_stays.
  - pose proof (Happ 0%nat jm1 eq_refl) as H01.
    assert (settled_in jm1 (fleets 1%nat)) as Hset
      by (by eapply applied_settled).
    apply settled_unmarked in Hset.
    destruct (IH (unmarked <$> jm1) (λ t, fleets (S t)) Hn) with (t := t) (jm := jm) as [H1 H2]; try done.
    + by apply dealt_unmarked.
    + rewrite <-Hlen, <-(Forall2_length _ _ _ H01), length_fmap. done.
    + by apply settled_ready.
    + intros t' jm' Ht'. by apply (Happ (S t')).
    + split; [exact H1|]. intros _. apply H2. by right.
Qed.

Lemma booted_ready jm0 gs :
  (∀ i g, gs !! i = Some g → rank (node g) = Z.of_nat i) → Forall (λ j, Modified j = 1) jm0 → ready jm0 gs.
Proof.
  intros Hr Hm i g Hg. split; [by apply Hr|]. intros k p j [Hk _]. left. rewrite Forall_forall in Hm.
  apply Hm. by eapply list_elem_of_lookup_2.
Qed.

Lemma stack_info_record idx r a :
  is_int idx → is_int r → 0 ≤ a < 2 ^ 64 → stack_info (rep_and_stack_info idx r a) = (idx, r, a).
Proof.
  intros Hi Hr Ha. assert (∀ z, is_int z → wrap32s (z mod 2 ^ 32) = z) as Hw.
  { intros z Hz. unfold wrap32s. rewrite Zplus_mod_idemp_l. apply (wrap32s_small z Hz). }
  unfold stack_info, rep_and_stack_info.
  rewrite take_app_length' by (by rewrite length_encode). rewrite drop_app_length' by (by rewrite length_encode).
  rewrite take_app_length' by (by rewrite length_encode).
  rewrite (app_assoc (encode 4 idx)), drop_app_length' by (by rewrite length_app, !length_encode).
  rewrite take_ge by (rewrite length_encode; lia). rewrite !decode_encode.
  change (256 ^ Z.of_nat 4) with (2 ^ 32). rewrite !Hw by done. f_equal. by apply Z.mod_small.
Qed.

(** ** Properties *)

(** C8: the manager serves the program.  Whatever it draws, it never panics, and
    the only way it does not write all its maps is that [Assign] goes on for
    ever.  If every process applies every map, then each map is one the
    processes can take: it deals out all ranks, each to one job, each job has
    a worker, a process that changed its job is in a job that is marked, and
    ([map_fits], [fleet_ok]) the theorems on [parse_map_file] and on the
    communicators apply.  From the second map on, the first worker of each
    job, which sends its image to the new ones, was already in that job. *)
Theorem manager_serves {R} `{Rand R} `{!RandLaws (R := R)} fuel jobs n choose files (m : manager R)
    (fleets : nat → list globals) :
  0 < jobs ≤ n → n ≤ INT_MAX → Forall is_Some files →
  Z.of_nat (length (fleets 0%nat)) = n →
  (∀ i g, fleets 0%nat !! i = Some g → rank (node g) = Z.of_nat i) →
  match manager_main fuel jobs n choose files m with
  | Done jms _ => length jms = length files ∧
      ((∀ t jm, jms !! t = Some jm → Forall2 same_role (parsed jm <$> fleets t) (fleets (S t))) →
       ∀ t jm, jms !! t = Some jm → map_serves n jm (fleets t) ∧
         ((0 < t)%nat → ∀ i g k j, fleets t !! i = Some g →
            placed jm (Z.of_nat i) k 0 j → job_id (node g) = Z.of_nat k))
  | Stop e _ => e = NoFuel
  end.
Proof.
  intros Hj Hn Hf Hlen Hr. unfold manager_main.
  rewrite (proj2 (Z.eqb_neq _ _)), (proj2 (Z.eqb_neq _ _)) by lia. cbn [orb].
  rewrite (proj2 (Z.ltb_ge _ _)) by lia.
  destruct (wp_run _ _ _ (InitJobMap_spec jobs n m Hj)) as ([] & m1 & E & Hd & Hm & _).
  rewrite (bind_Done _ _ _ _ _ E).
  pose proof (update_loop_spec n jobs fuel (if choose =? 0 then n - jobs else choose) files true m1 Hf Hd
    ltac:(lia)) as Hloop.
  unfold wp in Hloop. destruct (update_loop _ _ _ _ m1) as [jms m2|e m2]; [|done].
  destruct Hloop as [Hl Hch]. split; [done|]. intros Happ t jm Ht.
  destruct (chain_serves n jobs jms (map_of m1) fleets) with (t := t) (jm := jm) as [H1 H2]; try done; [lia| |].
  - by apply booted_ready.
  - split; [done|]. intros Hpos. apply H2. by left.
Qed.

(** C35: the manager ends.  With at most two ranks for each job and a generator
    that draws every job within [turns] draws, a fuel of [turns] for each rank
    is enough for every [Assign], provided that all processes report the same
    stack address. *)
Theorem manager_ends {R} `{Rand R} `{!RandLaws (R := R)} turns fuel jobs n choose a files (m : manager R) :
  FairRand (R := R) jobs turns → 0 < jobs ≤ n → n ≤ 2 * jobs → n ≤ INT_MAX →
  (turns * Z.to_nat n ≤ fuel)%nat → Forall (reports n a) files →
  ∃ jms m', manager_main fuel jobs n choose files m = Done jms m'.
Proof.
  intros Hfair Hj H2 Hn Hfuel Hf. unfold manager_main.
  rewrite (proj2 (Z.eqb_neq _ _)), (proj2 (Z.eqb_neq _ _)) by lia. cbn [orb].
  rewrite (proj2 (Z.ltb_ge _ _)) by lia.
  destruct (wp_run _ _ _ (InitJobMap_spec jobs n m Hj)) as ([] & m1 & E & Hd & _ & Hs).
  rewrite (bind_Done _ _ _ _ _ E). by eapply (update_loop_ends n jobs turns); try done; lia.
Qed.

(** What a process sees of the world it shares with the others: the files are
    the same, its stack is its own. *)
Class Views {W : Type} `{Files W} (file_of : string → W → list byte) (addr : nat → Z) (view : nat → W → W) : Prop := {
  view_files f i w : file_of f (view i w) = file_of f w;
  view_stack i w : stack_top (view i w) = addr i
}.

Definition report_stack {W} `{Files W} (idx : Z) (gs : nat → globals) (view : nat → W → W) (w : W) (i : nat) : W :=
  match save_rep_and_stack_info idx (gs i, view i w) with Done _ s => s.2 | Stop _ s => s.2 end.

(** C34: what the processes report is what the manager reads.  When all [n]
    processes ran [save_rep_and_stack_info], in whatever order, over a file of
    at most [n] records, the manager finds the records of all ranks, each with
    the map that was applied, the rank and the address of the stack. *)
Theorem stack_info_roundtrip {W} `{Files W} (file_of : string → W → list byte) `{!FilesLaws file_of}
    addr view `{!Views file_of addr view} idx gs n order w :
  is_int idx → (0 < n)%nat → Z.of_nat n ≤ INT_MAX → (∀ i, rank (node (gs i)) = Z.of_nat i) →
  (∀ i, (i < n)%nat → 0 ≤ addr i < 2 ^ 64) → order ≡ₚ seq 0 n →
  (length (file_of STACK_REP_INFO_FILE_NAME w) ≤ 16 * n)%nat →
  stack_info <$> all_records 16 (file_of STACK_REP_INFO_FILE_NAME (foldl (report_stack idx gs view) w order)) =
    (λ i, (idx, Z.of_nat i, addr i)) <$> seq 0 n.
Proof.
  intros Hidx Hn Hmax Hgs Haddr Hord Hlen.
  assert (∀ i w', file_of STACK_REP_INFO_FILE_NAME (report_stack idx gs view w' i) =
    write_at (Z.of_nat (16 * i)) (rep_and_stack_info idx (Z.of_nat i) (addr i))
      (file_of STACK_REP_INFO_FILE_NAME w')) as Hstep.
  { intros i w'. unfold report_stack, save_rep_and_stack_info. cbn [modify snd fst]. rewrite Hgs, file_of_write.
    rewrite (view_files (addr := addr)), (view_stack (file_of := file_of)). f_equal. lia. }
  pose proof (reports_any_order _ 16 (λ i w, report_stack idx gs view w i) _ n order w Hstep
    (λ i, length_rep_and_stack_info _ _ _) ltac:(lia) Hn Hord Hlen) as E.
  etransitivity; [exact (f_equal (fmap stack_info) E)|].
  rewrite <-list_fmap_compose. apply list_fmap_ext. intros i x [-> Hx]%lookup_seq. simpl.
  apply stack_info_record; [done|unfold is_int, INT_MIN; lia|by apply Haddr].
Qed.

(** A map that is missed is not made up for.  The marks are taken off when
    the map is written, whether or not the program has read it.  A process
    that missed the map that gave it to job [k], and reads one in which that
    job is not marked again, stays in its old job, takes part in no transfer,
    and from then on is no worker of its own job by its own tables. *)
Theorem missed_map n jobs jm g k i j :
  dealt n jobs jm → placed jm (rank (node g)) k i j → Modified j ≠ 1 → job_id (node g) ≠ Z.of_nat k →
  ckpt_restore g = RESTORE_NO → jobs_readable g → map_for jm g →
  ∃ g', parse_map_file (Some (WriteToFile jm)) g = Done tt g' ∧
    job_id (node g') = job_id (node g) ∧
    node_transit_state (node g') = NODE_DATA_NONE ∧
    ¬ role (job_table jm) (node g').
Proof.
  intros Hd Hp Hm Hk Hc Hr Hfor. pose proof (dealt_NoDup n jobs jm Hd) as Hnd.
  exists (parsed jm g). split; [by apply parse_map_file_parsed|].
  assert (job_id (node (parsed jm g)) = job_id (node g)) as Hj
    by (rewrite (parsed_job_id _ _ _ _ _ Hnd Hp); by rewrite (proj2 (Z.eqb_neq _ _) Hm)).
  split; [done|]. split.
  - rewrite (parsed_transit _ _ _ _ _ Hnd Hp). unfold transit_after. by rewrite (proj2 (Z.eqb_neq _ _) Hm).
  - intros [H0 (j' & Hj' & Hin & _)]. apply job_table_lookup in Hj' as (gj & Hgj & ->).
    rewrite workers_job_of in Hin. destruct (parsed_same_place jm g) as (Er & _). rewrite Er in Hin.
    apply list_elem_of_lookup in Hin as [p Hin].
    destruct (placed_unique jm _ _ _ _ _ _ _ Hnd Hp (conj Hgj Hin)) as (-> & _ & _). rewrite Hj in H0, Hk.
    apply Hk. lia.
Qed.

(** C11: the manager does not know of failures, and its maps name the processes by
    their first ranks.  After a repair the processes have other ranks.  The
    next map is read without complaint, but gives a process, whose rank was
    [rank (node g)] and is now [r], the place that is meant for the process
    that was [r]; and the tables hold ranks that no process has any more. *)
Theorem map_after_shrink `{MpiConst} `{!MpiConstLaws} n jobs jm size' tr js a ign g r k i j :
  dealt n jobs jm → n ≤ INT_MAX → tables n js a ign g → ckpt_restore g = RESTORE_NO →
  translation n tr → Forall (λ t, t = MPI_UNDEFINED ∨ 0 ≤ t < size') tr → Forall (alive tr) js →
  0 ≤ rank (node g) < n → translate tr (rank (node g)) = Some r →
  0 ≤ job_id (node g) < Z.of_nat (length js) → placed jm r k i j →
  ∃ g1 g2, update_job_list n (Some <$> tr) g = Done tt g1 ∧
    parse_map_file (Some (WriteToFile jm)) g1 = Done tt g2 ∧
    job_id (node g2) = (if Modified j =? 1 then Z.of_nat k else job_id (node g)) ∧
    (node_checkpoint_master (node g2) = YES ↔ i = 0%nat) ∧
    (r ≠ rank (node g) → ¬ placed jm (rank (node g)) k i j) ∧
    ∃ js2, job_list g2 = Some (Some <$> js2) ∧
      ∀ t, 0 ≤ t → size' ≤ t < n → t ∈ concat (workers <$> js2) ∧ t ∉ tr.
Proof.
  intros Hd Hn Ht Hc Htr Hsmall Hal Hr Hown Hjob Hp. pose proof (dealt_NoDup n jobs jm Hd) as Hnd.
  pose proof (update_job_list_spec _ _ _ _ _ _ _ Htr Ht Hr Hown Hjob) as Hrun. cbv zeta in Hrun.
  rewrite decide_True in Hrun by done.
  pose proof (updated_tables _ _ _ _ _ _ Htr Ht Hal) as Ht1. set (g1 := updated tr js a ign g) in *.
  assert (rank (node g1) = r) as Hr1 by (unfold g1; simpl; unfold renumbered; rewrite Hown; done).
  exists g1, (parsed jm g1). split; [exact Hrun|]. rewrite <-Hr1 in Hp.
  split; [|split; [|split; [|split]]].
  - apply parse_map_file_parsed; [exact Hc|by eapply tables_readable|]. unfold map_for.
    rewrite (tables_array _ _ _ _ _ _ Ht1). eapply wf_map_mono; [exact (tab_r2j_length _ _ _ _ _ Ht1)|].
    apply (dealt_wf n jobs jm); [lia|done].
  - by rewrite (parsed_job_id _ _ _ _ _ Hnd Hp).
  - rewrite (parsed_master _ _ _ _ _ Hnd Hp). by destruct i.
  - intros Hne [_ H2]. destruct Hp as [_ H1]. rewrite Hr1 in H1. congruence.
  - exists (job_table jm). split; [apply (f_equal Some), jobs_of_table|].
    intros t Hpos Hlt. rewrite workers_table. change (concat (RankList <$> jm)) with (all_ranks jm). split.
    + rewrite (de_ranks _ _ _ Hd). apply elem_of_seqZ. lia.
    + intros Hin. rewrite Forall_forall in Hsmall. destruct (Hsmall t Hin) as [->|]; [|lia].
      pose proof undefined_neg. lia.
Qed.

(** ** Witnesses *)
Definition process (i : nat) : globals := set_node (set_job_id (-1) (set_rank (Z.of_nat i) node0)) globals0.
Definition reported_ex : list byte :=
  disk_file STACK_REP_INFO_FILE_NAME (foldl (report_stack 0 process disk_view) empty_disk [2; 0; 1]%nat).

#[local] Instance disk_views : Views disk_file (λ _, 140737488347136) disk_view.
Proof. by split. Qed.

Lemma stack_info_roundtrip_witness :
  stack_info <$> all_records 16 reported_ex =
    [(0, 0, 140737488347136); (0, 1, 140737488347136); (0, 2, 140737488347136)].
Proof.
  apply (stack_info_roundtrip disk_file (λ _, 140737488347136) disk_view 0 process 3 [2; 0; 1]%nat empty_disk).
  - by vm_compute.
  - lia.
  - by vm_compute.
  - reflexivity.
  - by vm_compute.
  - apply (bool_decide_unpack _). vm_compute. done.
  - vm_compute. lia.
Defined.

(** Two jobs and three processes: the first map gives process 2 to job 1, the
    second one to job 0, the third one changes nothing. *)
Definition start_ex : manager (list Z) := MkManager [] 0 [0; 1; 1; 1; 1; 0; 1].
Definition maps_ex : list (list GoJob) :=
  [[MkGoJob 1 [0]; MkGoJob 1 [1; 2]]; [MkGoJob 1 [0; 2]; MkGoJob 1 [1]]; [MkGoJob 0 [0; 2]; MkGoJob 0 [1]]].
Definition files_ex : list (option (list byte)) := replicate 3 (Some reported_ex).

Lemma maps_ex_written : ∃ m', manager_main 1 2 3 0 files_ex start_ex = Done maps_ex m'.
Proof. eexists. vm_compute. reflexivity. Qed.

Definition fleet_at (t : nat) : list globals :=
  foldl (λ gs jm, parsed jm <$> gs) (process <$> seq 0 3) (take t maps_ex).

Lemma fleet_at_next t jm :
  maps_ex !! t = Some jm → Forall2 same_role (parsed jm <$> fleet_at t) (fleet_at (S t)).
Proof.
  intros Ht. unfold fleet_at. rewrite (take_S_r _ _ _ Ht), foldl_app. cbn [foldl].
  apply Forall2_same_length_lookup. split; [done|]. intros i g g' Hg Hg'. simplify_eq. done.
Qed.

Lemma manager_serves_witness :
  map_serves 3 [MkGoJob 1 [0; 2]; MkGoJob 1 [1]] (fleet_at 1) ∧
  ∀ g, fleet_at 1 !! 0%nat = Some g → job_id (node g) = 0.
Proof.
  pose proof (manager_serves 1 2 3 0 files_ex start_ex fleet_at ltac:(lia) ltac:(done)) as Hserves.
  destruct maps_ex_written as [m' E]. rewrite E in Hserves.
  destruct Hserves as [_ Hserves].
  - by repeat constructor.
  - reflexivity.
  - intros i g Hg. apply list_lookup_fmap_Some in Hg as (x & -> & [-> _]%lookup_seq). reflexivity.
  - destruct (Hserves fleet_at_next 1%nat _ eq_refl) as [H1 H2]. split; [exact H1|].
    intros g Hg. exact (H2 ltac:(lia) 0%nat g 0%nat (MkGoJob 1 [0; 2]) Hg (conj eq_refl eq_refl)).
Defined.

Lemma manager_ends_witness : ∃ jms m',
  manager_main 6 2 3 0 files_ex (MkManager [] 0 (5 : counter)) = Done jms m'.
Proof.
  apply (manager_ends 2 6 2 3 0 140737488347136 files_ex (MkManager [] 0 (5 : counter)));
    [apply (counter_fair 2)|lia|lia|done|vm_compute; lia|].
  repeat constructor; exists reported_ex, 0; (split; [reflexivity|vm_compute; reflexivity]).
Defined.

(** Process 2 applied the first map and missed the second one. *)
Lemma missed_map_witness :
  let g := parsed [MkGoJob 1 [0]; MkGoJob 1 [1; 2]] (process 2) in
  let jm := [MkGoJob 0 [0; 2]; MkGoJob 0 [1]] in
  (∃ m', manager_main 1 2 3 0 files_ex start_ex = Done maps_ex m') ∧ maps_ex !! 2%nat = Some jm ∧
  ∃ g', parse_map_file (Some (WriteToFile jm)) g = Done tt g' ∧
    job_id (node g') = 1 ∧ ¬ role (job_table jm) (node g').
Proof.
  intros g jm. split; [exact maps_ex_written|]. split; [reflexivity|].
  destruct (missed_map 3 2 jm g 0 1 (MkGoJob 0 [0; 2])) as (g' & E & H1 & _ & H3).
  - split; [reflexivity|repeat constructor; done|repeat constructor; by left|].
    change (seqZ 0 3) with [0; 1; 2]. change (all_ranks jm) with [0; 2; 1]. solve_Permutation.
  - by split.
  - by vm_compute.
  - by vm_compute.
  - reflexivity.
  - intros i Hi. change (jobs_count (node g)) with 2 in Hi. assert (i = 0 ∨ i = 1) as [-> | ->] by lia;
      eexists _, _; split; reflexivity.
  - split; repeat constructor; by vm_compute.
  - exists g'. split; [exact E|]. split; [by rewrite H1|exact H3].
Defined.

(** Process 1 of four died, and process 2 has rank 1 now; the next map makes it
    the first worker of job 1, where process 1 was. *)
Lemma map_after_shrink_witness : ∃ g1 g2,
  update_job_list 4 (Some <$> [0; MPI_UNDEFINED; 1; 2]) (crash_globals 0) = Done tt g1 ∧
  parse_map_file (Some (WriteToFile [MkGoJob 1 [0; 2]; MkGoJob 1 [1; 3]])) g1 = Done tt g2 ∧
  job_id (node (crash_globals 0)) = 0 ∧ job_id (node g2) = 1 ∧ node_checkpoint_master (node g2) = YES.
Proof.
  destruct (map_after_shrink 4 2 [MkGoJob 1 [0; 2]; MkGoJob 1 [1; 3]] 3 [0; MPI_UNDEFINED; 1; 2] crash_jobs
    crash_r2j (replicate 4 (Some 0)) (crash_globals 0) 1 1 0 (MkGoJob 1 [1; 3]))
    as (g1 & g2 & E1 & E2 & E3 & E4 & _); try done.
  - split; [reflexivity|repeat constructor; done|repeat constructor; by right|].
    change (seqZ 0 4) with [0; 1; 2; 3].
    change (all_ranks [MkGoJob 1 [0; 2]; MkGoJob 1 [1; 3]]) with [0; 2; 1; 3]. solve_Permutation.
  - exact (crash_tables 0).
  - apply (rerank_translation [0; 1; 2; 3] [0; 2; 3]); [|simpl; lia].
    apply (bool_decide_unpack _). by vm_compute.
  - repeat (apply Forall_cons; split; [(by left) || (right; lia)|]). constructor.
  - apply (bool_decide_unpack _). by vm_compute.
  - exists g1, g2. split; [exact E1|]. split; [exact E2|]. split; [reflexivity|]. split; [exact E3|].
    by apply E4.
Defined.

(** With more than two ranks for each job the manager may go on for ever: two
    jobs and five processes, when [Choose] takes the third rank of job 0. *)
Theorem manager_hangs draws fuel :
  ∃ m', manager_main fuel 2 5 0 files_ex (MkManager [] 0 (0 :: 0 :: draws)) = Stop NoFuel m'.
Proof.
  set (m0 := MkManager _ _ _).
  set (m1 := MkManager [MkManagedJob 0 [MkRank 2 (-1) 0; MkRank 4 (-1) 0] 1;
    MkManagedJob 1 [MkRank 1 (-1) 0; MkRank 3 (-1) 0] 1] 0 draws).
  set (m2 := MkManager [MkManagedJob 0 [MkRank 0 (-1) 0; MkRank 2 (-1) 0; MkRank 4 (-1) 0] 1;
    MkManagedJob 1 [MkRank 1 (-1) 0; MkRank 3 (-1) 0] 1] 0 (0 :: 0 :: draws)).
  assert (InitJobMap 2 5 m0 = Done tt m2) as E1 by (vm_compute; reflexivity).
  assert (Choose 3 m2 = Done [MkRank 0 (-1) 0] m1) as E2 by (vm_compute; reflexivity).
  assert (∀ k j, JMap m1 !! k = Some j → length (Ranks j) = 2%nat) as H2
    by (intros [|[|k]] j Hj; by simplify_eq/=).
  destruct (Assign_stuck fuel (MkRank 0 (-1) 0) [] m1) as [m' Hm'].
  - split; [done|]. by repeat constructor.
  - intros k (j & f & Hk & Hne & _). by apply H2 in Hk.
  - exists m'. change (manager_main fuel 2 5 0 files_ex m0) with
      ((InitJobMap 2 5 ;;; update_loop fuel 3 true files_ex) m0).
    rewrite (bind_Done _ _ _ _ _ E1). unfold files_ex. cbn [replicate update_loop].
    unfold update_turn at 1. cbn [bind]. rewrite E2. cbn [bind]. by rewrite Hm'.
Qed.
