(* ===== verification/Injector.v ===== *)
(** * The fault injector: [src/manager/fault_injector]

    The injector kills processes of a running program.  [selector.go] reads
    the replication map and draws the ranks to kill; unless it is told
    otherwise, it spares one process of each job.  [injector.go] finds the
    process of a rank in [network.stat] and kills it on its host.  What is
    drawn, how long the injector waits, and what becomes of the [ssh] command
    are parameters. *)

From Stdlib Require Import Strings.Byte Ascii.
From S2P Require Import Prelude Shared Mpi MapFile Comm CommSystem Memory Stat Ulfm Update Lifecycle Rng.

(** ** The map, as [selector.go] reads it *)

(** [reader.ReadString('\n')], and the line without its end. *)
Fixpoint read_line (l : list ascii) : list ascii * list ascii :=
  match l with
  | [] => ([], [])
  | c :: l' => if Ascii.eqb c NL then ([], l') else let '(a, b) := read_line l' in (c :: a, b)
  end.

(** [strings.Split(line, "\t")]. *)
Fixpoint split_tabs (l : list ascii) : list (list ascii) :=
  match l with
  | [] => [[]]
  | c :: l' =>
      if Ascii.eqb c TAB then [] :: split_tabs l'
      else match split_tabs l' with [] => [[c]] | w :: ws => (c :: w) :: ws end
  end.

(** [strconv.Atoi], whose error is dropped: 0 for what is no number, and the
    nearest [int] for a number that is too big. *)
Definition Atoi (l : list ascii) : Z :=
  let '(neg, l) := scan_sign l in
  if starts_digit l then
    match scan_digits 0 l with
    | (n, []) => if neg then Z.max (- n) (- 2 ^ 63) else Z.min n (2 ^ 63 - 1)
    | (_, _ :: _) => 0
    end
  else 0.

(** The two ranks of a job, [-1] where there is none.  A third one is behind
    the array, and the injector panics. *)
Definition job_ranks (words : list (list ascii)) : option (Z * Z) :=
  match words with
  | [] => Some (-1, -1)
  | [a] => Some (Atoi a, -1)
  | [a; b] => Some (Atoi a, Atoi b)
  | _ => None
  end.

Fixpoint read_jobs (n : nat) (text : list ascii) (m : gmap Z (Z * Z)) : option (gmap Z (Z * Z)) :=
  match n with
  | O => Some m
  | S n' =>
      let '(line, text') := read_line text in
      let words := split_tabs line in
      id ← words !! 1%nat;
      ranks ← job_ranks (drop 3 words);
      read_jobs n' text' (<[Atoi id := ranks]> m)
  end.

(** [None]: a panic. *)
Definition initReplicationMap (file : option (list ascii)) : option (gmap Z (Z * Z)) :=
  text ← file;
  let '(line, text') := read_line text in
  numJobs ← split_tabs line !! 1%nat;
  read_jobs (Z.to_nat (Atoi numJobs)) text' ∅.

(** ** [selector.go] *)
Inductive Image : Set := KILL_COMPUTE | KILL_REPLICA | KILL_ANY.
Record SelectorOpts : Type := MkOpts { ImageToKill : Image; KillEvenIfNotReplicated : bool }.

(** [time.Duration] of the next number of the distribution, in seconds. *)
Class Dist (D : Type) : Type := next_wait : D → Z * D.

Record selector (R D : Type) : Type := MkSelector {
  RepMap : gmap Z (Z * Z);
  RankQueued : gset Z;
  Intervals : Z;
  Opts : option SelectorOpts;
  s_rand : R;
  s_dist : D
}.
Arguments MkSelector {R D} _ _ _ _ _ _.
Arguments RepMap {R D} _.
Arguments RankQueued {R D} _.
Arguments Intervals {R D} _.
Arguments Opts {R D} _.
Arguments s_rand {R D} _.
Arguments s_dist {R D} _.

Definition set_s_rand {R D} (r : R) (s : selector R D) : selector R D :=
  MkSelector (RepMap s) (RankQueued s) (Intervals s) (Opts s) r (s_dist s).
Definition queue {R D} (r : Z) (d : D) (s : selector R D) : selector R D :=
  MkSelector (RepMap s) ({[ r ]} ∪ RankQueued s) (Intervals s) (Opts s) (s_rand s) d.

Record QueuedProcess : Type := MkQueued { q_rank : Z; WaitInterval : Z }.

Definition CR (ranks : Z * Z) (i : Z) : option Z :=
  if i =? 0 then Some ranks.1 else if i =? 1 then Some ranks.2 else None.

(** An [int64], which wraps around. *)
Definition int64 (z : Z) : Z := (z + 2 ^ 63) mod 2 ^ 64 - 2 ^ 63.

(** [NewSelector]; [None]: a panic.  A [Duration] is in nanoseconds. *)
Definition NewSelector {R D} (file : option (list ascii)) (r : R) (d : D) (duration interval : Z)
    (opts : option SelectorOpts) : option (selector R D) :=
  if interval =? 0 then None
  else m ← initReplicationMap file; Some (MkSelector m ∅ (Z.quot (int64 (Z.quot duration interval * 1000000000)) 1000000000) opts r d).

Section selector.
Context {R D : Type} `{Rand R} `{Dist D}.

Definition random_of (n : Z) : M (selector R D) Z := zoom s_rand set_s_rand (Int32n n).

(** Which of the two ranks is to die. *)
Definition rank_index : M (selector R D) Z :=
  let! opts := gets Opts in
  match opts with
  | None => ret 0
  | Some o =>
      match ImageToKill o with
      | KILL_ANY => random_of 2
      | KILL_REPLICA => ret 1
      | KILL_COMPUTE => ret 0
      end
  end.

(** [getNew]; [None] is the error it returns.  The loop ends when a rank is
    found or after six draws of a rank that is queued already. *)
Fixpoint getNew (fuel : nat) (cnt : Z) : M (selector R D) (option QueuedProcess) :=
  match fuel with
  | O => halt NoFuel
  | S fuel' =>
      let! m := gets RepMap in
      let! randomJob := random_of (wrap32s (Z.of_nat (size m))) in
      let! randomRankIndex := rank_index in
      let! opts := gets Opts in
      let! queued := gets RankQueued in
      let! ranks := of_option (Exited 2) (m !! randomJob) in
      let! randomRank := of_option (Exited 2) (CR ranks randomRankIndex) in
      let! other := of_option (Exited 2) (CR ranks (1 - randomRankIndex)) in
      if randomRank <? 0 then getNew fuel' cnt
      else if negb (default false (KillEvenIfNotReplicated <$> opts)) &&
              ((other =? -1) || bool_decide (other ∈ queued))
      then getNew fuel' cnt
      else if bool_decide (randomRank ∈ queued) then
        if cnt =? 5 then ret None else getNew fuel' (cnt + 1)
      else
        let! d := gets s_dist in
        let '(interval, d') := next_wait d in
        modify (queue randomRank d') ;;;
        ret (Some (MkQueued randomRank (int64 (1000000000 * interval))))
  end.

(** [NextN]: an error is passed over. *)
Fixpoint next_loop (fuel iter : nat) (queuedArray : list QueuedProcess) : M (selector R D) (list QueuedProcess) :=
  match iter with
  | O => ret queuedArray
  | S iter' =>
      let! q := getNew fuel 0 in
      next_loop fuel iter' (queuedArray ++ option_list q)
  end.
Definition NextN (fuel : nat) (n : Z) : M (selector R D) (list QueuedProcess) :=
  let! intervals := gets Intervals in
  next_loop fuel (Z.to_nat (if n =? 0 then intervals else n)) [].
End selector.

(** The options [main] of [fault_injector.go] starts with, without [-knrep]. *)
Definition any_image : option SelectorOpts := Some (MkOpts KILL_ANY false).

(** One turn of the loop of [getNew] with [KILL_ANY] draws a job and one of its
    places; a fair generator draws each such pair within [turns] turns. *)
Definition turn_draw {R} `{Rand R} (n : Z) (r : R) : (Z * Z) * R :=
  let '(k, r1) := Int31n n r in let '(i, r2) := Int31n 2 r1 in ((k, i), r2).
Fixpoint turn_drawn {R} `{Rand R} (n : Z) (t : nat) (r : R) : Z * Z :=
  match t with O => (turn_draw n r).1 | S t' => turn_drawn n t' (turn_draw n r).2 end.
Class FairTurns {R} `{Rand R} (n : Z) (turns : nat) : Prop :=
  fair_turn r k i : 0 ≤ k < n → 0 ≤ i < 2 → ∃ t, (t < turns)%nat ∧ turn_drawn n t r = (k, i).

(** ** [injector.go] *)
Record NetworkMap : Type := MkNetworkMap { nm_Rank : Z; PID : Z; Len : Z; Hostname : list byte }.

(** A [NetworkMap] read from 112 bytes. *)
Definition network_map (data : list byte) : NetworkMap :=
  MkNetworkMap (decode (take 4 data)) (decode (take 4 (drop 4 data))) (decode (take 4 (drop 8 data)))
    (take 100 (drop 12 data)).

(** [None]: a panic. *)
Definition initNetworkMap (file : option (list byte)) : option (gmap Z NetworkMap) :=
  bytes ← file;
  Some (foldl (λ m nm, <[nm_Rank nm := nm]> m) ∅ (network_map <$> all_records 112 bytes)).

(** [ssh host kill -9 pid]: whether it succeeded. *)
Class Ssh (W : Type) : Type := ssh_kill : list byte → Z → W → bool * W.

Section injector.
Context {W : Type} `{Ssh W}.

Definition lookup_rank (m : gmap Z NetworkMap) (rank : Z) : option NetworkMap := m !! (rank mod 2 ^ 32).

Definition kill_at (host : list byte) (pid : Z) : M W unit :=
  let! ok := (λ w, let '(b, w') := ssh_kill host pid w in Done b w') in
  ensure ok (Exited 1).

Definition kill (p : option NetworkMap) : M W unit :=
  let! p := of_option (Exited 2) p in
  if Z.of_nat (length (Hostname p)) <? Len p then panic
  else kill_at (take (Z.to_nat (Len p)) (Hostname p)) (PID p).

Definition Start (m : gmap Z NetworkMap) (l : list QueuedProcess) : M W unit :=
  iterM (λ p, kill (lookup_rank m (q_rank p))) l.
End injector.

(** ** Lemmas *)

(** *** The text of the map *)
Definition plain (l : list ascii) : Prop := NL ∉ l ∧ TAB ∉ l.

Lemma plain_app l l' : plain l → plain l' → plain (l ++ l').
Proof. unfold plain. set_solver. Qed.

Lemma digits_plain fuel n acc : 0 ≤ n → plain acc → plain (digits fuel n acc).
Proof.
  revert n acc. induction fuel as [|fuel IH]; intros n acc Hn Hacc; simpl; [done|].
  assert (plain (digit_char (n mod 10) :: acc)) as Hc.
  { destruct (digit_char_spec (n mod 10)) as [Hd _]; [by apply Z.mod_pos_bound|]. destruct Hacc as [H1 H2].
    split; apply not_elem_of_cons; (split; [|done]); intros E; rewrite <-E in Hd; by vm_compute in Hd. }
  destruct (n <? 10); [done|]. apply IH; [|done]. apply Z.div_pos; lia.
Qed.

Lemma itoa_plain n : plain (itoa n).
Proof.
  assert (plain []) as H0 by (split; apply not_elem_of_nil).
  unfold itoa. destruct (n <? 0) eqn:E; [|apply digits_plain; [lia|done]].
  destruct (digits_plain (S (Z.to_nat (Z.log2 (- n)))) (- n) []) as [H1 H2]; [lia|done|].
  split; apply not_elem_of_cons; by split.
Qed.

Lemma read_line_app l r : NL ∉ l → read_line (l ++ NL :: r) = (l, r).
Proof.
  induction l as [|c l IH]; intros Hn; simpl; [done|]. apply not_elem_of_cons in Hn as [Hc Hn].
  destruct (Ascii.eqb c NL) eqn:E; [apply Ascii.eqb_eq in E; congruence|]. by rewrite IH.
Qed.

Lemma split_tabs_plain l : TAB ∉ l → split_tabs l = [l].
Proof.
  induction l as [|c l IH]; intros Hn; simpl; [done|]. apply not_elem_of_cons in Hn as [Hc Hn].
  destruct (Ascii.eqb c TAB) eqn:E; [apply Ascii.eqb_eq in E; congruence|]. by rewrite IH.
Qed.

Lemma split_tabs_app l r : TAB ∉ l → split_tabs (l ++ TAB :: r) = l :: split_tabs r.
Proof.
  induction l as [|c l IH]; intros Hn; simpl; [done|]. apply not_elem_of_cons in Hn as [Hc Hn].
  destruct (Ascii.eqb c TAB) eqn:E; [apply Ascii.eqb_eq in E; congruence|]. by rewrite IH.
Qed.

Lemma split_write_ranks l rs : TAB ∉ l → split_tabs (l ++ write_ranks rs) = l :: (itoa <$> rs).
Proof.
  revert l. induction rs as [|r rs IH]; intros l Hl; unfold write_ranks; simpl.
  - rewrite app_nil_r. by apply split_tabs_plain.
  - rewrite split_tabs_app by done. f_equal. apply (IH (itoa r)), itoa_plain.
Qed.

Lemma write_ranks_line rs : NL ∉ write_ranks rs.
Proof.
  unfold write_ranks. induction rs as [|r rs IH]; simpl; [apply not_elem_of_nil|].
  apply not_elem_of_cons. split; [done|]. apply not_elem_of_app. split; [apply itoa_plain|done].
Qed.

Lemma Atoi_itoa n : - 2 ^ 63 ≤ n < 2 ^ 63 → Atoi (itoa n) = n.
Proof.
  intros Hn. unfold Atoi, itoa. destruct (n <? 0) eqn:E.
  - destruct (scan_nat_digits (- n) []) as [H1 H2]; [lia|done|]. rewrite app_nil_r in H1.
    set (d := digits _ _ _) in *. change (scan_sign ("-"%char :: d)) with (true, d). cbv beta iota.
    rewrite H2, H1. lia.
  - destruct (scan_nat_digits n []) as [H1 H2]; [lia|done|]. rewrite app_nil_r in H1.
    rewrite scan_sign_digit by done. cbv beta iota. rewrite H2, H1. lia.
Qed.

(** A line of the map. *)
Lemma split_write_job k j rest :
  ∃ line, read_line (write_job k j ++ rest) = (line, rest) ∧
    split_tabs line = itoa (Modified j) :: itoa k :: itoa (Z.of_nat (length (RankList j))) :: (itoa <$> RankList j).
Proof.
  exists (itoa (Modified j) ++ TAB :: itoa k ++ TAB :: itoa (Z.of_nat (length (RankList j))) ++ write_ranks (RankList j)).
  pose proof (itoa_plain (Modified j)) as [M1 M2]. pose proof (itoa_plain k) as [K1 K2].
  pose proof (itoa_plain (Z.of_nat (length (RankList j)))) as [L1 L2]. split.
  - unfold write_job. rewrite <-!app_assoc. cbn [app]. rewrite <-!app_assoc. cbn [app]. rewrite <-!app_assoc. cbn [app].
    match goal with |- read_line ?x = _ => replace x with
      ((itoa (Modified j) ++ TAB :: itoa k ++ TAB :: itoa (Z.of_nat (length (RankList j))) ++ write_ranks (RankList j))
        ++ NL :: rest) by (rewrite <-!app_assoc; cbn [app]; rewrite <-!app_assoc; cbn [app]; by rewrite <-!app_assoc) end.
    apply read_line_app. pose proof (write_ranks_line (RankList j)).
    rewrite !not_elem_of_app, !not_elem_of_cons, !not_elem_of_app, !not_elem_of_cons, !not_elem_of_app. done.
  - rewrite split_tabs_app, split_tabs_app by done. by rewrite split_write_ranks.
Qed.

(** The two places of a job. *)
Definition places (rs : list Z) : option (Z * Z) :=
  match rs with [] => Some (-1, -1) | [a] => Some (a, -1) | [a; b] => Some (a, b) | _ => None end.

Lemma job_ranks_places rs :
  Forall (λ r, - 2 ^ 63 ≤ r < 2 ^ 63) rs → job_ranks (itoa <$> rs) = places rs.
Proof.
  intros Hr. destruct rs as [|a [|b [|c rs]]]; [done|..]; repeat (apply Forall_cons in Hr as [? Hr]); simpl;
    by rewrite ?Atoi_itoa.
Qed.

Fixpoint place_jobs (k : Z) (jm : list GoJob) (m : gmap Z (Z * Z)) : option (gmap Z (Z * Z)) :=
  match jm with
  | [] => Some m
  | j :: jm' => p ← places (RankList j); place_jobs (k + 1) jm' (<[k := p]> m)
  end.

Lemma read_jobs_spec jm rest : ∀ k m,
  Forall (λ j, Forall (λ r, - 2 ^ 63 ≤ r < 2 ^ 63) (RankList j)) jm →
  0 ≤ k → k + Z.of_nat (length jm) < 2 ^ 63 →
  read_jobs (length jm) (write_jobs k jm ++ rest) m = place_jobs k jm m.
Proof.
  induction jm as [|j jm IH]; intros k m Hr Hk Hl; [done|]. apply Forall_cons in Hr as [Hj Hr].
  cbn [write_jobs length read_jobs place_jobs]. rewrite <-app_assoc.
  destruct (split_write_job k j (write_jobs (k + 1) jm ++ rest)) as (line & -> & Hs). rewrite Hs.
  cbn [lookup list_lookup mbind option_bind].
  match goal with |- context [job_ranks ?l] => change l with (itoa <$> RankList j) end.
  rewrite job_ranks_places by done.
  cbn [length] in Hl. rewrite Atoi_itoa by lia.
  destruct (places (RankList j)); [|done]. apply IH; [done|lia|lia].
Qed.

Lemma place_jobs_spec jm : ∀ k m,
  Forall (λ j, length (RankList j) ≤ 2)%nat jm → (∀ i, k ≤ i → m !! i = None) →
  ∃ m', place_jobs k jm m = Some m' ∧ size m' = (size m + length jm)%nat ∧
    ∀ i, m' !! i = if decide (k ≤ i) then jm !! Z.to_nat (i - k) ≫= places ∘ RankList else m !! i.
Proof.
  induction jm as [|j jm IH]; intros k m Hl Hfresh; cbn [place_jobs length].
  - exists m. split; [done|]. split; [lia|]. intros i. case_decide; [|done]. by rewrite Hfresh.
  - apply Forall_cons in Hl as [Hj Hl].
    assert (∃ p, places (RankList j) = Some p) as [p Hp].
    { destruct (RankList j) as [|a [|b [|c rs]]]; simpl in *; [by eexists..|lia]. }
    rewrite Hp. cbn [mbind option_bind].
    destruct (IH (k + 1) (<[k := p]> m)) as (m' & E & Hsize & Hlook); [done| |].
    { intros i Hi. rewrite lookup_insert_ne by lia. apply Hfresh. lia. }
    exists m'. split; [done|]. split; [rewrite Hsize, map_size_insert_None by (apply Hfresh; lia); lia|].
    intros i. rewrite Hlook. destruct (decide (k + 1 ≤ i)), (decide (k ≤ i)); try lia.
    + replace (Z.to_nat (i - k)) with (S (Z.to_nat (i - (k + 1)))) by lia. done.
    + replace i with k by lia. rewrite lookup_insert_eq, Z.sub_diag. simpl. by rewrite Hp.
    + by rewrite lookup_insert_ne by lia.
Qed.

Lemma place_jobs_panics jm : ∀ k m, Exists (λ j, 2 < length (RankList j))%nat jm → place_jobs k jm m = None.
Proof.
  induction jm as [|j jm IH]; intros k m Hex; [by apply Exists_nil in Hex|]. cbn [place_jobs].
  apply Exists_cons in Hex as [Hj|Hex].
  - destruct (RankList j) as [|a [|b [|c rs]]]; simpl in *; try lia. done.
  - destruct (places (RankList j)); [|done]. by apply IH.
Qed.

Lemma initReplicationMap_spec n jm :
  wf_map n jm → initReplicationMap (Some (WriteToFile jm)) = place_jobs 0 jm ∅.
Proof.
  intros [Hj Hc Ht]. unfold initReplicationMap, WriteToFile. cbn [mbind option_bind].
  pose proof (itoa_plain (CountTotalRanks jm)) as [T1 T2].
  pose proof (itoa_plain (Z.of_nat (length jm))) as [C1 C2].
  change (NL :: write_jobs 0 jm ++ map_legend) with ([NL] ++ (write_jobs 0 jm ++ map_legend)).
  rewrite (app_comm_cons (itoa _) _ TAB), !app_assoc.
  rewrite <-!app_assoc. cbn [app].
  match goal with |- context [read_line ?x] => replace x with
    ((itoa (CountTotalRanks jm) ++ TAB :: itoa (Z.of_nat (length jm))) ++ NL :: (write_jobs 0 jm ++ map_legend))
    by (by rewrite <-app_assoc) end.
  rewrite read_line_app by (rewrite not_elem_of_app, not_elem_of_cons; done).
  rewrite split_tabs_app, split_tabs_plain by done. cbn [lookup list_lookup mbind option_bind].
  unfold is_int, INT_MIN, INT_MAX in Hc. rewrite Atoi_itoa, Nat2Z.id by lia.
  apply read_jobs_spec; [|lia|lia].
  eapply Forall_impl; [exact Hj|]. intros j [_ _ _ Hr]. eapply Forall_impl; [exact Hr|].
  intros r [_ Hr0]. unfold is_int, INT_MIN, INT_MAX in Hr0. lia.
Qed.

(** *** What the selector spares *)
Definition spared (jm : list GoJob) (queued : gset Z) : Prop := ∀ j, j ∈ jm → ∃ r, r ∈ RankList j ∧ r ∉ queued.

Lemma places_Some rs p :
  places rs = Some p → rs ≠ [] → (0 ≤ p.1 → p.1 ∈ rs) ∧ (p.2 ≠ -1 → p.2 ∈ rs) ∧
    (Forall (λ r, 0 ≤ r) rs → p.1 ∈ rs ∧ (p.2 = -1 ∨ rs = [p.1; p.2])).
Proof.
  destruct rs as [|a [|b [|c rs]]]; [done|..]; intros [= <-] _; simpl.
  - split; [set_solver|]. split; [done|]. intros _. split; [set_solver|by left].
  - split; [set_solver|]. split; [set_solver|]. intros _. split; [set_solver|by right].
Qed.

Lemma places_length rs p : places rs = Some p → p.2 ≠ -1 → length rs = 2%nat.
Proof. destruct rs as [|a [|b [|c rs]]]; [..|done]; intros [= <-]; simpl; done. Qed.

Section selecting.
Context {R D : Type} `{Rand R} `{Dist D} `{!RandLaws (R := R)}.
Context (jm : list GoJob) (m : gmap Z (Z * Z)).
Context (Hnd : NoDup (all_ranks jm)) (Hpos : Forall (λ r, 0 ≤ r) (all_ranks jm)).
Context (Hlen : 0 < Z.of_nat (length jm) ≤ INT_MAX) (Hne : Forall (λ j, RankList j ≠ []) jm).
Context (Hsize : size m = length jm).
Context (Hm : ∀ k, 0 ≤ k → m !! k = jm !! Z.to_nat k ≫= places ∘ RankList).
Context (Htwo : Forall (λ j, length (RankList j) ≤ 2)%nat jm).
Context (opts : option SelectorOpts) (Hopts : default false (KillEvenIfNotReplicated <$> opts) = false).

(** The state of the selector after it chose [l]. *)
Record chosen (s : selector R D) (l : list QueuedProcess) : Prop := {
  ch_map : RepMap s = m;
  ch_queued : RankQueued s = list_to_set (q_rank <$> l);
  ch_opts : Opts s = opts;
  ch_NoDup : NoDup (q_rank <$> l);
  ch_ranks : Forall (λ q, q_rank q ∈ all_ranks jm) l;
  ch_spared : spared jm (RankQueued s)
}.

Lemma job_member j r : j ∈ jm → r ∈ RankList j → r ∈ all_ranks jm.
Proof.
  intros (k & Hk)%list_elem_of_lookup (i & Hi)%list_elem_of_lookup. apply all_ranks_placed. by exists k, i, j.
Qed.

(** Queueing one of two workers whose other one is alive spares all jobs. *)
Lemma spared_queue queued k j r o :
  spared jm queued → jm !! k = Some j → r ∈ RankList j → o ∈ RankList j → o ≠ r → o ∉ queued →
  spared jm ({[ r ]} ∪ queued).
Proof.
  intros Hsp Hk Hr Ho Hor Hoq j' Hj'. pose proof Hj' as (k' & Hk')%list_elem_of_lookup.
  destruct (decide (k' = k)) as [->|Hne']; [exists o; split; [by simplify_eq|set_solver]|].
  destruct (Hsp j' Hj') as (x & Hx & Hxq). exists x. split; [done|].
  apply not_elem_of_union. split; [|done]. intros ->%elem_of_singleton.
  apply list_elem_of_lookup in Hx as [p Hp]. apply list_elem_of_lookup in Hr as [q Hq].
  by destruct (placed_unique jm _ _ _ _ _ _ _ Hnd (conj Hk' Hp) (conj Hk Hq)) as [? _].
Qed.

Lemma wp_random_of n (Q : Z → selector R D → Prop) E s :
  0 < n → (∀ v r, 0 ≤ v < n → Q v (set_s_rand r s)) → wp (random_of n) Q E s.
Proof.
  intros Hn HQ. unfold wp, random_of, zoom. rewrite Int32n_run by done. apply HQ, (Int31n_range n _ Hn).
Qed.

Lemma chosen_rand r s l : chosen s l → chosen (set_s_rand r s) l.
Proof. by intros []. Qed.

Lemma wp_rank_index l (Q : Z → selector R D → Prop) E s :
  chosen s l → (∀ i s', 0 ≤ i < 2 → chosen s' l → Q i s') → wp rank_index Q E s.
Proof.
  intros Hs HQ. unfold rank_index. apply wp_bind, wp_gets.
  destruct (Opts s) as [[[] k]|]; [apply HQ; [lia|done]..| |apply HQ; [lia|done]].
  apply wp_random_of; [lia|]. intros v r Hv. apply HQ; [done|]. by apply chosen_rand.
Qed.

Lemma CR_other p i r : CR p i = Some r → 0 ≤ i < 2 →
  (i = 0 ∧ r = p.1 ∧ CR p (1 - i) = Some p.2) ∨ (i = 1 ∧ r = p.2 ∧ CR p (1 - i) = Some p.1).
Proof.
  intros E Hi. assert (i = 0 ∨ i = 1) as [-> | ->] by lia; injection E as <-; [by left|by right].
Qed.

Lemma chosen_queue s l k j r o v d :
  chosen s l → jm !! k = Some j → r ∈ RankList j → o ∈ RankList j → o ≠ r →
  o ∉ RankQueued s → r ∉ RankQueued s → chosen (queue r d s) (l ++ [MkQueued r v]).
Proof.
  intros [C1 C2 C3 C4 C5 C6] Hj Hr Ho Hor Hoq Hrq. split; try done; cbn [queue RankQueued].
  - rewrite C2, fmap_app, list_to_set_app_L. cbn. set_solver.
  - rewrite fmap_app. apply NoDup_app. split; [done|]. split; [|by apply NoDup_singleton].
    intros x Hx ->%list_elem_of_singleton. apply Hrq. rewrite C2. by apply elem_of_list_to_set.
  - apply Forall_app. split; [done|]. constructor; [|done].
    apply (job_member j); [by eapply list_elem_of_lookup_2|done].
  - by apply (spared_queue _ k j r o).
Qed.

(** A job with two places taken. *)
Lemma places_two j p :
  j ∈ jm → places (RankList j) = Some p →
  p.1 ∈ RankList j ∧ (p.2 ≠ -1 → p.2 ∈ RankList j) ∧ (p.2 ≠ -1 → p.1 ≠ p.2).
Proof.
  intros Hj Hp. rewrite Forall_forall in Hne. destruct (places_Some _ _ Hp (Hne j Hj)) as (_ & P2 & P3).
  destruct P3 as [P3 P4].
  { apply Forall_forall. intros r Hr. rewrite Forall_forall in Hpos. by apply Hpos, (job_member j). }
  split; [done|]. split; [done|]. intros H2. destruct P4 as [|E]; [done|].
  pose proof Hj as (k & Hk)%list_elem_of_lookup. intros Heq.
  assert (placed jm p.1 k 0 j) as A by (split; [done|by rewrite E]).
  assert (placed jm p.1 k 1 j) as B by (split; [done|rewrite E; simpl; congruence]).
  by destruct (placed_unique jm _ _ _ _ _ _ _ Hnd A B) as (_ & ? & _).
Qed.

Lemma getNew_spec fuel : ∀ cnt s l,
  chosen s l →
  wp (getNew fuel cnt) (λ q s', chosen s' (l ++ option_list q) ∧ Exists (λ j, length (RankList j) = 2%nat) jm)
    (λ e _, e = NoFuel) s.
Proof.
  induction fuel as [|fuel IH]; intros cnt s l Hs; [done|]. cbn [getNew].
  apply wp_bind, wp_gets. rewrite (ch_map _ _ Hs), Hsize, wrap32s_small by (unfold INT_MIN; lia).
  apply wp_bind, wp_random_of; [lia|]. intros k r0 Hk. apply (chosen_rand r0) in Hs.
  apply wp_bind. eapply wp_rank_index; [exact Hs|]. intros i s' Hi Hs'. clear Hs. rename Hs' into Hs.
  apply wp_bind, wp_gets, wp_bind, wp_gets. rewrite (Hm k) by lia.
  destruct (lookup_lt_is_Some_2 jm (Z.to_nat k)) as [j Hj]; [lia|]. rewrite Hj. cbn [mbind option_bind compose].
  pose proof (list_elem_of_lookup_2 _ _ _ Hj) as Hin.
  assert (∃ p, places (RankList j) = Some p) as [p Hp].
  { rewrite Forall_forall in Htwo. specialize (Htwo j Hin).
    destruct (RankList j) as [|a [|b [|c rs]]]; simpl in *; [by eexists..|lia]. }
  rewrite Hp. apply wp_bind, wp_option.
  assert (∃ r, CR p i = Some r) as [r Hr] by (assert (i = 0 ∨ i = 1) as [-> | ->] by lia; by eexists).
  rewrite Hr. apply wp_bind, wp_option. destruct (CR_other p i r Hr Hi) as [(_ & Er & ->)|(_ & Er & ->)];
    apply wp_bind, wp_option.
  all: destruct (r <? 0) eqn:Eneg; [by apply IH|]; rewrite (ch_opts _ _ Hs), Hopts; cbn [negb andb].
  all: destruct (_ =? -1) eqn:Eo; [by apply IH|]; cbn [orb].
  all: case_bool_decide as Hoq; [by apply IH|].
  all: assert (Exists (λ j, length (RankList j) = 2%nat) jm) as Htwo' by
    (apply Exists_exists; exists j; split; [done|]; apply (places_length _ p Hp); lia).
  all: case_bool_decide as Hrq; [destruct (cnt =? 5); [|by apply IH];
    apply wp_ret; cbn [option_list]; by rewrite app_nil_r|].
  all: apply wp_bind, wp_gets; destruct (next_wait _) as [v d']; apply wp_bind, wp_modify, wp_ret; split; [|done].
  all: eapply (chosen_queue s' l (Z.to_nat k) j r); [exact Hs|exact Hj| | | |exact Hoq|exact Hrq].
  all: pose proof (places_two j p Hin Hp) as (P1 & P2 & P3); subst r; auto with lia.
Qed.

Lemma next_loop_spec fuel iter : ∀ s l acc,
  chosen s acc → l = acc → wp (next_loop fuel iter l) (λ l' s', chosen s' l' ∧ (length l' ≤ length l + iter)%nat)
    (λ e _, e = NoFuel) s.
Proof.
  induction iter as [|iter IH]; intros s l acc Hs ->; cbn [next_loop]; [split; [done|lia]|].
  apply wp_bind. eapply wp_mono; [by apply getNew_spec| |done]. intros q s' [Hs' _].
  eapply wp_mono; [exact (IH _ _ _ Hs' eq_refl)| |done]. intros l' s2 [H1 H2]. split; [done|].
  rewrite length_app in H2. destruct q; simpl in H2; lia.
Qed.

(** *** When the loop ends, as [fault_injector.go] starts it *)
Context (Hany : opts = Some (MkOpts KILL_ANY false)).

(** What a turn does that drew place [i] of a job with the places [p]. *)
Definition any_turn (fuel : nat) (cnt : Z) (p : Z * Z) (i : Z) (s s1 : selector R D) :
    result (selector R D) (option QueuedProcess) :=
  let r := if i =? 0 then p.1 else p.2 in
  let o := if i =? 0 then p.2 else p.1 in
  if r <? 0 then getNew fuel cnt s1
  else if (o =? -1) || bool_decide (o ∈ RankQueued s) then getNew fuel cnt s1
  else if bool_decide (r ∈ RankQueued s) then (if cnt =? 5 then Done None s1 else getNew fuel (cnt + 1) s1)
  else let '(v, d') := next_wait (s_dist s) in Done (Some (MkQueued r (int64 (1000000000 * v)))) (queue r d' s1).

Lemma getNew_any fuel cnt s l :
  chosen s l →
  let d := turn_draw (Z.of_nat (length jm)) (s_rand s) in
  ∃ j p, jm !! Z.to_nat d.1.1 = Some j ∧ places (RankList j) = Some p ∧
    getNew (S fuel) cnt s = any_turn fuel cnt p d.1.2 s (set_s_rand d.2 s).
Proof.
  intros Hs d. unfold d, turn_draw. clear d.
  destruct (Int31n (Z.of_nat (length jm)) (s_rand s)) as [k r1] eqn:E1. destruct (Int31n 2 r1) as [i r2] eqn:E2.
  cbn [fst snd]. pose proof (Int31n_range (Z.of_nat (length jm)) (s_rand s) ltac:(lia)) as Hk.
  pose proof (Int31n_range 2 r1 ltac:(lia)) as Hi. rewrite E1 in Hk. rewrite E2 in Hi. cbn [fst] in Hk, Hi.
  destruct (lookup_lt_is_Some_2 jm (Z.to_nat k)) as [j Hj]; [lia|].
  assert (∃ p, places (RankList j) = Some p) as [p Hp].
  { rewrite Forall_forall in Htwo. specialize (Htwo j (list_elem_of_lookup_2 _ _ _ Hj)).
    destruct (RankList j) as [|x [|y [|z rs]]]; simpl in *; [by eexists..|lia]. }
  exists j, p. split; [done|]. split; [done|]. unfold any_turn.
  set (r := if i =? 0 then p.1 else p.2). set (o := if i =? 0 then p.2 else p.1).
  assert (CR p i = Some r ∧ CR p (1 - i) = Some o) as [Er Eo]
    by (assert (i = 0 ∨ i = 1) as [-> | ->] by lia; done).
  cbn [getNew bind gets]. rewrite (ch_map _ _ Hs), Hsize, wrap32s_small by (unfold INT_MIN; lia).
  unfold random_of, zoom. rewrite Int32n_run by lia. rewrite E1. cbn [fst snd].
  unfold rank_index. cbn [bind gets set_s_rand Opts]. rewrite (ch_opts _ _ Hs), Hany. cbn [ImageToKill].
  unfold random_of, zoom. rewrite Int32n_run by lia. cbn [s_rand set_s_rand]. rewrite E2.
  cbn [fst snd bind gets Opts RankQueued set_s_rand].
  rewrite (Hm k), Hj by lia. cbn [mbind option_bind compose]. rewrite Hp. cbn [of_option bind].
  rewrite Er, Eo, (ch_opts _ _ Hs), Hany.
  cbn [of_option bind default from_option fmap option_fmap option_map KillEvenIfNotReplicated negb id andb].
  destruct (r <? 0); [done|]. destruct ((o =? -1) || bool_decide (o ∈ RankQueued s)); [done|].
  destruct (bool_decide (r ∈ RankQueued s)); [by destruct (cnt =? 5)|].
  cbn [bind gets s_dist set_s_rand]. by destruct (next_wait (s_dist s)).
Qed.

(** The loop returns, or counts and goes on. *)
Definition ends (cnt : Z) (res : result (selector R D) (option QueuedProcess))
    (more : result (selector R D) (option QueuedProcess)) : Prop :=
  (∃ q s2, res = Done q s2) ∨ cnt ≠ 5 ∧ res = more.

(** A turn ends so, or was for nothing; and not for nothing when it drew a
    worker whose other one is not to die. *)
Lemma getNew_turn fuel cnt s l :
  chosen s l →
  let d := turn_draw (Z.of_nat (length jm)) (s_rand s) in
  let s1 := set_s_rand d.2 s in
  (ends cnt (getNew (S fuel) cnt s) (getNew fuel (cnt + 1) s1) ∨ getNew (S fuel) cnt s = getNew fuel cnt s1) ∧
  ∀ j a b, jm !! Z.to_nat d.1.1 = Some j → RankList j = [a; b] →
    (if d.1.2 =? 0 then b else a) ∉ RankQueued s → ends cnt (getNew (S fuel) cnt s) (getNew fuel (cnt + 1) s1).
Proof.
  intros Hs d s1. destruct (getNew_any fuel cnt s l Hs) as (j & p & Hj & Hp & ->). fold d in Hj |- *. fold s1.
  unfold any_turn, ends. set (i := d.1.2). set (r := if i =? 0 then p.1 else p.2). set (o := if i =? 0 then p.2 else p.1).
  split.
  - destruct (r <? 0); [by right|]. destruct (_ || _); [by right|]. left.
    destruct (bool_decide _); [|left; destruct (next_wait _); by eexists _, _].
    destruct (cnt =? 5) eqn:E5; [left; by eexists _, _|right; split; [lia|done]].
  - intros j' a b Hj' Hab Hq. assert (j' = j) as -> by congruence. rewrite Hab in Hp. injection Hp as <-.
    assert (∀ x, x ∈ [a; b] → 0 ≤ x) as Hx.
    { intros x Hx. rewrite Forall_forall in Hpos. apply Hpos, (job_member j); [by eapply list_elem_of_lookup_2|].
      by rewrite Hab. }
    assert (0 ≤ a ∧ 0 ≤ b) as [Ha Hb] by (split; apply Hx; set_solver).
    assert ((r <? 0) = false ∧ (o =? -1) = false) as [-> ->] by (unfold r, o; cbn [fst snd]; destruct (i =? 0); lia).
    rewrite (bool_decide_eq_false_2 (o ∈ _)) by (unfold o; cbn [fst snd]; by destruct (i =? 0)). cbn [orb].
    destruct (bool_decide _); [|left; destruct (next_wait _); by eexists _, _].
    destruct (cnt =? 5) eqn:E5; [left; by eexists _, _|right; split; [lia|done]].
Qed.

(** Within the turns that draw such a worker. *)
Lemma getNew_window l k i j a b : jm !! Z.to_nat k = Some j → RankList j = [a; b] → ∀ t fuel cnt s,
  chosen s l → (if i =? 0 then b else a) ∉ RankQueued s →
  turn_drawn (Z.of_nat (length jm)) t (s_rand s) = (k, i) → (t < fuel)%nat →
  (∃ q s2, getNew fuel cnt s = Done q s2) ∨
  cnt ≠ 5 ∧ ∃ fuel' s1, (fuel ≤ fuel' + S t)%nat ∧ chosen s1 l ∧ getNew fuel cnt s = getNew fuel' (cnt + 1) s1.
Proof.
  intros Hj Hab. induction t as [|t IH]; intros fuel cnt s Hs Hq Hd Hfuel; (destruct fuel as [|fuel]; [lia|]);
    destruct (getNew_turn fuel cnt s l Hs) as [Hturn Hev]; simpl in Hd.
  - rewrite Hd in Hev. destruct (Hev j a b Hj Hab Hq) as [?|[H5 E]]; [by left|right].
    split; [done|]. eexists fuel, _. split; [lia|]. split; [|exact E]. by apply chosen_rand.
  - destruct Hturn as [[?|[H5 E]]|E]; [by left| |].
    + right. split; [done|]. eexists fuel, _. split; [lia|]. split; [|exact E]. by apply chosen_rand.
    + rewrite E. set (s1 := set_s_rand _ s) in *.
      destruct (IH fuel cnt s1) as [Hdone|(H5 & fuel' & s2 & Hf & Hs2 & E2)];
        [by apply chosen_rand|done|done|lia|by left|].
      right. split; [done|]. exists fuel', s2. split; [lia|done].
Qed.

Lemma getNew_ends turns left : ∀ fuel cnt s l,
  FairTurns (R := R) (Z.of_nat (length jm)) turns → Exists (λ j, length (RankList j) = 2%nat) jm →
  chosen s l → 5 - cnt = Z.of_nat left → (turns * S left ≤ fuel)%nat → ∃ q s2, getNew fuel cnt s = Done q s2.
Proof.
  induction left as [|left IH]; intros fuel cnt s l Hfair Hex Hs Hcnt Hfuel;
    pose proof Hex as (j & Hin & H2)%Exists_exists.
  all: pose proof Hin as (k & Hk)%list_elem_of_lookup.
  all: assert (∃ a b, RankList j = [a; b]) as (a & b & Hab)
    by (destruct (RankList j) as [|a [|b [|c rs]]]; try done; by exists a, b).
  all: assert (∃ i, 0 ≤ i < 2 ∧ (if i =? 0 then b else a) ∉ RankQueued s) as (i & Hi & Hq).
  1, 3: destruct (ch_spared _ _ Hs j Hin) as (x & Hx & Hxq); rewrite Hab in Hx;
    apply list_elem_of_In in Hx as [<-|[<-|[]]]; [exists 1|exists 0]; (split; [lia|done]).
  all: destruct (fair_turn (s_rand s) (Z.of_nat k) i) as (t & Ht & Hd); [apply lookup_lt_Some in Hk; lia|done|].
  all: destruct (getNew_window l (Z.of_nat k) i j a b) with (t := t) (fuel := fuel) (cnt := cnt) (s := s)
    as [?|(H5 & fuel' & s1 & Hf & Hs1 & E)]; try done; [by rewrite Nat2Z.id|nia|].
  - lia.
  - rewrite E. apply (IH fuel' (cnt + 1) s1 l); try done; [lia|nia].
Qed.

Lemma next_loop_ends turns fuel iter : ∀ s l,
  FairTurns (R := R) (Z.of_nat (length jm)) turns → Exists (λ j, length (RankList j) = 2%nat) jm →
  chosen s l → (turns * 6 ≤ fuel)%nat → ∃ l' s', next_loop fuel iter l s = Done l' s'.
Proof.
  induction iter as [|iter IH]; intros s l Hfair Hex Hs Hfuel; cbn [next_loop]; [by eexists _, _|].
  destruct (getNew_ends turns 5 fuel 0 s l) as (q & s1 & E); try done.
  pose proof (getNew_spec fuel 0 s l Hs) as Hw. unfold wp in Hw. rewrite E in Hw. destruct Hw as [Hs1 _].
  rewrite (bind_Done _ _ _ _ _ E). by apply IH.
Qed.

(** Where no job has two workers, the loop has nothing to choose and never ends. *)
Lemma getNew_hangs fuel cnt s l :
  chosen s l → Forall (λ j, length (RankList j) = 1%nat) jm → ∃ s', getNew fuel cnt s = Stop NoFuel s'.
Proof.
  intros Hs Hone. pose proof (getNew_spec fuel cnt s l Hs) as Hw. unfold wp in Hw.
  destruct (getNew fuel cnt s) as [q s'|e s']; [|subst; by eexists]. destruct Hw as [_ Hex].
  apply Exists_exists in Hex as (j & Hj & H2). rewrite Forall_forall in Hone. specialize (Hone j Hj). lia.
Qed.
End selecting.

(** A worker of each job is left: no job is dead. *)
Lemma spared_alive `{MpiConst} jm queued tr :
  spared jm queued → (∀ x, x ∈ all_ranks jm → translate tr x = None → x ∈ queued) → Forall (alive tr) (job_table jm).
Proof.
  intros Hsp Htr. apply Forall_forall. intros j (k & (gj & Hk & ->)%job_table_lookup)%list_elem_of_lookup.
  pose proof (list_elem_of_lookup_2 _ _ _ Hk) as Hin. destruct (Hsp gj Hin) as (x & Hx & Hxq).
  unfold alive. rewrite workers_job_of. intros Hnil.
  destruct (translate tr x) as [t|] eqn:Et.
  - assert (t ∈ survivors tr (RankList gj)) as Ht by (apply list_elem_of_omap; by exists x).
    rewrite Hnil in Ht. by apply not_elem_of_nil in Ht.
  - apply Hxq, Htr; [|done]. by eapply job_member.
Qed.

(** The selector as [NewSelector] makes it. *)
Lemma NewSelector_chosen {R D} size0 jm opts (r : R) (d : D) duration interval :
  wf_map size0 jm → jm ≠ [] → Forall (λ j, length (RankList j) ≤ 2)%nat jm → interval ≠ 0 →
  ∃ m s, NewSelector (Some (WriteToFile jm)) r d duration interval opts = Some s ∧
    (Forall (λ j, RankList j ≠ []) jm ∧ Forall (λ r, 0 ≤ r) (all_ranks jm) ∧ 0 < Z.of_nat (length jm) ≤ INT_MAX) ∧
    size m = length jm ∧ (∀ k, 0 ≤ k → m !! k = jm !! Z.to_nat k ≫= places ∘ RankList) ∧ chosen jm m opts s [].
Proof.
  intros Hwf Hjm Hl Hint. unfold NewSelector. rewrite (proj2 (Z.eqb_neq _ _) Hint).
  rewrite (initReplicationMap_spec size0 jm Hwf).
  destruct (place_jobs_spec jm 0 ∅ Hl) as (m & -> & Hs & Hm); [done|]. rewrite map_size_empty in Hs.
  exists m. eexists. split; [reflexivity|].
  pose proof (all_ranks_range _ _ Hwf) as Hrange. pose proof Hwf as [Hj Hc _]. unfold is_int in Hc.
  assert (Forall (λ j, RankList j ≠ []) jm) as Hne by (eapply Forall_impl; [exact Hj|by intros j []]).
  split; [split; [done|split]|split; [done|split]].
  - eapply Forall_impl; [exact Hrange|simpl; lia].
  - destruct jm; [done|cbn [length] in *; lia].
  - intros k Hk. by rewrite Hm, decide_True, Z.sub_0_r by done.
  - split; try done; [by apply NoDup_nil|]. intros j Hjin. rewrite Forall_forall in Hne.
    destruct (RankList j) as [|x rs] eqn:Ej; [by apply Hne in Hjin|]. exists x.
    split; [set_solver|apply not_elem_of_empty].
Qed.

(** *** The processes of the ranks *)
Lemma foldl_insert_lookup {A} (key : A → Z) l x :
  NoDup (key <$> l) → x ∈ l → foldl (λ m y, <[key y := y]> m) (∅ : gmap Z A) l !! key x = Some x.
Proof.
  generalize (∅ : gmap Z A) as m0. induction l as [|y l IH] using rev_ind; intros m0 Hnd Hx.
  { by apply not_elem_of_nil in Hx. }
  rewrite foldl_app. cbn [foldl]. rewrite fmap_app in Hnd. apply NoDup_app in Hnd as (Hnd & Hd & _).
  apply elem_of_app in Hx as [Hx|Hx]; [|apply list_elem_of_singleton in Hx as ->; by rewrite lookup_insert_eq].
  rewrite lookup_insert_ne; [by apply IH|]. intros E. apply (Hd (key x)).
  - apply list_elem_of_fmap. by exists x.
  - rewrite <-E. simpl. set_solver.
Qed.

Lemma ranks_lookup (f : nat → NetworkMap) n q :
  (∀ i, nm_Rank (f i) = Z.of_nat i) → 0 ≤ q < Z.of_nat n → Z.of_nat n ≤ INT_MAX →
  lookup_rank (foldl (λ m nm, <[nm_Rank nm := nm]> m) ∅ (f <$> seq 0 n)) q = Some (f (Z.to_nat q)).
Proof.
  intros Hf Hq Hn. unfold lookup_rank, INT_MAX in *. rewrite Z.mod_small by lia.
  assert (q = nm_Rank (f (Z.to_nat q))) as E by (rewrite Hf; lia). rewrite E at 1. apply foldl_insert_lookup.
  - assert ((nm_Rank <$> (f <$> seq 0 n)) = Z.of_nat <$> seq 0 n) as ->
      by (rewrite <-list_fmap_compose; apply list_fmap_ext; intros i x _; apply Hf).
    apply NoDup_fmap_2; [apply _|apply NoDup_seq].
  - apply list_elem_of_fmap. exists (Z.to_nat q). split; [done|]. apply elem_of_seq. lia.
Qed.

(** The kill that the record of a process leads to. *)
Lemma kill_record {V} `{Ssh V} r p h n (v : V) :
  strlen h = Some n → kill (Some (MkNetworkMap r p n h)) v = kill_at (take (Z.to_nat n) h) p v.
Proof.
  intros Hn. pose proof (strlen_spec _ _ Hn) as [Hb _]. unfold kill. cbn [of_option bind Hostname Len PID].
  by rewrite (proj2 (Z.ltb_ge _ _)) by lia.
Qed.

Lemma network_map_record r p n h :
  0 ≤ r < 2 ^ 32 → 0 ≤ p < 2 ^ 32 → 0 ≤ n < 2 ^ 32 → length h = 100%nat →
  network_map (network_stat r p n h) = MkNetworkMap r p n h.
Proof.
  intros Hr Hp Hn Hh. unfold network_map, network_stat. set (er := encode 4 r). set (ep := encode 4 p).
  set (en := encode 4 n).
  assert (length er = 4%nat ∧ length ep = 4%nat ∧ length en = 4%nat) as (Lr & Lp & Ln)
    by (unfold er, ep, en; by rewrite !length_encode).
  rewrite take_app_length' by done. rewrite drop_app_length' by done. rewrite take_app_length' by done.
  replace (drop 8 _) with (en ++ h) by (rewrite app_assoc, drop_app_length'; [done|rewrite length_app; lia]).
  rewrite take_app_length' by done.
  replace (drop 12 _) with h by (rewrite app_assoc, app_assoc, drop_app_length'; [done|rewrite !length_app; lia]).
  rewrite take_ge by lia. unfold er, ep, en. rewrite !decode_encode. change (256 ^ Z.of_nat 4) with (2 ^ 32).
  by rewrite !Z.mod_small.
Qed.

(** What a process sees of the machine it runs on. *)
Class Hosts {W : Type} `{Files W} (file_of : string → W → list byte) (host : nat → list byte) (pid : nat → Z)
    (view : nat → W → W) : Prop := {
  hosts_files f i w : file_of f (view i w) = file_of f w;
  hosts_name i w : gethostname HOSTNAME_LEN (view i w) = host i;
  hosts_pid i w : getpid (view i w) = pid i
}.

Definition report_host {W} `{Files W} (gs : nat → globals) (view : nat → W → W) (w : W) (i : nat) : W :=
  match network_stat_init (gs i, view i w) with Done _ s => s.2 | Stop _ s => s.2 end.

(** The name in a buffer. *)
Definition host_name (buffer : list byte) : list byte := take (Z.to_nat (default 0 (strlen buffer))) buffer.

(** ** Properties *)

(** The injector reads the map the manager wrote, if no job has more than two
    workers: it finds the jobs, and the one or two ranks of each.  A third
    worker makes it panic. *)
Theorem initReplicationMap_correct n jm :
  wf_map n jm →
  (Forall (λ j, length (RankList j) ≤ 2)%nat jm → ∃ m, initReplicationMap (Some (WriteToFile jm)) = Some m ∧
     size m = length jm ∧ ∀ k j, 0 ≤ k → jm !! Z.to_nat k = Some j →
       ∃ a, m !! k = Some (a, default (-1) (RankList j !! 1%nat)) ∧ head (RankList j) = Some a) ∧
  (Exists (λ j, 2 < length (RankList j))%nat jm → initReplicationMap (Some (WriteToFile jm)) = None).
Proof.
  intros Hwf. rewrite (initReplicationMap_spec n jm Hwf). split; [|apply place_jobs_panics].
  intros Hl. destruct (place_jobs_spec jm 0 ∅ Hl) as (m & E & Hs & Hm); [done|].
  exists m. split; [done|]. split; [by rewrite Hs, map_size_empty|]. intros k j Hk Hj.
  rewrite Hm, decide_True, Z.sub_0_r, Hj by done. cbn [mbind option_bind compose].
  destruct Hwf as [Hwf _ _]. rewrite Forall_forall in Hwf, Hl. apply list_elem_of_lookup_2 in Hj.
  pose proof (wf_nonempty _ _ (Hwf j Hj)). specialize (Hl j Hj).
  destruct (RankList j) as [|a [|b [|c rs]]]; simpl in *; [done|by exists a..|lia].
Qed.

(** C32: the injector spares the program.  Unless it is told to kill processes that
    are not replicated, and whatever it draws, the selector never panics, and
    when it returns it has chosen no more processes than it was asked for,
    each one once, and has left a worker of every job: if only the chosen
    processes die, [rep_errhandler] finds every job [alive] and does not
    abort. *)
Theorem NextN_spares {R D} `{Rand R} `{Dist D} `{!RandLaws (R := R)} size0 jm fuel n opts (r : R) (d : D)
    duration interval :
  wf_map size0 jm → NoDup (all_ranks jm) → jm ≠ [] → Forall (λ j, length (RankList j) ≤ 2)%nat jm →
  interval ≠ 0 → default false (KillEvenIfNotReplicated <$> opts) = false → 0 < n →
  ∃ s, NewSelector (Some (WriteToFile jm)) r d duration interval opts = Some s ∧
    match NextN fuel n s with
    | Done l _ => Z.of_nat (length l) ≤ n ∧ NoDup (q_rank <$> l) ∧ Forall (λ q, q_rank q ∈ all_ranks jm) l ∧
        ∀ (mpi : MpiConst) tr, (∀ x, x ∈ all_ranks jm → translate tr x = None → x ∈ q_rank <$> l) →
          Forall (alive tr) (job_table jm)
    | Stop e _ => e = NoFuel
    end.
Proof.
  intros Hwf Hnd Hjm Hl Hint Hopts Hn.
  destruct (NewSelector_chosen size0 jm opts r d duration interval) as (m & s & E & Hok & Hs & Hm & Hch); try done.
  exists s. split; [exact E|]. destruct Hok as (Hne & Hpos & Hlen).
  pose proof (next_loop_spec jm m Hnd Hpos Hlen Hne Hs Hm Hl opts Hopts fuel (Z.to_nat n) s [] [] Hch eq_refl) as Hw.
  unfold NextN. cbn [bind gets]. rewrite (proj2 (Z.eqb_neq _ _)) by lia.
  unfold wp in Hw. destruct (next_loop _ _ _ s) as [l s'|e s']; [|done].
  destruct Hw as [[C1 C2 C3 C4 C5 C6] Hlength].
  simpl in Hlength. split; [lia|]. split; [done|]. split; [done|]. intros mpi tr Htr.
  apply (spared_alive jm (RankQueued s')); [done|]. intros x Hx Hdead. rewrite C2. by apply elem_of_list_to_set, Htr.
Qed.

(** The injector ends its choice.  When it may kill any worker of a job and
    some job has two, a generator that draws every worker within [turns] turns
    lets each choice end within six times as many: with a process, or with the
    error after six processes that were chosen before. *)
Theorem NextN_ends {R D} `{Rand R} `{Dist D} `{!RandLaws (R := R)} size0 jm turns fuel n (r : R) (d : D)
    duration interval :
  wf_map size0 jm → NoDup (all_ranks jm) → Forall (λ j, length (RankList j) ≤ 2)%nat jm →
  Exists (λ j, length (RankList j) = 2%nat) jm → interval ≠ 0 →
  FairTurns (R := R) (Z.of_nat (length jm)) turns → (turns * 6 ≤ fuel)%nat →
  ∃ s l s', NewSelector (Some (WriteToFile jm)) r d duration interval any_image = Some s ∧
    NextN fuel n s = Done l s'.
Proof.
  intros Hwf Hnd Hl Hex Hint Hfair Hfuel. assert (jm ≠ []) as Hjm by (intros ->; by apply Exists_nil in Hex).
  destruct (NewSelector_chosen size0 jm any_image r d duration interval) as (m & s & E & Hok & Hs & Hm & Hch); try done.
  destruct Hok as (Hne & Hpos & Hlen).
  destruct (next_loop_ends jm m Hnd Hpos Hlen Hne Hs Hm Hl any_image eq_refl eq_refl turns fuel
    (Z.to_nat (if n =? 0 then Intervals s else n)) s []) as (l & s' & Hrun); try done.
  by exists s, l, s'.
Qed.

(** C33: the injector kills the processes that were chosen.  When all processes ran
    [network_stat_init], in whatever order, the injector finds for each chosen
    rank the process id and the host that the process of that rank wrote, and
    sends the kill there, one after the other in the order they were chosen. *)
Theorem injector_hits {W V} `{Files W} `{Ssh V} (file_of : string → W → list byte) `{!FilesLaws file_of}
    host pid view `{!Hosts file_of host pid view} gs n order w l :
  (0 < n)%nat → Z.of_nat n ≤ INT_MAX → (∀ i, rank (node (gs i)) = Z.of_nat i) →
  (∀ i, length (host i) = 100%nat ∧ is_Some (strlen (host i))) → (∀ i, (i < n)%nat → 0 ≤ pid i < 2 ^ 31) →
  order ≡ₚ seq 0 n →
  (length (file_of network_stat_file w) ≤ 112 * n)%nat → Forall (λ q, 0 ≤ q_rank q < Z.of_nat n) l →
  ∃ m, initNetworkMap (Some (file_of network_stat_file (foldl (report_host gs view) w order))) = Some m ∧
    ∀ v : V, Start m l v =
      iterM (λ q, kill_at (host_name (host (Z.to_nat (q_rank q)))) (pid (Z.to_nat (q_rank q)))) l v.
Proof.
  intros Hn Hmax Hgs Hhost Hpid Hord Hlen Hl.
  set (rec i := network_stat (Z.of_nat i) (pid i) (default 0 (strlen (host i))) (host i)).
  assert (∀ i w', file_of network_stat_file (report_host gs view w' i) =
    write_at (Z.of_nat (112 * i)) (rec i) (file_of network_stat_file w')) as Hstep.
  { intros i w'. unfold report_host, network_stat_init, rec. cbn [bind gets fst snd].
    rewrite (hosts_name (file_of := file_of) (pid := pid)). destruct (Hhost i) as [_ [x Hx]]. rewrite Hx.
    cbn [bind of_option modify snd fst default]. rewrite file_of_write, Hgs.
    rewrite (hosts_files (host := host) (pid := pid)), (hosts_pid (file_of := file_of) (host := host)). f_equal. lia. }
  pose proof (reports_any_order _ 112 (λ i w, report_host gs view w i) rec n order w Hstep
    (λ i, length_network_stat _ _ _ _ (proj1 (Hhost i))) ltac:(lia) Hn Hord Hlen) as Erec.
  assert (∀ i, (i < n)%nat → network_map (rec i) =
    MkNetworkMap (Z.of_nat i) (pid i) (default 0 (strlen (host i))) (host i)) as Hrec.
  { intros i Hi. destruct (Hhost i) as [Hl100 [x Hx]]. pose proof (strlen_spec _ _ Hx) as [Hb _].
    unfold rec. apply network_map_record; [unfold INT_MAX in Hmax; lia|specialize (Hpid i Hi); lia| |done].
    rewrite Hx. simpl. lia. }
  eexists. split; [unfold initNetworkMap; cbn [mbind option_bind]; reflexivity|].
  change (foldl (report_host gs view) w order) with (foldl (λ w i, report_host gs view w i) w order). rewrite Erec.
  assert ((network_map <$> (rec <$> seq 0 n)) =
    (λ i, MkNetworkMap (Z.of_nat i) (pid i) (default 0 (strlen (host i))) (host i)) <$> seq 0 n) as ->.
  { rewrite <-list_fmap_compose. apply list_fmap_ext. intros i x [-> Hx]%lookup_seq. by apply Hrec. }
  unfold Start, iterM. generalize tt.
  induction Hl as [|q l Hq _ IH]; intros u v; [done|]. cbn [foldM bind].
  rewrite ranks_lookup by done. unfold host_name. destruct (Hhost (Z.to_nat (q_rank q))) as [_ [x Hx]].
  rewrite Hx. cbn [default]. rewrite (kill_record _ _ _ _ v Hx). destruct (kill_at _ _ v); [apply IH|done].
Qed.

(** ** Witnesses *)
Definition jm_ex : list GoJob := [MkGoJob 1 [0; 2]; MkGoJob 1 [1; 3]; MkGoJob 0 [4]].

Lemma jm_ex_wf : wf_map 5 jm_ex.
Proof. split; repeat constructor; by vm_compute. Qed.

Lemma initReplicationMap_correct_witness : ∃ m,
  initReplicationMap (Some (WriteToFile jm_ex)) = Some m ∧ size m = 3%nat ∧
  m !! 1 = Some (1, 3) ∧ m !! 2 = Some (4, -1).
Proof.
  destruct (initReplicationMap_correct 5 jm_ex jm_ex_wf) as [Hok _].
  destruct Hok as (m & E & Hs & Hm); [repeat constructor|]. exists m. split; [exact E|]. split; [exact Hs|].
  split.
  - destruct (Hm 1 (MkGoJob 1 [1; 3]) ltac:(lia) eq_refl) as (a & -> & [= <-]). reflexivity.
  - destruct (Hm 2 (MkGoJob 0 [4]) ltac:(lia) eq_refl) as (a & -> & [= <-]). reflexivity.
Defined.

#[local] Instance five_seconds : Dist unit := λ d, (5, d).
(** Job 0, its replica; job 2, which has none; job 1, its first worker. *)
Definition draws_ex : list Z := [0; 1; 2; 0; 1; 0].

Lemma NextN_spares_witness : ∃ s l s',
  NewSelector (Some (WriteToFile jm_ex)) draws_ex tt 20000000000 4000000000 any_image = Some s ∧
  NextN 9 2 s = Done l s' ∧ q_rank <$> l = [2; 1] ∧
  Forall (alive (H := open_mpi) [0; MPI_UNDEFINED; MPI_UNDEFINED; 1; 2]) (job_table jm_ex).
Proof.
  destruct (NextN_spares 5 jm_ex 9 2 any_image draws_ex tt 20000000000 4000000000 jm_ex_wf) as (s & E & Hrun);
    try done.
  - apply (bool_decide_unpack _). by vm_compute.
  - repeat constructor.
  - exists s. assert (∃ l s', NextN 9 2 s = Done l s' ∧ q_rank <$> l = [2; 1]) as (l & s' & El & Eq).
    { vm_compute in E. injection E as <-. eexists _, _. split; [vm_compute; reflexivity|reflexivity]. }
    exists l, s'. rewrite El in Hrun. destruct Hrun as (_ & _ & _ & Halive).
    split; [exact E|]. split; [exact El|]. split; [exact Eq|]. apply Halive. rewrite Eq.
    intros x Hx Hdead. apply list_elem_of_In in Hx. simpl in Hx.
    destruct Hx as [<-|[<-|[<-|[<-|[<-|[]]]]]]; vm_compute in Hdead; try done; set_solver.
Defined.

(** A generator that counts through the workers: the job, and then the place. *)
Definition odometer : Type := Z.
#[local] Instance turning : Rand odometer := λ n r, if n =? 2 then (r mod 2, r + 1) else ((r / 2) mod n, r).
#[local] Instance turning_laws : RandLaws (R := odometer).
Proof. intros n r Hn. unfold Int31n, turning. destruct (Z.eqb_spec n 2) as [->|]; simpl; apply Z.mod_pos_bound; lia. Qed.

Lemma odometer_drawn t : ∀ r : odometer, turn_drawn 3 t r = (((r + Z.of_nat t) / 2) mod 3, (r + Z.of_nat t) mod 2).
Proof.
  induction t as [|t IH]; intros r; simpl; [by rewrite Z.add_0_r|].
  rewrite IH. by replace (r + 1 + Z.of_nat t) with (r + Z.pos (Pos.of_succ_nat t)) by lia.
Qed.

#[local] Instance odometer_fair : FairTurns (R := odometer) 3 6.
Proof.
  intros r k i Hk Hi. pose proof (Z.mod_pos_bound (2 * k + i - r) 6 ltac:(lia)) as Hb.
  exists (Z.to_nat ((2 * k + i - r) mod 6)). split; [lia|]. rewrite odometer_drawn, Z2Nat.id by lia.
  assert (∃ q, r + (2 * k + i - r) mod 6 = 2 * k + i + 6 * q) as [q ->].
  { exists (- ((2 * k + i - r) / 6)). rewrite (Z.mod_eq _ 6) by lia. lia. }
  f_equal; [|rewrite <-(Z.mod_small i 2) at 2 by lia; replace (2 * k + i + 6 * q) with (i + (k + 3 * q) * 2) by lia;
    apply Z_mod_plus_full].
  replace (2 * k + i + 6 * q) with (i + (k + 3 * q) * 2) by lia. rewrite Z.div_add, (Z.div_small i), Z.add_0_l by lia.
  replace (k + 3 * q) with (k + q * 3) by lia. rewrite Z_mod_plus_full. by apply Z.mod_small.
Qed.

Lemma NextN_ends_witness : ∃ s l s',
  NewSelector (Some (WriteToFile jm_ex)) (7 : odometer) tt 20000000000 4000000000 any_image = Some s ∧
  NextN 36 3 s = Done l s'.
Proof.
  apply (NextN_ends 5 jm_ex 6 36 3 (7 : odometer) tt 20000000000 4000000000 jm_ex_wf); try done.
  - apply (bool_decide_unpack _). by vm_compute.
  - repeat constructor.
  - by repeat constructor.
  - exact odometer_fair.
Defined.

(** Commands that all succeed and are written down. *)
#[local] Instance log_ssh : Ssh (list (list byte * Z)) := λ h p l, (true, l ++ [(h, p)]).
#[local] Instance disk_hosts : Hosts disk_file (λ _, hostname_ex) (λ i, 4000 + Z.of_nat i) disk_view.
Proof. by split. Qed.

Definition process_of_rank (i : nat) : globals := set_node (set_rank (Z.of_nat i) node0) globals0.

Lemma injector_hits_witness : ∃ m,
  initNetworkMap (Some (disk_file network_stat_file
    (foldl (report_host process_of_rank disk_view) empty_disk [3; 1; 0; 2]%nat))) = Some m ∧
  Start m [MkQueued 2 5; MkQueued 1 5] [] =
    Done tt [([x6e; x6f; x64; x65; x37], 4002); ([x6e; x6f; x64; x65; x37], 4001)].
Proof.
  destruct (injector_hits (V := list (list byte * Z)) disk_file (λ _, hostname_ex) (λ i, 4000 + Z.of_nat i) disk_view
    process_of_rank 4 [3; 1; 0; 2]%nat empty_disk [MkQueued 2 5; MkQueued 1 5]) as (m & E & Hrun).
  - lia.
  - by vm_compute.
  - reflexivity.
  - intros i. split; [reflexivity|]. by eexists.
  - intros i Hi. lia.
  - apply (bool_decide_unpack _). by vm_compute.
  - vm_compute. lia.
  - repeat constructor; simpl; lia.
  - exists m. split; [exact E|]. rewrite Hrun. reflexivity.
Defined.
