(* ===== verification/PointToPoint.v ===== *)
(** * Point-to-point calls: [MPI_Send], [MPI_Recv], [MPI_Irecv], [MPI_Wait] of
    [src/mpi/init.c] and [src/mpi/async.c]

    A call that names a job is made once for every worker of the job that is
    not marked as failed, under a tag that tells the senders apart.  An error
    of the MPI library runs [rep_errhandler] before the call returns, with
    [ignore_process_failure] set. *)

From S2P Require Import Prelude Shared Mpi Memory MapFile Comm HeapSeg Ulfm.

(** ** The MPI calls used here *)
Record MPI_Status : Type := MkStatus {
  MPI_SOURCE : Z;
  MPI_TAG : Z;
  MPI_ERROR : Z
}.

(** What a call raises: the communicator and the code its error handler gets. *)
Abbreviation raised := (option (MPI_Comm * Z)) (only parsing).

Class P2P (W : Type) : Type := {
  PMPI_Type_size : Z → W → Z;
  (** data, destination, tag, communicator *)
  PMPI_Send : list mbyte → Z → Z → MPI_Comm → W → Z * raised * W;
  (** address, bytes, source, tag, communicator: it writes the memory *)
  PMPI_Recv : Z → Z → Z → Z → MPI_Comm → memory → W → Z * MPI_Status * memory * raised * W;
  (** address, bytes, source, tag, communicator: the request *)
  PMPI_Irecv : Z → Z → Z → Z → MPI_Comm → W → Z * Z * raised * W;
  (** the requests: it completes them, writes the memory, and gives back a
      status and the new handle of each *)
  PMPI_Waitall : list Z → memory → W → Z * list MPI_Status * list Z * memory * raised * W
}.

(** ** The state *)
Inductive Async_Type : Set := NONE | ANY_SEND | ANY_RECV | IRECV.
#[global] Instance Async_Type_eq_dec : EqDecision Async_Type.
Proof. solve_decision. Defined.

(** [req_array] is [None] until it is set. *)
Record Aggregate_Request : Type := MkAgg {
  request_count : Z;
  req_array : option (list cell);
  node_rank : list cell;
  temp_buffer : Z;
  original_buffer : Z;
  buffer_size : Z;
  async_type : Async_Type;
  agg_tag : Z
}.

(** The requests of the application live at their address in [aggs]. *)
Record sys (W : Type) : Type := MkSys {
  s_globals : globals;
  s_world : W;
  s_heap : heap;
  s_sender_cont : Z;
  s_receiver_cont : Z;
  s_aggs : gmap Z Aggregate_Request
}.
Arguments MkSys {W}.
Arguments s_globals {W}.
Arguments s_world {W}.
Arguments s_heap {W}.
Arguments s_sender_cont {W}.
Arguments s_receiver_cont {W}.
Arguments s_aggs {W}.

(** [SET_TAG(rank, tag)]; the arithmetic is that of [int]. *)
Definition SET_TAG (rank tag : Z) : Z := 100 * (rank + 1) + tag.

Section calls.
Context {W : Type} `{MpiConst} `{PmpiSplit W} `{Ulfm W} `{P2P W} `{Allocator}.
Abbreviation S := (sys W).

Definition put_mpi (p : globals * W) (s : S) : S :=
  MkSys p.1 p.2 (s_heap s) (s_sender_cont s) (s_receiver_cont s) (s_aggs s).
Definition put_heap (h : heap) (s : S) : S :=
  MkSys (s_globals s) (s_world s) h (s_sender_cont s) (s_receiver_cont s) (s_aggs s).
Definition put_aggs (a : gmap Z Aggregate_Request) (s : S) : S :=
  MkSys (s_globals s) (s_world s) (s_heap s) (s_sender_cont s) (s_receiver_cont s) a.

Definition on_mpi {A} (m : M (globals * W) A) : M S A :=
  zoom (λ s, (s_globals s, s_world s)) put_mpi m.
Definition on_globals {A} (m : M globals A) : M S A := on_mpi (of_globals m).
Definition on_mem {A} (m : M heap A) : M S A := zoom s_heap put_heap m.

(** The error handler runs before the failed call returns. *)
Definition handle (r : raised) : M S unit :=
  match r with Some (c, e) => on_mpi (rep_errhandler c e) | None => ret tt end.

Definition call_send (data : list mbyte) (dest tag : Z) (c : MPI_Comm) : M S Z := λ s,
  let '(st, r, w) := PMPI_Send data dest tag c (s_world s) in
  (handle r ;;; ret st) (put_mpi (s_globals s, w) s).
Definition call_recv (buf n source tag : Z) (c : MPI_Comm) : M S (Z * MPI_Status) := λ s,
  let '(st, status, m, r, w) := PMPI_Recv buf n source tag c (mem (s_heap s)) (s_world s) in
  (handle r ;;; ret (st, status)) (put_heap (set_mem m (s_heap s)) (put_mpi (s_globals s, w) s)).
Definition call_irecv (buf n source tag : Z) (c : MPI_Comm) : M S (Z * Z) := λ s,
  let '(st, req, r, w) := PMPI_Irecv buf n source tag c (s_world s) in
  (handle r ;;; ret (st, req)) (put_mpi (s_globals s, w) s).
Definition call_waitall (reqs : list Z) : M S (Z * list MPI_Status * list Z) := λ s,
  let '(st, statuses, reqs', m, r, w) := PMPI_Waitall reqs (mem (s_heap s)) (s_world s) in
  (handle r ;;; ret (st, statuses, reqs'))
    (put_heap (set_mem m (s_heap s)) (put_mpi (s_globals s, w) s)).

Definition set_ignoring (v : Z) : M S unit := on_globals (modify (set_ignore_process_failure v)).

(** [comm_to_use] is only set for [MPI_COMM_WORLD]; it points to the field of
    [node], so it is read at every use. *)
Definition comm_to_use (comm : MPI_Comm) : M S MPI_Comm :=
  if comm =? MPI_COMM_WORLD then gets (λ s, rep_mpi_comm_world (node (s_globals s)))
  else halt Undef.

(** [SET_RIGHT_S_BUFFER] and [SET_RIGHT_R_BUFFER]. *)
Definition sender_buffer (buf : Z) : M S Z :=
  let! pass := gets s_sender_cont in
  if pass =? 0 then ret buf else on_mem (load64 buf).
Definition receiver_buffer (buf : Z) : M S Z :=
  let! pass := gets s_receiver_cont in
  if pass =? 0 then ret buf else on_mem (load64 buf).

Definition load_ignore (r : Z) : M S Z :=
  let! a := gets (λ s, rank_ignore_list (s_globals s)) in
  of_option Undef (a ← a; aload a r).

(** ** [MPI_Send]

    The loop over the workers of [dest]; its bound is read at every turn.  The
    temporary buffer the data is copied to, allocated before and freed after
    the loop, is the value [data]. *)
Fixpoint send_loop (fuel : nat) (buf size dest tag comm i : Z) (mpi_status : cell) : M S cell :=
  match fuel with
  | O => halt NoFuel
  | Datatypes.S fuel' =>
      let! job := on_globals (load_job dest) in
      if i <? worker_count job then
        let! r := of_option Undef (aload (rank_list job) i) in
        let! ignored := load_ignore r in
        if ignored =? 1 then send_loop fuel' buf size dest tag comm (i + 1) mpi_status
        else
          let! from := sender_buffer buf in
          let! m := gets (λ s, mem (s_heap s)) in
          let! data := of_option Undef (load_bytes m from (Z.to_nat size)) in
          let! me := gets (λ s, rank (node (s_globals s))) in
          let! t := of_option Undef (c_int (SET_TAG me tag)) in
          let! c := comm_to_use comm in
          let! st := call_send data r t c in
          send_loop fuel' buf size dest tag comm (i + 1) (Some st)
      else ret mpi_status
  end.

Definition workers_fuel (job : Job) : nat := Datatypes.S (Z.to_nat (worker_count job)).

Definition MPI_Send (buf count datatype dest tag comm : Z) : M S cell :=
  set_ignoring 1 ;;;
  let! type_size := gets (λ s, PMPI_Type_size datatype (s_world s)) in
  let! size := of_option Undef (c_int (type_size * count)) in
  let! job := on_globals (load_job dest) in
  let! _ := of_option Undef (c_int (size * worker_count job)) in
  let! st := send_loop (workers_fuel job) buf size dest tag comm 0 None in
  set_ignoring 0 ;;;
  ret st.

(** ** [MPI_Recv]: every worker's message goes to the same buffer *)
Fixpoint recv_loop (fuel : nat) (buf size source tag comm i : Z) (mpi_status : cell)
    (status : option MPI_Status) : M S (cell * option MPI_Status) :=
  match fuel with
  | O => halt NoFuel
  | Datatypes.S fuel' =>
      let! job := on_globals (load_job source) in
      if i <? worker_count job then
        let! r := of_option Undef (aload (rank_list job) i) in
        let! ignored := load_ignore r in
        if ignored =? 1 then recv_loop fuel' buf size source tag comm (i + 1) mpi_status status
        else
          let! to := receiver_buffer buf in
          let! t := of_option Undef (c_int (SET_TAG r tag)) in
          let! c := comm_to_use comm in
          let! (st, status') := call_recv to size r t c in
          recv_loop fuel' buf size source tag comm (i + 1) (Some st) (Some status')
      else ret (mpi_status, status)
  end.

Definition MPI_Recv (buf count datatype source tag comm : Z) : M S (cell * option MPI_Status) :=
  set_ignoring 1 ;;;
  let! type_size := gets (λ s, PMPI_Type_size datatype (s_world s)) in
  let! job := on_globals (load_job source) in
  let! r := recv_loop (workers_fuel job) buf (type_size * count) source tag comm 0 None None in
  set_ignoring 0 ;;;
  ret r.

(** ** Aggregate requests: [src/mpi/async.c] *)
Definition sizeof_Aggregate_Request : Z := 64.

Definition new_agg_request (ori_buf datatype count worker_count : Z) : M S Z :=
  let! type_size := gets (λ s, PMPI_Type_size datatype (s_world s)) in
  let! size := of_option Undef (c_int (type_size * count)) in
  let! agg_req := on_mem (malloc sizeof_Aggregate_Request) in
  let! ranks := of_option Undef (amalloc worker_count) in
  let! temp := (if worker_count =? 1 then ret ori_buf
                else on_mem (malloc (wrap64 (size * worker_count)))) in
  modify (λ s, put_aggs (<[agg_req := MkAgg worker_count None ranks temp ori_buf (wrap64 size) NONE 0]>
                           (s_aggs s)) s) ;;;
  let! g := gets s_globals in
  let! n := of_option Undef (c_int (request_pending g + 1)) in
  on_globals (modify (set_request_pending n)) ;;;
  ret agg_req.

Definition load_agg (a : Z) : M S Aggregate_Request := λ s, of_option Undef (s_aggs s !! a) s.
Definition store_agg (a : Z) (v : Aggregate_Request) : M S unit :=
  load_agg a ;;; modify (λ s, put_aggs (<[a := v]> (s_aggs s)) s).

Definition get_request_count (a : Z) : M S Z :=
  let! agg := load_agg a in ret (request_count agg).

Definition free_agg_request (a : Z) : M S unit :=
  let! agg := load_agg a in
  when (1 <? request_count agg) (on_mem (free (temp_buffer agg))) ;;;
  on_mem (free a) ;;;
  modify (λ s, put_aggs (delete a (s_aggs s)) s).

(** ** [MPI_Irecv]

    The requests of the workers, from [i] on; a receive that fails is posted
    again ([i--]), for as long as it takes, hence the fuel. *)
Definition set_req (i v : Z) (agg : Aggregate_Request) : option Aggregate_Request :=
  l ← req_array agg; l' ← astore l i v;
  Some (MkAgg (request_count agg) (Some l') (node_rank agg) (temp_buffer agg)
          (original_buffer agg) (buffer_size agg) (async_type agg) (agg_tag agg)).
Definition set_node_rank (i v : Z) (agg : Aggregate_Request) : option Aggregate_Request :=
  l ← astore (node_rank agg) i v;
  Some (MkAgg (request_count agg) (req_array agg) l (temp_buffer agg)
          (original_buffer agg) (buffer_size agg) (async_type agg) (agg_tag agg)).

Fixpoint irecv_loop (fuel : nat) (a size source tag comm worker_count i : Z)
    (mpi_status : cell) : M S cell :=
  if negb (i <? worker_count) then ret mpi_status
  else match fuel with
  | O => halt NoFuel
  | Datatypes.S fuel' =>
      let! recv_source :=
        (if source =? MPI_ANY_SOURCE then ret MPI_ANY_SOURCE
         else let! job := on_globals (load_job source) in
              of_option Undef (aload (rank_list job) i)) in
      let! agg := load_agg a in
      let! agg := of_option Undef (set_node_rank i recv_source agg) in
      store_agg a agg ;;;
      let! ignored := (if recv_source =? MPI_ANY_SOURCE then ret 0 else load_ignore recv_source) in
      if ignored =? 1 then
        let! agg := of_option Undef (set_req i MPI_REQUEST_NULL agg) in
        store_agg a agg ;;;
        irecv_loop fuel' a size source tag comm worker_count (i + 1) mpi_status
      else
        let! t := of_option Undef (c_int (SET_TAG recv_source tag)) in
        let! c := comm_to_use comm in
        let! (st, req) := call_irecv (temp_buffer agg + i * buffer_size agg) size recv_source t c in
        let! agg := of_option Undef (set_req i req agg) in
        store_agg a agg ;;;
        irecv_loop fuel' a size source tag comm worker_count
          (if st =? MPI_SUCCESS then i + 1 else i) (Some st)
  end.

(** The request handle is the address of the aggregate; [fuel] bounds the
    posts. *)
Definition MPI_Irecv (fuel : nat) (buf count datatype source tag comm : Z) : M S (Z * cell) :=
  set_ignoring 1 ;;;
  let! wc := (if source =? MPI_ANY_SOURCE then ret 1
              else let! job := on_globals (load_job source) in ret (worker_count job)) in
  let! to := receiver_buffer buf in
  let! a := new_agg_request to datatype count wc in
  let! agg := load_agg a in
  let! reqs := of_option Undef (amalloc wc) in
  store_agg a (MkAgg (request_count agg) (Some reqs) (node_rank agg) (temp_buffer agg)
    (original_buffer agg) (buffer_size agg)
    (if source =? MPI_ANY_SOURCE then ANY_RECV else async_type agg) tag) ;;;
  let! st := irecv_loop fuel a (buffer_size agg) source tag comm wc 0 None in
  set_ignoring 0 ;;;
  ret (a, st).

(** ** [wait_for_agg_request] and [MPI_Wait] *)
Definition set_reqs (l : list cell) (agg : Aggregate_Request) : Aggregate_Request :=
  MkAgg (request_count agg) (Some l) (node_rank agg) (temp_buffer agg)
    (original_buffer agg) (buffer_size agg) (async_type agg) (agg_tag agg).

(** [PMPI_Waitall(request_count, req_array, ...)]: the first [request_count]
    handles, which have to be determinate. *)
Definition waitall (a : Z) : M S (Z * list MPI_Status) :=
  let! agg := load_agg a in
  let! reqs := of_option Undef (req_array agg) in
  let! handles := of_option Undef (all_some (take (Z.to_nat (request_count agg)) reqs)) in
  let! (st, statuses, handles') := call_waitall handles in
  store_agg a (set_reqs (Some <$> handles') agg) ;;;
  ret (st, statuses).

(** The condition of the loop over the statuses; [&&] stops at the first
    conjunct that is false. *)
Definition status_valid (st : MPI_Status) : M S bool :=
  if (0 <=? MPI_SOURCE st) && (MPI_ERROR st =? MPI_SUCCESS) then
    let! ignored := load_ignore (MPI_SOURCE st) in ret (negb (ignored =? 1))
  else ret false.

(** The first valid status and its index. *)
Fixpoint find_status (l : list MPI_Status) (i : Z) : M S (option (Z * MPI_Status)) :=
  match l with
  | [] => ret None
  | st :: l' =>
      let! ok := status_valid st in
      if ok then ret (Some (i, st)) else find_status l' (i + 1)
  end.

(** The [do .. while] loop; it makes six turns at most, so seven units of
    fuel are enough. *)
Fixpoint wait_loop (fuel : nat) (a trial_counter : Z) : M S (Z * MPI_Status * list MPI_Status) :=
  match fuel with
  | O => halt NoFuel
  | Datatypes.S fuel' =>
      let! (_, statuses) := waitall a in
      let! found := find_status statuses 0 in
      ensure (negb (4 <? trial_counter)) (Exited 999) ;;;
      match found with
      | Some (i, st) => ret (i, st, statuses)
      | None => wait_loop fuel' a (trial_counter + 1)
      end
  end.

(** [__blackhole_address], where the messages of the other workers go. *)
Context (blackhole : Z).

Definition drain_worker (agg : Aggregate_Request) (job first : Z) (i : Z) : M S unit :=
  let! j := on_globals (load_job job) in
  let! r := of_option Undef (aload (rank_list j) i) in
  if first =? r then ret tt
  else
    let! t := of_option Undef (c_int (SET_TAG r (agg_tag agg))) in
    let! c := gets (λ s, rep_mpi_comm_world (node (s_globals s))) in
    call_irecv blackhole (buffer_size agg) MPI_ANY_SOURCE t c ;;; ret tt.

(** [status] is [false] for [MPI_STATUS_IGNORE].  The result is the return
    value and what [*status] holds. *)
Definition wait_for_agg_request (a : Z) (status : bool) : M S (Z * option MPI_Status) :=
  let! agg := load_agg a in
  if (request_count agg =? 0) || bool_decide (req_array agg = None) then ret (MPI_SUCCESS, None)
  else if negb status then
    let! (rc, _) := waitall a in
    free_agg_request a ;;; ret (rc, None)
  else
    let! (wa_index, st, statuses) := wait_loop 7 a 0 in
    let! g := gets s_globals in
    let! job := of_option Undef (r2j ← rank_2_job g; aload r2j (MPI_SOURCE st)) in
    (if decide (async_type agg = ANY_RECV) then
       let! j := on_globals (load_job job) in
       iterM (drain_worker agg job (MPI_SOURCE st)) (seqZ 0 (worker_count j))
     else ret tt) ;;;
    when (negb (request_count agg =? 1))
      (let! m := gets (λ s, mem (s_heap s)) in
       let! data := of_option Undef
         (load_bytes m (temp_buffer agg + wa_index * buffer_size agg) (Z.to_nat (buffer_size agg))) in
       let! m' := of_option Undef (store_bytes m (original_buffer agg) data) in
       on_mem (modify (set_mem m'))) ;;;
    free_agg_request a ;;;
    ret (MPI_SUCCESS, Some (MkStatus job (MPI_TAG st) (MPI_ERROR st))).

Definition MPI_Wait (a : Z) (status : bool) : M S (Z * option MPI_Status) :=
  set_ignoring 1 ;;;
  let! r := wait_for_agg_request a status in
  let! g := gets s_globals in
  let! n := of_option Undef (c_int (request_pending g - 1)) in
  on_globals (modify (set_request_pending n)) ;;;
  set_ignoring 0 ;;;
  ret r.
End calls.

(** ** Reasoning about the calls *)
Section lemmas.
Context {W : Type} `{MpiConst} `{PmpiSplit W} `{Ulfm W} `{P2P W} `{Allocator}.
Implicit Types (s : sys W).

Lemma on_globals_same {A} (m : M globals A) s a :
  m (s_globals s) = Done a (s_globals s) → on_globals m s = Done a s.
Proof. intros E. unfold on_globals, on_mpi, of_globals, zoom. cbn. rewrite E. by destruct s. Qed.

Lemma on_globals_run {A} (m : M globals A) s a g' :
  m (s_globals s) = Done a g' → on_globals m s = Done a (put_mpi (g', s_world s) s).
Proof. intros E. unfold on_globals, on_mpi, of_globals, zoom. cbn. by rewrite E. Qed.

Lemma store_agg_run a v s agg :
  s_aggs s !! a = Some agg → store_agg a v s = Done tt (put_aggs (<[a := v]> (s_aggs s)) s).
Proof. intros E. unfold store_agg, load_agg. cbn [bind]. by rewrite E. Qed.

Lemma on_mem_same {A} (m : M heap A) s a :
  m (s_heap s) = Done a (s_heap s) → on_mem m s = Done a s.
Proof. intros E. unfold on_mem, zoom. rewrite E. by destruct s. Qed.

Lemma load_job_lookup js d job g :
  job_list g = Some (Some <$> js) → 0 ≤ d → js !! Z.to_nat d = Some job → load_job d g = Done job g.
Proof.
  intros Hj Hd Hl. unfold load_job. cbn. rewrite Hj. cbn.
  by rewrite (aload_Some _ _ job) by (lia || by rewrite list_lookup_fmap, Hl).
Qed.

Lemma worker_at size job i r :
  job_ok size job → workers job !! i = Some r → aload (rank_list job) (Z.of_nat i) = Some r.
Proof.
  intros (rs & rest & Hj & _) Hl. rewrite Hj in Hl |- *. rewrite workers_app in Hl.
  apply aload_Some; [lia|]. rewrite Nat2Z.id. simpl.
  rewrite lookup_app_l by (rewrite length_fmap; by eapply lookup_lt_Some).
  by rewrite list_lookup_fmap, Hl.
Qed.

Lemma worker_count_length size job : job_ok size job → worker_count job = Z.of_nat (length (workers job)).
Proof. intros (rs & rest & Hj & _). rewrite Hj at 1. simpl. rewrite Hj, workers_app. done. Qed.
End lemmas.

Lemma filter_iff_in {A} (P Q : A → Prop) `{!∀ x, Decision (P x), !∀ x, Decision (Q x)} (l : list A) :
  (∀ x, x ∈ l → P x ↔ Q x) → filter P l = filter Q l.
Proof.
  induction l as [|x l IH]; intros Hl; [done|]. rewrite !filter_cons, IH by (intros; apply Hl; by right).
  destruct (Hl x) as [H1 H2]; [by left|]. destruct (decide (P x)), (decide (Q x)); tauto.
Qed.

(** Workers that are not marked as failed. *)
Definition live_workers (ign : list cell) (job : Job) : list Z :=
  filter (λ r, aload ign r ≠ Some 1) (workers job).

(** ** Sending *)
Section send.
Context {W : Type} `{MpiConst} `{PmpiSplit W} `{Ulfm W} `{P2P W} `{Allocator}.

(** A network on which no send fails: [sent] is the record of the messages. *)
Class Network (sent : W → list (Z * Z * list mbyte)) : Prop :=
  network_send data d t c w : ∃ w',
    PMPI_Send data d t c w = (MPI_SUCCESS, None, w') ∧ sent w' = sent w ++ [(d, t, data)].

Context (sent : W → list (Z * Z * list mbyte)) `{!Network sent}.

(** What the loop reads, and does not change. *)
Record can_send (s : sys W) (job : Job) (ign : list cell) (buf size dest tag : Z)
    (data : list mbyte) : Prop := {
  cs_job : load_job dest (s_globals s) = Done job (s_globals s);
  cs_ok : ∃ n, job_ok n job;
  cs_ign : rank_ignore_list (s_globals s) = Some ign;
  cs_known r : r ∈ workers job → is_Some (aload ign r);
  cs_data : ∃ from, (if s_sender_cont s =? 0 then from = buf
                     else load_word 8 (mem (s_heap s)) buf = Some from) ∧
                    load_bytes (mem (s_heap s)) from (Z.to_nat size) = Some data;
  cs_tag : INT_MIN ≤ SET_TAG (rank (node (s_globals s))) tag ≤ INT_MAX
}.

Lemma can_send_world s job ign buf size dest tag data w :
  can_send s job ign buf size dest tag data →
  can_send (put_mpi (s_globals s, w) s) job ign buf size dest tag data.
Proof. by intros []. Qed.

(** One turn of the loop, whatever the network does. *)
Lemma send_turn s job ign buf size dest tag data ps r qs fuel st :
  can_send s job ign buf size dest tag data → workers job = ps ++ r :: qs →
  let next := send_loop fuel buf size dest tag MPI_COMM_WORLD (Z.of_nat (length (ps ++ [r]))) in
  send_loop (Datatypes.S fuel) buf size dest tag MPI_COMM_WORLD (Z.of_nat (length ps)) st s =
    if decide (aload ign r = Some 1) then next st s
    else (let! st' := call_send data r (SET_TAG (rank (node (s_globals s))) tag)
                        (rep_mpi_comm_world (node (s_globals s))) in next (Some st')) s.
Proof.
  intros [Hjob [n Hok] Hign Hknown (from & Hfrom & Hdata) Htag] Hw next. subst next.
  assert (aload (rank_list job) (Z.of_nat (length ps)) = Some r) as Hr.
  { eapply worker_at; [exact Hok|]. rewrite Hw. by rewrite list_lookup_middle. }
  assert ((Z.of_nat (length ps) <? worker_count job) = true) as Hlt.
  { rewrite (worker_count_length _ _ Hok), Hw, length_app. apply Z.ltb_lt. simpl. lia. }
  destruct (Hknown r) as [v Hv]; [rewrite Hw; apply elem_of_app; right; left|].
  replace (Z.of_nat (length (ps ++ [r]))) with (Z.of_nat (length ps) + 1) by len.
  cbn [send_loop bind]. rewrite (on_globals_same _ _ _ Hjob), Hlt. cbn [bind of_option].
  rewrite Hr. cbn [bind of_option]. unfold load_ignore. cbn [bind gets of_option].
  rewrite Hign. cbn [option_bind mbind]. rewrite Hv. cbn [of_option bind].
  destruct (decide (Some v = Some 1)) as [[= ->]|Hne]; [done|].
  rewrite (proj2 (Z.eqb_neq v 1)) by congruence.
  assert (sender_buffer buf s = Done from s) as Hbuf.
  { unfold sender_buffer. cbn [bind gets]. destruct (s_sender_cont s =? 0); [by subst|].
    apply on_mem_same. unfold load64. by rewrite Hfrom. }
  cbn [bind]. rewrite Hbuf. cbn [bind gets of_option]. rewrite Hdata. cbn [bind of_option].
  rewrite c_int_Some by done. unfold comm_to_use. rewrite Z.eqb_refl. done.
Qed.

Lemma send_one s job ign buf size dest tag data ps r qs fuel st :
  can_send s job ign buf size dest tag data → workers job = ps ++ r :: qs → 
  ∃ w', send_loop (Datatypes.S fuel) buf size dest tag MPI_COMM_WORLD (Z.of_nat (length ps)) st s =
    (if decide (aload ign r = Some 1)
     then send_loop fuel buf size dest tag MPI_COMM_WORLD (Z.of_nat (length (ps ++ [r]))) st s
     else send_loop fuel buf size dest tag MPI_COMM_WORLD (Z.of_nat (length (ps ++ [r])))
            (Some MPI_SUCCESS) (put_mpi (s_globals s, w') s)) ∧
    sent w' = sent (s_world s) ++ [(r, SET_TAG (rank (node (s_globals s))) tag, data)].
Proof.
  intros Hs Hw.
  destruct (network_send data r (SET_TAG (rank (node (s_globals s))) tag)
    (rep_mpi_comm_world (node (s_globals s))) (s_world s)) as (w' & Hsend & Hsent).
  exists w'. split; [|exact Hsent]. rewrite (send_turn _ _ _ _ _ _ _ _ _ _ _ _ _ Hs Hw).
  case_decide; [done|]. cbn [bind]. unfold call_send. rewrite Hsend. done.
Qed.

Lemma send_loop_spec job ign buf size dest tag data qs : ∀ ps fuel st s,
  can_send s job ign buf size dest tag data → workers job = ps ++ qs → (length qs < fuel)%nat →
  let live := filter (λ r, aload ign r ≠ Some 1) qs in
  ∃ w', send_loop fuel buf size dest tag MPI_COMM_WORLD (Z.of_nat (length ps)) st s =
      Done (if decide (live = []) then st else Some MPI_SUCCESS) (put_mpi (s_globals s, w') s) ∧
    sent w' = sent (s_world s) ++
      ((λ r, (r, SET_TAG (rank (node (s_globals s))) tag, data)) <$> live).
Proof.
  induction qs as [|r qs IH]; intros ps fuel st s Hs Hw Hf; (destruct fuel as [|fuel]; [simpl in Hf; lia|]).
  - exists (s_world s). split; [|by rewrite app_nil_r].
    destruct Hs as [Hjob [n Hok] _ _ _ _]. cbn [send_loop bind].
    rewrite (on_globals_same _ _ _ Hjob), (worker_count_length _ _ Hok), Hw, app_nil_r.
    rewrite Z.ltb_irrefl. by destruct s.
  - destruct (send_one s job ign buf size dest tag data ps r qs fuel st Hs Hw) as (w1 & Hrun & Hsent).
    assert (workers job = (ps ++ [r]) ++ qs) as Hw' by (by rewrite <-app_assoc).
    simpl in Hf. rewrite Hrun. cbv zeta. rewrite filter_cons.
    destruct (decide (aload ign r = Some 1)) as [Hd|Hd].
    + rewrite (decide_False (P := aload ign r ≠ Some 1)) by tauto.
      apply (IH (ps ++ [r]) fuel st s Hs Hw'). lia.
    + rewrite (decide_True (P := aload ign r ≠ Some 1)) by done.
      destruct (IH (ps ++ [r]) fuel (Some MPI_SUCCESS) (put_mpi (s_globals s, w1) s)) as (w' & Hrun2 & Hsent2);
        [by apply can_send_world|done|lia|].
      exists w'. rewrite Hrun2. split.
      * rewrite (decide_False (P := r :: _ = [])) by done. by case_decide.
      * rewrite Hsent2. cbn [s_world put_mpi s_globals]. rewrite fmap_cons.
        cbn [snd fst]. rewrite Hsent, <-app_assoc. done.
Qed.

(** The whole call. *)
Lemma MPI_Send_run s job ign buf count datatype dest tag data :
  let size := PMPI_Type_size datatype (s_world s) * count in
  INT_MIN ≤ size ≤ INT_MAX → INT_MIN ≤ size * worker_count job ≤ INT_MAX →
  can_send s job ign buf size dest tag data →
  ∃ w', MPI_Send buf count datatype dest tag MPI_COMM_WORLD s =
      Done (if decide (live_workers ign job = []) then None else Some MPI_SUCCESS)
        (put_mpi (set_ignore_process_failure 0 (s_globals s), w') s) ∧
    sent w' = sent (s_world s) ++
      ((λ r, (r, SET_TAG (rank (node (s_globals s))) tag, data)) <$> live_workers ign job).
Proof.
  intros size Hsize Htotal Hs. unfold MPI_Send, set_ignoring.
  set (s1 := put_mpi (set_ignore_process_failure 1 (s_globals s), s_world s) s).
  assert (can_send s1 job ign buf size dest tag data) as Hs1.
  { destruct Hs as [Hjob Hok Hi Hk Hd Ht]. split; try done.
    unfold load_job in *. cbn in *. destruct (job_list (s_globals s)); cbn in *; [|done].
    destruct (aload l dest); cbn in *; [|done]. by injection Hjob as ->. }
  pose proof (cs_ok _ _ _ _ _ _ _ _ Hs) as [n Hok].
  destruct (send_loop_spec job ign buf size dest tag data (workers job) [] (workers_fuel job) None s1)
    as (w' & Hrun & Hsent); [done|done| |].
  { unfold workers_fuel. rewrite (worker_count_length _ _ Hok). lia. }
  exists w'. split; [|exact Hsent].
  cbn [bind]. rewrite (on_globals_run (modify (set_ignore_process_failure 1)) s tt _ eq_refl). cbn [bind gets]. fold s1.
  change (PMPI_Type_size datatype (s_world s1) * count) with size.
  rewrite c_int_Some by done. cbn [bind of_option].
  rewrite (on_globals_same _ _ _ (cs_job _ _ _ _ _ _ _ _ Hs1)). cbn [bind].
  rewrite c_int_Some by done. cbn [bind of_option].
  change (Z.of_nat (length (@nil Z))) with 0 in Hrun. rewrite Hrun. cbn [bind].
  rewrite (on_globals_run (modify (set_ignore_process_failure 0)) _ tt _ eq_refl). cbn [bind ret]. done.
Qed.
End send.

(** ** Receiving without blocking *)
Section irecv.
Context {W : Type} `{MpiConst} `{!MpiConstLaws} `{PmpiSplit W} `{Ulfm W} `{P2P W} `{Allocator}.

(** A network on which a receive can always be posted: [posted] is the record
    of the sources and tags. *)
Class Posting (posted : W → list (Z * Z)) : Prop :=
  posting_irecv buf n source t c w : ∃ req w',
    PMPI_Irecv buf n source t c w = (MPI_SUCCESS, req, None, w') ∧
    posted w' = posted w ++ [(source, t)].

Context (posted : W → list (Z * Z)) `{!Posting posted}.

(** The aggregate request at [a] has room for [wc] requests. *)
Definition agg_room (s : sys W) (a wc : Z) : Prop :=
  ∃ agg l, s_aggs s !! a = Some agg ∧ req_array agg = Some l ∧
    Z.of_nat (length l) = wc ∧ Z.of_nat (length (node_rank agg)) = wc.

(** The source of the [i]-th receive, and what the code has to know of it. *)
Definition source_at (s : sys W) (source i r : Z) : Prop :=
  if source =? MPI_ANY_SOURCE then r = MPI_ANY_SOURCE
  else r ≠ MPI_ANY_SOURCE ∧
    ∃ job ign v, load_job source (s_globals s) = Done job (s_globals s) ∧
      aload (rank_list job) i = Some r ∧
      rank_ignore_list (s_globals s) = Some ign ∧ aload ign r = Some v.

Definition skipped (g : globals) (r : Z) : bool :=
  bool_decide (r ≠ MPI_ANY_SOURCE) &&
  match rank_ignore_list g with Some ign => bool_decide (aload ign r = Some 1) | None => false end.

(** The same globals and buffers, another world. *)
Definition same_process (s s' : sys W) : Prop :=
  s_globals s' = s_globals s ∧ s_heap s' = s_heap s ∧
  s_sender_cont s' = s_sender_cont s ∧ s_receiver_cont s' = s_receiver_cont s.

(** The aggregate [agg] with the requests [l] and the sources [nr]. *)
Definition with_slots (l nr : list cell) (agg : Aggregate_Request) : Aggregate_Request :=
  MkAgg (request_count agg) (Some l) nr (temp_buffer agg) (original_buffer agg) (buffer_size agg)
    (async_type agg) (agg_tag agg).

Lemma with_slots_id agg l : req_array agg = Some l → with_slots l (node_rank agg) agg = agg.
Proof. destruct agg. cbn. by intros ->. Qed.

Lemma set_node_rank_run i r l nr agg :
  0 ≤ i < Z.of_nat (length nr) → set_node_rank i r (with_slots l nr agg) = Some (with_slots l (<[Z.to_nat i := Some r]> nr) agg).
Proof. intros Hi. unfold set_node_rank. cbn. by rewrite astore_Some. Qed.
Lemma set_req_run i v l nr agg :
  0 ≤ i < Z.of_nat (length l) → set_req i v (with_slots l nr agg) = Some (with_slots (<[Z.to_nat i := Some v]> l) nr agg).
Proof. intros Hi. unfold set_req. cbn. by rewrite astore_Some. Qed.

(** What the loop finds out about the source [r] of a turn. *)
Lemma source_run s source i r :
  source_at s source i r →
  (if source =? MPI_ANY_SOURCE then ret MPI_ANY_SOURCE
   else let! job := on_globals (load_job source) in of_option Undef (aload (rank_list job) i)) s = Done r s.
Proof.
  unfold source_at. destruct (source =? MPI_ANY_SOURCE); [by intros ->|].
  intros (_ & job & ign & v & Hj & Hr & _). cbn [bind]. rewrite (on_globals_same _ _ _ Hj). cbn. by rewrite Hr.
Qed.

Lemma skipped_run (s s1 : sys W) source i r :
  source_at s source i r → s_globals s1 = s_globals s →
  ∃ v, (if r =? MPI_ANY_SOURCE then ret 0 else load_ignore r) s1 = Done v s1 ∧ (v =? 1) = skipped (s_globals s) r.
Proof.
  intros Hsrc Hg. unfold skipped, source_at in *. destruct (source =? MPI_ANY_SOURCE).
  - subst r. rewrite Z.eqb_refl. exists 0. by rewrite bool_decide_eq_false_2 by tauto.
  - destruct Hsrc as (Hne & job & ign & v & _ & _ & Hi' & Hv).
    rewrite (proj2 (Z.eqb_neq _ _) Hne), bool_decide_eq_true_2 by done. rewrite Hi', Hv.
    exists v. unfold load_ignore. cbn. rewrite Hg, Hi'. cbn. rewrite Hv. split; [done|].
    cbn. destruct (Z.eqb_spec v 1) as [->|Hv1]; [done|].
    symmetry. apply bool_decide_eq_false_2. congruence.
Qed.

(** A turn of the loop, up to what MPI makes of the receive. *)
Lemma irecv_turn fuel a size source tag wc i r st s agg l nr :
  s_aggs s !! a = Some (with_slots l nr agg) → Z.of_nat (length l) = wc → Z.of_nat (length nr) = wc →
  0 ≤ i < wc → source_at s source i r → INT_MIN ≤ SET_TAG r tag ≤ INT_MAX →
  let at_ l' := with_slots l' (<[Z.to_nat i := Some r]> nr) agg in
  let put v s' := put_aggs (<[a := v]> (s_aggs s')) s' in
  irecv_loop (Datatypes.S fuel) a size source tag MPI_COMM_WORLD wc i st s =
  if skipped (s_globals s) r
  then irecv_loop fuel a size source tag MPI_COMM_WORLD wc (i + 1) st
         (put (at_ (<[Z.to_nat i := Some MPI_REQUEST_NULL]> l)) s)
  else (let! (st1, req) := call_irecv (temp_buffer agg + i * buffer_size agg) size r (SET_TAG r tag)
          (rep_mpi_comm_world (node (s_globals s))) in
        store_agg a (at_ (<[Z.to_nat i := Some req]> l)) ;;;
        irecv_loop fuel a size source tag MPI_COMM_WORLD wc (if st1 =? MPI_SUCCESS then i + 1 else i) (Some st1))
         (put (at_ l) s).
Proof.
  intros Ha Hl Hnr Hi Hsrc Htag at_ put. cbn [irecv_loop]. rewrite (proj2 (Z.ltb_lt i wc)) by lia. cbn [negb].
  cbn [bind]. rewrite (source_run _ _ _ _ Hsrc). unfold load_agg at 1. rewrite Ha. cbn [of_option].
  rewrite set_node_rank_run by lia. cbn [of_option].
  rewrite (store_agg_run _ _ _ _ Ha). change (put_aggs _ s) with (put (at_ l) s).
  destruct (skipped_run s (put (at_ l) s) source i r Hsrc eq_refl) as (v & -> & ->).
  destruct (skipped (s_globals s) r).
  - unfold at_ at 1. rewrite set_req_run by lia. cbn [of_option bind].
    rewrite (store_agg_run _ _ _ (at_ l)) by apply lookup_insert_eq. unfold put. cbn. by rewrite insert_insert_eq.
  - rewrite c_int_Some by done. unfold comm_to_use. rewrite Z.eqb_refl. cbn [of_option gets].
    subst at_ put. cbv beta zeta. cbn [bind of_option gets].
    change (s_globals (put_aggs _ s)) with (s_globals s).
    change (temp_buffer (with_slots _ _ _)) with (temp_buffer agg).
    change (buffer_size (with_slots _ _ _)) with (buffer_size agg).
    destruct (call_irecv _ _ _ _ _ _) as [[st1 req] s1|]; [|done]. by rewrite set_req_run by lia.
Qed.

Lemma irecv_one fuel a size source tag wc i r st s :
  agg_room s a wc → 0 ≤ i < wc → source_at s source i r →
  INT_MIN ≤ SET_TAG r tag ≤ INT_MAX →
  ∃ s', irecv_loop (Datatypes.S fuel) a size source tag MPI_COMM_WORLD wc i st s =
      irecv_loop fuel a size source tag MPI_COMM_WORLD wc (i + 1)
        (if skipped (s_globals s) r then st else Some MPI_SUCCESS) s' ∧
    same_process s s' ∧ agg_room s' a wc ∧
    posted (s_world s') = posted (s_world s) ++
      (if skipped (s_globals s) r then [] else [(r, SET_TAG r tag)]).
Proof.
  intros (agg & l & Ha & Hl & Hlen & Hnr) Hi Hsrc Htag.
  rewrite <-(with_slots_id _ _ Hl) in Ha. rewrite (irecv_turn _ _ _ _ _ _ _ _ _ _ _ _ _ Ha Hlen Hnr Hi Hsrc Htag).
  assert (∀ v s1, s_aggs s1 !! a = Some (with_slots (<[Z.to_nat i := Some v]> l) (<[Z.to_nat i := Some r]> (node_rank agg)) agg) →
    agg_room s1 a wc) as Hroom.
  { intros v s1 E. eexists _, _. split; [exact E|]. split; [done|]. cbn. by rewrite !length_insert. }
  destruct (skipped (s_globals s) r).
  - eexists. split; [reflexivity|]. split; [done|]. split; [eapply Hroom, lookup_insert_eq|by rewrite app_nil_r].
  - cbn [bind]. unfold call_irecv.
    destruct (posting_irecv (temp_buffer agg + i * buffer_size agg) size r (SET_TAG r tag)
      (rep_mpi_comm_world (node (s_globals s))) (s_world s)) as (req & w' & Hcall & Hlog).
    cbn [s_world put_aggs]. rewrite Hcall. cbn [handle bind ret].
    erewrite store_agg_run by apply lookup_insert_eq. rewrite Z.eqb_refl. eexists. split; [reflexivity|].
    split; [done|]. split; [eapply Hroom, lookup_insert_eq|exact Hlog].
Qed.

(** The receives from the [i]-th source on. *)
Lemma irecv_loop_spec a size source tag wc qs : ∀ fuel i st s,
  agg_room s a wc → 0 ≤ i → i + Z.of_nat (length qs) = wc → (length qs ≤ fuel)%nat →
  (∀ k r, qs !! k = Some r → source_at s source (i + Z.of_nat k) r ∧
                            INT_MIN ≤ SET_TAG r tag ≤ INT_MAX) →
  let live := filter (λ r, skipped (s_globals s) r = false) qs in
  ∃ s', irecv_loop fuel a size source tag MPI_COMM_WORLD wc i st s =
      Done (if decide (live = []) then st else Some MPI_SUCCESS) s' ∧
    same_process s s' ∧ agg_room s' a wc ∧
    posted (s_world s') = posted (s_world s) ++ ((λ r, (r, SET_TAG r tag)) <$> live).
Proof.
  induction qs as [|r qs IH]; intros fuel i st s Hroom Hi Hwc Hf Hsrc live; subst live.
  - exists s. simpl in Hwc. split; [|split; [done|split; [done|by rewrite app_nil_r]]].
    assert ((i <? wc) = false) as E by (apply Z.ltb_ge; lia).
    destruct fuel; cbn [irecv_loop]; rewrite E; done.
  - destruct fuel as [|fuel]; [simpl in Hf; lia|]. simpl in Hwc, Hf.
    destruct (Hsrc 0%nat r eq_refl) as [Hr Htag]. rewrite Z.add_0_r in Hr.
    destruct (irecv_one fuel a size source tag wc i r st s Hroom ltac:(lia) Hr Htag)
      as (s1 & Hrun & (Hg & Hh & Hsc & Hrc) & Hroom1 & Hp1).
    destruct (IH fuel (i + 1) (if skipped (s_globals s) r then st else Some MPI_SUCCESS) s1)
      as (s2 & Hrun2 & (Hg2 & Hh2 & Hsc2 & Hrc2) & Hroom2 & Hp2); [done|lia|lia|lia| |].
    { intros k r' Hk. destruct (Hsrc (Datatypes.S k) r' Hk) as [Hr' Ht']. split; [|done].
      replace (i + 1 + Z.of_nat k) with (i + Z.of_nat (Datatypes.S k)) by lia.
      unfold source_at in *. by rewrite Hg. }
    exists s2. rewrite Hrun, Hrun2. rewrite Hg in Hp2 |- *. rewrite filter_cons.
    split; [|split; [split; [congruence|split; [congruence|split; congruence]]|split; [done|]]].
    + destruct (skipped (s_globals s) r).
      * rewrite (decide_False (P := true = false)) by done. done.
      * rewrite (decide_True (P := false = false)) by done.
        rewrite (decide_False (P := r :: _ = [])) by done. by repeat case_match.
    + rewrite Hp2, Hp1, <-app_assoc. destruct (skipped (s_globals s) r).
      * by rewrite (decide_False (P := true = false)) by done.
      * by rewrite (decide_True (P := false = false)) by done.
Qed.

(** The state in which the loop starts. *)
Lemma new_agg_request_spec s buf count datatype wc :
  let size := PMPI_Type_size datatype (s_world s) * count in
  INT_MIN ≤ size ≤ INT_MAX → 0 ≤ wc → INT_MIN ≤ request_pending (s_globals s) < INT_MAX →
  ∃ a s', new_agg_request buf datatype count wc s = Done a s' ∧
    s_globals s' = set_request_pending (request_pending (s_globals s) + 1) (s_globals s) ∧
    s_world s' = s_world s ∧
    ∃ agg, s_aggs s' !! a = Some agg ∧ request_count agg = wc ∧ req_array agg = None ∧
      Z.of_nat (length (node_rank agg)) = wc ∧ original_buffer agg = buf ∧
      buffer_size agg = wrap64 size.
Proof.
  intros size Hsize Hwc Hp. unfold new_agg_request. cbn [bind gets].
  fold size. rewrite c_int_Some by done. cbn [bind of_option]. unfold malloc, on_mem, zoom.
  cbn [bind]. unfold amalloc. rewrite (proj2 (Z.ltb_ge wc 0)) by done. cbn [bind of_option].
  destruct (wc =? 1) eqn:E; cbn [bind ret modify gets]; cbn;
    rewrite c_int_Some by lia; cbn;
    eexists _, _; (split; [reflexivity|]); (split; [reflexivity|]); (split; [reflexivity|]);
    eexists; (split; [apply lookup_insert_eq|]); cbn;
    rewrite length_replicate; repeat split; lia.
Qed.
Lemma load_job_same g g' d job :
  job_list g' = job_list g → load_job d g = Done job g → load_job d g' = Done job g'.
Proof.
  unfold load_job. cbn. intros ->.
  destruct (job_list g) as [l|]; cbn; [|done]. destruct (aload l d); cbn; [|done]. by intros [= ->].
Qed.

Lemma source_at_same s s' source i r :
  job_list (s_globals s') = job_list (s_globals s) →
  rank_ignore_list (s_globals s') = rank_ignore_list (s_globals s) →
  source_at s source i r → source_at s' source i r.
Proof.
  unfold source_at. intros Hj Hi. destruct (source =? MPI_ANY_SOURCE); [done|].
  intros (Hne & job & ign & v & Hl & Hr & Hign & Hv). split; [done|].
  exists job, ign, v. rewrite Hi. split; [by eapply load_job_same|done].
Qed.

Lemma skipped_same g g' r : rank_ignore_list g' = rank_ignore_list g → skipped g' r = skipped g r.
Proof. unfold skipped. by intros ->. Qed.

(** The [k]-th worker of a job as a source. *)
Lemma worker_source s n job ign source k r :
  0 ≤ source → load_job source (s_globals s) = Done job (s_globals s) → job_ok n job →
  rank_ignore_list (s_globals s) = Some ign → workers job !! k = Some r → is_Some (aload ign r) →
  source_at s source (Z.of_nat k) r ∧ skipped (s_globals s) r = bool_decide (aload ign r = Some 1).
Proof.
  intros Hsrc Hjob Hok Hi Hr [v Hv]. pose proof any_source_neg as Hany.
  pose proof (job_ok_range _ _ _ Hok (list_elem_of_lookup_2 _ _ _ Hr)). split.
  - unfold source_at. rewrite (proj2 (Z.eqb_neq _ _)) by lia. split; [lia|].
    exists job, ign, v. split; [done|]. split; [by eapply worker_at|done].
  - unfold skipped. rewrite bool_decide_eq_true_2 by lia. by rewrite Hi.
Qed.

(** The address the application receives into, and how many receives are
    posted. *)
Definition receives_into (s : sys W) (buf to : Z) : Prop :=
  if s_receiver_cont s =? 0 then to = buf else load_word 8 (mem (s_heap s)) buf = Some to.
Definition source_count (s : sys W) (source wc : Z) : Prop :=
  if source =? MPI_ANY_SOURCE then wc = 1
  else ∃ job, load_job source (s_globals s) = Done job (s_globals s) ∧ wc = worker_count job.

Lemma receiver_buffer_run s buf to : receives_into s buf to → receiver_buffer buf s = Done to s.
Proof.
  unfold receives_into, receiver_buffer. cbn [bind gets].
  destruct (s_receiver_cont s =? 0); [by intros ->|].
  intros E. apply on_mem_same. unfold load64. by rewrite E.
Qed.

Lemma source_count_run s source wc :
  source_count s source wc →
  (if source =? MPI_ANY_SOURCE then ret 1
   else let! job := on_globals (load_job source) in ret (worker_count job)) s = Done wc s.
Proof.
  unfold source_count. destruct (source =? MPI_ANY_SOURCE); [by intros ->|].
  intros (job & Hj & ->). cbn [bind]. by rewrite (on_globals_same _ _ _ Hj).
Qed.

(** The process [s0] whose request [a] has a slot for each of [wc] receives,
    none of which is posted yet. *)
Record started (s s0 : sys W) (a to size tag wc : Z) (agg : Aggregate_Request) (l nr : list cell) : Prop := {
  sa_globals : s_globals s0 = set_request_pending (request_pending (s_globals s) + 1)
    (set_ignore_process_failure 1 (s_globals s));
  sa_world : s_world s0 = s_world s;
  sa_agg : s_aggs s0 !! a = Some (with_slots l nr agg);
  sa_slots : Z.of_nat (length l) = wc;
  sa_sources : Z.of_nat (length nr) = wc;
  sa_count : request_count agg = wc;
  sa_buffer : original_buffer agg = to;
  sa_size : buffer_size agg = wrap64 size;
  sa_tag : agg_tag agg = tag
}.

Lemma irecv_start s buf to count datatype source tag wc fuel :
  let size := PMPI_Type_size datatype (s_world s) * count in
  INT_MIN ≤ size ≤ INT_MAX → INT_MIN ≤ request_pending (s_globals s) < INT_MAX →
  receives_into s buf to → source_count s source wc → 0 ≤ wc →
  ∃ a s0 agg l nr, started s s0 a to size tag wc agg l nr ∧
    MPI_Irecv fuel buf count datatype source tag MPI_COMM_WORLD s =
    (let! st := irecv_loop fuel a (buffer_size agg) source tag MPI_COMM_WORLD wc 0 None in
     set_ignoring 0 ;;; ret (a, st)) s0.
Proof.
  intros size Hsize Hp Hto Hwc Hwc0. unfold MPI_Irecv, set_ignoring. cbn [bind].
  rewrite (on_globals_run (modify (set_ignore_process_failure 1)) s tt _ eq_refl). cbn [bind].
  set (s1 := put_mpi _ s).
  assert (source_count s1 source wc) as Hwc1.
  { unfold source_count in *. destruct (source =? MPI_ANY_SOURCE); [done|].
    destruct Hwc as (job & Hj & E). exists job. split; [by apply (load_job_same (s_globals s))|done]. }
  rewrite (source_count_run s1 _ _ Hwc1). cbn [bind].
  rewrite (receiver_buffer_run s1 buf to Hto). cbn [bind].
  destruct (new_agg_request_spec s1 to count datatype wc)
    as (a & s2 & Hnew & Hg & Hw & agg & Ha & Hcnt & _ & Hnr & Hob & Hbs); [done|lia|done|].
  rewrite Hnew. cbn [bind]. unfold load_agg at 1. rewrite Ha. cbn [of_option bind].
  unfold amalloc. rewrite (proj2 (Z.ltb_ge _ 0)) by lia. cbn [of_option bind].
  rewrite (store_agg_run _ _ s2 _ Ha). cbn [bind].
  match goal with |- context [put_aggs (<[a := ?v]> _) s2] =>
    exists a, (put_aggs (<[a := v]> (s_aggs s2)) s2), v, (replicate (Z.to_nat wc) None), (node_rank agg) end.
  split; [|done]. split; [by cbn; rewrite Hg|by cbn; rewrite Hw|apply lookup_insert_eq| |done|done|done|done|done].
  rewrite length_replicate. lia.
Qed.

(** The whole call, for the list [qs] of the sources of its receives. *)
Lemma MPI_Irecv_run s buf to count datatype source tag qs fuel :
  let size := PMPI_Type_size datatype (s_world s) * count in
  INT_MIN ≤ size ≤ INT_MAX →
  INT_MIN ≤ request_pending (s_globals s) < INT_MAX →
  receives_into s buf to →
  source_count s source (Z.of_nat (length qs)) →
  (length qs ≤ fuel)%nat →
  (∀ k r, qs !! k = Some r → source_at s source (Z.of_nat k) r ∧ INT_MIN ≤ SET_TAG r tag ≤ INT_MAX) →
  let live := filter (λ r, skipped (s_globals s) r = false) qs in
  ∃ a s', MPI_Irecv fuel buf count datatype source tag MPI_COMM_WORLD s =
      Done (a, if decide (live = []) then None else Some MPI_SUCCESS) s' ∧
    s_globals s' = set_ignore_process_failure 0
      (set_request_pending (request_pending (s_globals s) + 1) (s_globals s)) ∧
    agg_room s' a (Z.of_nat (length qs)) ∧
    posted (s_world s') = posted (s_world s) ++ ((λ r, (r, SET_TAG r tag)) <$> live).
Proof.
  intros size Hsize Hp Hto Hwc Hf Hsrc live.
  destruct (irecv_start s buf to count datatype source tag _ fuel Hsize Hp Hto Hwc ltac:(lia))
    as (a & s3 & agg & l & nr & [Hg Hw Ha Hl Hnr _ _ _ _] & ->).
  destruct (irecv_loop_spec a (buffer_size agg) source tag (Z.of_nat (length qs)) qs fuel 0 None s3)
    as (s4 & Hrun & (Hg4 & _) & Hroom & Hpost); [by eexists _, _|done|done|done| |].
  { intros k r Hk. destruct (Hsrc k r Hk) as [Hr Ht]. split; [|done].
    rewrite Z.add_0_l. apply (source_at_same s); [by rewrite Hg..|done]. }
  assert (filter (λ r, skipped (s_globals s3) r = false) qs = live) as El.
  { apply list_filter_iff. intros r. rewrite (skipped_same (s_globals s)); [done|]. by rewrite Hg. }
  rewrite El in Hrun, Hpost. cbn [bind]. rewrite Hrun. unfold set_ignoring.
  rewrite (on_globals_run (modify (set_ignore_process_failure 0)) s4 tt _ eq_refl). cbn [bind ret].
  exists a. eexists. split; [reflexivity|]. split; [|split; [exact Hroom|]].
  - cbn [s_globals put_mpi fst]. by rewrite Hg4, Hg.
  - cbn [s_world put_mpi snd]. by rewrite Hpost, Hw.
Qed.
End irecv.

(** ** Waiting *)

(** What the code takes for a message that arrived. *)
Definition arrived `{MpiConst} (ign : list cell) (st : MPI_Status) : Prop :=
  0 ≤ MPI_SOURCE st ∧ MPI_ERROR st = MPI_SUCCESS ∧ aload ign (MPI_SOURCE st) ≠ Some 1.
#[export] Instance arrived_dec `{MpiConst} ign st : Decision (arrived ign st).
Proof. unfold arrived. apply _. Defined.

(** The aggregate request at [a], whose handles are all determinate. *)
Record waiting {W} (s : sys W) (a : Z) (agg : Aggregate_Request) (handles : list Z) : Prop := {
  wt_agg : s_aggs s !! a = Some agg;
  wt_reqs : req_array agg = Some (Some <$> handles);
  wt_count : request_count agg = Z.of_nat (length handles)
}.

(** The sources of the statuses are ranks the ignore list covers. *)
Definition known_sources (ign : list cell) (l : list MPI_Status) : Prop :=
  Forall (λ st, 0 ≤ MPI_SOURCE st → is_Some (aload ign (MPI_SOURCE st))) l.

(** What an aggregate request made for [n] receives owns: its own block and,
    unless [n = 1], the block of its slots; the buffer of the application is
    outside both. *)
Definition apart (x nx y ny : Z) : Prop := x + nx ≤ y ∨ y + ny ≤ x.
Record agg_owns (h : heap) (a : Z) (agg : Aggregate_Request) (n : nat) : Prop := {
  ow_one : n = 1%nat → temp_buffer agg = original_buffer agg;
  ow_self : a ≠ 0 ∧ blocks h !! a = Some sizeof_Aggregate_Request ∧
    apart (original_buffer agg) (buffer_size agg) a sizeof_Aggregate_Request;
  ow_size : 0 ≤ buffer_size agg;
  ow_temp : (1 < n)%nat → temp_buffer agg ≠ 0 ∧ temp_buffer agg ≠ a ∧
    ∃ k, blocks h !! temp_buffer agg = Some k ∧
      apart (original_buffer agg) (buffer_size agg) (temp_buffer agg) k
}.

Section wait.
Context {W : Type} `{MpiConst} `{PmpiSplit W} `{Ulfm W} `{P2P W} `{Allocator}.

Implicit Types (s : sys W).

Lemma waitall_run s a agg handles rc sts hs' m' w' :
  waiting s a agg handles →
  PMPI_Waitall handles (mem (s_heap s)) (s_world s) = (rc, sts, hs', m', None, w') →
  waitall a s = Done (rc, sts)
    (put_aggs (<[a := set_reqs (Some <$> hs') agg]> (s_aggs s))
       (put_heap (set_mem m' (s_heap s)) (put_mpi (s_globals s, w') s))).
Proof.
  intros [Ha Hr Hn] Hw. unfold waitall, load_agg at 1. cbn [bind]. rewrite Ha. cbn [of_option bind].
  rewrite Hr. cbn [of_option bind]. rewrite Hn, Nat2Z.id, take_ge by (by rewrite length_fmap).
  rewrite all_some_fmap. cbn [of_option bind]. unfold call_waitall. rewrite Hw. cbn [handle bind ret].
  by erewrite store_agg_run by exact Ha.
Qed.

Lemma status_valid_run s ign st :
  rank_ignore_list (s_globals s) = Some ign →
  (0 ≤ MPI_SOURCE st → is_Some (aload ign (MPI_SOURCE st))) →
  status_valid st s = Done (bool_decide (arrived ign st)) s.
Proof.
  intros Hi Hk. unfold status_valid.
  destruct (Z.leb_spec 0 (MPI_SOURCE st)) as [Hp|Hp]; cycle 1.
  { cbn [andb]. rewrite bool_decide_eq_false_2; [done|]. intros (? & _). lia. }
  destruct (Hk Hp) as [v Hv]. destruct (Z.eqb_spec (MPI_ERROR st) MPI_SUCCESS) as [He|He]; cbn [andb].
  - assert (load_ignore (MPI_SOURCE st) s = Done v s) as Hload.
    { unfold load_ignore. cbn. rewrite Hi. cbn. by rewrite Hv. }
    cbn [bind]. rewrite Hload. cbn [ret]. f_equal.
    destruct (Z.eqb_spec v 1) as [->|Hv1]; symmetry; cbn [negb].
    + apply bool_decide_eq_false_2. by intros (_ & _ & []).
    + apply bool_decide_eq_true_2. split; [done|]. split; [done|congruence].
  - rewrite bool_decide_eq_false_2; [done|]. by intros (_ & ? & _).
Qed.

Lemma find_status_spec s ign l : ∀ i,
  rank_ignore_list (s_globals s) = Some ign → known_sources ign l →
  find_status l i s =
    Done ((λ p, (i + Z.of_nat p.1, p.2)) <$> list_find (arrived ign) l) s.
Proof.
  induction l as [|st l IH]; intros i Hi Hk; [done|]. apply Forall_cons in Hk as [Hst Hk].
  cbn [find_status bind]. rewrite (status_valid_run s ign st Hi Hst).
  cbn [list_find]. destruct (decide (arrived ign st)) as [Ha|Ha].
  - rewrite bool_decide_eq_true_2 by done. cbn. by rewrite Z.add_0_r.
  - rewrite bool_decide_eq_false_2 by done. rewrite (IH (i + 1) Hi Hk).
    destruct (list_find _ l) as [[k st']|]; cbn; [|done]. do 3 f_equal. lia.
Qed.
End wait.

(** ** Completing a request *)
Section complete.
Context {W : Type} `{MpiConst} `{PmpiSplit W} `{Ulfm W} `{P2P W} `{Allocator}.
Implicit Types (s : sys W).

Lemma load_drop_bytes a k m x n :
  apart x (Z.of_nat n) a k → load_bytes (drop_bytes a k m) x n = load_bytes m x n.
Proof.
  intros Ha. apply load_bytes_ext. intros i Hi. apply option_eq. intros y.
  unfold drop_bytes. rewrite map_lookup_filter_Some. cbn. unfold apart in Ha. intuition lia.
Qed.

(** [free] of a live block, away from a buffer. *)
Lemma free_apart h p k :
  p ≠ 0 → blocks h !! p = Some k → ∃ h', free p h = Done tt h' ∧
    blocks h' = delete p (blocks h) ∧ mem h' = drop_bytes p k (mem h).
Proof. intros Hp Hb. unfold free. rewrite (proj2 (Z.eqb_neq p 0) Hp), Hb. by eexists. Qed.

Lemma on_mem_run {A} (m : M heap A) s a h' :
  m (s_heap s) = Done a h' → on_mem m s = Done a (put_heap h' s).
Proof. intros E. unfold on_mem, zoom. by rewrite E. Qed.

(** [free_agg_request] frees what the request owns and leaves the buffer of
    the application. *)
Lemma free_agg_request_spec s a agg n :
  s_aggs s !! a = Some agg → request_count agg = Z.of_nat n → agg_owns (s_heap s) a agg n →
  ∃ h', free_agg_request a s = Done tt (put_aggs (delete a (s_aggs s)) (put_heap h' s)) ∧
    load_bytes (mem h') (original_buffer agg) (Z.to_nat (buffer_size agg)) =
      load_bytes (mem (s_heap s)) (original_buffer agg) (Z.to_nat (buffer_size agg)) ∧
    blocks h' !! a = None ∧ ((1 < n)%nat → blocks h' !! temp_buffer agg = None).
Proof.
  intros Ha Hn [_ (Ha0 & Hblk & Hap) Hsz Htemp].
  rewrite <-(Z2Nat.id (buffer_size agg)) in Hap by done.
  unfold free_agg_request, load_agg. cbn [bind]. rewrite Ha. cbn [of_option bind].
  destruct (Z.ltb_spec 1 (request_count agg)) as [Hlt|Hle]; cbn [when].
  - destruct Htemp as (Ht0 & Hta & k & Hk & Hap'); [lia|].
    rewrite <-(Z2Nat.id (buffer_size agg)) in Hap' by done.
    destruct (free_apart (s_heap s) _ _ Ht0 Hk) as (h1 & Hf1 & Hb1 & Hm1).
    destruct (free_apart h1 a sizeof_Aggregate_Request Ha0) as (h2 & Hf2 & Hb2 & Hm2);
      [by rewrite Hb1, lookup_delete_ne|].
    exists h2. cbn [bind]. rewrite (on_mem_run _ _ _ _ Hf1). cbn [bind].
    rewrite (on_mem_run _ (put_heap h1 s) _ _ Hf2). split; [done|]. split; [|split].
    + by rewrite Hm2, Hm1, !load_drop_bytes.
    + by rewrite Hb2, lookup_delete_eq.
    + intros _. by rewrite Hb2, lookup_delete_ne, Hb1, lookup_delete_eq.
  - destruct (free_apart (s_heap s) a sizeof_Aggregate_Request Ha0 Hblk) as (h2 & Hf2 & Hb2 & Hm2).
    exists h2. cbn [bind ret]. rewrite (on_mem_run _ _ _ _ Hf2). split; [done|]. split; [|split].
    + by rewrite Hm2, load_drop_bytes.
    + by rewrite Hb2, lookup_delete_eq.
    + lia.
Qed.

Lemma agg_owns_ext h h' a agg agg' n :
  blocks h' = blocks h → temp_buffer agg' = temp_buffer agg →
  original_buffer agg' = original_buffer agg → buffer_size agg' = buffer_size agg →
  agg_owns h a agg n → agg_owns h' a agg' n.
Proof. intros Hb Ht Ho Hs []. split; rewrite ?Hb, ?Ht, ?Ho, ?Hs; done. Qed.

(** The first turn of the loop, when it finds a message. *)
Lemma wait_loop_first s ign a agg handles rc sts hs' m' w' i st :
  waiting s a agg handles → rank_ignore_list (s_globals s) = Some ign →
  PMPI_Waitall handles (mem (s_heap s)) (s_world s) = (rc, sts, hs', m', None, w') →
  known_sources ign sts → list_find (arrived ign) sts = Some (i, st) →
  wait_loop 7 a 0 s = Done (Z.of_nat i, st, sts)
    (put_aggs (<[a := set_reqs (Some <$> hs') agg]> (s_aggs s))
       (put_heap (set_mem m' (s_heap s)) (put_mpi (s_globals s, w') s))).
Proof.
  intros Hs Hi Hw Hk Hf. cbn [wait_loop bind]. rewrite (waitall_run _ _ _ _ _ _ _ _ _ Hs Hw).
  cbn [bind]. rewrite (find_status_spec _ ign) by done. by rewrite Hf.
Qed.
(** The whole of [wait_for_agg_request] on that turn. *)
Lemma complete_run bh s ign a agg handles rc sts hs' m' w' i st job data r2j :
  waiting s a agg handles → rank_ignore_list (s_globals s) = Some ign →
  length sts = length handles → agg_owns (s_heap s) a agg (length handles) →
  PMPI_Waitall handles (mem (s_heap s)) (s_world s) = (rc, sts, hs', m', None, w') →
  known_sources ign sts → list_find (arrived ign) sts = Some (i, st) →
  rank_2_job (s_globals s) = Some r2j → aload r2j (MPI_SOURCE st) = Some job →
  async_type agg ≠ ANY_RECV →
  load_bytes m' (temp_buffer agg + Z.of_nat i * buffer_size agg) (Z.to_nat (buffer_size agg)) = Some data →
  valid_range m' (original_buffer agg) (Z.to_nat (buffer_size agg)) →
  ∃ h', wait_for_agg_request bh a true s =
      Done (MPI_SUCCESS, Some (MkStatus job (MPI_TAG st) (MPI_ERROR st)))
        (put_aggs (delete a (s_aggs s)) (put_heap h' (put_mpi (s_globals s, w') s))) ∧
    load_bytes (mem h') (original_buffer agg) (Z.to_nat (buffer_size agg)) = Some data ∧
    blocks h' !! a = None ∧
    ((1 < length handles)%nat → blocks h' !! temp_buffer agg = None).
Proof.
  intros Hs Hi Hlen Hown Hw Hk Hf Hr2j Hjob Hany Hdata Hbuf.
  assert (i < length handles)%nat as Hlt.
  { apply list_find_Some in Hf as (Hf & _). rewrite <-Hlen. by eapply lookup_lt_Some. }
  unfold wait_for_agg_request, load_agg at 1. cbn [bind].
  rewrite (wt_agg _ _ _ _ Hs). cbn [of_option bind].
  rewrite (wt_reqs _ _ _ _ Hs), (wt_count _ _ _ _ Hs), (proj2 (Z.eqb_neq _ 0)) by lia.
  rewrite bool_decide_eq_false_2 by done. cbn [orb negb bind].
  rewrite (wait_loop_first s ign a agg handles rc sts hs' m' w' i st) by done.
  cbn [bind gets]. cbn [s_globals put_aggs put_heap put_mpi fst snd].
  rewrite Hr2j. cbn [mbind option_bind of_option bind]. rewrite Hjob. cbn [of_option bind].
  rewrite (decide_False (P := async_type agg = ANY_RECV)) by done. cbn [bind ret].
  set (agg' := set_reqs (Some <$> hs') agg).
  set (s2 := put_aggs (<[a := agg']> (s_aggs s)) (put_heap (set_mem m' (s_heap s)) (put_mpi (s_globals s, w') s))).
  assert (∀ m2, load_bytes m2 (original_buffer agg) (Z.to_nat (buffer_size agg)) = Some data →
    ∃ h', free_agg_request a (put_heap (set_mem m2 (s_heap s)) s2) =
        Done tt (put_aggs (delete a (s_aggs s)) (put_heap h' (put_mpi (s_globals s, w') s))) ∧
      load_bytes (mem h') (original_buffer agg) (Z.to_nat (buffer_size agg)) = Some data ∧
      blocks h' !! a = None ∧
      ((1 < length handles)%nat → blocks h' !! temp_buffer agg = None)) as Hfree.
  { intros m2 Hm2.
    destruct (free_agg_request_spec (put_heap (set_mem m2 (s_heap s)) s2) a agg' (length handles))
      as (h' & Hfree & Hl & Hb); [apply lookup_insert_eq|apply Hs| |].
    { eapply agg_owns_ext; [..|exact Hown]; done. }
    exists h'. rewrite Hfree. cbn. rewrite delete_insert_eq. split; [done|].
    split; [|exact Hb]. cbn in Hl. by rewrite Hl. }
  destruct (Z.eqb_spec (Z.of_nat (length handles)) 1) as [Hone|Hone]; cbn [negb when bind ret].
  - assert (i = 0%nat) as -> by lia.
    rewrite (ow_one _ _ _ _ Hown) in Hdata by lia. rewrite Z.mul_0_l, Z.add_0_r in Hdata.
    destruct (Hfree m' Hdata) as (h' & Hrun & Hrest).
    change (put_heap (set_mem m' (s_heap s)) s2) with s2 in Hrun. rewrite Hrun.
    exists h'. by split.
  - pose proof Hdata as Hd. cbn [bind gets]. change (mem (s_heap s2)) with m'.
    rewrite Hdata. cbn [of_option bind].
    assert (length data = Z.to_nat (buffer_size agg)) as Hld by (eapply load_bytes_length; exact Hdata).
    destruct (store_bytes_Some m' (original_buffer agg) data) as [m2 Hm2]; [by rewrite Hld|].
    rewrite Hm2. cbn [of_option bind].
    rewrite (on_mem_run (modify (set_mem m2)) s2 tt _ eq_refl). cbn [bind].
    destruct (Hfree m2) as (h' & Hrun & Hrest).
    { rewrite <-Hld. by eapply load_store_bytes. }
    change (put_heap (set_mem m2 (s_heap s2)) s2) with (put_heap (set_mem m2 (s_heap s)) s2).
    rewrite Hrun. exists h'. by split.
Qed.
End complete.

(** ** Properties *)

(** [MPI_Send] on a network where no send fails: it returns, the message is
    sent exactly once to each worker of the destination that is not marked as
    failed, in the order of the job and under the tag of this process, and
    nothing else changes.  The return value is indeterminate when every
    worker is marked. *)
Theorem MPI_Send_correct {W} `{MpiConst} `{PmpiSplit W} `{Ulfm W} `{P2P W} `{Allocator}
    (sent : W → list (Z * Z * list mbyte)) `{!Network sent} s job ign buf count datatype dest tag data :
  let size := PMPI_Type_size datatype (s_world s) * count in
  INT_MIN ≤ size ≤ INT_MAX → INT_MIN ≤ size * worker_count job ≤ INT_MAX →
  can_send s job ign buf size dest tag data →
  ∃ w', MPI_Send buf count datatype dest tag MPI_COMM_WORLD s =
      Done (if decide (live_workers ign job = []) then None else Some MPI_SUCCESS)
        (put_mpi (set_ignore_process_failure 0 (s_globals s), w') s) ∧
    sent w' = sent (s_world s) ++
      ((λ r, (r, SET_TAG (rank (node (s_globals s))) tag, data)) <$> live_workers ign job).
Proof. exact (MPI_Send_run sent s job ign buf count datatype dest tag data). Qed.


(** [MPI_Irecv] from a job, on a network where a receive can always be
    posted: it returns, exactly one receive is posted for each worker of the
    job that is not marked as failed, in the order of the job, and its tag is
    the one under which that worker sends.  The request of the application is
    an aggregate with one slot for each worker; the other global variables are
    as they were, but for the count of pending requests. *)
Theorem MPI_Irecv_correct {W} `{MpiConst} `{!MpiConstLaws} `{PmpiSplit W} `{Ulfm W} `{P2P W} `{Allocator}
    (posted : W → list (Z * Z)) `{!Posting posted} s n job ign buf to count datatype source tag fuel :
  let size := PMPI_Type_size datatype (s_world s) * count in
  INT_MIN ≤ size ≤ INT_MAX → INT_MIN ≤ request_pending (s_globals s) < INT_MAX →
  receives_into s buf to → 0 ≤ source →
  load_job source (s_globals s) = Done job (s_globals s) → job_ok n job →
  rank_ignore_list (s_globals s) = Some ign →
  (∀ r, r ∈ workers job → is_Some (aload ign r) ∧ INT_MIN ≤ SET_TAG r tag ≤ INT_MAX) →
  (length (workers job) ≤ fuel)%nat →
  ∃ a s', MPI_Irecv fuel buf count datatype source tag MPI_COMM_WORLD s =
      Done (a, if decide (live_workers ign job = []) then None else Some MPI_SUCCESS) s' ∧
    s_globals s' = set_ignore_process_failure 0
      (set_request_pending (request_pending (s_globals s) + 1) (s_globals s)) ∧
    agg_room s' a (worker_count job) ∧
    posted (s_world s') =
      posted (s_world s) ++ ((λ r, (r, SET_TAG r tag)) <$> live_workers ign job).
Proof.
  intros size Hsize Hp Hto Hsrc Hjob Hok Hi Hk Hf. pose proof any_source_neg as Hany.
  destruct (MPI_Irecv_run posted s buf to count datatype source tag (workers job) fuel Hsize Hp Hto)
    as (a & s' & Hrun & Hg & Hroom & Hpost); [|done| |].
  { unfold source_count. rewrite (proj2 (Z.eqb_neq _ _)) by lia. exists job. split; [done|].
    by rewrite (worker_count_length _ _ Hok). }
  { intros k r Hr. destruct (Hk r (list_elem_of_lookup_2 _ _ _ Hr)) as [Hv Ht]. split; [|done].
    by apply (worker_source s n job ign source k r). }
  assert (filter (λ r, skipped (s_globals s) r = false) (workers job) = live_workers ign job) as El.
  { unfold live_workers. apply filter_iff_in. intros r Hr. destruct (Hk r Hr) as [Hv _].
    apply list_elem_of_lookup_1 in Hr as [k Hr].
    destruct (worker_source s n job ign source k r) as [_ ->]; [done..|]. by rewrite bool_decide_eq_false. }
  rewrite El in Hrun, Hpost. rewrite (worker_count_length _ _ Hok). by exists a, s'.
Qed.

(** [MPI_Irecv] from [MPI_ANY_SOURCE] posts one receive, and its tag is not
    the one under which any process sends with the tag of the application. *)
Theorem MPI_Irecv_any_source {W} `{MpiConst} `{!MpiConstLaws} `{PmpiSplit W} `{Ulfm W} `{P2P W} `{Allocator}
    (posted : W → list (Z * Z)) `{!Posting posted} s buf to count datatype tag fuel :
  let size := PMPI_Type_size datatype (s_world s) * count in
  INT_MIN ≤ size ≤ INT_MAX → INT_MIN ≤ request_pending (s_globals s) < INT_MAX →
  receives_into s buf to → INT_MIN ≤ SET_TAG MPI_ANY_SOURCE tag ≤ INT_MAX → (0 < fuel)%nat →
  ∃ a s' t, MPI_Irecv fuel buf count datatype MPI_ANY_SOURCE tag MPI_COMM_WORLD s =
      Done (a, Some MPI_SUCCESS) s' ∧
    posted (s_world s') = posted (s_world s) ++ [(MPI_ANY_SOURCE, t)] ∧
    ∀ r, 0 ≤ r → SET_TAG r tag ≠ t.
Proof.
  intros size Hsize Hp Hto Ht Hf. pose proof any_source_neg as Hany.
  destruct (MPI_Irecv_run posted s buf to count datatype MPI_ANY_SOURCE tag [MPI_ANY_SOURCE] fuel
    Hsize Hp Hto) as (a & s' & Hrun & _ & _ & Hpost); [|simpl; lia| |].
  { unfold source_count. by rewrite Z.eqb_refl. }
  { intros [|k] r; simpl; [|done]. intros [= <-]. split; [|done].
    unfold source_at. by rewrite Z.eqb_refl. }
  assert (filter (λ r, skipped (s_globals s) r = false) [MPI_ANY_SOURCE] = [MPI_ANY_SOURCE]) as El.
  { rewrite filter_cons_True; [done|]. unfold skipped. by rewrite bool_decide_eq_false_2 by tauto. }
  rewrite El in Hrun, Hpost. exists a, s', (SET_TAG MPI_ANY_SOURCE tag).
  split; [exact Hrun|]. split; [exact Hpost|]. unfold SET_TAG. lia.
Qed.

(** C20: [MPI_Wait] with a status, when the first [PMPI_Waitall] brings a message
    from a worker that is not marked as failed, for a receive that named its
    source: it returns success, the status names the job of the sender, the
    buffer of the application holds the slot of the first such message, and
    the request, its slots included, is freed. *)
Theorem MPI_Wait_correct {W} `{MpiConst} `{PmpiSplit W} `{Ulfm W} `{P2P W} `{Allocator}
    bh s ign a agg handles rc sts hs' m' w' i st job data r2j :
  waiting s a agg handles → rank_ignore_list (s_globals s) = Some ign →
  length sts = length handles → agg_owns (s_heap s) a agg (length handles) →
  PMPI_Waitall handles (mem (s_heap s)) (s_world s) = (rc, sts, hs', m', None, w') →
  known_sources ign sts → list_find (arrived ign) sts = Some (i, st) →
  rank_2_job (s_globals s) = Some r2j → aload r2j (MPI_SOURCE st) = Some job →
  async_type agg ≠ ANY_RECV →
  load_bytes m' (temp_buffer agg + Z.of_nat i * buffer_size agg) (Z.to_nat (buffer_size agg)) = Some data →
  valid_range m' (original_buffer agg) (Z.to_nat (buffer_size agg)) →
  INT_MIN < request_pending (s_globals s) ≤ INT_MAX →
  ∃ s', MPI_Wait bh a true s = Done (MPI_SUCCESS, Some (MkStatus job (MPI_TAG st) (MPI_ERROR st))) s' ∧
    load_bytes (mem (s_heap s')) (original_buffer agg) (Z.to_nat (buffer_size agg)) = Some data ∧
    s_aggs s' = delete a (s_aggs s) ∧ blocks (s_heap s') !! a = None ∧
    ((1 < length handles)%nat → blocks (s_heap s') !! temp_buffer agg = None) ∧
    s_globals s' = set_ignore_process_failure 0
      (set_request_pending (request_pending (s_globals s) - 1) (s_globals s)).
Proof.
  intros Hs Hi Hlen Hown Hw Hk Hf Hr2j Hjob Hany Hdata Hbuf Hp.
  unfold MPI_Wait, set_ignoring. cbn [bind].
  rewrite (on_globals_run (modify (set_ignore_process_failure 1)) s tt _ eq_refl). cbn [bind].
  set (s1 := put_mpi _ s).
  destruct (complete_run bh s1 ign a agg handles rc sts hs' m' w' i st job data r2j)
    as (h' & Hrun & Hl & Hb1 & Hb2); try done; [by destruct Hs|].
  rewrite Hrun. cbn [bind gets ret]. rewrite c_int_Some by (cbn; lia). cbn [bind of_option].
  match goal with |- context [on_globals _ ?x] => set (s2 := x) end.
  rewrite (on_globals_run (modify (set_request_pending _)) s2 tt _ eq_refl). cbn [bind].
  match goal with |- context [on_globals _ ?x] => set (s3 := x) end.
  rewrite (on_globals_run (modify (set_ignore_process_failure 0)) s3 tt _ eq_refl). cbn [bind ret].
  eexists. split; [reflexivity|]. split; [exact Hl|]. by repeat split.
Qed.

(** [MPI_Wait] with [MPI_STATUS_IGNORE], for a receive from a job of several
    workers: whatever arrived, the buffer of the application is as the MPI
    library left it and the slots the messages went to are freed, so that no
    message ever reaches the application. *)
Theorem MPI_Wait_ignore_drops {W} `{MpiConst} `{PmpiSplit W} `{Ulfm W} `{P2P W} `{Allocator}
    bh s a agg handles rc sts hs' m' w' :
  waiting s a agg handles → (1 < length handles)%nat →
  agg_owns (s_heap s) a agg (length handles) →
  PMPI_Waitall handles (mem (s_heap s)) (s_world s) = (rc, sts, hs', m', None, w') →
  (∀ x, ¬ (temp_buffer agg ≤ x < temp_buffer agg + request_count agg * buffer_size agg) →
        m' !! x = mem (s_heap s) !! x) →
  apart (original_buffer agg) (buffer_size agg) (temp_buffer agg) (request_count agg * buffer_size agg) →
  INT_MIN < request_pending (s_globals s) ≤ INT_MAX →
  ∃ s', MPI_Wait bh a false s = Done (rc, None) s' ∧
    load_bytes (mem (s_heap s')) (original_buffer agg) (Z.to_nat (buffer_size agg)) =
      load_bytes (mem (s_heap s)) (original_buffer agg) (Z.to_nat (buffer_size agg)) ∧
    s_aggs s' = delete a (s_aggs s) ∧ blocks (s_heap s') !! temp_buffer agg = None.
Proof.
  intros Hs Hn Hown Hw Hm Hap Hp. unfold MPI_Wait, set_ignoring. cbn [bind].
  rewrite (on_globals_run (modify (set_ignore_process_failure 1)) s tt _ eq_refl). cbn [bind].
  set (s1 := put_mpi _ s).
  assert (waiting s1 a agg handles) as Hs1 by by destruct Hs.
  unfold wait_for_agg_request, load_agg at 1. cbn [bind].
  change (s_aggs s1) with (s_aggs s). rewrite (wt_agg _ _ _ _ Hs). cbn [of_option bind].
  rewrite (wt_reqs _ _ _ _ Hs), (wt_count _ _ _ _ Hs), (proj2 (Z.eqb_neq _ _)) by lia.
  rewrite bool_decide_eq_false_2 by done. cbn [orb negb bind].
  rewrite (waitall_run s1 a agg handles rc sts hs' m' w' Hs1 Hw). cbn [bind].
  match goal with |- context [free_agg_request a ?x] => set (s2 := x) end.
  destruct (free_agg_request_spec s2 a (set_reqs (Some <$> hs') agg) (length handles))
    as (h' & Hfree & Hl & _ & Hb); [apply lookup_insert_eq|apply Hs| |].
  { eapply agg_owns_ext; [..|exact Hown]; done. }
  rewrite Hfree. cbn [bind gets ret]. rewrite c_int_Some by (cbn; lia). cbn [bind of_option].
  match goal with |- context [on_globals _ ?x] => set (s3 := x) end.
  rewrite (on_globals_run (modify (set_request_pending _)) s3 tt _ eq_refl). cbn [bind].
  match goal with |- context [on_globals _ ?x] => set (s4 := x) end.
  rewrite (on_globals_run (modify (set_ignore_process_failure 0)) s4 tt _ eq_refl). cbn [bind ret].
  eexists. split; [reflexivity|]. split; [|split].
  - cbn [original_buffer buffer_size set_reqs] in Hl. cbn. rewrite Hl. cbn.
    apply load_bytes_ext. intros j Hj. apply Hm. unfold apart in Hap. pose proof (ow_size _ _ _ _ Hown). lia.
  - cbn. by rewrite delete_insert_eq.
  - cbn. by apply Hb.
Qed.

(** ** A small network

    For the witnesses: it keeps the messages that were sent and the receives
    that were posted; [nw_inbox] says what is written where when a receive
    completes, and [nw_status] the status of each request. *)
Record net : Type := Net {
  nw_sent : list (Z * Z * list mbyte);
  nw_posted : list (Z * Z);
  nw_inbox : list (Z * list mbyte);
  nw_status : gmap Z MPI_Status
}.

Definition lost : MPI_Status := MkStatus (-2) 0 75.
Definition net_find (w : net) (h : Z) : MPI_Status :=
  let st := default lost (nw_status w !! h) in if MPI_SOURCE st <? 4 then st else lost.
Definition net_deliver (m : memory) (p : Z * list mbyte) : memory :=
  default m (store_bytes m p.1 p.2).

#[local] Instance net_p2p : P2P net := {
  PMPI_Type_size _ _ := 1;
  PMPI_Send data d t _ w :=
    (0, None, Net (nw_sent w ++ [(d, t, data)]) (nw_posted w) (nw_inbox w) (nw_status w));
  PMPI_Recv _ _ _ _ _ m w := (0, lost, m, None, w);
  PMPI_Irecv _ _ src t _ w :=
    (0, 100 + Z.of_nat (length (nw_posted w)), None,
     Net (nw_sent w) (nw_posted w ++ [(src, t)]) (nw_inbox w) (nw_status w));
  PMPI_Waitall hs m w :=
    (0, net_find w <$> hs, replicate (length hs) 3, foldl net_deliver m (nw_inbox w), None, w)
}.
#[local] Instance net_ulfm : Ulfm net := {
  PMPI_Error_class e _ := e;
  PMPIX_Comm_failure_get_acked c w := (c, w);
  PMPIX_Comm_shrink c w := (c, w);
  PMPI_Comm_group c w := (c, w);
  PMPI_Group_size _ _ := 4;
  PMPI_Group_translate_ranks _ l _ _ := l;
  PMPI_Comm_free _ w := w;
  PMPI_Comm_dup c w := (c, w)
}.
#[local] Instance net_split : PmpiSplit net := {|
  PMPI_Comm_rank _ _ := 2;
  PMPI_Comm_size _ _ := 4;
  PMPI_Comm_split c _ _ w := (c, w)
|}.
#[local] Instance net_network : Network nw_sent.
Proof. intros data d t c w. by eexists. Qed.
#[local] Instance net_posting : Posting nw_posted.
Proof. intros buf n source t c w. by eexists _, _. Qed.
#[local] Instance net_alloc : Allocator := bump.

(** This is process 2, a worker of job 0; process 1, the first worker of job
    1, is marked as failed.  Two bytes of the application are at 50000, and
    the aggregate request at 5000 has its slots at 6000. *)
Definition net_globals : globals :=
  MkGlobals (Some (Some <$> crash_jobs)) (MkNode 0 2 2 1 2 NODE_DATA_NONE NO 10 11 12)
    (Some crash_r2j) (Some [Some 0; Some 1; Some 0; Some 0]) RESTORE_NO 1 0 0 0 0 0 0 0 0 (-1) (-1).
Definition net_memory : memory :=
  list_to_map ((λ a, (a, Some Byte.x01)) <$> [50000; 50001; 6000; 6001; 6002; 6003]).
Definition net_heap : heap :=
  set_mem net_memory (set_blocks {[ 5000 := 64; 6000 := 4 ]} heap_init).
Definition net_agg : Aggregate_Request :=
  MkAgg 2 (Some [Some 101; Some 102]) [Some 1; Some 3] 6000 50000 2 NONE 7.
Definition net_sys : sys net :=
  MkSys net_globals
    (Net [] [] [(6002, [Some Byte.x08; Some Byte.x09])] {[ 102 := MkStatus 3 407 0 ]})
    net_heap 0 0 {[ 5000 := net_agg ]}.

Ltac net_int := cbv; split; first [reflexivity | intros [=]].

Lemma net_agg_owns : agg_owns net_heap 5000 net_agg 2.
Proof.
  split; cbn; [lia| |lia|].
  - split; [done|]. split; [done|]. unfold apart, sizeof_Aggregate_Request. lia.
  - intros _. split; [done|]. split; [done|]. exists 4. split; [done|]. unfold apart. lia.
Qed.

Lemma MPI_Send_correct_witness : ∃ w',
  MPI_Send 50000 2 0 1 7 MPI_COMM_WORLD net_sys =
    Done (Some 0) (put_mpi (net_globals, w') net_sys) ∧
  nw_sent w' = [(3, 307, [Some Byte.x01; Some Byte.x01])].
Proof.
  destruct (MPI_Send_correct nw_sent net_sys (MkJob 1 2 [Some 1; Some 3])
    [Some 0; Some 1; Some 0; Some 0] 50000 2 0 1 7 [Some Byte.x01; Some Byte.x01])
    as (w' & Hrun & Hsent); [net_int|net_int| |].
  - split; [reflexivity| |reflexivity| | |net_int].
    + exists 4, [1; 3], []. split; [reflexivity|repeat constructor; lia].
    + apply Forall_forall. repeat (constructor; [by eexists|]). constructor.
    + by exists 50000.
  - exists w'. split; [exact Hrun|exact Hsent].
Defined.

Lemma MPI_Irecv_correct_witness : ∃ a s',
  MPI_Irecv 2 50000 2 0 1 7 MPI_COMM_WORLD net_sys = Done (a, Some 0) s' ∧
  nw_posted (s_world s') = [(3, 407)].
Proof.
  destruct (MPI_Irecv_correct nw_posted net_sys 4 (MkJob 1 2 [Some 1; Some 3])
    [Some 0; Some 1; Some 0; Some 0] 50000 50000 2 0 1 7 2)
    as (a & s' & Hrun & _ & _ & Hp); [net_int|net_int|reflexivity|lia|reflexivity| |reflexivity| |simpl; lia|].
  - exists [1; 3], []. split; [reflexivity|repeat constructor; lia].
  - apply Forall_forall. repeat (constructor; [split; [by eexists|net_int]|]). constructor.
  - exists a, s'. split; [exact Hrun|exact Hp].
Defined.

Lemma MPI_Irecv_any_source_witness : ∃ a s' t,
  MPI_Irecv 1 50000 2 0 MPI_ANY_SOURCE 7 MPI_COMM_WORLD net_sys =
    Done (a, Some 0) s' ∧
  nw_posted (s_world s') = [(MPI_ANY_SOURCE, t)] ∧ ∀ r, 0 ≤ r → SET_TAG r 7 ≠ t.
Proof.
  destruct (MPI_Irecv_any_source nw_posted net_sys 50000 50000 2 0 7 1)
    as (a & s' & t & Hrun & Hp & Ht); [net_int|net_int|reflexivity|net_int|lia|].
  exists a, s', t. split; [exact Hrun|]. by split.
Defined.

Lemma net_sys_waiting : waiting net_sys 5000 net_agg [101; 102].
Proof. by split. Qed.

Lemma MPI_Wait_correct_witness : ∃ s',
  MPI_Wait 0 5000 true net_sys = Done (0, Some (MkStatus 1 407 0)) s' ∧
  load_bytes (mem (s_heap s')) 50000 2 = Some [Some Byte.x08; Some Byte.x09].
Proof.
  destruct (MPI_Wait_correct 0 net_sys [Some 0; Some 1; Some 0; Some 0] 5000 net_agg [101; 102]
    0 [lost; MkStatus 3 407 0] [3; 3] (foldl net_deliver net_memory (nw_inbox (s_world net_sys)))
    (s_world net_sys) 1 (MkStatus 3 407 0) 1 [Some Byte.x08; Some Byte.x09] crash_r2j
    net_sys_waiting eq_refl eq_refl net_agg_owns) as (s' & Hrun & Hl & _);
    [reflexivity| |reflexivity|reflexivity|reflexivity|done|reflexivity| |net_int|].
  - repeat (constructor; [cbn; intros; first [lia|by eexists]|]). constructor.
  - intros i Hi. assert (i ∈ seqZ 0 2) as Hin by (apply elem_of_seqZ; cbn in Hi; lia).
    clear Hi. revert i Hin. apply Forall_forall. repeat (constructor; [vm_compute; by eexists|]). constructor.
  - exists s'. split; [exact Hrun|exact Hl].
Defined.

Lemma MPI_Wait_ignore_drops_witness : ∃ s',
  MPI_Wait 0 5000 false net_sys = Done (0, None) s' ∧
  load_bytes (mem (s_heap s')) 50000 2 = Some [Some Byte.x01; Some Byte.x01].
Proof.
  destruct (MPI_Wait_ignore_drops 0 net_sys 5000 net_agg [101; 102]
    0 [lost; MkStatus 3 407 0] [3; 3] (foldl net_deliver net_memory (nw_inbox (s_world net_sys)))
    (s_world net_sys) net_sys_waiting) as (s' & Hrun & Hl & _); [simpl; lia|apply net_agg_owns|reflexivity| | |net_int|].
  - intros x Hx. cbn in Hx. unfold net_deliver. cbn [foldl nw_inbox s_world net_sys fst snd].
    destruct (store_bytes net_memory 6002 [Some Byte.x08; Some Byte.x09]) as [m|] eqn:E; [|done].
    cbn [default]. apply (store_bytes_lookup _ _ _ _ E). cbn. lia.
  - unfold apart. cbn. lia.
  - exists s'. split; [exact Hrun|]. etransitivity; [exact Hl|]. vm_compute. reflexivity.
Defined.
