(* ===== verification/Receive.v ===== *)
(** * Blocking receives: [MPI_Recv] of [src/mpi/init.c]

    [MPI_Recv] from a job takes one message of each of its workers that is not
    marked as failed, one after the other and into the same buffer.  This file
    models the network as the messages in flight, shows what the call does with
    them, and puts it together with [MPI_Send]: what all workers of one job
    send to another job is what each worker of that job receives. *)

From S2P Require Import Prelude Shared Mpi Memory MapFile Comm HeapSeg Ulfm PointToPoint.

(** ** Messages in flight: sender, receiver, tag and data *)
Definition post : Type := Z * (Z * Z * list mbyte).

(** The messages from one process to another under one tag, in order. *)
Definition box (from to tag : Z) (l : list post) : list (list mbyte) :=
  snd ∘ snd <$> filter (λ p : post, (p.1, p.2.1) = (from, (to, tag))) l.

(** A receive that finds a message takes the oldest. *)
Class Inbox {W : Type} `{MpiConst} `{P2P W} (who : W → Z) (posts : W → list post) : Prop :=
  inbox_recv a n from t c m w data rest m' :
    box from (who w) t (posts w) = data :: rest → Z.of_nat (length data) = n → store_bytes m a data = Some m' →
    ∃ e w', PMPI_Recv a n from t c m w = (MPI_SUCCESS, MkStatus from t e, m', None, w') ∧ who w' = who w ∧
      ∀ f o u, box f o u (posts w') = if decide ((f, o, u) = (from, who w, t)) then rest else box f o u (posts w).

(** The calls of a process [who]: a message is posted under the rank of its
    sender. *)
Class Mail {W : Type} `{MpiConst} `{P2P W} (who : W → Z) (posts : W → list post) (as_rank : Z → W → W) : Prop := {
  mail_inbox :: Inbox who posts;
  mail_size d w w' : PMPI_Type_size d w = PMPI_Type_size d w';
  mail_who i w : who (as_rank i w) = i;
  mail_posts i w : posts (as_rank i w) = posts w;
  mail_send data d t c w : ∃ w', PMPI_Send data d t c w = (MPI_SUCCESS, None, w') ∧
    who w' = who w ∧ posts w' = posts w ++ [(who w, (d, t, data))]
}.

(** ** Lemmas on memory and boxes *)

(** Of two writes of the same length to the same place only the last counts. *)
Lemma store_bytes_again m a l1 l2 m1 m2 :
  store_bytes m a l1 = Some m1 → length l1 = length l2 → store_bytes m1 a l2 = Some m2 →
  store_bytes m a l2 = Some m2.
Proof.
  intros E1 Hlen E2. destruct (store_bytes_lookup _ _ _ _ E1) as (H1 & H2 & H3).
  destruct (store_bytes_lookup _ _ _ _ E2) as (H4 & H5 & H6).
  assert (valid_range m a (length l2)) as Hv.
  { intros i Hi. apply H3. rewrite H1 by lia. apply lookup_lt_is_Some_2. lia. }
  destruct (store_bytes_Some m a l2 Hv) as [m3 E3]. rewrite E3. f_equal.
  destruct (store_bytes_lookup _ _ _ _ E3) as (H7 & H8 & _). apply map_eq. intros x.
  destruct (decide (a ≤ x < a + Z.of_nat (length l2))) as [Hx|Hx].
  - replace x with (a + (x - a)) by lia. by rewrite H4, H7 by lia.
  - rewrite H5, H2, H8 by lia. done.
Qed.

Lemma store_bytes_valid m a l m' b n : store_bytes m a l = Some m' → valid_range m b n → valid_range m' b n.
Proof. intros E Hv i Hi. destruct (store_bytes_lookup _ _ _ _ E) as (_ & _ & H3). by apply H3, Hv. Qed.

Lemma box_app f o u l1 l2 : box f o u (l1 ++ l2) = box f o u l1 ++ box f o u l2.
Proof. unfold box. by rewrite filter_app, fmap_app. Qed.

Lemma box_other f o u l : Forall (λ p : post, (p.1, p.2.1) ≠ (f, (o, u))) l → box f o u l = [].
Proof. unfold box. induction 1 as [|p l Hp _ IH]; [done|]. by rewrite filter_cons, decide_False. Qed.

(** ** The loop of [MPI_Recv] *)
Section receive.
Context {W : Type} `{MpiConst} `{PmpiSplit W} `{Ulfm W} `{P2P W} `{Allocator}.
Context (who : W → Z) (posts : W → list post) `{!Inbox who posts}.

(** What the loop needs, and keeps. *)
Record can_receive (s : sys W) (job : Job) (ign : list cell) (buf to size source tag : Z) : Prop := {
  cr_job : load_job source (s_globals s) = Done job (s_globals s);
  cr_ok : ∃ n, job_ok n job;
  cr_ign : rank_ignore_list (s_globals s) = Some ign;
  cr_known r : r ∈ workers job → is_Some (aload ign r);
  cr_to : receives_into s buf to;
  cr_apart : s_receiver_cont s = 0 ∨ buf + 8 ≤ to ∨ to + size ≤ buf;
  cr_room : valid_range (mem (s_heap s)) to (Z.to_nat size);
  cr_tag r : r ∈ workers job → INT_MIN ≤ SET_TAG r tag ≤ INT_MAX
}.

(** A message of each of [qs] waits for this process. *)
Definition waits (s : sys W) (qs : list Z) (tag size : Z) (msg : Z → list mbyte) : Prop :=
  ∀ r, r ∈ qs → Z.of_nat (length (msg r)) = size ∧
    ∃ rest, box r (who (s_world s)) (SET_TAG r tag) (posts (s_world s)) = msg r :: rest.

(** The memory and the network after the process took the messages of [qs]. *)
Record taken (s s' : sys W) (qs : list Z) (to tag : Z) (msg : Z → list mbyte) : Prop := {
  tk_who : who (s_world s') = who (s_world s);
  tk_mem : match last qs with
           | Some q => store_bytes (mem (s_heap s)) to (msg q) = Some (mem (s_heap s'))
           | None => mem (s_heap s') = mem (s_heap s)
           end;
  tk_box f o u : box f o u (posts (s_world s')) =
    if decide (f ∈ qs ∧ o = who (s_world s) ∧ u = SET_TAG f tag) then drop 1 (box f o u (posts (s_world s)))
    else box f o u (posts (s_world s))
}.

(** Nothing else changed. *)
Record took (s s' : sys W) (qs : list Z) (to tag : Z) (msg : Z → list mbyte) : Prop := {
  tk_state : ∃ w m, s' = put_heap (set_mem m (s_heap s)) (put_mpi (s_globals s, w) s);
  tk_taken : taken s s' qs to tag msg
}.

Definition put_message (s : sys W) (m : memory) (w : W) : sys W :=
  put_heap (set_mem m (s_heap s)) (put_mpi (s_globals s, w) s).

Lemma can_receive_next s job ign buf to size source tag data m w :
  can_receive s job ign buf to size source tag → Z.of_nat (length data) = size →
  store_bytes (mem (s_heap s)) to data = Some m → can_receive (put_message s m w) job ign buf to size source tag.
Proof.
  intros [C1 C2 C3 C4 C5 C6 C7 C8] Hlen Hm. split; try done.
  - unfold receives_into in *. change (s_receiver_cont (put_message s m w)) with (s_receiver_cont s).
    change (mem (s_heap (put_message s m w))) with m. destruct (Z.eqb_spec (s_receiver_cont s) 0); [done|].
    destruct C6 as [?|C6]; [done|]. unfold load_word in *. by rewrite (load_store_bytes_ne _ _ _ _ _ _ Hm) by lia.
  - cbn. by eapply store_bytes_valid.
Qed.

Lemma recv_turn s job ign buf to size source tag ps r qs fuel st status :
  can_receive s job ign buf to size source tag → workers job = ps ++ r :: qs →
  let next := recv_loop fuel buf size source tag MPI_COMM_WORLD (Z.of_nat (length (ps ++ [r]))) in
  recv_loop (Datatypes.S fuel) buf size source tag MPI_COMM_WORLD (Z.of_nat (length ps)) st status s =
    if decide (aload ign r = Some 1) then next st status s
    else (let! (st', status') := call_recv to size r (SET_TAG r tag) (rep_mpi_comm_world (node (s_globals s))) in
          next (Some st') (Some status')) s.
Proof.
  intros [C1 [n C2] C3 C4 C5 C6 C7 C8] Hw next. subst next.
  assert (aload (rank_list job) (Z.of_nat (length ps)) = Some r) as Hr.
  { eapply worker_at; [exact C2|]. rewrite Hw. by rewrite list_lookup_middle. }
  assert ((Z.of_nat (length ps) <? worker_count job) = true) as Hlt.
  { rewrite (worker_count_length _ _ C2), Hw, length_app. apply Z.ltb_lt. simpl. lia. }
  assert (r ∈ workers job) as Hin by (rewrite Hw; apply elem_of_app; right; left).
  destruct (C4 r Hin) as [v Hv].
  replace (Z.of_nat (length (ps ++ [r]))) with (Z.of_nat (length ps) + 1) by len.
  cbn [recv_loop bind]. rewrite (on_globals_same _ _ _ C1), Hlt. cbn [bind of_option].
  rewrite Hr. cbn [bind of_option]. unfold load_ignore. cbn [bind gets of_option].
  rewrite C3. cbn [option_bind mbind]. rewrite Hv. cbn [of_option bind].
  destruct (decide (Some v = Some 1)) as [[= ->]|Hne]; [done|].
  rewrite (proj2 (Z.eqb_neq v 1)) by congruence.
  cbn [bind]. rewrite (receiver_buffer_run s buf to C5). cbn [bind gets of_option].
  rewrite c_int_Some by (by apply C8). unfold comm_to_use. by rewrite Z.eqb_refl.
Qed.

Lemma call_recv_run s a n from t c st status m w :
  PMPI_Recv a n from t c (mem (s_heap s)) (s_world s) = (st, status, m, None, w) →
  call_recv a n from t c s = Done (st, status) (put_message s m w).
Proof. intros E. unfold call_recv. by rewrite E. Qed.

(** A receive that finds a message. *)
Lemma receive_waiting s job ign buf to size source tag msg r c :
  can_receive s job ign buf to size source tag → waits s [r] tag size msg →
  ∃ e m w, PMPI_Recv to size r (SET_TAG r tag) c (mem (s_heap s)) (s_world s) =
      (MPI_SUCCESS, MkStatus r (SET_TAG r tag) e, m, None, w) ∧
    took s (put_message s m w) [r] to tag msg.
Proof.
  intros Hs Hwait. destruct (Hwait r ltac:(set_solver)) as (Hlen & rest & Hbox).
  destruct (store_bytes_Some (mem (s_heap s)) to (msg r)) as [m Hm].
  { replace (length (msg r)) with (Z.to_nat size) by lia. apply Hs. }
  destruct (inbox_recv to size r (SET_TAG r tag) c (mem (s_heap s))
    (s_world s) (msg r) rest m Hbox Hlen Hm) as (e & w & Hrecv & Hwho & Hboxes).
  exists e, m, w. split; [exact Hrecv|]. split; [by exists w, m|].
  split; [done|done|]. intros f o u. cbn. rewrite Hboxes.
  destruct (decide ((f, o, u) = (r, who (s_world s), SET_TAG r tag))) as [[= -> -> ->]|Hk].
  - rewrite decide_True by (split; [set_solver|done]). by rewrite Hbox.
  - rewrite decide_False; [done|]. intros (->%list_elem_of_singleton & -> & ->). by apply Hk.
Qed.

Lemma taken_none s s' to tag msg :
  who (s_world s') = who (s_world s) → mem (s_heap s') = mem (s_heap s) → posts (s_world s') = posts (s_world s) →
  taken s s' [] to tag msg.
Proof.
  intros Hw Hm Hp. split; [done|done|]. intros f o u. rewrite Hp, decide_False; [done|].
  by intros (?%not_elem_of_nil & _).
Qed.

Lemma took_none s to tag msg : took s s [] to tag msg.
Proof.
  split; [|by apply taken_none]. exists (s_world s), (mem (s_heap s)). destruct s as [? ? [] ? ? ?]. done.
Qed.

Lemma taken_cons s s1 s2 r qs to tag msg :
  taken s s1 [r] to tag msg → taken s1 s2 qs to tag msg → r ∉ qs →
  (∀ q, q ∈ qs → length (msg q) = length (msg r)) → taken s s2 (r :: qs) to tag msg.
Proof.
  intros [A2 A3 A4] [B2 B3 B4] Hr Hlen. split.
  - by rewrite B2.
  - cbn in A3. rewrite last_cons. destruct (last qs) as [q|] eqn:E; [|by rewrite B3].
    eapply store_bytes_again; [exact A3| |exact B3]. symmetry. apply Hlen. by apply last_Some_elem_of.
  - intros f o u. rewrite B4, A2, A4.
    destruct (decide (f ∈ qs ∧ o = who (s_world s) ∧ u = SET_TAG f tag)) as [(Hf & Ho & Hu)|Hn].
    + rewrite (decide_False (P := f ∈ [r] ∧ _)) by (intros (->%list_elem_of_singleton & _); done).
      rewrite decide_True; [done|]. split; [by right|done].
    + destruct (decide (f ∈ [r] ∧ o = who (s_world s) ∧ u = SET_TAG f tag)) as [(Hf & Ho & Hu)|Hn'].
      * rewrite decide_True; [done|]. split; [set_solver|done].
      * rewrite decide_False; [done|]. intros ([->|Hf]%elem_of_cons & Ho & Hu); [|by apply Hn].
        apply Hn'. split; [by left|done].
Qed.

Lemma took_cons s s1 s2 r qs to tag msg :
  took s s1 [r] to tag msg → took s1 s2 qs to tag msg → r ∉ qs →
  (∀ q, q ∈ qs → length (msg q) = length (msg r)) → took s s2 (r :: qs) to tag msg.
Proof.
  intros [(w1 & m1 & ->) A] [(w2 & m2 & ->) B] Hr Hlen. split; [by exists w2, m2|]. by eapply taken_cons.
Qed.

(** What the loop returns: the status of the last message. *)
Definition received_from (qs : list Z) (tag : Z) (st : cell) (status : option MPI_Status)
    (res : cell * option MPI_Status) : Prop :=
  match last qs with
  | Some q => ∃ e, res = (Some MPI_SUCCESS, Some (MkStatus q (SET_TAG q tag) e))
  | None => res = (st, status)
  end.

Lemma recv_loop_spec job ign buf to size source tag msg qs : ∀ ps fuel st status s,
  can_receive s job ign buf to size source tag → workers job = ps ++ qs → (length qs < fuel)%nat → NoDup qs →
  let live := filter (λ r, aload ign r ≠ Some 1) qs in
  waits s live tag size msg →
  ∃ res s', recv_loop fuel buf size source tag MPI_COMM_WORLD (Z.of_nat (length ps)) st status s = Done res s' ∧
    received_from live tag st status res ∧ took s s' live to tag msg.
Proof.
  induction qs as [|r qs IH]; intros ps fuel st status s Hs Hw Hf Hnd; (destruct fuel as [|fuel]; [simpl in Hf; lia|]).
  - intros live _. exists (st, status), s. split; [|by split; [|apply took_none]].
    destruct Hs as [Hjob [n Hok] _ _ _ _ _ _]. cbn [recv_loop bind].
    rewrite (on_globals_same _ _ _ Hjob), (worker_count_length _ _ Hok), Hw, app_nil_r. by rewrite Z.ltb_irrefl.
  - apply NoDup_cons in Hnd as [Hr Hnd]. cbv zeta. rewrite filter_cons.
    assert (workers job = (ps ++ [r]) ++ qs) as Hw' by (by rewrite <-app_assoc). simpl in Hf.
    rewrite (recv_turn s job ign buf to size source tag ps r qs fuel st status Hs Hw). cbv zeta.
    destruct (decide (aload ign r = Some 1)) as [Hd|Hd].
    + rewrite (decide_False (P := aload ign r ≠ Some 1)) by tauto. intros Hwait.
      apply (IH (ps ++ [r]) fuel st status s Hs Hw'); [lia|done|done].
    + rewrite (decide_True (P := aload ign r ≠ Some 1)) by done. intros Hwait.
      destruct (receive_waiting s job ign buf to size source tag msg r (rep_mpi_comm_world (node (s_globals s))) Hs)
        as (e & m & w & Hone & Htook); [intros q ->%list_elem_of_singleton; apply Hwait; by left|].
      cbn [bind]. rewrite (call_recv_run _ _ _ _ _ _ _ _ _ _ Hone).
      set (live := filter _ qs) in *. destruct (Hwait r ltac:(left)) as [Hlenr _].
      assert (store_bytes (mem (s_heap s)) to (msg r) = Some m) as Hm by exact (tk_mem _ _ _ _ _ _ (tk_taken _ _ _ _ _ _ Htook)).
      destruct (IH (ps ++ [r]) fuel (Some MPI_SUCCESS) (Some (MkStatus r (SET_TAG r tag) e)) (put_message s m w))
        as (res & s' & Hrun & Hres & Htook'); [by eapply can_receive_next|done|lia|done| |].
      { intros q Hq. destruct (Hwait q ltac:(by right)) as (Hlen & rest & Hbox). split; [done|]. exists rest.
        destruct (tk_taken _ _ _ _ _ _ Htook) as [Tw _ Tb]. rewrite Tb, decide_False; [by rewrite Tw|].
        intros (->%list_elem_of_singleton & _). apply Hr. by apply list_elem_of_filter in Hq as [_ ?]. }
      exists res, s'. split; [exact Hrun|]. split.
      * unfold received_from in *. rewrite last_cons. destruct (last live); [done|]. exists e. exact Hres.
      * eapply took_cons; [exact Htook|exact Htook'| |].
        -- intros Hq. apply Hr. by apply list_elem_of_filter in Hq as [_ ?].
        -- intros q Hq. destruct (Hwait q ltac:(by right)) as [Hlen _]. lia.
Qed.

(** The whole call. *)
Lemma MPI_Recv_run s job ign buf to count datatype source tag msg :
  let size := PMPI_Type_size datatype (s_world s) * count in
  let live := live_workers ign job in
  can_receive s job ign buf to size source tag → NoDup (workers job) →
  waits s live tag size msg →
  ∃ res s', MPI_Recv buf count datatype source tag MPI_COMM_WORLD s = Done res s' ∧
    received_from live tag None None res ∧
    took (put_mpi (set_ignore_process_failure 0 (s_globals s), s_world s) s) s' live to tag msg.
Proof.
  intros size live Hs Hnd Hwait. unfold MPI_Recv, set_ignoring.
  set (s1 := put_mpi (set_ignore_process_failure 1 (s_globals s), s_world s) s).
  assert (can_receive s1 job ign buf to size source tag) as Hs1.
  { destruct Hs as [C1 C2 C3 C4 C5 C6 C7 C8]. split; try done. by apply (load_job_same (s_globals s)). }
  pose proof (cr_ok _ _ _ _ _ _ _ _ Hs) as [n Hok].
  destruct (recv_loop_spec job ign buf to size source tag msg (workers job) [] (workers_fuel job)
    None None s1) as (res & s2 & Hrun & Hres & [(w & m & ->) [T2 T3 T4]]); [done|done| |done|done|].
  { unfold workers_fuel. rewrite (worker_count_length _ _ Hok). lia. }
  cbn [bind]. rewrite (on_globals_run (modify (set_ignore_process_failure 1)) s tt _ eq_refl). cbn [bind gets]. fold s1.
  change (PMPI_Type_size datatype (s_world s1) * count) with size.
  rewrite (on_globals_same _ _ _ (cr_job _ _ _ _ _ _ _ _ Hs1)). cbn [bind].
  change (Z.of_nat (length (@nil Z))) with 0 in Hrun. rewrite Hrun. cbn [bind].
  rewrite (on_globals_run (modify (set_ignore_process_failure 0)) _ tt _ eq_refl). cbn [bind ret].
  eexists res, _. split; [reflexivity|]. split; [exact Hres|]. split; [by exists w, m|]. split; [done|exact T3|exact T4].
Qed.
End receive.

(** ** From the senders to the receiver *)

(** The messages a process sends to [live] under one tag. *)
Definition batch (q tag : Z) (data : list mbyte) (live : list Z) : list post :=
  (λ r, (q, (r, tag, data))) <$> live.

Lemma box_batch q me tag data live : NoDup live → me ∈ live → box q me tag (batch q tag data live) = [data].
Proof.
  induction 1 as [|r live Hr Hnd IH]; [by intros ?%not_elem_of_nil|].
  unfold batch, box in *. rewrite fmap_cons, filter_cons. cbn [fst snd].
  intros [->|Hin]%elem_of_cons.
  - rewrite decide_True by done. rewrite fmap_cons. f_equal. apply (box_other q r tag).
    apply Forall_fmap, Forall_forall. intros x Hx [= E]. by subst.
  - rewrite decide_False; [by apply IH|]. intros [= E]. by subst.
Qed.

Lemma box_batch_other q me tag data live q' tag' : q' ≠ q → box q me tag (batch q' tag' data live) = [].
Proof. intros Hne. apply box_other, Forall_fmap, Forall_forall. by intros x _ [= E]. Qed.

Lemma box_batches me tag data (live : Z → list Z) L q :
  NoDup L → q ∈ L → NoDup (live q) → me ∈ live q →
  box q me (SET_TAG q tag) (concat ((λ q, batch q (SET_TAG q tag) data (live q)) <$> L)) = [data].
Proof.
  intros Hnd Hq Hl Hme. induction Hnd as [|x L Hx _ IH]; [by apply not_elem_of_nil in Hq|].
  rewrite fmap_cons. cbn [concat]. rewrite box_app. apply elem_of_cons in Hq as [->|Hq].
  - rewrite box_batch by done. f_equal. clear IH. induction L as [|y L IH]; [done|].
    rewrite fmap_cons. cbn [concat]. rewrite box_app, box_batch_other, IH by set_solver. done.
  - rewrite box_batch_other, IH by (done || set_solver). done.
Qed.

Lemma snd_pair {A B} (a : A) (l : list B) : snd <$> ((λ x, (a, x)) <$> l) = l.
Proof. induction l as [|x l IH]; [done|]. by rewrite !fmap_cons, IH. Qed.

Section exchange.
Context {W : Type} `{MpiConst} `{PmpiSplit W} `{Ulfm W} `{P2P W} `{Allocator}.
Context (who : W → Z) (posts : W → list post) (as_rank : Z → W → W) `{!Mail who posts as_rank}.

(** The world moves from [w] to [w'] by sends of one process. *)
Definition posted_more (w w' : W) : Prop :=
  who w' = who w ∧ ∃ l, posts w' = posts w ++ ((λ x, (who w, x)) <$> l).

Lemma posted_more_send w data d t c :
  posted_more w (PMPI_Send data d t c w).2 ∧ (PMPI_Send data d t c w).1.2 = None.
Proof.
  destruct (mail_send data d t c w) as (w' & -> & Hwho & Hp). split; [|done]. split; [done|].
  by exists [(d, t, data)].
Qed.

Lemma posted_more_trans w1 w2 w3 : posted_more w1 w2 → posted_more w2 w3 → posted_more w1 w3.
Proof.
  intros [A1 [l1 A2]] [B1 [l2 B2]]. split; [by rewrite B1|]. exists (l1 ++ l2).
  by rewrite B2, A2, A1, fmap_app, app_assoc.
Qed.

Abbreviation more w0 := (λ s : sys W, posted_more w0 (s_world s)) (only parsing).

Lemma keeps_on_globals {A} w0 (m : M globals A) : keeps (more w0) (on_globals m).
Proof.
  intros s Hs. unfold wp, on_globals, on_mpi, of_globals, zoom. cbn. by destruct (m (s_globals s)).
Qed.
Lemma keeps_on_mem {A} w0 (m : M heap A) : keeps (more w0) (on_mem m).
Proof. intros s Hs. unfold wp, on_mem, zoom. by destruct (m (s_heap s)). Qed.
Lemma keeps_call_send w0 data d t c : keeps (more w0) (call_send data d t c).
Proof.
  intros s Hs. destruct (posted_more_send (s_world s) data d t c) as [Hm Hn]. unfold wp, call_send.
  destruct (PMPI_Send data d t c (s_world s)) as [[st r] w']. cbn in Hn, Hm. subst r. cbn.
  by eapply posted_more_trans.
Qed.
#[local] Hint Resolve keeps_on_globals keeps_on_mem keeps_call_send : keeps.

Lemma keeps_send_loop w0 buf size dest tag comm fuel : ∀ i st,
  keeps (more w0) (send_loop fuel buf size dest tag comm i st).
Proof.
  induction fuel as [|fuel IH]; intros i st; cbn [send_loop]; [apply keeps_halt|].
  apply keeps_bind; [auto with keeps|]. intros job. destruct (i <? worker_count job); [|auto with keeps].
  apply keeps_bind; [auto with keeps|]. intros r. apply keeps_bind; [unfold load_ignore; auto with keeps|].
  intros ignored. destruct (ignored =? 1); [apply IH|]. apply keeps_bind.
  { unfold sender_buffer. apply keeps_bind; [auto with keeps|]. intros pass. destruct (pass =? 0); auto with keeps. }
  intros from. do 4 (apply keeps_bind; [auto with keeps|]; intros ?).
  apply keeps_bind; [unfold comm_to_use; destruct (comm =? _); auto with keeps|]. intros c.
  apply keeps_bind; [auto with keeps|]. intros st'. apply IH.
Qed.

Lemma keeps_MPI_Send w0 buf count datatype dest tag comm :
  keeps (more w0) (MPI_Send buf count datatype dest tag comm).
Proof.
  unfold MPI_Send, set_ignoring. apply keeps_bind; [auto with keeps|]. intros _.
  do 4 (apply keeps_bind; [auto with keeps|]; intros ?).
  apply keeps_bind; [apply keeps_send_loop|]. intros st. apply keeps_bind; auto with keeps.
Qed.

#[local] Instance mail_network : Network (λ w, snd <$> posts w).
Proof.
  intros data d t c w. destruct (mail_send data d t c w) as (w' & E & _ & Hp). exists w'. split; [done|].
  by rewrite Hp, fmap_app.
Qed.

(** A process in the world of all. *)
Definition in_world (q : Z) (s : sys W) (w : W) : sys W := put_mpi (s_globals s, as_rank q w) s.

(** All senders, one after the other: process [q] has the state [p q] and sends
    what is at [at_ q]. *)
Definition send_as (p : Z → sys W) (at_ : Z → Z) (count datatype dest tag : Z) (w : W) (q : Z) : W :=
  match MPI_Send (at_ q) count datatype dest tag MPI_COMM_WORLD (in_world q (p q) w) with
  | Done _ s' | Stop _ s' => s_world s'
  end.

(** A worker of the sending job: it knows its rank, the receiving job and the
    data. *)
Record sender (s : sys W) (q : Z) (job : Job) (ign : list cell) (buf size dest tag : Z) (data : list mbyte) : Prop := {
  sd_rank : rank (node (s_globals s)) = q;
  sd_send : can_send s job ign buf size dest tag data
}.

Lemma send_as_posts p at_ count datatype dest tag w q job ign data :
  let size := PMPI_Type_size datatype w * count in
  INT_MIN ≤ size ≤ INT_MAX → INT_MIN ≤ size * worker_count job ≤ INT_MAX →
  sender (p q) q job ign (at_ q) size dest tag data →
  posts (send_as p at_ count datatype dest tag w q) =
    posts w ++ batch q (SET_TAG q tag) data (live_workers ign job).
Proof.
  intros size Hsz Htot [Hq Hs]. unfold send_as. set (s := in_world q (p q) w).
  assert (PMPI_Type_size datatype (s_world s) = PMPI_Type_size datatype w) as Hty by apply mail_size.
  destruct (MPI_Send_run (λ w, snd <$> posts w) s job ign (at_ q) count datatype dest tag data)
    as (w' & Hrun & Hsent); [by rewrite Hty|by rewrite Hty|by rewrite Hty; destruct Hs; split|].
  pose proof (keeps_MPI_Send (as_rank q w) (at_ q) count datatype dest tag MPI_COMM_WORLD s) as Hk.
  unfold wp in Hk. rewrite Hrun in Hk |- *. destruct Hk as [_ [l Hl]].
  { split; [done|]. exists []. by rewrite app_nil_r. }
  cbn in Hsent, Hl |- *. rewrite Hl, mail_posts, fmap_app, snd_pair in Hsent. apply app_inv_head in Hsent.
  rewrite Hl, mail_posts, mail_who, Hsent, Hq. f_equal. unfold batch. by rewrite <-list_fmap_compose.
Qed.

Lemma sends_posts p at_ count datatype dest tag job ign data L : ∀ w,
  let size := PMPI_Type_size datatype w * count in
  INT_MIN ≤ size ≤ INT_MAX → INT_MIN ≤ size * worker_count job ≤ INT_MAX →
  (∀ q, q ∈ L → sender (p q) q job (ign q) (at_ q) size dest tag data) →
  posts (foldl (send_as p at_ count datatype dest tag) w L) =
    posts w ++ concat ((λ q, batch q (SET_TAG q tag) data (live_workers (ign q) job)) <$> L).
Proof.
  induction L as [|q L IH]; intros w size Hsz Htot Hs; [by rewrite app_nil_r|]. cbn [foldl].
  set (w1 := send_as _ _ _ _ _ _ w q). assert (PMPI_Type_size datatype w1 = PMPI_Type_size datatype w) as Hty by apply mail_size.
  rewrite IH; [|by rewrite Hty|by rewrite Hty|intros q' Hq'; rewrite Hty; apply Hs; by right].
  unfold w1. rewrite (send_as_posts _ _ _ _ _ _ _ _ job (ign q) data) by (done || (apply Hs; by left)).
  by rewrite fmap_cons, <-app_assoc.
Qed.
End exchange.

(** ** Properties *)

(** [MPI_Recv] from a job, when a message of each of its live workers is
    there: it returns, and takes exactly one message of each worker that is not
    marked as failed and no other one; the memory is as if only the message of
    the last of them had been written to the buffer; the global variables are
    as they were.  The status is the one of the last message: it names the
    rank of a worker and the tag between processes, not the job and the tag
    the application asked for. *)
Theorem MPI_Recv_correct {W} `{MpiConst} `{PmpiSplit W} `{Ulfm W} `{P2P W} `{Allocator}
    who posts `{!Inbox (W := W) who posts} s job ign buf to count datatype source tag msg :
  let size := PMPI_Type_size datatype (s_world s) * count in
  let live := live_workers ign job in
  can_receive s job ign buf to size source tag → NoDup (workers job) →
  waits who posts s live tag size msg →
  ∃ res s', MPI_Recv buf count datatype source tag MPI_COMM_WORLD s = Done res s' ∧
    received_from live tag None None res ∧
    took who posts (put_mpi (set_ignore_process_failure 0 (s_globals s), s_world s) s) s' live to tag msg.
Proof. exact (MPI_Recv_run who posts s job ign buf to count datatype source tag msg). Qed.

(** A message between two replicated jobs arrives.  All live workers of a job
    call [MPI_Send] with the same data, in any order; each worker of the other
    job that they do not take for dead then gets the data from [MPI_Recv], which
    returns success, and nothing of this exchange is left for a later receive. *)
Theorem send_recv_roundtrip {W} `{MpiConst} `{PmpiSplit W} `{Ulfm W} `{P2P W} `{Allocator}
    who posts as_rank `{!Mail (W := W) who posts as_rank}
    (p : Z → sys W) at_ jobD ign s jobS ignS buf to w L count datatype source dest tag data :
  let me := rank (node (s_globals s)) in
  let size := PMPI_Type_size datatype w * count in
  0 ≤ size ≤ INT_MAX → size * worker_count jobD ≤ INT_MAX →
  NoDup (workers jobD) → NoDup (workers jobS) → L ≡ₚ live_workers ignS jobS → L ≠ [] →
  (∀ q, q ∈ L → sender (p q) q jobD (ign q) (at_ q) size dest tag data ∧ me ∈ live_workers (ign q) jobD ∧
     box q me (SET_TAG q tag) (posts w) = []) →
  can_receive s jobS ignS buf to size source tag →
  let w' := foldl (send_as as_rank p at_ count datatype dest tag) w L in
  ∃ st s', MPI_Recv buf count datatype source tag MPI_COMM_WORLD (in_world as_rank me s w') = Done (Some MPI_SUCCESS, st) s' ∧
    load_bytes (mem (s_heap s')) to (Z.to_nat size) = Some data ∧
    ∀ q, q ∈ L → box q me (SET_TAG q tag) (posts (s_world s')) = [].
Proof.
  intros me size Hsz Htot HndD HndS HL Hne Hs Hr w'.
  assert (0 ≤ worker_count jobD) as Hwc.
  { destruct L as [|q L]; [done|]. destruct (Hs q ltac:(left)) as ([_ Hsend] & _).
    destruct (cs_ok _ _ _ _ _ _ _ _ Hsend) as [n Hok]. rewrite (worker_count_length _ _ Hok). lia. }
  assert (posts w' = posts w ++ concat ((λ q, batch q (SET_TAG q tag) data (live_workers (ign q) jobD)) <$> L)) as Hposts.
  { apply (sends_posts who posts as_rank); [unfold INT_MIN; lia|fold size; unfold INT_MIN; nia|]. intros q Hq. by apply Hs. }
  assert (NoDup L) as HndL by (rewrite HL; by apply NoDup_filter).
  assert (∀ q, q ∈ L → box q me (SET_TAG q tag) (posts w') = [data]) as Hbox.
  { intros q Hq. destruct (Hs q Hq) as (_ & Hme & Hold). rewrite Hposts, box_app, Hold. cbn [app].
    apply (box_batches me tag data (λ q, live_workers (ign q) jobD)); try done. by apply NoDup_filter. }
  assert (Z.of_nat (length data) = size) as Hlen.
  { destruct L as [|q L]; [done|]. destruct (Hs q ltac:(left)) as ([_ Hsend] & _).
    destruct (cs_data _ _ _ _ _ _ _ _ Hsend) as (from & _ & Hload). apply load_bytes_length in Hload. lia. }
  set (s1 := in_world as_rank me s w').
  assert (PMPI_Type_size datatype (s_world s1) * count = size) as Hty by (unfold size; f_equal; apply mail_size).
  assert (who (s_world s1) = me ∧ posts (s_world s1) = posts w') as [Hwho Hps] by (split; [exact (mail_who (posts := posts) me w')|exact (mail_posts (who := who) me w')]).
  destruct (MPI_Recv_run who posts s1 jobS ignS buf to count datatype source tag (λ _, data))
    as (res & s' & Hrun & Hres & [Hst [Htw Hmem Hb]]); [by rewrite Hty; destruct Hr; split|done| |].
  { intros q Hq. rewrite Hty, Hwho, Hps. split; [done|]. exists []. apply Hbox. by rewrite HL. }
  unfold received_from in Hres. destruct (last (live_workers ignS jobS)) as [q|] eqn:Elast.
  2:{ apply last_None in Elast. rewrite Elast in HL. by apply Permutation_nil_r in HL. }
  destruct Hres as [e ->]. eexists _, s'. split; [exact Hrun|]. split.
  - replace (Z.to_nat size) with (length data) by lia. by eapply load_store_bytes.
  - intros q' Hq'. rewrite Hb. change (posts (s_world (put_mpi _ s1))) with (posts (s_world s1)).
    change (who (s_world (put_mpi _ s1))) with (who (s_world s1)). rewrite Hwho, Hps, Hbox by done.
    by rewrite decide_True by (by rewrite <-HL).
Qed.

(** ** A network of messages in flight, for the witnesses *)
Record mailbox : Type := Mailbox { mb_who : Z; mb_posts : list post }.

(** The oldest message under a key, and the other ones. *)
Fixpoint take_first (k : Z * (Z * Z)) (l : list post) : option (list mbyte * list post) :=
  match l with
  | [] => None
  | p :: l' =>
      if decide ((p.1, p.2.1) = k) then Some (p.2.2, l')
      else '(data, rest) ← take_first k l'; Some (data, p :: rest)
  end.

Lemma take_first_box f o u l : ∀ data rest, box f o u l = data :: rest →
  ∃ l', take_first (f, (o, u)) l = Some (data, l') ∧
    ∀ f' o' u', box f' o' u' l' = if decide ((f', o', u') = (f, o, u)) then rest else box f' o' u' l.
Proof.
  induction l as [|p l IH]; intros data rest; [done|]. unfold box. rewrite filter_cons. cbn [take_first].
  destruct (decide ((p.1, p.2.1) = (f, (o, u)))) as [E|Hne].
  - rewrite fmap_cons. intros [= <- <-]. exists l. split; [done|]. intros f' o' u'.
    destruct (decide ((f', o', u') = (f, o, u))) as [[= -> -> ->]|Hk]; [done|].
    rewrite filter_cons, decide_False; [done|]. rewrite E. intros [= -> -> ->]. by apply Hk.
  - intros Hbox. destruct (IH _ _ Hbox) as (l' & -> & Hl'). eexists. split; [reflexivity|]. intros f' o' u'.
    specialize (Hl' f' o' u'). unfold box in Hl'. rewrite !filter_cons.
    destruct (decide ((p.1, p.2.1) = (f', (o', u')))) as [E'|Hne']; [|exact Hl'].
    rewrite !fmap_cons, Hl'. rewrite !(decide_False (P := (f', o', u') = _)); [done| |];
      intros [= -> -> ->]; by rewrite E' in Hne.
Qed.

#[local] Instance mailbox_p2p : P2P mailbox := {
  PMPI_Type_size _ _ := 1;
  PMPI_Send data d t _ w := (0, None, Mailbox (mb_who w) (mb_posts w ++ [(mb_who w, (d, t, data))]));
  PMPI_Recv a _ from t _ m w :=
    match take_first (from, (mb_who w, t)) (mb_posts w) with
    | Some (data, rest) => (0, MkStatus from t 0, default m (store_bytes m a data), None, Mailbox (mb_who w) rest)
    | None => (75, MkStatus from t 75, m, None, w)
    end;
  PMPI_Irecv _ _ _ _ _ w := (0, 0, None, w);
  PMPI_Waitall hs m w := (0, [], hs, m, None, w)
}.
#[local] Instance mailbox_ulfm : Ulfm mailbox := {
  PMPI_Error_class e _ := e;
  PMPIX_Comm_failure_get_acked c w := (c, w);
  PMPIX_Comm_shrink c w := (c, w);
  PMPI_Comm_group c w := (c, w);
  PMPI_Group_size _ _ := 4;
  PMPI_Group_translate_ranks _ l _ _ := l;
  PMPI_Comm_free _ w := w;
  PMPI_Comm_dup c w := (c, w)
}.
#[local] Instance mailbox_split : PmpiSplit mailbox := {|
  PMPI_Comm_rank _ _ := 2;
  PMPI_Comm_size _ _ := 4;
  PMPI_Comm_split c _ _ w := (c, w)
|}.
#[local] Instance mailbox_alloc : Allocator := bump.

Definition as_owner (i : Z) (w : mailbox) : mailbox := Mailbox i (mb_posts w).
#[local] Instance mailbox_inbox : Inbox mb_who mb_posts.
Proof.
  intros a n from t c m w data rest m' Hbox _ Hm. exists 0.
  destruct (take_first_box _ _ _ _ _ _ Hbox) as (l' & Htake & Hl').
  eexists. cbn. rewrite Htake, Hm. split; [reflexivity|]. by split.
Qed.
#[local] Instance mailbox_mail : Mail mb_who mb_posts as_owner.
Proof. split; try done; [exact _|]. intros data d t c w. by eexists. Qed.

(** Processes 1 and 3 of job 1 send two bytes to job 0, of which process 2 is a
    worker. *)
Definition party (q : Z) (b : Byte.byte) : sys mailbox :=
  MkSys (set_rank_ignore_list (Some (replicate 4 (Some 0))) (set_node (set_rank q (node net_globals)) net_globals))
    (Mailbox q []) (set_mem (list_to_map [(50000, Some b); (50001, Some b)]) heap_init) 0 0 ∅.
Definition job0 : Job := MkJob 0 2 [Some 0; Some 2].
Definition job1 : Job := MkJob 1 2 [Some 1; Some 3].

Lemma party_sends q : 0 ≤ q < 4 →
  sender (party q Byte.x07) q job0 (replicate 4 (Some 0)) 50000 2 0 5 [Some Byte.x07; Some Byte.x07].
Proof.
  intros Hq. split; [done|]. split; [reflexivity| |reflexivity| | |].
  - exists 4, [0; 2], []. split; [reflexivity|repeat constructor; lia].
  - apply Forall_forall. repeat (constructor; [by eexists|]). constructor.
  - by exists 50000.
  - cbn. unfold SET_TAG, INT_MIN, INT_MAX. lia.
Qed.

Lemma party_receives : can_receive (party 2 Byte.x00) job1 (replicate 4 (Some 0)) 50000 50000 2 1 5.
Proof.
  split; [reflexivity| |reflexivity| |reflexivity|by left| |].
  - exists 4, [1; 3], []. split; [reflexivity|repeat constructor; lia].
  - apply Forall_forall. repeat (constructor; [by eexists|]). constructor.
  - intros i Hi. cbn in Hi. assert (i = 0 ∨ i = 1) as [-> | ->] by lia; by eexists.
  - apply Forall_forall. repeat (constructor; [net_int|]). constructor.
Qed.

Lemma send_recv_roundtrip_witness : ∃ st s',
  MPI_Recv 50000 2 0 1 5 MPI_COMM_WORLD
    (in_world as_owner 2 (party 2 Byte.x00)
       (foldl (send_as as_owner (λ q, party q Byte.x07) (λ _, 50000) 2 0 0 5) (Mailbox 0 []) [3; 1])) =
    Done (Some 0, st) s' ∧
  load_bytes (mem (s_heap s')) 50000 2 = Some [Some Byte.x07; Some Byte.x07].
Proof.
  destruct (send_recv_roundtrip mb_who mb_posts as_owner (λ q, party q Byte.x07) (λ _, 50000) job0
    (λ _, replicate 4 (Some 0)) (party 2 Byte.x00) job1 (replicate 4 (Some 0)) 50000 50000 (Mailbox 0 []) [3; 1]
    2 0 1 0 5 [Some Byte.x07; Some Byte.x07]) as (st & s' & Hrun & Hload & _).
  - by vm_compute.
  - by vm_compute.
  - apply (bool_decide_unpack _). by vm_compute.
  - apply (bool_decide_unpack _). by vm_compute.
  - apply (bool_decide_unpack _). by vm_compute.
  - done.
  - intros q Hq. assert (0 ≤ q < 4) by (assert (q = 3 ∨ q = 1) as [-> | ->] by set_solver; lia).
    split; [by apply party_sends|].
    split; [|done]. apply (bool_decide_unpack _). by vm_compute.
  - exact party_receives.
  - exists st, s'. split; [exact Hrun|exact Hload].
Defined.

Lemma MPI_Recv_correct_witness :
  let s := put_mpi (s_globals (party 2 Byte.x00), Mailbox 2 [(3, (2, 405, [Some Byte.x09; Some Byte.x08]));
    (1, (2, 205, [Some Byte.x07; Some Byte.x07]))]) (party 2 Byte.x00) in
  ∃ e s', MPI_Recv 50000 2 0 1 5 MPI_COMM_WORLD s = Done (Some 0, Some (MkStatus 3 405 e)) s' ∧
    box 1 2 205 (mb_posts (s_world s')) = [].
Proof.
  intros s.
  destruct (MPI_Recv_correct mb_who mb_posts s job1 (replicate 4 (Some 0)) 50000 50000 2 0 1 5
    (λ q, if q =? 1 then [Some Byte.x07; Some Byte.x07] else [Some Byte.x09; Some Byte.x08]))
    as (res & s' & Hrun & [e ->] & Htook).
  - destruct party_receives. by split.
  - apply (bool_decide_unpack _). by vm_compute.
  - intros q Hq. change (live_workers _ _) with [1; 3] in Hq.
    assert (q = 1 ∨ q = 3) as [-> | ->] by set_solver; (split; [reflexivity|by eexists]).
  - exists e, s'. split; [exact Hrun|]. rewrite (tk_box _ _ _ _ _ _ _ _ (tk_taken _ _ _ _ _ _ _ _ Htook)). reflexivity.
Defined.
