(* ===== verification/Faults.v ===== *)
(** * Failures met by a send: [MPI_Send] of [src/mpi/init.c] with
    [rep_errhandler] of [src/mpi/ulfm.c]

    When a worker of the destination is dead, [PMPI_Send] to it fails, and the
    error handler runs before the call returns.  As [ignore_process_failure]
    is set it only notes who failed; the loop of [MPI_Send] goes on with the
    next worker.  This file shows what a send does for any set of dead
    processes, and what it leaves behind. *)

From S2P Require Import Prelude Shared Mpi Memory MapFile Comm HeapSeg Ulfm PointToPoint Receive.

(** ** Notes on ranks *)
Lemma aload_noted ign l r :
  Forall (λ r, 0 ≤ r < Z.of_nat (length ign)) l →
  aload (r2j_job 1 l ign) r = if decide (r ∈ l) then Some 1 else aload ign r.
Proof.
  intros Hl. assert (Forall (λ r, 0 ≤ r) l) as Hpos by (eapply Forall_impl; [exact Hl|]; simpl; lia).
  destruct (decide (r ∈ l)) as [Hr|Hr].
  - rewrite Forall_forall in Hl. apply aload_Some; [by apply Hl|]. apply r2j_job_in; [done|]. by apply Forall_forall.
  - unfold aload, aslot. rewrite length_r2j_job. destruct (Z.leb_spec 0 r); [|done].
    destruct (r <? Z.of_nat (length ign)); [|done]. cbn [andb mbind option_bind].
    by rewrite r2j_job_notin.
Qed.

(** ** What the failure detector and the handler do *)
Section detect.
Context {W P : Type} `{MpiConst} `{PmpiSplit W} `{Ulfm W} `{P2P W} `{Allocator}.

(** A call of the process [who w] on [c] that failed because of process [d],
    which is dead; the failure detector names [d] then.  What [posts] records is
    as it was. *)
Definition fails_at (dead : W → list Z) (who : W → Z) (posts : W → P)
    (d : Z) (c : MPI_Comm) (st : Z) (r : option (MPI_Comm * Z)) (w w' : W) : Prop :=
  ∃ e, r = Some (c, e) ∧ st ≠ MPI_SUCCESS ∧ PMPI_Error_class e w' = MPIX_ERR_PROC_FAILED ∧
    dead w' = dead w ∧ who w' = who w ∧ posts w' = posts w ∧ d ∈ noted (failed_ranks c w').1.2.

(** The processes the failure detector names are dead, and asking it changes
    nothing. *)
Class Detector (dead : W → list Z) (who : W → Z) (posts : W → P) : Prop :=
  detector_names c w :
    (∀ r, r ∈ noted (failed_ranks c w).1.2 → r ∈ dead w) ∧
    dead (failed_ranks c w).2 = dead w ∧ who (failed_ranks c w).2 = who w ∧ posts (failed_ranks c w).2 = posts w.

Context (dead : W → list Z) (who : W → Z) (posts : W → P) `{!Detector dead who posts}.

(** What the handler reads: the tables know the dead processes. *)
Record known_dead (s : sys W) (js : list Job) (a ign : list cell) : Prop := {
  kd_jobs : job_list (s_globals s) = Some (Some <$> js);
  kd_r2j : rank_2_job (s_globals s) = Some a;
  kd_ign : rank_ignore_list (s_globals s) = Some ign;
  kd_ignoring : ignore_process_failure (s_globals s) ≠ 0;
  kd_dead r : r ∈ dead (s_world s) →
    0 ≤ r < Z.of_nat (length ign) ∧ ∃ k, aload a r = Some k ∧ 0 ≤ k < Z.of_nat (length js)
}.

(** The process after a call that met failures: only the notes changed. *)
Record noted_since (s s' : sys W) (ign ign' : list cell) : Prop := {
  ns_node : node (s_globals s') = node (s_globals s);
  ns_jobs : job_list (s_globals s') = job_list (s_globals s);
  ns_r2j : rank_2_job (s_globals s') = rank_2_job (s_globals s);
  ns_ignoring : ignore_process_failure (s_globals s') = ignore_process_failure (s_globals s);
  ns_heap : s_heap s' = s_heap s;
  ns_cont : s_sender_cont s' = s_sender_cont s;
  ns_receiver : s_receiver_cont s' = s_receiver_cont s;
  ns_who : who (s_world s') = who (s_world s);
  ns_dead : dead (s_world s') = dead (s_world s);
  ns_ign : rank_ignore_list (s_globals s') = Some ign';
  ns_length : length ign' = length ign;
  ns_marks r : aload ign' r = aload ign r ∨ aload ign' r = Some 1 ∧ r ∈ dead (s_world s);
  ns_pending : ign' = ign ∧ process_shrinking_pending (s_globals s') = process_shrinking_pending (s_globals s) ∨
               process_shrinking_pending (s_globals s') = 1;
  ns_requests : request_pending (s_globals s') = request_pending (s_globals s)
}.

Lemma noted_since_refl s ign : rank_ignore_list (s_globals s) = Some ign → noted_since s s ign ign.
Proof. intros E. split; try done; [intros r; by left|by left]. Qed.

Lemma noted_since_trans s1 s2 s3 i1 i2 i3 :
  noted_since s1 s2 i1 i2 → noted_since s2 s3 i2 i3 → noted_since s1 s3 i1 i3.
Proof.
  intros [A1 A2 A3 A4 A5 A6 A12 A13 A7 A8 A9 A10 A11] [B1 B2 B3 B4 B5 B6 B12 B13 B7 B8 B9 B10 B11].
  split; try congruence.
  - intros r. destruct (B10 r) as [->|[? ?]]; [done|]. right. by rewrite <-A7.
  - destruct B11 as [[-> ->]|]; [done|by right].
Qed.

(** A mark stays, and whoever is marked since is dead. *)
Lemma noted_since_mark s s' ign ign' r : noted_since s s' ign ign' → aload ign r = Some 1 → aload ign' r = Some 1.
Proof. intros Hn Hr. destruct (ns_marks _ _ _ _ Hn r) as [->|[? _]]; done. Qed.

Lemma known_dead_since s s' js a ign ign' :
  known_dead s js a ign → noted_since s s' ign ign' → known_dead s' js a ign'.
Proof.
  intros [K1 K2 K3 K4 K5] [A1 A2 A3 A4 A5 A6 _ _ A7 A8 A9 A10 A11]. split; [congruence..|].
  intros r Hr. rewrite A9. apply K5. by rewrite <-A7.
Qed.

(** The handler in the middle of a call. *)
Lemma handle_failure s js a ign e :
  let c := rep_mpi_comm_world (node (s_globals s)) in
  known_dead s js a ign → e = PROC_SHRINK_PENDING ∨ PMPI_Error_class e (s_world s) = MPIX_ERR_PROC_FAILED →
  ∃ s' ign', handle (Some (c, e)) s = Done tt s' ∧ noted_since s s' ign ign' ∧
    (∀ d, d ∈ noted (failed_ranks c (s_world s)).1.2 → aload ign' d = Some 1) ∧
    posts (s_world s') = posts (s_world s) ∧ process_shrinking_pending (s_globals s') = 1.
Proof.
  intros c [K1 K2 K3 K4 K5] He. destruct (detector_names c (s_world s)) as (D1 & D2 & D4 & D3).
  pose proof (note_failures_spec js a ign (s_globals s) (s_world s)) as Hrun. fold c in Hrun.
  destruct (failed_ranks c (s_world s)) as [[failed ranks] w'] eqn:Ef. cbn [fst snd] in *.
  specialize (Hrun K1 K2 K3 (λ r Hr, K5 r (D1 r Hr))).
  assert (Forall (λ r, 0 ≤ r < Z.of_nat (length ign)) (noted ranks)) as Hrange.
  { apply Forall_forall. intros r Hr. by apply K5, D1. }
  eexists _, (r2j_job 1 (noted ranks) ign). split; [|split; [split|split]].
  - unfold handle, on_mpi, zoom, rep_errhandler. cbn [bind gets ensure fst snd].
    assert ((if e =? PROC_SHRINK_PENDING then MPIX_ERR_PROC_FAILED else PMPI_Error_class e (s_world s)) =
      MPIX_ERR_PROC_FAILED) as -> by (destruct He as [-> | He]; [by rewrite Z.eqb_refl|by destruct (e =? _)]).
    rewrite Z.eqb_refl. cbn [bind fst snd]. rewrite (proj2 (Z.eqb_neq _ _) K4), Z.eqb_refl. cbn [andb when].
    rewrite Hrun. reflexivity.
  - done.
  - done.
  - done.
  - done.
  - done.
  - done.
  - done.
  - exact D4.
  - exact D2.
  - done.
  - apply length_r2j_job.
  - intros r. rewrite aload_noted by done. destruct (decide (r ∈ noted ranks)); [right|by left]. split; [done|by apply D1].
  - by right.
  - done.
  - intros d Hd. rewrite aload_noted by done. by rewrite decide_True.
  - split; [exact D3|done].
Qed.

Lemma handle_aggs (r : raised) s s' : handle r s = Done tt s' → s_aggs s' = s_aggs s.
Proof.
  destruct r as [[c e]|]; cbn; [|by inversion 1]. unfold on_mpi, zoom.
  destruct (rep_errhandler c e _); cbn; [|done]. by inversion 1.
Qed.

(** A call that failed because of [d]: the handler notes it. *)
Lemma failed_call s js a ign d st r w' :
  let c := rep_mpi_comm_world (node (s_globals s)) in
  known_dead s js a ign → fails_at dead who posts d c st r (s_world s) w' →
  ∃ s' ign', handle r (put_mpi (s_globals s, w') s) = Done tt s' ∧ noted_since s s' ign ign' ∧
    aload ign' d = Some 1 ∧ posts (s_world s') = posts (s_world s) ∧ process_shrinking_pending (s_globals s') = 1 ∧
    s_aggs s' = s_aggs s.
Proof.
  intros c Hk (e & -> & _ & He & Hdead & Hwho & Hposts & Hnoted). set (s1 := put_mpi (s_globals s, w') s).
  destruct (handle_failure s1 js a ign e) as (s' & ign' & Hrun & Hsince & Hmark%(λ f, f d Hnoted) & Hposts' & Hp); [|by right|].
  { destruct Hk as [K1 K2 K3 K4 K5]. split; try done. intros x. cbn. rewrite Hdead. apply K5. }
  exists s', ign'. split; [exact Hrun|]. split; [|by split_and!; [|rewrite Hposts'| |apply handle_aggs in Hrun]].
  eapply noted_since_trans; [|exact Hsince]. split; try done; [apply Hk|by left|by left].
Qed.

End detect.

(** ** The loop of [MPI_Send] *)
Section faults.
Context {W : Type} `{MpiConst} `{PmpiSplit W} `{Ulfm W} `{P2P W} `{Allocator}.

(** A network with dead processes: a message to one of them is lost and the
    call fails, any other message is posted. *)
Class Faulty (dead : W → list Z) (who : W → Z) (posts : W → list post) : Prop := {
  faulty_detector :: Detector dead who posts;
  faulty_send data d t c w :
    let '(st, e, w') := PMPI_Send data d t c w in
    if decide (d ∈ dead w) then fails_at dead who posts d c st e w w'
    else st = MPI_SUCCESS ∧ e = None ∧ dead w' = dead w ∧ who w' = who w ∧ posts w' = posts w ++ [(who w, (d, t, data))]
}.

Context (dead : W → list Z) (who : W → Z) (posts : W → list post) `{!Faulty dead who posts}.
Abbreviation known_dead := (known_dead dead).
Abbreviation noted_since := (noted_since dead who).

Lemma can_send_since s s' job ign ign' buf size dest tag data :
  can_send s job ign buf size dest tag data → noted_since s s' ign ign' →
  can_send s' job ign' buf size dest tag data.
Proof.
  intros [C1 C2 C3 C4 C5 C6] [A1 A2 A3 A4 A5 A6 _ _ A7 A8 A9 A10 A11].
  split; [by apply (load_job_same (s_globals s))|done|done| |by rewrite A5, A6|by rewrite A1].
  intros r Hr. destruct (A10 r) as [->|[-> _]]; [by apply C4|done].
Qed.

(** The workers that can be reached, and those that are found to be dead. *)
Definition reachable (s : sys W) (ign : list cell) (qs : list Z) : list Z :=
  filter (λ r, aload ign r ≠ Some 1 ∧ r ∉ dead (s_world s)) qs.
Definition lost_workers (s : sys W) (ign : list cell) (qs : list Z) : list Z :=
  filter (λ r, aload ign r ≠ Some 1 ∧ r ∈ dead (s_world s)) qs.

(** Notes on dead processes do not change who is reached. *)
Lemma reachable_since s s' ign ign' qs :
  noted_since s s' ign ign' → reachable s' ign' qs = reachable s ign qs.
Proof.
  intros Hn. unfold reachable. apply filter_iff_in. intros r _. rewrite (ns_dead _ _ _ _ _ _ Hn).
  destruct (ns_marks _ _ _ _ _ _ Hn r) as [->|[-> Hd]]; [done|]. split; [by intros [[] _]|by intros [_ []]].
Qed.

Lemma reachable_cons s ign r qs :
  reachable s ign (r :: qs) = (if decide (aload ign r ≠ Some 1 ∧ r ∉ dead (s_world s)) then [r] else []) ++ reachable s ign qs.
Proof. unfold reachable. rewrite filter_cons. by case_decide. Qed.

(** What holds when the loop, from the state [s] on, went over the workers [qs]. *)
Record swept (s s' : sys W) (ign ign' : list cell) (tag : Z) (data : list mbyte) (qs : list Z) : Prop := {
  sw_since : noted_since s s' ign ign';
  sw_sent : posts (s_world s') = posts (s_world s) ++
    batch (who (s_world s)) (SET_TAG (rank (node (s_globals s))) tag) data (reachable s ign qs);
  sw_marked r : r ∈ qs → r ∈ dead (s_world s) → aload ign' r = Some 1;
  sw_pending : lost_workers s ign qs ≠ [] → process_shrinking_pending (s_globals s') = 1
}.

(** One worker. *)
Lemma sweep_one s job js a ign buf size dest tag data ps r qs fuel st :
  can_send s job ign buf size dest tag data → known_dead s js a ign → workers job = ps ++ r :: qs →
  ∃ st' s' ign', send_loop (Datatypes.S fuel) buf size dest tag MPI_COMM_WORLD (Z.of_nat (length ps)) st s =
      send_loop fuel buf size dest tag MPI_COMM_WORLD (Z.of_nat (length (ps ++ [r]))) st' s' ∧
    swept s s' ign ign' tag data [r] ∧
    (aload ign r ≠ Some 1 → st' = Some MPI_SUCCESS ↔ r ∉ dead (s_world s)).
Proof.
  intros Hs Hk Hw. rewrite (send_turn _ _ _ _ _ _ _ _ _ _ _ _ _ Hs Hw). cbv zeta.
  destruct (decide (aload ign r = Some 1)) as [Hm|Hm].
  { exists st, s, ign. split; [done|]. split; [|done]. split; [by apply noted_since_refl, Hk| |by intros ? ->%list_elem_of_singleton|].
    - rewrite reachable_cons, decide_False by tauto. by rewrite app_nil_r.
    - unfold lost_workers. rewrite filter_cons, decide_False by tauto. done. }
  set (c := rep_mpi_comm_world _). set (t := SET_TAG _ _).
  pose proof (faulty_send data r t c (s_world s)) as Hsend. cbn [bind]. unfold call_send.
  destruct (PMPI_Send data r t c (s_world s)) as [[v e] w'].
  destruct (decide (r ∈ dead (s_world s))) as [Hd|Hd].
  - destruct (failed_call dead who posts s js a ign r v e w' Hk Hsend) as (s' & ign' & Hrun & Hsince & Hmark & Hposts & Hp & _).
    exists (Some v), s', ign'. cbn [bind]. rewrite Hrun. split; [done|].
    destruct Hsend as (? & _ & Hv & _). split; [|intros _; split; [congruence|done]].
    split; [done| |by intros ? ->%list_elem_of_singleton|done].
    rewrite Hposts, reachable_cons, decide_False by tauto. by rewrite app_nil_r.
  - destruct Hsend as (-> & -> & Hdead & Hwho & Hposts). exists (Some MPI_SUCCESS), (put_mpi (s_globals s, w') s), ign.
    split; [done|]. split; [|done]. split; [split; try done; [apply Hk|by left|by left]| | |].
    + rewrite reachable_cons, decide_True by done. exact Hposts.
    + by intros ? ->%list_elem_of_singleton.
    + unfold lost_workers. rewrite filter_cons, decide_False by tauto. done.
Qed.

Lemma swept_cons s s1 s2 i0 i1 i2 tag data r qs :
  swept s s1 i0 i1 tag data [r] → swept s1 s2 i1 i2 tag data qs → swept s s2 i0 i2 tag data (r :: qs).
Proof.
  intros [A1 A2 A3 A4] [B1 B2 B3 B4]. split; [by eapply noted_since_trans| | |].
  - rewrite (reachable_cons _ _ r []), app_nil_r in A2.
    rewrite B2, A2, (ns_node _ _ _ _ _ _ A1), (ns_who _ _ _ _ _ _ A1), (reachable_since _ _ _ _ _ A1), reachable_cons.
    unfold batch. by rewrite fmap_app, app_assoc.
  - intros x [->|Hx]%elem_of_cons Hd; [|apply B3; [done|by rewrite (ns_dead _ _ _ _ _ _ A1)]].
    eapply noted_since_mark; [exact B1|]. apply A3; [by left|done].
  - intros Hl. destruct (ns_pending _ _ _ _ _ _ B1) as [[_ Hp2]|]; [|done].
    destruct (ns_pending _ _ _ _ _ _ A1) as [[-> Hp1]|Hp1]; [|by rewrite Hp2].
    unfold lost_workers in *. rewrite (ns_dead _ _ _ _ _ _ A1) in B4. rewrite filter_cons in Hl.
    destruct (decide (aload i0 r ≠ Some 1 ∧ r ∈ dead (s_world s))) as [Hr|Hr]; [|by apply B4].
    rewrite Hp2. apply A4. by rewrite filter_cons, decide_True.
Qed.

Lemma send_loop_faults job js a buf size dest tag data qs : ∀ ps fuel st s ign,
  can_send s job ign buf size dest tag data → known_dead s js a ign → workers job = ps ++ qs → (length qs < fuel)%nat →
  ∃ st' s' ign', send_loop fuel buf size dest tag MPI_COMM_WORLD (Z.of_nat (length ps)) st s = Done st' s' ∧
    swept s s' ign ign' tag data qs ∧
    match last qs with
    | Some q => aload ign q ≠ Some 1 → q ∉ dead (s_world s) → st' = Some MPI_SUCCESS
    | None => st' = st
    end.
Proof.
  induction qs as [|r qs IH]; intros ps fuel st s ign Hs Hk Hw Hf; (destruct fuel as [|fuel]; [simpl in Hf; lia|]).
  - exists st, s, ign. split; [|split; [|done]].
    + destruct Hs as [Hjob [n Hok] _ _ _ _]. cbn [send_loop bind].
      by rewrite (on_globals_same _ _ _ Hjob), (worker_count_length _ _ Hok), Hw, app_nil_r, Z.ltb_irrefl.
    + split; [by apply noted_since_refl, Hk|by rewrite app_nil_r|by intros ? ?%not_elem_of_nil|done].
  - destruct (sweep_one s job js a ign buf size dest tag data ps r qs fuel st Hs Hk Hw)
      as (st1 & s1 & ign1 & -> & Hsw & Hst1). pose proof (sw_since _ _ _ _ _ _ _ Hsw) as Hsince.
    destruct (IH (ps ++ [r]) fuel st1 s1 ign1) as (st' & s' & ign' & Hrun & Hsw' & Hst');
      [by eapply can_send_since|by eapply known_dead_since|by rewrite <-app_assoc|simpl in Hf; lia|].
    exists st', s', ign'. split; [exact Hrun|]. split; [by eapply swept_cons|]. rewrite last_cons.
    destruct (last qs) as [q|]; [|by intros Hm Hd; rewrite Hst'; apply Hst1].
    intros Hm Hd. apply Hst'; [|by rewrite (ns_dead _ _ _ _ _ _ Hsince)].
    by destruct (ns_marks _ _ _ _ _ _ Hsince q) as [->|[_ ?]].
Qed.
End faults.

(** ** The whole call *)
Lemma MPI_Send_faults {W} `{MpiConst} `{PmpiSplit W} `{Ulfm W} `{P2P W} `{Allocator}
    (dead : W → list Z) (who : W → Z) (posts : W → list post) `{!Faulty dead who posts}
    s job js a ign buf count datatype dest tag data :
  let size := PMPI_Type_size datatype (s_world s) * count in
  let s0 := put_mpi (set_ignore_process_failure 1 (s_globals s), s_world s) s in
  INT_MIN ≤ size ≤ INT_MAX → INT_MIN ≤ size * worker_count job ≤ INT_MAX →
  can_send s job ign buf size dest tag data → known_dead dead s0 js a ign →
  ∃ st s' ign', MPI_Send buf count datatype dest tag MPI_COMM_WORLD s =
      Done st (put_mpi (set_ignore_process_failure 0 (s_globals s'), s_world s') s') ∧
    swept dead who posts s0 s' ign ign' tag data (workers job) ∧
    (∀ q, last (workers job) = Some q → aload ign q ≠ Some 1 → q ∉ dead (s_world s) → st = Some MPI_SUCCESS).
Proof.
  intros size s0 Hsize Htotal Hs Hk. unfold MPI_Send, set_ignoring.
  assert (can_send s0 job ign buf size dest tag data) as Hs0.
  { destruct Hs. split; try done. by apply (load_job_same (s_globals s)). }
  pose proof (cs_ok _ _ _ _ _ _ _ _ Hs) as [n Hok].
  destruct (send_loop_faults dead who posts job js a buf size dest tag data (workers job) [] (workers_fuel job) None s0 ign)
    as (st & s' & ign' & Hrun & Hsw & Hst); [done|done|done| |].
  { unfold workers_fuel. rewrite (worker_count_length _ _ Hok). lia. }
  exists st, s', ign'. split; [|split; [exact Hsw|]].
  - cbn [bind]. rewrite (on_globals_run (modify (set_ignore_process_failure 1)) s tt _ eq_refl). cbn [bind gets]. fold s0.
    change (PMPI_Type_size datatype (s_world s0) * count) with size.
    rewrite c_int_Some by done. cbn [bind of_option].
    rewrite (on_globals_same _ _ _ (cs_job _ _ _ _ _ _ _ _ Hs0)). cbn [bind].
    rewrite c_int_Some by done. cbn [bind of_option].
    change (Z.of_nat (length (@nil Z))) with 0 in Hrun. rewrite Hrun. cbn [bind].
    by rewrite (on_globals_run (modify (set_ignore_process_failure 0)) _ tt _ eq_refl).
  - intros q Hq Hm Hd. rewrite Hq in Hst. by apply Hst.
Qed.


(** ** Properties *)

(** C16: [MPI_Send] gets past dead workers.  Whatever set of processes is dead,
    it returns; the message is sent exactly once to each worker of the
    destination that is neither dead nor marked; every dead worker is marked
    then, nobody else is marked, and if a new one was found the world is
    to be shrunk at the next collective call; the node, the jobs and the heap are as they
    were.  The return value is that of the last worker that was tried. *)
Theorem MPI_Send_survives {W} `{MpiConst} `{PmpiSplit W} `{Ulfm W} `{P2P W} `{Allocator}
    (dead : W → list Z) (who : W → Z) (posts : W → list post) `{!Faulty dead who posts}
    s job js a ign buf count datatype dest tag data :
  let size := PMPI_Type_size datatype (s_world s) * count in
  let s0 := put_mpi (set_ignore_process_failure 1 (s_globals s), s_world s) s in
  INT_MIN ≤ size ≤ INT_MAX → INT_MIN ≤ size * worker_count job ≤ INT_MAX →
  can_send s job ign buf size dest tag data → known_dead dead s0 js a ign →
  ∃ st s' ign', MPI_Send buf count datatype dest tag MPI_COMM_WORLD s =
      Done st (put_mpi (set_ignore_process_failure 0 (s_globals s'), s_world s') s') ∧
    swept dead who posts s0 s' ign ign' tag data (workers job) ∧
    (∀ q, last (workers job) = Some q → aload ign q ≠ Some 1 → q ∉ dead (s_world s) → st = Some MPI_SUCCESS).
Proof. by apply MPI_Send_faults. Qed.

(** ** A network with dead processes, for the witnesses *)
Record faulty_net : Type := FaultyNet { fn_failed : list Z; fn_who : Z; fn_posts : list post }.

#[local] Instance faulty_p2p : P2P faulty_net := {
  PMPI_Type_size _ _ := 1;
  PMPI_Send data d t c w :=
    if decide (d ∈ noted (fn_failed w)) then (75, Some (c, 75), w)
    else (0, None, FaultyNet (fn_failed w) (fn_who w) (fn_posts w ++ [(fn_who w, (d, t, data))]));
  PMPI_Recv a _ from t c m w :=
    match take_first (from, (fn_who w, t)) (fn_posts w) with
    | Some (data, rest) =>
        (0, MkStatus from t 0, default m (store_bytes m a data), None, FaultyNet (fn_failed w) (fn_who w) rest)
    | None => (75, MkStatus from t 75, m, if decide (from ∈ noted (fn_failed w)) then Some (c, 75) else None, w)
    end;
  PMPI_Irecv _ _ _ _ _ w := (0, 0, None, w);
  PMPI_Waitall hs m w := (0, [], hs, m, None, w)
}.
#[local] Instance faulty_ulfm : Ulfm faulty_net := {
  PMPI_Error_class e _ := e;
  PMPIX_Comm_failure_get_acked _ w := (1, w);
  PMPIX_Comm_shrink c w := (c, w);
  PMPI_Comm_group c w := (c, w);
  PMPI_Group_size _ w := Z.of_nat (length (fn_failed w));
  PMPI_Group_translate_ranks _ l _ w := (λ i, default MPI_UNDEFINED (fn_failed w !! Z.to_nat i)) <$> l;
  PMPI_Comm_free _ w := w;
  PMPI_Comm_dup c w := (c, w)
}.
#[local] Instance faulty_split : PmpiSplit faulty_net := {|
  PMPI_Comm_rank _ _ := 2;
  PMPI_Comm_size _ _ := 4;
  PMPI_Comm_split c _ _ w := (c, w)
|}.
#[local] Instance faulty_alloc : Allocator := bump.

Lemma detected c w : noted (failed_ranks c w).1.2 = noted (fn_failed w).
Proof.
  unfold failed_ranks. cbn. f_equal. apply list_eq. intros i. rewrite list_lookup_fmap.
  destruct (decide (i < length (fn_failed w))%nat) as [Hi|Hi].
  - rewrite lookup_seqZ_lt by lia. cbn. rewrite Z.add_0_l, Nat2Z.id.
    by destruct (lookup_lt_is_Some_2 _ _ Hi) as [x ->].
  - rewrite lookup_seqZ_ge by lia. cbn. symmetry. apply lookup_ge_None_2. lia.
Qed.

#[local] Instance faulty_faulty : Faulty (λ w, noted (fn_failed w)) fn_who fn_posts.
Proof.
  split.
  - intros c w. split; [|done]. intros r Hr. rewrite <-(detected c w). exact Hr.
  - intros data d t c w. cbn. destruct (decide (d ∈ noted (fn_failed w))) as [Hd|Hd]; [|done].
    rewrite <-(detected c w) in Hd. by exists 75.
Qed.

(** Process 2 sends to job 1, whose worker 1 is dead. *)
Definition survivor (failed : list Z) : sys faulty_net :=
  MkSys (set_rank_ignore_list (Some (replicate 4 (Some 0))) net_globals) (FaultyNet failed 2 [])
    (set_mem (list_to_map [(50000, Some Byte.x07); (50001, Some Byte.x07)]) heap_init) 0 0 ∅.

Lemma MPI_Send_survives_witness : ∃ st s' ign',
  MPI_Send 50000 2 0 1 5 MPI_COMM_WORLD (survivor [1]) =
    Done st (put_mpi (set_ignore_process_failure 0 (s_globals s'), s_world s') s') ∧
  st = Some MPI_SUCCESS ∧ fn_posts (s_world s') = [(2, (3, 305, [Some Byte.x07; Some Byte.x07]))] ∧
  aload ign' 1 = Some 1 ∧ process_shrinking_pending (s_globals s') = 1.
Proof.
  destruct (MPI_Send_survives (λ w, noted (fn_failed w)) fn_who fn_posts (survivor [1]) (MkJob 1 2 [Some 1; Some 3]) crash_jobs
    crash_r2j (replicate 4 (Some 0)) 50000 2 0 1 5 [Some Byte.x07; Some Byte.x07])
    as (st & s' & ign' & Hrun & [_ H2 H3 H4] & Hst); [net_int|net_int| | |].
  - split; [reflexivity| |reflexivity| | |net_int].
    + exists 4, [1; 3], []. split; [reflexivity|repeat constructor; lia].
    + apply Forall_forall. repeat (constructor; [by eexists|]). constructor.
    + by exists 50000.
  - split; try done. intros r Hr. change (r ∈ [1]) in Hr. apply list_elem_of_singleton in Hr as ->.
    split; [done|]. by exists 1.
  - exists st, s', ign'. split; [exact Hrun|]. split; [|split; [|split]].
    + apply (Hst 3); [done|done|]. apply (bool_decide_unpack _). by vm_compute.
    + exact H2.
    + apply H3; apply (bool_decide_unpack _); by vm_compute.
    + by apply H4.
Defined.
