(* ===== verification/Wait.v ===== *)
(** * Waiting with failures: the loop of [wait_for_agg_request] of
    [src/mpi/async.c] with [rep_errhandler] of [src/mpi/ulfm.c]

    [PMPI_Waitall] on the receives from the workers of a job raises an error
    when one of the workers is dead.  The handler runs before the call returns
    and, as [ignore_process_failure] is set, notes who failed; the loop then
    looks at the statuses and may call [PMPI_Waitall] again.  This file follows
    the loop whatever the calls raise, with processes that die while it
    runs. *)

From S2P Require Import Prelude Shared Mpi Memory MapFile Comm HeapSeg Ulfm PointToPoint Receive Faults.

Section wait.
Context {W P : Type} `{MpiConst} `{PmpiSplit W} `{Ulfm W} `{P2P W} `{Allocator}.
Implicit Types (s : sys W).

(** A network of [size] processes.  [PMPI_Waitall] gives back as many handles as
    it got (a completed one is null, and a call on null handles only is a call
    MPI defines) and names sources below [size]; processes may die during the
    call, none comes back.  Whether it raises an error, and which, is open. *)
Class Completing (dead : W → list Z) (who : W → Z) (posts : W → P) (size : Z) : Prop := {
  completing_detector :: Detector dead who posts;
  completing_dead w r : r ∈ dead w → 0 ≤ r < size;
  completing_waitall handles m w :
    let '(_, sts, handles', _, _, w') := PMPI_Waitall handles m w in
    length handles' = length handles ∧ Forall (λ st, MPI_SOURCE st < size) sts ∧
    ∀ r, r ∈ dead w → r ∈ dead w'
}.

Context (dead : W → list Z) (who : W → Z) (posts : W → P) (size : Z) `{!Completing dead who posts size}.

(** The tables know every process, and failures are to be noted only. *)
Record noting (s : sys W) (js : list Job) (a ign : list cell) : Prop := {
  no_jobs : job_list (s_globals s) = Some (Some <$> js);
  no_r2j : rank_2_job (s_globals s) = Some a;
  no_ign : rank_ignore_list (s_globals s) = Some ign;
  no_ignoring : ignore_process_failure (s_globals s) ≠ 0;
  no_ranks r : 0 ≤ r < size → is_Some (aload ign r) ∧ ∃ k, aload a r = Some k ∧ 0 ≤ k < Z.of_nat (length js)
}.

(** What the calls of the loop left: the tables and the request, the world and
    the memory apart, only notes on processes that are dead now; if one was
    made the world is to be shrunk. *)
Record waited (s s' : sys W) (ign ign' : list cell) : Prop := {
  wd_node : node (s_globals s') = node (s_globals s);
  wd_jobs : job_list (s_globals s') = job_list (s_globals s);
  wd_r2j : rank_2_job (s_globals s') = rank_2_job (s_globals s);
  wd_ignoring : ignore_process_failure (s_globals s') = ignore_process_failure (s_globals s);
  wd_requests : request_pending (s_globals s') = request_pending (s_globals s);
  wd_blocks : blocks (s_heap s') = blocks (s_heap s);
  wd_ign : rank_ignore_list (s_globals s') = Some ign';
  wd_dead r : r ∈ dead (s_world s) → r ∈ dead (s_world s');
  wd_marks r : aload ign' r = aload ign r ∨ aload ign' r = Some 1 ∧ r ∈ dead (s_world s');
  wd_pending : ign' = ign ∧ process_shrinking_pending (s_globals s') = process_shrinking_pending (s_globals s) ∨
               process_shrinking_pending (s_globals s') = 1
}.

Lemma waited_refl s ign : rank_ignore_list (s_globals s) = Some ign → waited s s ign ign.
Proof. intros E. split; try done; [intros r; by left|by left]. Qed.

Lemma waited_trans s1 s2 s3 i1 i2 i3 : waited s1 s2 i1 i2 → waited s2 s3 i2 i3 → waited s1 s3 i1 i3.
Proof.
  intros [A1 A2 A3 A4 A5 A6 A7 A8 A9 A10] [B1 B2 B3 B4 B5 B6 B7 B8 B9 B10]. split; try congruence.
  - intros r Hr. by apply B8, A8.
  - intros r. destruct (B9 r) as [->|?]; [|by right].
    destruct (A9 r) as [->|[? Hd]]; [by left|right]. split; [done|by apply B8].
  - destruct B10 as [[-> ->]|]; [done|by right].
Qed.

Lemma noting_since s s' js a ign ign' : noting s js a ign → waited s s' ign ign' → noting s' js a ign'.
Proof.
  intros [N1 N2 N3 N4 N5] [A1 A2 A3 A4 A5 A6 A7 A8 A9 A10]. split; try congruence.
  intros r Hr. destruct (N5 r Hr) as [Hi Hk]. split; [|done].
  destruct (A9 r) as [->|[-> _]]; [done|by eexists].
Qed.

(** An error the handler does not know ends the program. *)
Definition foreign (e : Z) (w : W) : Prop :=
  e ≠ PROC_SHRINK_PENDING ∧ PMPI_Error_class e w ≠ MPIX_ERR_PROC_FAILED.

Lemma handle_any r s js a ign :
  noting s js a ign →
  (∃ s' ign', handle r s = Done tt s' ∧ waited s s' ign ign' ∧ s_heap s' = s_heap s ∧ s_aggs s' = s_aggs s) ∨
  (∃ c e, r = Some (c, e) ∧ foreign e (s_world s) ∧ ∃ s', handle r s = Stop (Aborted 300) s').
Proof.
  intros Hn. pose proof (no_ign _ _ _ _ Hn) as Hi.
  destruct r as [[c e]|]; [|left; exists s, ign; by split_and!; [| apply waited_refl| |]].
  destruct (decide (e = PROC_SHRINK_PENDING ∨ PMPI_Error_class e (s_world s) = MPIX_ERR_PROC_FAILED)) as [He|He].
  - left. destruct (decide (c = rep_mpi_comm_world (node (s_globals s)))) as [->|Hc].
    + destruct (handle_failure dead who posts s js a ign e) as (s' & ign' & Hrun & Hsince & _); [|done|].
      { destruct Hn as [N1 N2 N3 N4 N5]. split; [done..|]. intros r Hr%(completing_dead (dead:=dead)).
        destruct (N5 r Hr) as [Hs Hk]. split; [|done].
        destruct Hs as [v [? ?%lookup_lt_Some]%aload_inv]. lia. }
      exists s', ign'. pose proof (handle_aggs _ _ _ Hrun). split; [exact Hrun|].
      destruct Hsince as [A1 A2 A3 A4 A5 A6 A7 A8 A9 A10 A11 A12 A13 A14].
      split; [|done]. split; try done; [by rewrite A5|by intros r; rewrite A9|by rewrite A9].
    + exists s, ign. split; [|by split; [apply waited_refl|]].
      unfold handle, on_mpi, zoom, rep_errhandler. cbn [bind gets ensure fst snd].
      assert ((if e =? PROC_SHRINK_PENDING then MPIX_ERR_PROC_FAILED else PMPI_Error_class e (s_world s)) =
        MPIX_ERR_PROC_FAILED) as -> by (destruct He as [-> | He]; [by rewrite Z.eqb_refl|by destruct (e =? _)]).
      rewrite Z.eqb_refl. cbn [bind fst snd]. rewrite (proj2 (Z.eqb_neq c _)) by done. cbn. by destruct s.
  - right. exists c, e. split; [done|]. split; [by split; tauto|].
    unfold handle, on_mpi, zoom, rep_errhandler. cbn [bind gets fst snd].
    rewrite (proj2 (Z.eqb_neq e _)) by tauto. rewrite (proj2 (Z.eqb_neq MPIX_ERR_PROC_FAILED _)) by (intros E; apply He; by right).
    cbn. by eexists.
Qed.

(** A call of [PMPI_Waitall] that raises an error of another kind. *)
Definition raises_foreign (s : sys W) (a : Z) : Prop := ∃ agg handles rc sts handles' m c e w,
  waiting s a agg handles ∧
  PMPI_Waitall handles (mem (s_heap s)) (s_world s) = (rc, sts, handles', m, Some (c, e), w) ∧ foreign e w.

Lemma waitall_any s a agg handles js r2j ign :
  waiting s a agg handles → noting s js r2j ign →
  (∃ rc sts s' agg' handles' ign', waitall a s = Done (rc, sts) s' ∧ waiting s' a agg' handles' ∧
     waited s s' ign ign' ∧ Forall (λ st, MPI_SOURCE st < size) sts) ∨
  (raises_foreign s a ∧ ∃ s', waitall a s = Stop (Aborted 300) s').
Proof.
  intros Hs Hn. pose proof Hs as [Ha Hr Hcount].
  pose proof (completing_waitall handles (mem (s_heap s)) (s_world s)) as Hw.
  destruct (PMPI_Waitall handles (mem (s_heap s)) (s_world s)) as [[[[[rc sts] hs'] m'] r] w'] eqn:E.
  destruct Hw as (Hlen & Hsts & Hdead).
  set (s1 := put_heap (set_mem m' (s_heap s)) (put_mpi (s_globals s, w') s)).
  assert (waitall a s = (handle r ;;; store_agg a (set_reqs (Some <$> hs') agg) ;;; ret (rc, sts)) s1) as ->.
  { unfold waitall, load_agg at 1. cbn [bind]. rewrite Ha. cbn [of_option bind].
    rewrite Hr. cbn [of_option bind]. rewrite Hcount, Nat2Z.id, take_ge by (by rewrite length_fmap).
    rewrite all_some_fmap. cbn [of_option bind]. unfold call_waitall. rewrite E. cbn [bind].
    fold s1. by destruct (handle r s1). }
  assert (waited s s1 ign ign) as Hfirst.
  { split; try done; [apply Hn|intros x; by left|by left]. }
  cbn [bind].
  destruct (handle_any r s1 js r2j ign (noting_since _ _ _ _ _ _ Hn Hfirst))
    as [(s' & ign' & Hrun & Hwt & Hheap & Haggs)|(c & e & -> & Hf & s' & Hrun)]; rewrite Hrun.
  - left. erewrite store_agg_run by (rewrite Haggs; exact Ha). cbn [ret].
    eexists rc, sts, _, (set_reqs (Some <$> hs') agg), hs', ign'. split; [reflexivity|].
    split; [split; [by apply lookup_insert_eq|done|by rewrite Hlen]|]. split; [|done].
    eapply waited_trans; [exact Hfirst|]. destruct Hwt; by split.
  - right. split; [by exists agg, handles, rc, sts, hs', m', c, e, w'|]. by exists s'.
Qed.

(** The calls of [PMPI_Waitall] that returned: the statuses of each, and the
    ignore list when it returned. *)
Inductive waits (a : Z) : list (list MPI_Status * list cell) → sys W → sys W → Prop :=
  | waits_nil s : waits a [] s s
  | waits_cons rc sts ign lls s s1 s2 :
      waitall a s = Done (rc, sts) s1 → rank_ignore_list (s_globals s1) = Some ign →
      waits a lls s1 s2 → waits a ((sts, ign) :: lls) s s2.

(** A call that brought no message. *)
Definition barren (l : list MPI_Status * list cell) : Prop := list_find (arrived l.2) l.1 = None.

(** How the loop ends after the calls [lls], of which [n] more were allowed. *)
Inductive wait_ends (a : Z) (n : nat) (lls : list (list MPI_Status * list cell)) (s' : sys W) :
    result (sys W) (Z * MPI_Status * list MPI_Status) → Prop :=
  | ends_message front l i st :
      lls = front ++ [l] → (length lls ≤ n)%nat → Forall barren front →
      list_find (arrived l.2) l.1 = Some (i, st) → wait_ends a n lls s' (Done (Z.of_nat i, st, l.1) s')
  | ends_exhausted :
      length lls = S n → Forall barren (take n lls) → wait_ends a n lls s' (Stop (Exited 999) s')
  | ends_foreign s'' :
      (length lls ≤ n)%nat → Forall barren lls → raises_foreign s' a → wait_ends a n lls s' (Stop (Aborted 300) s'').

Lemma wait_ends_cons a n l lls s' r : barren l → wait_ends a n lls s' r → wait_ends a (S n) (l :: lls) s' r.
Proof.
  intros Hl [front l' i st -> Hlen Hfr Hf|Hlen Hfr|s'' Hlen Hfr Hr].
  - eapply ends_message; [by rewrite app_comm_cons|simpl in *; lia|by constructor|done].
  - apply ends_exhausted; [simpl; lia|by constructor].
  - apply ends_foreign; [simpl; lia|by constructor|done].
Qed.

Lemma known_after s s' js r2j ign ign' sts :
  noting s js r2j ign → waited s s' ign ign' → Forall (λ st, MPI_SOURCE st < size) sts → known_sources ign' sts.
Proof.
  intros Hn Hw Hsts. eapply Forall_impl; [exact Hsts|]. intros st Hst Hp.
  by destruct (no_ranks _ _ _ _ (noting_since _ _ _ _ _ _ Hn Hw) (MPI_SOURCE st)).
Qed.

Lemma wait_loop_spec a js r2j n : ∀ fuel c s agg handles ign,
  waiting s a agg handles → noting s js r2j ign → c + Z.of_nat n = 5 → (n < fuel)%nat →
  ∃ lls s' ign', waits a lls s s' ∧ waited s s' ign ign' ∧ wait_ends a n lls s' (wait_loop fuel a c s).
Proof.
  induction n as [|n IH]; intros fuel c s agg handles ign Hs Hn Hc Hf; (destruct fuel as [|fuel]; [lia|]);
    cbn [wait_loop bind];
    (destruct (waitall_any s a agg handles js r2j ign Hs Hn)
      as [(rc & sts & s1 & agg' & hs' & ign1 & Hrun & Hs1 & Hw & Hsts)|(Hfo & s1 & Hrun)]; rewrite Hrun; cbn [bind];
     [|exists [], s, ign; split; [constructor|split; [apply waited_refl, (no_ign _ _ _ _ Hn)|apply ends_foreign; [simpl; lia|constructor|exact Hfo]]]]);
    rewrite (find_status_spec s1 ign1 sts 0 (wd_ign _ _ _ _ Hw) (known_after _ _ _ _ _ _ _ Hn Hw Hsts)); cbn [bind].
  - rewrite (proj2 (Z.ltb_lt 4 c)) by lia. cbn [negb ensure bind halt].
    exists [(sts, ign1)], s1, ign1. split; [|split; [done|by apply ends_exhausted]].
    econstructor; [exact Hrun|by apply Hw|constructor].
  - rewrite (proj2 (Z.ltb_ge 4 c)) by lia. cbn [negb ensure bind ret].
    destruct (list_find (arrived ign1) sts) as [[i st]|] eqn:E; cbn [fmap option_fmap option_map fst snd].
    + exists [(sts, ign1)], s1, ign1. split; [econstructor; [exact Hrun|by apply Hw|constructor]|]. split; [done|].
      exact (ends_message a (S n) [(sts, ign1)] s1 [] (sts, ign1) i st eq_refl ltac:(simpl; lia) (Forall_nil_2 _) E).
    + destruct (IH fuel (c + 1) s1 agg' hs' ign1 Hs1 (noting_since _ _ _ _ _ _ Hn Hw)) as (lls & s' & ign' & Hws & Hwd & Hends);
        [lia|lia|].
      exists ((sts, ign1) :: lls), s', ign'. split; [econstructor; [exact Hrun|by apply Hw|exact Hws]|].
      split; [by eapply waited_trans|by apply wait_ends_cons].
Qed.
End wait.

(** ** Properties *)

(** C19: the loop of [wait_for_agg_request] ends, after at most six
    [PMPI_Waitall], whatever errors they raise and whoever dies while it runs.
    It gives the first message, from a worker that is not marked by then, of
    the first of the first five calls that brings one; when they bring none the program exits with 999
    after the sixth, whatever that one brings; and an error that is no process
    failure aborts it with 300.  Failures are only noted: besides the world, the
    memory and the handles of the request, only marks of processes that are dead
    are new, and then the world is to be shrunk. *)
Theorem wait_loop_correct {W P} `{MpiConst} `{PmpiSplit W} `{Ulfm W} `{P2P W} `{Allocator}
    (dead : W → list Z) (who : W → Z) (posts : W → P) (size : Z) `{!Completing dead who posts size}
    (s : sys W) a agg handles js r2j ign :
  waiting s a agg handles → noting size s js r2j ign →
  ∃ lls s' ign', waits a lls s s' ∧ waited dead s s' ign ign' ∧ wait_ends a 5 lls s' (wait_loop 7 a 0 s).
Proof. intros Hs Hn. eapply (wait_loop_spec dead who posts size); [exact Hs|exact Hn|done|lia]. Qed.

(** ** Witness: four processes, some of them dead

    The world says of each process whether it is dead.  The request [100 + r]
    is a receive from process [r]; waiting for one from a dead process raises an
    error on the world communicator, and process 0 dies during the wait. *)
Abbreviation mortals := (list bool) (only parsing).
Definition dead_of (w : mortals) : list Z := filter (λ r, w !! Z.to_nat r = Some true) (seqZ 0 4).
Definition result_of (w : mortals) (h : Z) : MPI_Status :=
  let r := Z.min 3 (h - 100) in
  if decide (r ∈ dead_of w) then MkStatus r 0 75 else MkStatus r (SET_TAG r 7) 0.

#[local] Instance mortal_p2p : P2P mortals := {
  PMPI_Type_size _ _ := 1;
  PMPI_Send _ _ _ _ w := (0, None, w);
  PMPI_Recv _ _ _ _ _ m w := (0, MkStatus 0 0 0, m, None, w);
  PMPI_Irecv _ _ _ _ _ w := (0, 0, None, w);
  PMPI_Waitall hs m w :=
    let failed := existsb (λ st, MPI_ERROR st =? 75) (result_of w <$> hs) in
    (if failed then 18 else 0, result_of w <$> hs, replicate (length hs) 3, m,
     if failed then Some (10, 75) else None, <[0%nat := true]> w)
}.
#[local] Instance mortal_ulfm : Ulfm mortals := {
  PMPI_Error_class e _ := e;
  PMPIX_Comm_failure_get_acked _ w := (1, w);
  PMPIX_Comm_shrink c w := (c, w);
  PMPI_Comm_group c w := (c, w);
  PMPI_Group_size _ w := 4;
  PMPI_Group_translate_ranks _ l _ w := (λ r, if decide (r ∈ dead_of w) then r else MPI_UNDEFINED) <$> l;
  PMPI_Comm_free _ w := w;
  PMPI_Comm_dup c w := (c, w)
}.
#[local] Instance mortal_split : PmpiSplit mortals := {|
  PMPI_Comm_rank _ _ := 2;
  PMPI_Comm_size _ _ := 4;
  PMPI_Comm_split c _ _ w := (c, w)
|}.

#[local] Instance mortal_alloc : Allocator := bump.

#[local] Instance mortal_completing : Completing dead_of (λ _, 2) (λ _, tt) 4.
Proof.
  split.
  - intros c w. split; [|done]. intros r Hr. unfold failed_ranks in Hr. cbn [fst snd] in Hr.
    unfold noted in Hr. apply list_elem_of_filter in Hr as [Hu Hr].
    apply list_elem_of_fmap in Hr as (x & -> & _). by case_decide.
  - intros w r Hr. unfold dead_of in Hr. apply list_elem_of_filter in Hr as [_ Hr%elem_of_seqZ]. lia.
  - intros hs m w. cbn. split; [by rewrite length_replicate|]. split.
    + apply Forall_fmap, Forall_forall. intros h _. cbn. unfold result_of. case_decide; cbn; lia.
    + intros r. unfold dead_of. rewrite !list_elem_of_filter. intros [Hw Hr]. split; [|done].
      destruct (decide (Z.to_nat r = 0%nat)) as [E|E]; [|by rewrite list_lookup_insert_ne].
      rewrite E in Hw |- *. apply list_lookup_insert_eq. by eapply lookup_lt_Some.
Qed.

Definition mortal_sys : sys mortals :=
  MkSys (set_rank_ignore_list (Some (replicate 4 (Some 0))) (set_ignore_process_failure 1 net_globals))
    [false; true; false; false] net_heap 0 0 {[ 5000 := MkAgg 2 (Some [Some 101; Some 103]) [Some 1; Some 3] 6000 50000 2 NONE 7 ]}.

Lemma wait_loop_correct_witness : ∃ lls s' ign',
  waits 5000 lls mortal_sys s' ∧ waited dead_of mortal_sys s' (replicate 4 (Some 0)) ign' ∧
  wait_loop 7 5000 0 mortal_sys = Done (1, MkStatus 3 407 0, [MkStatus 1 0 75; MkStatus 3 407 0]) s'.
Proof.
  destruct (wait_loop_correct dead_of (λ _, 2) (λ _, tt) 4 mortal_sys 5000
    (MkAgg 2 (Some [Some 101; Some 103]) [Some 1; Some 3] 6000 50000 2 NONE 7) [101; 103] crash_jobs crash_r2j
    (replicate 4 (Some 0))) as (lls & s' & ign' & Hws & Hwd & Hends).
  - by split.
  - split; try done. intros r Hr. assert (r ∈ seqZ 0 4) as Hin by (apply elem_of_seqZ; lia).
    clear Hr. revert r Hin. apply Forall_forall.
    repeat (constructor; [split; [by eexists|eexists; split; [reflexivity|cbn; lia]]|]). constructor.
  - exists lls, s', ign'. split; [exact Hws|]. split; [exact Hwd|].
    assert (match wait_loop 7 5000 0 mortal_sys with
            | Done v _ => v = (1, MkStatus 3 407 0, [MkStatus 1 0 75; MkStatus 3 407 0]) | _ => False end) as Hv
      by (vm_compute; reflexivity).
    revert Hends Hv. generalize (wait_loop 7 5000 0 mortal_sys). intros r Hends Hv.
    destruct Hends; [by rewrite Hv|done|done].
Defined.
