(* ===== verification/Delivery.v ===== *)
(** * Messages between jobs that lost workers: [MPI_Send] and [MPI_Recv] of
    [src/mpi/init.c] with [rep_errhandler] of [src/mpi/ulfm.c]

    A receive from a dead worker fails, as a send to one does: the error
    handler notes the failure and the loop goes on with the next worker.  This
    file shows what a receive does for any set of dead processes, and that a
    message from one job to another arrives as long as one worker of the
    sending job lives. *)

From S2P Require Import Prelude Shared Mpi Memory MapFile Comm HeapSeg Ulfm PointToPoint Receive Faults.

Section delivery.
Context {W : Type} `{MpiConst} `{PmpiSplit W} `{Ulfm W} `{P2P W} `{Allocator}.

(** The network of [Faults] for all processes together.  A message that was
    posted can be received also when its sender died since; a receive from a
    dead process of which no message is left fails. *)
Class Lossy (dead : W → list Z) (who : W → Z) (posts : W → list post) (as_rank : Z → W → W) : Prop := {
  lossy_faulty :: Faulty dead who posts;
  lossy_inbox :: Inbox who posts;
  lossy_size d w w' : PMPI_Type_size d w = PMPI_Type_size d w';
  lossy_who i w : who (as_rank i w) = i;
  lossy_posts i w : posts (as_rank i w) = posts w;
  lossy_dead i w : dead (as_rank i w) = dead w;
  lossy_recv a n from t c m w : dead (PMPI_Recv a n from t c m w).2 = dead w;
  lossy_fail a n from t c m w : box from (who w) t (posts w) = [] → from ∈ dead w →
    let '(st, _, m', r, w') := PMPI_Recv a n from t c m w in m' = m ∧ fails_at dead who posts from c st r w w'
}.

Context (dead : W → list Z) (who : W → Z) (posts : W → list post) (as_rank : Z → W → W).
Context `{!Lossy dead who posts as_rank}.

(** The process with another memory. *)
Definition with_memory (m : memory) (s : sys W) : sys W := put_heap (set_mem m (s_heap s)) s.
Abbreviation noted_since := (noted_since dead who).

Lemma noted_since_memory m s s' ign ign' :
  noted_since s s' ign ign' → noted_since (with_memory m s) (with_memory m s') ign ign'.
Proof.
  intros [A1 A2 A3 A4 A5 A6 A7 A8 A9 A10 A11 A12 A13]. split; try done. cbn. by rewrite A5.
Qed.

(** What holds when the loop, from the state [s] on, went over the workers [qs]:
    a message of each that is reachable was taken. *)
Record swept_in (s s' : sys W) (ign ign' : list cell) (to tag : Z) (msg : Z → list mbyte) (qs : list Z) : Prop := {
  si_since : noted_since (with_memory (mem (s_heap s')) s) s' ign ign';
  si_taken : taken who posts s s' (reachable dead s ign qs) to tag msg;
  si_marked r : r ∈ qs → r ∈ dead (s_world s) → aload ign' r = Some 1;
  si_pending : lost_workers dead s ign qs ≠ [] → process_shrinking_pending (s_globals s') = 1
}.

(** What the loop is offered by the workers [qs]: a live one has a message
    waiting, a dead one has not. *)
Definition offered (s : sys W) (ign : list cell) (qs : list Z) (tag size : Z) (msg : Z → list mbyte) : Prop :=
  waits who posts s (reachable dead s ign qs) tag size msg ∧
  ∀ r, r ∈ lost_workers dead s ign qs → box r (who (s_world s)) (SET_TAG r tag) (posts (s_world s)) = [].

Lemma can_receive_since s s' job ign ign' buf to size source tag :
  can_receive s job ign buf to size source tag → noted_since s s' ign ign' →
  can_receive s' job ign' buf to size source tag.
Proof.
  intros [C1 C2 C3 C4 C5 C6 C7 C8] [A1 A2 A3 A4 A5 A6 A7 A8 A9 A10 A11 A12 A13].
  split; [by apply (load_job_same (s_globals s))|done|done| |by unfold receives_into in *; rewrite A5, A7|by rewrite A7
         |by rewrite A5|done].
  intros r Hr. destruct (A12 r) as [->|[-> _]]; [by apply C4|done].
Qed.

Lemma can_receive_memory s job ign buf to size source tag data m :
  can_receive s job ign buf to size source tag → Z.of_nat (length data) = size →
  store_bytes (mem (s_heap s)) to data = Some m → can_receive (with_memory m s) job ign buf to size source tag.
Proof. intros Hs Hlen Hm. exact (can_receive_next s job ign buf to size source tag data m (s_world s) Hs Hlen Hm). Qed.

(** *** One worker *)
Lemma offered_live s ign r tag size msg :
  offered s ign [r] tag size msg → aload ign r ≠ Some 1 → r ∉ dead (s_world s) → waits who posts s [r] tag size msg.
Proof.
  intros [Hw _] Hm Hd. rewrite reachable_cons, decide_True in Hw by done. exact Hw.
Qed.
Lemma offered_dead s ign r tag size msg :
  offered s ign [r] tag size msg → aload ign r ≠ Some 1 → r ∈ dead (s_world s) →
  box r (who (s_world s)) (SET_TAG r tag) (posts (s_world s)) = [].
Proof.
  intros [_ Hb] Hm Hd. apply Hb. unfold lost_workers. rewrite filter_cons, decide_True by done. by left.
Qed.

Lemma sweep_in_marked s ign r to tag msg :
  rank_ignore_list (s_globals s) = Some ign → aload ign r = Some 1 → swept_in s s ign ign to tag msg [r].
Proof.
  intros Hi Hm. split.
  - replace (with_memory _ s) with s by (by destruct s as [? ? [] ? ? ?]). by apply noted_since_refl.
  - rewrite reachable_cons, decide_False by tauto. by apply taken_none.
  - by intros ? ->%list_elem_of_singleton.
  - unfold lost_workers. rewrite filter_cons, decide_False by tauto. done.
Qed.

Lemma sweep_in_one s job js a ign buf to size source tag msg r :
  let c := rep_mpi_comm_world (node (s_globals s)) in
  can_receive s job ign buf to size source tag → known_dead dead s js a ign →
  aload ign r ≠ Some 1 → offered s ign [r] tag size msg →
  ∃ st status s' ign', call_recv to size r (SET_TAG r tag) c s = Done (st, status) s' ∧
    swept_in s s' ign ign' to tag msg [r] ∧ can_receive s' job ign' buf to size source tag ∧
    (r ∉ dead (s_world s) → st = MPI_SUCCESS ∧ ∃ e, status = MkStatus r (SET_TAG r tag) e).
Proof.
  intros c Hs Hk Hm Hoff. destruct (decide (r ∈ dead (s_world s))) as [Hd|Hd].
  - pose proof (offered_dead _ _ _ _ _ _ Hoff Hm Hd) as Hbox.
    pose proof (lossy_fail to size r (SET_TAG r tag) c (mem (s_heap s)) (s_world s) Hbox Hd) as Hfail.
    unfold call_recv. destruct (PMPI_Recv _ _ _ _ _ _ _) as [[[[st status] m'] e] w']. destruct Hfail as [-> Hfail].
    destruct (failed_call dead who posts s js a ign r st e w' Hk Hfail) as (s' & ign' & Hrun & Hsince & Hmark & Hposts & Hp & _).
    replace (put_heap _ _) with (put_mpi (s_globals s, w') s) by (by destruct s as [? ? [] ? ? ?]).
    exists st, status, s', ign'. cbn [bind]. rewrite Hrun. split; [done|].
    split; [|split; [by eapply can_receive_since|done]].
    pose proof (ns_heap _ _ _ _ _ _ Hsince) as Hh. split; [| |by intros ? ->%list_elem_of_singleton|done].
    + rewrite Hh. replace (with_memory _ s) with s by (by destruct s as [? ? [] ? ? ?]). done.
    + rewrite reachable_cons, decide_False by tauto. apply taken_none; [by apply (ns_who _ _ _ _ _ _ Hsince)|by rewrite Hh|done].
  - destruct (receive_waiting who posts s job ign buf to size source tag msg r c Hs) as (e & m & w & Hrecv & [_ Htook]).
    { by eapply offered_live. }
    exists MPI_SUCCESS, (MkStatus r (SET_TAG r tag) e), (put_message s m w), ign.
    assert (dead w = dead (s_world s)) as Hdw.
    { rewrite <-(lossy_recv to size r (SET_TAG r tag) c (mem (s_heap s)) (s_world s)). by rewrite Hrecv. }
    split; [by apply call_recv_run|]. split; [|split; [|intros _; split; [done|by exists e]]].
    + split; [|by rewrite reachable_cons, decide_True by done|by intros ? ->%list_elem_of_singleton|].
      * split; try done; [exact (tk_who _ _ _ _ _ _ _ _ Htook)|apply Hk|by left|by left].
      * unfold lost_workers. rewrite filter_cons, decide_False by tauto. done.
    + destruct (offered_live _ _ _ _ _ _ Hoff Hm Hd r ltac:(by left)) as [Hlen _].
      eapply can_receive_next; [exact Hs|exact Hlen|]. exact (tk_mem _ _ _ _ _ _ _ _ Htook).
Qed.

(** *** All workers *)
Lemma taken_skip s s1 s2 qs to tag msg :
  taken who posts s s1 [] to tag msg → taken who posts s1 s2 qs to tag msg → taken who posts s s2 qs to tag msg.
Proof.
  intros [A2 A3 A4] [B2 B3 B4]. cbn in A3.
  assert (∀ f o u, box f o u (posts (s_world s1)) = box f o u (posts (s_world s))) as Hbox.
  { intros f o u. rewrite A4, decide_False; [done|]. by intros (?%not_elem_of_nil & _). }
  split; [by rewrite B2|by rewrite <-A3|]. intros f o u. by rewrite B4, !Hbox, A2.
Qed.

Lemma swept_in_cons s s1 s2 i0 i1 i2 to tag size msg r qs :
  swept_in s s1 i0 i1 to tag msg [r] → swept_in s1 s2 i1 i2 to tag msg qs → r ∉ qs →
  offered s i0 (r :: qs) tag size msg → swept_in s s2 i0 i2 to tag msg (r :: qs).
Proof.
  intros [A1 A2 A3 A4] [B1 B2 B3 B4] Hr [Hwait _].
  assert (reachable dead s1 i1 qs = reachable dead s i0 qs) as Hre by exact (reachable_since dead who _ _ _ _ qs A1).
  assert (lost_workers dead s1 i0 qs = lost_workers dead s i0 qs) as Hlo.
  { unfold lost_workers. by rewrite (ns_dead _ _ _ _ _ _ A1). }
  rewrite Hre in B2. split.
  - eapply noted_since_trans; [|exact B1]. exact (noted_since_memory (mem (s_heap s2)) _ _ _ _ A1).
  - rewrite reachable_cons in A2, Hwait |- *.
    destruct (decide (aload i0 r ≠ Some 1 ∧ r ∉ dead (s_world s))) as [Hd|Hd]; [|by eapply taken_skip].
    eapply (taken_cons _ _ _ s1); [exact A2|exact B2| |].
    + intros Hq%list_elem_of_filter. tauto.
    + intros q Hq. destruct (Hwait r ltac:(by left)) as [Hl1 _]. destruct (Hwait q ltac:(by right)) as [Hl2 _]. lia.
  - intros x [->|Hx]%elem_of_cons Hd; [|apply B3; [done|by rewrite (ns_dead _ _ _ _ _ _ A1)]].
    eapply noted_since_mark; [exact B1|]. apply A3; [by left|done].
  - intros Hl. destruct (ns_pending _ _ _ _ _ _ B1) as [[_ Hp2]|]; [|done]. cbn in Hp2.
    destruct (ns_pending _ _ _ _ _ _ A1) as [[-> Hp1]|Hp1]; [|by rewrite Hp2].
    rewrite Hlo in B4. unfold lost_workers in Hl, B4, A4. rewrite filter_cons in Hl, A4.
    destruct (decide (aload i0 r ≠ Some 1 ∧ r ∈ dead (s_world s))) as [Hd|Hd]; [|by apply B4].
    rewrite Hp2. by apply A4.
Qed.

(** The offers of the workers that are left, after one of them. *)
Lemma offered_tail s s1 i0 i1 to tag size msg r qs :
  offered s i0 (r :: qs) tag size msg → swept_in s s1 i0 i1 to tag msg [r] → r ∉ qs →
  offered s1 i1 qs tag size msg.
Proof.
  intros [Hw Hb] [A1 [T1 T2 T3] A3 A4] Hr.
  assert (reachable dead s1 i1 qs = reachable dead s i0 qs) as Hre by exact (reachable_since dead who _ _ _ _ qs A1).
  assert (∀ q, q ∈ qs → box q (who (s_world s1)) (SET_TAG q tag) (posts (s_world s1)) =
                        box q (who (s_world s)) (SET_TAG q tag) (posts (s_world s))) as Hbox.
  { intros q Hq. rewrite T3, T1, decide_False; [done|]. intros [Hin _]. rewrite reachable_cons in Hin.
    destruct (decide _); [|by apply not_elem_of_nil in Hin]. cbn in Hin. apply list_elem_of_singleton in Hin as ->. done. }
  split.
  - rewrite Hre. intros q Hq. pose proof Hq as [_ Hin]%list_elem_of_filter. rewrite (Hbox q Hin). apply Hw.
    rewrite reachable_cons. apply elem_of_app. by right.
  - intros q Hq. pose proof Hq as [[Hm Hd] Hin]%list_elem_of_filter. rewrite (Hbox q Hin). apply Hb.
    unfold lost_workers. apply list_elem_of_filter. rewrite (ns_dead _ _ _ _ _ _ A1) in Hd. split; [|by right].
    split; [|done]. intros E. apply Hm. by eapply noted_since_mark.
Qed.

(** One turn of the loop. *)
Lemma recv_step_faults s job js a ign buf to size source tag msg ps r qs fuel st status :
  can_receive s job ign buf to size source tag → known_dead dead s js a ign →
  workers job = ps ++ r :: qs → offered s ign (r :: qs) tag size msg →
  ∃ st1 status1 s1 ign1,
    recv_loop (Datatypes.S fuel) buf size source tag MPI_COMM_WORLD (Z.of_nat (length ps)) st status s =
      recv_loop fuel buf size source tag MPI_COMM_WORLD (Z.of_nat (length (ps ++ [r]))) st1 status1 s1 ∧
    swept_in s s1 ign ign1 to tag msg [r] ∧ can_receive s1 job ign1 buf to size source tag ∧
    (aload ign r ≠ Some 1 → r ∉ dead (s_world s) →
      st1 = Some MPI_SUCCESS ∧ ∃ e, status1 = Some (MkStatus r (SET_TAG r tag) e)).
Proof.
  intros Hs Hk Hw Hoff. rewrite (recv_turn s job ign buf to size source tag ps r qs fuel st status Hs Hw). cbv zeta.
  destruct (decide (aload ign r = Some 1)) as [Hm|Hm].
  - exists st, status, s, ign. split; [done|]. split; [by apply sweep_in_marked; [apply Hk|]|done].
  - destruct (sweep_in_one s job js a ign buf to size source tag msg r Hs Hk Hm)
      as (st1 & status1 & s1 & ign1 & Hrun & Hsw & Hs1 & Hlive).
    { destruct Hoff as [H7 H8]. split; [intros q Hq; apply H7|intros q Hq; apply H8];
        unfold reachable, lost_workers in *; apply list_elem_of_filter in Hq as [? ->%list_elem_of_singleton];
        apply list_elem_of_filter; (split; [done|by left]). }
    exists (Some st1), (Some status1), s1, ign1. cbn [bind]. rewrite Hrun. split; [done|]. split; [done|]. split; [done|].
    intros _ Hd. destruct (Hlive Hd) as [-> [e ->]]. split; [done|by exists e].
Qed.

Lemma recv_loop_faults job js a buf to size source tag msg qs : ∀ ps fuel st status s ign,
  can_receive s job ign buf to size source tag → known_dead dead s js a ign →
  workers job = ps ++ qs → (length qs < fuel)%nat → NoDup qs → offered s ign qs tag size msg →
  ∃ res s' ign', recv_loop fuel buf size source tag MPI_COMM_WORLD (Z.of_nat (length ps)) st status s = Done res s' ∧
    swept_in s s' ign ign' to tag msg qs ∧
    match last qs with
    | Some q => aload ign q ≠ Some 1 → q ∉ dead (s_world s) →
        ∃ e, res = (Some MPI_SUCCESS, Some (MkStatus q (SET_TAG q tag) e))
    | None => res = (st, status)
    end.
Proof.
  induction qs as [|r qs IH]; intros ps fuel st status s ign Hs Hk Hw Hf Hnd Hoff;
    (destruct fuel as [|fuel]; [simpl in Hf; lia|]).
  - exists (st, status), s, ign. split; [|split; [|done]].
    + destruct Hs as [Hjob [n Hok] _ _ _ _ _ _]. cbn [recv_loop bind].
      by rewrite (on_globals_same _ _ _ Hjob), (worker_count_length _ _ Hok), Hw, app_nil_r, Z.ltb_irrefl.
    + split; [|by apply taken_none|by intros ? ?%not_elem_of_nil|done].
      replace (with_memory _ s) with s by (by destruct s as [? ? [] ? ? ?]). by apply noted_since_refl, Hk.
  - apply NoDup_cons in Hnd as [Hr Hnd].
    destruct (recv_step_faults s job js a ign buf to size source tag msg ps r qs fuel st status Hs Hk Hw Hoff)
      as (st1 & status1 & s1 & ign1 & -> & Hsw & Hs1 & Hres1).
    pose proof (si_since _ _ _ _ _ _ _ _ Hsw) as Hsince.
    destruct (IH (ps ++ [r]) fuel st1 status1 s1 ign1) as (res & s' & ign' & Hrun & Hsw' & Hres);
      [done| |by rewrite <-app_assoc|simpl in Hf; lia|done|by eapply offered_tail|].
    { eapply (known_dead_since dead who); [|exact Hsince]. destruct Hk. by split. }
    exists res, s', ign'. split; [exact Hrun|]. split; [by eapply swept_in_cons|]. rewrite last_cons.
    destruct (last qs) as [q|].
    + intros Hm Hd. apply Hres; [|by rewrite (ns_dead _ _ _ _ _ _ Hsince)].
      by destruct (ns_marks _ _ _ _ _ _ Hsince q) as [->|[_ ?]].
    + rewrite Hres. intros Hm Hd. destruct (Hres1 Hm Hd) as [-> [e ->]]. by exists e.
Qed.

(** *** The whole call *)
Lemma MPI_Recv_faults s job js a ign buf to count datatype source tag msg :
  let size := PMPI_Type_size datatype (s_world s) * count in
  let s0 := put_mpi (set_ignore_process_failure 1 (s_globals s), s_world s) s in
  can_receive s job ign buf to size source tag → NoDup (workers job) → known_dead dead s0 js a ign →
  offered s ign (workers job) tag size msg →
  ∃ res s' ign', MPI_Recv buf count datatype source tag MPI_COMM_WORLD s =
      Done res (put_mpi (set_ignore_process_failure 0 (s_globals s'), s_world s') s') ∧
    swept_in s0 s' ign ign' to tag msg (workers job) ∧
    (∀ q, last (workers job) = Some q → aload ign q ≠ Some 1 → q ∉ dead (s_world s) →
       ∃ e, res = (Some MPI_SUCCESS, Some (MkStatus q (SET_TAG q tag) e))).
Proof.
  intros size s0 Hs Hnd Hk Hoff. unfold MPI_Recv, set_ignoring.
  assert (can_receive s0 job ign buf to size source tag) as Hs0.
  { destruct Hs. split; try done. by apply (load_job_same (s_globals s)). }
  pose proof (cr_ok _ _ _ _ _ _ _ _ Hs) as [n Hok].
  destruct (recv_loop_faults job js a buf to size source tag msg (workers job) [] (workers_fuel job) None None s0 ign)
    as (res & s' & ign' & Hrun & Hsw & Hres); [done|done|done| |done|exact Hoff|].
  { unfold workers_fuel. rewrite (worker_count_length _ _ Hok). lia. }
  exists res, s', ign'. split; [|split; [exact Hsw|]].
  - cbn [bind]. rewrite (on_globals_run (modify (set_ignore_process_failure 1)) s tt _ eq_refl). cbn [bind gets]. fold s0.
    change (PMPI_Type_size datatype (s_world s0) * count) with size.
    rewrite (on_globals_same _ _ _ (cr_job _ _ _ _ _ _ _ _ Hs0)). cbn [bind].
    change (Z.of_nat (length (@nil Z))) with 0 in Hrun. rewrite Hrun. cbn [bind].
    by rewrite (on_globals_run (modify (set_ignore_process_failure 0)) _ tt _ eq_refl).
  - intros q Hq Hm Hd. rewrite Hq in Hres. by apply Hres.
Qed.

(** ** From the senders to the receiver *)

(** The workers of a job that a process does not take for dead, and that are not. *)
Definition reached (ign : list cell) (gone : list Z) (job : Job) : list Z :=
  filter (λ r, aload ign r ≠ Some 1 ∧ r ∉ gone) (workers job).

(** The process in a call, in a world with these dead processes. *)
Definition in_call (s : sys W) (w : W) : sys W := put_mpi (set_ignore_process_failure 1 (s_globals s), w) s.

Lemma known_dead_world s s' js a ign :
  known_dead dead s js a ign → s_globals s' = s_globals s → dead (s_world s') = dead (s_world s) →
  known_dead dead s' js a ign.
Proof. intros [K1 K2 K3 K4 K5] Eg Ed. split; rewrite ?Eg; try done. intros r. rewrite Ed. apply K5. Qed.

Lemma send_as_lossy p at_ count datatype dest tag w q job js a ign data :
  let size := PMPI_Type_size datatype w * count in
  INT_MIN ≤ size ≤ INT_MAX → INT_MIN ≤ size * worker_count job ≤ INT_MAX →
  sender (p q) q job ign (at_ q) size dest tag data → known_dead dead (in_call (p q) w) js a ign →
  let w' := send_as as_rank p at_ count datatype dest tag w q in
  posts w' = posts w ++ batch q (SET_TAG q tag) data (reached ign (dead w) job) ∧ dead w' = dead w.
Proof.
  intros size Hsz Htot [Hq Hs] Hk. cbv zeta. unfold send_as. set (s := in_world as_rank q (p q) w).
  assert (PMPI_Type_size datatype (s_world s) * count = size) as Hty by (unfold size; f_equal; apply lossy_size).
  destruct (MPI_Send_faults dead who posts s job js a ign (at_ q) count datatype dest tag data)
    as (st & s' & ign' & Hrun & Hsw & _); [by rewrite Hty|by rewrite Hty|by rewrite Hty; destruct Hs; split| |].
  { apply (known_dead_world (in_call (p q) w)); [done|done|]. cbn. by apply lossy_dead. }
  rewrite Hrun. cbn. destruct Hsw as [Hsince Hsent _ _]. cbn in Hsent. rewrite Hsent.
  rewrite (ns_dead _ _ _ _ _ _ Hsince). cbn. rewrite (lossy_dead (who := who) (posts := posts)), (lossy_posts (dead := dead) (who := who)), (lossy_who (dead := dead) (posts := posts)).
  split; [|done]. rewrite Hq. unfold reachable, reached. cbn. by rewrite (lossy_dead (who := who) (posts := posts)).
Qed.

Lemma sends_lossy p at_ count datatype dest tag job js a ign data L : ∀ w,
  let size := PMPI_Type_size datatype w * count in
  INT_MIN ≤ size ≤ INT_MAX → INT_MIN ≤ size * worker_count job ≤ INT_MAX →
  (∀ q, q ∈ L → sender (p q) q job (ign q) (at_ q) size dest tag data ∧ known_dead dead (in_call (p q) w) js a (ign q)) →
  let w' := foldl (send_as as_rank p at_ count datatype dest tag) w L in
  posts w' = posts w ++ concat ((λ q, batch q (SET_TAG q tag) data (reached (ign q) (dead w) job)) <$> L) ∧
  dead w' = dead w.
Proof.
  induction L as [|q L IH]; intros w size Hsz Htot Hs; [by rewrite app_nil_r|]. cbn [foldl]. cbv zeta.
  set (w1 := send_as _ _ _ _ _ _ _ w q).
  assert (PMPI_Type_size datatype w1 = PMPI_Type_size datatype w) as Hty by apply lossy_size.
  destruct (Hs q ltac:(by left)) as [Hq Hk].
  destruct (send_as_lossy p at_ count datatype dest tag w q job js a (ign q) data Hsz Htot Hq Hk) as [Hp Hd].
  fold w1 in Hp, Hd. destruct (IH w1) as [Hp' Hd']; [by rewrite Hty|by rewrite Hty| |].
  - intros q' Hq'. rewrite Hty. destruct (Hs q' ltac:(by right)) as [? Hk']. split; [done|].
    by apply (known_dead_world (in_call (p q') w)).
  - rewrite Hp', Hd', Hp, Hd. by rewrite fmap_cons, <-app_assoc.
Qed.

(** Nothing is posted by a process that does not send. *)
Lemma box_no_batch r me u tag (data : list mbyte) (live : Z → list Z) L :
  r ∉ L → box r me u (concat ((λ q, batch q (SET_TAG q tag) data (live q)) <$> L)) = [].
Proof.
  induction L as [|q L IH]; intros Hr; [done|]. rewrite fmap_cons. cbn [concat].
  rewrite box_app, IH by set_solver. rewrite app_nil_r. apply box_other, Forall_fmap, Forall_forall.
  intros x _ [= E]. destruct Hr. rewrite E. by left.
Qed.

Lemma exchange_lossy (p : Z → sys W) at_ jobD js a ign s jobS jsR aR ignS buf to w L count datatype source dest tag data :
  let me := rank (node (s_globals s)) in
  let size := PMPI_Type_size datatype w * count in
  0 ≤ size ≤ INT_MAX → size * worker_count jobD ≤ INT_MAX →
  NoDup (workers jobD) → NoDup (workers jobS) → L ≡ₚ reached ignS (dead w) jobS → L ≠ [] →
  (∀ q, q ∈ L → sender (p q) q jobD (ign q) (at_ q) size dest tag data ∧ known_dead dead (in_call (p q) w) js a (ign q) ∧
     me ∈ reached (ign q) (dead w) jobD) →
  (∀ q, q ∈ workers jobS → aload ignS q ≠ Some 1 → box q me (SET_TAG q tag) (posts w) = []) →
  can_receive s jobS ignS buf to size source tag → known_dead dead (in_call s w) jsR aR ignS →
  let w' := foldl (send_as as_rank p at_ count datatype dest tag) w L in
  ∃ res s' ign', MPI_Recv buf count datatype source tag MPI_COMM_WORLD (in_world as_rank me s w') =
      Done res (put_mpi (set_ignore_process_failure 0 (s_globals s'), s_world s') s') ∧
    swept_in (in_call s (as_rank me w')) s' ignS ign' to tag (λ _, data) (workers jobS) ∧
    (∀ q, last (workers jobS) = Some q → q ∈ L → res.1 = Some MPI_SUCCESS) ∧
    load_bytes (mem (s_heap s')) to (Z.to_nat size) = Some data ∧
    ∀ q, q ∈ workers jobS → aload ignS q ≠ Some 1 → box q me (SET_TAG q tag) (posts (s_world s')) = [].
Proof.
  intros me size Hsz Htot HndD HndS HL Hne Hs Hold Hr Hk w'.
  assert (0 ≤ worker_count jobD ∧ Z.of_nat (length data) = size) as [Hwc Hlen].
  { destruct L as [|q L]; [done|]. destruct (Hs q ltac:(left)) as ([_ Hsend] & _).
    destruct (cs_ok _ _ _ _ _ _ _ _ Hsend) as [n Hok]. rewrite (worker_count_length _ _ Hok). split; [lia|].
    destruct (cs_data _ _ _ _ _ _ _ _ Hsend) as (from & _ & Hload). apply load_bytes_length in Hload. lia. }
  destruct (sends_lossy p at_ count datatype dest tag jobD js a ign data L w) as [Hposts Hdead];
    [unfold INT_MIN; lia|fold size; unfold INT_MIN; nia|intros q Hq; by destruct (Hs q Hq) as (? & ? & _)|].
  fold w' in Hposts, Hdead.
  assert (NoDup L) as HndL by (rewrite HL; by apply NoDup_filter).
  assert (∀ q, q ∈ L → box q me (SET_TAG q tag) (posts w') = [data]) as Hbox.
  { intros q Hq. destruct (Hs q Hq) as (_ & _ & Hme). rewrite Hposts, box_app, Hold; [|by rewrite HL in Hq; apply list_elem_of_filter in Hq as [[? _] ?]..].
    apply (box_batches me tag data (λ q, reached (ign q) (dead w) jobD)); try done. by apply NoDup_filter. }
  assert (∀ q, q ∈ workers jobS → aload ignS q ≠ Some 1 → q ∉ L → box q me (SET_TAG q tag) (posts w') = []) as Hno.
  { intros q Hq Hm HqL. by rewrite Hposts, box_app, Hold, box_no_batch. }
  set (s1 := in_world as_rank me s w').
  assert (PMPI_Type_size datatype (s_world s1) * count = size) as Hty by (unfold size; f_equal; apply lossy_size).
  assert (who (s_world s1) = me ∧ posts (s_world s1) = posts w' ∧ dead (s_world s1) = dead w) as (Hwho & Hps & Hds).
  { cbn. rewrite (lossy_dead (who := who) (posts := posts)), Hdead, (lossy_posts (dead := dead) (who := who)).
    by rewrite (lossy_who (dead := dead) (posts := posts)). }
  assert (reachable dead s1 ignS (workers jobS) = reached ignS (dead w) jobS) as Hre by (unfold reachable; by rewrite Hds).
  destruct (MPI_Recv_faults s1 jobS jsR aR ignS buf to count datatype source tag (λ _, data))
    as (res & s' & ign' & Hrun & Hsw & Hres); [by rewrite Hty; destruct Hr; split|done| | |].
  { apply (known_dead_world (in_call s w)); [done|done|exact Hds]. }
  { rewrite Hty. split; [unfold waits|intros q [[Hm Hd] Hq]%list_elem_of_filter]; rewrite Hwho, Hps.
    - intros q Hq. split; [done|]. exists []. apply Hbox. by rewrite HL, <-Hre.
    - apply Hno; [done|done|]. rewrite HL. intros [[_ Hn] _]%list_elem_of_filter. by rewrite Hds in Hd. }
  exists res, s', ign'. split; [exact Hrun|]. split; [exact Hsw|]. destruct Hsw as [_ [_ Hmem Hb] _ _].
  change (reachable dead _ ignS (workers jobS)) with (reachable dead s1 ignS (workers jobS)) in Hmem, Hb. rewrite Hre in Hmem, Hb.
  split; [|split].
  - intros q Hq HqL. rewrite HL in HqL. apply list_elem_of_filter in HqL as [[Hm Hd] _].
    destruct (Hres q Hq Hm) as [e ->]; [by rewrite Hds|done].
  - destruct (last (reached ignS (dead w) jobS)) as [q|] eqn:El.
    + replace (Z.to_nat size) with (length data) by lia. by eapply load_store_bytes.
    + apply last_None in El. rewrite El in HL. by apply Permutation_nil_r in HL.
  - intros q Hq Hm. cbn [put_mpi s_world fst snd] in Hb. rewrite Hwho, Hps in Hb. rewrite Hb.
    destruct (decide (q ∈ L)) as [HqL|HqL]; [|case_decide; by rewrite Hno].
    rewrite Hbox by done. by rewrite decide_True by (by rewrite <-HL).
Qed.
End delivery.

(** ** Properties *)

(** C17: [MPI_Recv] gets past dead workers.  Whatever set of processes is dead, if a
    message of each live worker of the source waits, and none of a dead one,
    the call returns: exactly one message of each worker that is neither dead
    nor marked is taken, and the buffer holds the last of them; every dead
    worker is marked then, nobody else is marked, and if a new one was found
    the world is to be shrunk at the next collective call; the node, the jobs
    and the rest of the heap are as they were.  If the last worker lives the status is
    that of its message. *)
Theorem MPI_Recv_survives {W} `{MpiConst} `{PmpiSplit W} `{Ulfm W} `{P2P W} `{Allocator}
    dead who posts as_rank `{!Lossy (W := W) dead who posts as_rank}
    s job js a ign buf to count datatype source tag msg :
  let size := PMPI_Type_size datatype (s_world s) * count in
  let s0 := in_call s (s_world s) in
  can_receive s job ign buf to size source tag → NoDup (workers job) → known_dead dead s0 js a ign →
  offered dead who posts s ign (workers job) tag size msg →
  ∃ res s' ign', MPI_Recv buf count datatype source tag MPI_COMM_WORLD s =
      Done res (put_mpi (set_ignore_process_failure 0 (s_globals s'), s_world s') s') ∧
    swept_in dead who posts s0 s' ign ign' to tag msg (workers job) ∧
    (∀ q, last (workers job) = Some q → aload ign q ≠ Some 1 → q ∉ dead (s_world s) →
       ∃ e, res = (Some MPI_SUCCESS, Some (MkStatus q (SET_TAG q tag) e))).
Proof. apply (MPI_Recv_faults dead who posts as_rank). Qed.

(** C6: a message between two replicated jobs that both lost workers arrives.  The
    workers of a job that live and are not taken for dead call [MPI_Send] with
    the same data, in any order, getting past the dead workers of the other job;
    each worker of that job that they reach then gets the data from
    [MPI_Recv], getting past the dead senders; the receive marks those, nothing
    of this exchange is left for a later receive, and it returns success if
    the last worker of the sending job is one that sent. *)
Theorem exchange_survives {W} `{MpiConst} `{PmpiSplit W} `{Ulfm W} `{P2P W} `{Allocator}
    dead who posts as_rank `{!Lossy (W := W) dead who posts as_rank}
    (p : Z → sys W) at_ jobD js a ign s jobS jsR aR ignS buf to w L count datatype source dest tag data :
  let me := rank (node (s_globals s)) in
  let size := PMPI_Type_size datatype w * count in
  0 ≤ size ≤ INT_MAX → size * worker_count jobD ≤ INT_MAX →
  NoDup (workers jobD) → NoDup (workers jobS) → L ≡ₚ reached ignS (dead w) jobS → L ≠ [] →
  (∀ q, q ∈ L → sender (p q) q jobD (ign q) (at_ q) size dest tag data ∧ known_dead dead (in_call (p q) w) js a (ign q) ∧
     me ∈ reached (ign q) (dead w) jobD) →
  (∀ q, q ∈ workers jobS → aload ignS q ≠ Some 1 → box q me (SET_TAG q tag) (posts w) = []) →
  can_receive s jobS ignS buf to size source tag → known_dead dead (in_call s w) jsR aR ignS →
  let w' := foldl (send_as as_rank p at_ count datatype dest tag) w L in
  ∃ res s' ign', MPI_Recv buf count datatype source tag MPI_COMM_WORLD (in_world as_rank me s w') =
      Done res (put_mpi (set_ignore_process_failure 0 (s_globals s'), s_world s') s') ∧
    swept_in dead who posts (in_call s (as_rank me w')) s' ignS ign' to tag (λ _, data) (workers jobS) ∧
    (∀ q, last (workers jobS) = Some q → q ∈ L → res.1 = Some MPI_SUCCESS) ∧
    load_bytes (mem (s_heap s')) to (Z.to_nat size) = Some data ∧
    ∀ q, q ∈ workers jobS → aload ignS q ≠ Some 1 → box q me (SET_TAG q tag) (posts (s_world s')) = [].
Proof. apply (exchange_lossy dead who posts as_rank). Qed.

(** ** Witnesses *)
#[local] Existing Instances faulty_p2p faulty_ulfm faulty_split faulty_alloc faulty_faulty.

Definition fn_dead (w : faulty_net) : list Z := noted (fn_failed w).
Definition fn_as (i : Z) (w : faulty_net) : faulty_net := FaultyNet (fn_failed w) i (fn_posts w).

Lemma take_first_none f o u l : box f o u l = [] → take_first (f, (o, u)) l = None.
Proof.
  induction l as [|p l IH]; [done|]. unfold box. rewrite filter_cons. cbn [take_first].
  destruct (decide ((p.1, p.2.1) = (f, (o, u)))); [done|]. intros E. by rewrite (IH E).
Qed.

#[local] Instance faulty_lossy : Lossy fn_dead fn_who fn_posts fn_as.
Proof.
  split; try done.
  - exact faulty_faulty.
  - intros a n from t c m w data rest m' Hbox _ Hm. exists 0.
    destruct (take_first_box _ _ _ _ _ _ Hbox) as (l' & Htake & Hl').
    eexists. cbn. rewrite Htake, Hm. split; [reflexivity|]. by split.
  - intros a n from t c m w. cbn. by destruct (take_first _ _) as [[]|].
  - intros a n from t c m w Hbox Hd. cbn. rewrite (take_first_none _ _ _ _ Hbox). unfold fn_dead in Hd.
    rewrite decide_True by done. split; [done|]. exists 75. split_and!; try done. by rewrite (detected c w).
Qed.

(** Processes 0 and 1 are dead; process 3 of job 1 sends two bytes to job 0, of
    which process 2 is left. *)
Definition left_over (q : Z) (b : Byte.byte) : sys faulty_net :=
  MkSys (set_rank_ignore_list (Some (replicate 4 (Some 0))) (set_node (set_rank q (node net_globals)) net_globals))
    (FaultyNet [0; 1] q []) (set_mem (list_to_map [(50000, Some b); (50001, Some b)]) heap_init) 0 0 ∅.

Lemma left_over_known q b w : fn_dead w = [0; 1] →
  known_dead fn_dead (in_call (left_over q b) w) crash_jobs crash_r2j (replicate 4 (Some 0)).
Proof.
  intros Hw. split; try done. cbn. intros r Hr. rewrite Hw in Hr.
  assert (r = 0 ∨ r = 1) as [-> | ->] by set_solver; (split; [done|]); by eexists.
Qed.

Lemma left_over_sends q : 0 ≤ q < 4 →
  sender (left_over q Byte.x07) q job0 (replicate 4 (Some 0)) 50000 2 0 5 [Some Byte.x07; Some Byte.x07].
Proof.
  intros Hq. split; [done|]. destruct (party_sends q Hq) as [_ [C1 C2 C3 C4 C5 C6]]. by split.
Qed.

Lemma left_over_receives : can_receive (left_over 2 Byte.x00) job1 (replicate 4 (Some 0)) 50000 50000 2 1 5.
Proof. destruct party_receives as [C1 C2 C3 C4 C5 C6 C7 C8]. by split. Qed.

Lemma exchange_survives_witness : ∃ res s' ign',
  MPI_Recv 50000 2 0 1 5 MPI_COMM_WORLD
    (in_world fn_as 2 (left_over 2 Byte.x00)
       (foldl (send_as fn_as (λ q, left_over q Byte.x07) (λ _, 50000) 2 0 0 5) (FaultyNet [0; 1] 0 []) [3])) =
    Done res (put_mpi (set_ignore_process_failure 0 (s_globals s'), s_world s') s') ∧
  res.1 = Some 0 ∧ load_bytes (mem (s_heap s')) 50000 2 = Some [Some Byte.x07; Some Byte.x07] ∧
  aload ign' 1 = Some 1 ∧ rank_ignore_list (s_globals s') = Some ign'.
Proof.
  destruct (exchange_survives fn_dead fn_who fn_posts fn_as (λ q, left_over q Byte.x07) (λ _, 50000) job0 crash_jobs crash_r2j
    (λ _, replicate 4 (Some 0)) (left_over 2 Byte.x00) job1 crash_jobs crash_r2j (replicate 4 (Some 0)) 50000 50000
    (FaultyNet [0; 1] 0 []) [3] 2 0 1 0 5 [Some Byte.x07; Some Byte.x07])
    as (res & s' & ign' & Hrun & [Hsi _ Hmark _] & Hres & Hload & _).
  - by vm_compute.
  - by vm_compute.
  - apply (bool_decide_unpack _). by vm_compute.
  - apply (bool_decide_unpack _). by vm_compute.
  - apply (bool_decide_unpack _). by vm_compute.
  - done.
  - intros q ->%list_elem_of_singleton. split; [by apply left_over_sends|]. split; [by apply left_over_known|].
    apply (bool_decide_unpack _). by vm_compute.
  - done.
  - exact left_over_receives.
  - by apply left_over_known.
  - exists res, s', ign'. split; [exact Hrun|]. split; [apply (Hres 3); [done|by left]|]. split; [exact Hload|].
    split; [|exact (ns_ign _ _ _ _ _ _ Hsi)]. apply Hmark; apply (bool_decide_unpack _); by vm_compute.
Defined.

Lemma MPI_Recv_survives_witness :
  let s := in_call (left_over 2 Byte.x00) (FaultyNet [0; 1] 2 [(3, (2, 405, [Some Byte.x09; Some Byte.x08]))]) in
  ∃ e s' ign', MPI_Recv 50000 2 0 1 5 MPI_COMM_WORLD s =
      Done (Some 0, Some (MkStatus 3 405 e)) (put_mpi (set_ignore_process_failure 0 (s_globals s'), s_world s') s') ∧
    box 3 2 405 (fn_posts (s_world s')) = [] ∧ aload ign' 1 = Some 1 ∧ process_shrinking_pending (s_globals s') = 1.
Proof.
  intros s.
  destruct (MPI_Recv_survives fn_dead fn_who fn_posts fn_as s job1 crash_jobs crash_r2j (replicate 4 (Some 0)) 50000 50000 2 0 1 5
    (λ _, [Some Byte.x09; Some Byte.x08])) as (res & s' & ign' & Hrun & [_ [_ _ Hbox] Hmark Hp] & Hres).
  - destruct left_over_receives. by split.
  - apply (bool_decide_unpack _). by vm_compute.
  - by apply left_over_known.
  - split.
    + intros q Hq. change (reachable _ _ _ _) with [3] in Hq. apply list_elem_of_singleton in Hq as ->.
      split; [reflexivity|by eexists].
    + intros q Hq. change (lost_workers _ _ _ _) with [1] in Hq. apply list_elem_of_singleton in Hq as ->. reflexivity.
  - destruct (Hres 3) as [e ->]; [done|done|apply (bool_decide_unpack _); by vm_compute|].
    exists e, s', ign'. split; [exact Hrun|]. split; [rewrite Hbox; reflexivity|].
    split; [apply Hmark; apply (bool_decide_unpack _); by vm_compute|by apply Hp].
Defined.
