(* ===== verification/Pending.v ===== *)
(** * Receives posted while workers are dead: [MPI_Irecv] of
    [src/mpi/init.c] with [rep_errhandler] of [src/mpi/ulfm.c]

    When [PMPI_Irecv] from a dead worker fails, the error handler notes who
    failed, and the loop posts the receive from the same worker again ([i--]):
    by then the worker is marked, and its slot gets [MPI_REQUEST_NULL].  This
    file shows that the loop ends after at most two turns for each worker, and
    what each slot of the aggregate request holds then, for any set of dead
    processes. *)

From S2P Require Import Prelude Shared Mpi Memory MapFile Comm HeapSeg Ulfm PointToPoint Receive Faults.

(** A receive that was posted: the buffer and its size, the source and the tag,
    and the request MPI gave for it. *)
Record receipt : Type := Receipt { rc_buf : Z; rc_size : Z; rc_source : Z; rc_tag : Z; rc_req : Z }.

(** What the loop made of each worker: the request of the receive from it, or
    [None] for a worker that was passed over. *)
Abbreviation outcome := (Z * option Z)%type.

Definition slots `{MpiConst} (rs : list outcome) : list Z := (λ p, default MPI_REQUEST_NULL p.2) <$> rs.

(** The receives of the workers from the [i]-th on, each into a place of its own. *)
Fixpoint receipts (base size tag i : Z) (rs : list outcome) : list receipt :=
  match rs with
  | [] => []
  | (r, o) :: rs =>
      (if o is Some req then [Receipt (base + i * size) size r (SET_TAG r tag) req] else []) ++
      receipts base size tag (i + 1) rs
  end.

Lemma take_insert_here {A} k (x : A) l : (k < length l)%nat → take (S k) (<[k := x]> l) = take k l ++ [x].
Proof.
  intros Hk. rewrite (take_S_r _ _ x) by (by apply list_lookup_insert_eq).
  by rewrite take_insert_ge by done.
Qed.

Section pending.
Context {W : Type} `{MpiConst} `{!MpiConstLaws} `{PmpiSplit W} `{Ulfm W} `{P2P W} `{Allocator}.

(** A network on which a receive can be posted, unless it is one from a dead
    process; that may be posted too, or fail. *)
Class Pledging (dead : W → list Z) (who : W → Z) (posted : W → list receipt) : Prop := {
  pledging_detector :: Detector dead who posted;
  pledging_irecv buf n from t c w :
    let '(st, req, e, w') := PMPI_Irecv buf n from t c w in
    from ∈ dead w ∧ fails_at dead who posted from c st e w w' ∨
    st = MPI_SUCCESS ∧ e = None ∧ dead w' = dead w ∧ who w' = who w ∧
      posted w' = posted w ++ [Receipt buf n from t req]
}.

Context (dead : W → list Z) (who : W → Z) (posted : W → list receipt) `{!Pledging dead who posted}.
Abbreviation known_dead := (known_dead dead).
Abbreviation noted_since := (noted_since dead who).

(** What the loop needs to know of the job it receives from. *)
Record can_post (s : sys W) (job : Job) (ign : list cell) (source tag : Z) : Prop := {
  cp_source : 0 ≤ source;
  cp_job : load_job source (s_globals s) = Done job (s_globals s);
  cp_ok : ∃ n, job_ok n job;
  cp_ign : rank_ignore_list (s_globals s) = Some ign;
  cp_known r : r ∈ workers job → is_Some (aload ign r) ∧ INT_MIN ≤ SET_TAG r tag ≤ INT_MAX
}.

Lemma can_post_since s s' job ign ign' source tag :
  can_post s job ign source tag → noted_since s s' ign ign' → can_post s' job ign' source tag.
Proof.
  intros [C1 C2 C3 C4 C5] Hn. split; [done| |done|by apply (ns_ign _ _ _ _ _ _ Hn)|].
  - apply (load_job_same (s_globals s)); [by apply (ns_jobs _ _ _ _ _ _ Hn)|done].
  - intros r Hr. destruct (ns_marks _ _ _ _ _ _ Hn r) as [->|[-> _]]; [by apply C5|].
    split; [done|by apply C5].
Qed.

(** The worker whose turn it is. *)
Lemma post_source s job ign source tag (rs : list outcome) r qs :
  can_post s job ign source tag → workers job = rs.*1 ++ r :: qs →
  source_at s source (Z.of_nat (length rs)) r ∧ skipped (s_globals s) r = bool_decide (aload ign r = Some 1) ∧
  INT_MIN ≤ SET_TAG r tag ≤ INT_MAX.
Proof.
  intros [C1 C2 [n C3] C4 C5] Hw.
  assert (workers job !! length rs = Some r) as Hr.
  { rewrite Hw, lookup_app_r by (rewrite length_fmap; lia). by rewrite length_fmap, Nat.sub_diag. }
  destruct (C5 r (list_elem_of_lookup_2 _ _ _ Hr)) as [Hv Ht].
  destruct (worker_source s n job ign source (length rs) r) as [? ?]; [done..|]. done.
Qed.

(** The request [a] when the workers of [rs] had their turn. *)
Definition stage (s : sys W) (a wc : Z) (agg : Aggregate_Request) (rs : list outcome) : Prop :=
  ∃ l nr, s_aggs s !! a = Some (with_slots l nr agg) ∧ Z.of_nat (length l) = wc ∧ Z.of_nat (length nr) = wc ∧
    take (length rs) l = Some <$> slots rs ∧ take (length rs) nr = Some <$> rs.*1.

Lemma stage_next s a wc agg rs l nr r o :
  Z.of_nat (length rs) < wc → Z.of_nat (length l) = wc → Z.of_nat (length nr) = wc →
  take (length rs) l = Some <$> slots rs → take (length rs) nr = Some <$> rs.*1 →
  s_aggs s !! a = Some (with_slots (<[length rs := Some (default MPI_REQUEST_NULL o)]> l) (<[length rs := Some r]> nr) agg) →
  stage s a wc agg (rs ++ [(r, o)]).
Proof.
  intros Hlt Hl Hnr Hsl Hso Ha. eexists _, _. split; [exact Ha|]. rewrite !length_insert. split; [done|]. split; [done|].
  rewrite length_app, Nat.add_1_r, !take_insert_here by lia. rewrite Hsl, Hso. unfold slots. by rewrite !fmap_app.
Qed.

(** What the turns of the workers [rs], from the [i]-th on, do. *)
Record pledged (s s' : sys W) (ign ign' : list cell) (base size tag i : Z) (rs : list outcome) : Prop := {
  pl_since : noted_since s s' ign ign';
  pl_posted : posted (s_world s') = posted (s_world s) ++ receipts base size tag i rs;
  pl_marks : Forall (λ p, if p.2 is Some _ then aload ign p.1 ≠ Some 1 else aload ign' p.1 = Some 1) rs
}.

Lemma pledged_none s s' ign ign' base size tag i r :
  noted_since s s' ign ign' → posted (s_world s') = posted (s_world s) → aload ign' r = Some 1 →
  pledged s s' ign ign' base size tag i [(r, None)].
Proof. intros Hn Hp Hm. split; [done|by rewrite Hp, app_nil_r|by repeat constructor]. Qed.

Lemma receipts_app base size tag rs1 : ∀ i rs2,
  receipts base size tag i (rs1 ++ rs2) =
  receipts base size tag i rs1 ++ receipts base size tag (i + Z.of_nat (length rs1)) rs2.
Proof.
  induction rs1 as [|[r o] rs1 IH]; intros i rs2; [by cbn; rewrite Z.add_0_r|].
  cbn [receipts app length]. rewrite IH, app_assoc. do 2 f_equal. lia.
Qed.

Lemma pledged_app s s1 s2 i0 i1 i2 base size tag i rs1 rs2 :
  pledged s s1 i0 i1 base size tag i rs1 →
  pledged s1 s2 i1 i2 base size tag (i + Z.of_nat (length rs1)) rs2 →
  pledged s s2 i0 i2 base size tag i (rs1 ++ rs2).
Proof.
  intros [A1 A2 A3] [B1 B2 B3]. split; [by eapply noted_since_trans|by rewrite B2, A2, receipts_app, app_assoc|].
  apply Forall_app. split; (eapply Forall_impl; [eassumption|]); intros [r [q|]]; cbn; [done| | |done].
  - by apply (noted_since_mark _ _ _ _ _ _ _ B1).
  - intros Hr Hm. apply Hr. by apply (noted_since_mark _ _ _ _ _ _ _ A1).
Qed.

(** Only the request changes. *)
Lemma noted_since_aggs s s' ign ign' m : noted_since s s' ign ign' → noted_since s (put_aggs m s') ign ign'.
Proof. intros []. by split. Qed.
Lemma noted_since_aggs_l s s' ign ign' m : noted_since (put_aggs m s) s' ign ign' → noted_since s s' ign ign'.
Proof. intros []. by split. Qed.
Lemma known_dead_aggs s js a ign m : known_dead s js a ign → known_dead (put_aggs m s) js a ign.
Proof. intros []. by split. Qed.

(** *** One worker *)

(** It is marked, or was by a turn before. *)
Lemma post_marked s job ign a agg source tag wc rs r qs st size :
  can_post s job ign source tag → workers job = rs.*1 ++ r :: qs → wc = Z.of_nat (length (workers job)) →
  stage s a wc agg rs → aload ign r = Some 1 →
  ∃ m, (∀ fuel, irecv_loop (S fuel) a size source tag MPI_COMM_WORLD wc (Z.of_nat (length rs)) st s =
      irecv_loop fuel a size source tag MPI_COMM_WORLD wc (Z.of_nat (length (rs ++ [(r, None)]))) st (put_aggs m s)) ∧
    stage (put_aggs m s) a wc agg (rs ++ [(r, None)]).
Proof.
  intros Hs Hw Hwc (l & nr & Ha & Hl & Hnr & Hsl & Hso) Hm.
  destruct (post_source _ _ _ _ _ _ _ _ Hs Hw) as (Hsrc & Hsk & Ht).
  assert (Z.of_nat (length rs) < wc) as Hlt by (rewrite Hwc, Hw, length_app, length_fmap; simpl; lia).
  eexists. split.
  - intros fuel. rewrite (irecv_turn _ _ _ _ _ _ (Z.of_nat (length rs)) _ _ _ _ _ _ Ha Hl Hnr ltac:(lia) Hsrc Ht). cbv zeta.
    rewrite Hsk, bool_decide_eq_true_2, Nat2Z.id by done. f_equal. rewrite length_app. simpl. lia.
  - eapply stage_next; [exact Hlt|exact Hl|exact Hnr|done|done|]. apply lookup_insert_eq.
Qed.

(** It is not: the state after the call, when the handler is done. *)
Lemma post_call s job ign a agg source tag wc rs r qs st st1 req e w' :
  can_post s job ign source tag → workers job = rs.*1 ++ r :: qs → wc = Z.of_nat (length (workers job)) →
  stage s a wc agg rs → aload ign r ≠ Some 1 →
  PMPI_Irecv (temp_buffer agg + Z.of_nat (length rs) * buffer_size agg) (buffer_size agg) r (SET_TAG r tag)
    (rep_mpi_comm_world (node (s_globals s))) (s_world s) = (st1, req, e, w') →
  ∃ m, ∀ s1, handle e (put_mpi (s_globals s, w') (put_aggs m s)) = Done tt s1 →
    ∃ m2, (∀ fuel, irecv_loop (S fuel) a (buffer_size agg) source tag MPI_COMM_WORLD wc (Z.of_nat (length rs)) st s =
        irecv_loop fuel a (buffer_size agg) source tag MPI_COMM_WORLD wc
          (if st1 =? MPI_SUCCESS then Z.of_nat (length rs) + 1 else Z.of_nat (length rs)) (Some st1) (put_aggs m2 s1)) ∧
      stage (put_aggs m2 s1) a wc agg rs ∧ stage (put_aggs m2 s1) a wc agg (rs ++ [(r, Some req)]).
Proof.
  intros Hs Hw Hwc (l & nr & Ha & Hl & Hnr & Hsl & Hso) Hm Hcall.
  destruct (post_source _ _ _ _ _ _ _ _ Hs Hw) as (Hsrc & Hsk & Ht).
  assert (Z.of_nat (length rs) < wc) as Hlt by (rewrite Hwc, Hw, length_app, length_fmap; simpl; lia).
  exists (<[a := with_slots l (<[length rs := Some r]> nr) agg]> (s_aggs s)). intros s1 Hh.
  pose proof (handle_aggs _ _ _ Hh) as Haggs.
  exists (<[a := with_slots (<[length rs := Some req]> l) (<[length rs := Some r]> nr) agg]> (s_aggs s1)). split_and!.
  - intros fuel. rewrite (irecv_turn _ _ _ _ _ _ (Z.of_nat (length rs)) _ _ _ _ _ _ Ha Hl Hnr ltac:(lia) Hsrc Ht). cbv zeta.
    rewrite Hsk, bool_decide_eq_false_2, Nat2Z.id by done. cbn [bind]. unfold call_irecv.
    cbn [s_world s_globals put_aggs]. rewrite Hcall. cbn [bind]. rewrite Hh. cbn [bind ret].
    by erewrite store_agg_run by (rewrite Haggs; apply lookup_insert_eq).
  - eexists _, _. split; [apply lookup_insert_eq|]. by rewrite !length_insert, !take_insert_ge.
  - eapply stage_next; [exact Hlt|exact Hl|exact Hnr|done|done|]. apply lookup_insert_eq.
Qed.

Lemma post_one s job js a' ign a agg source tag wc rs r qs st :
  can_post s job ign source tag → known_dead s js a' ign → workers job = rs.*1 ++ r :: qs →
  wc = Z.of_nat (length (workers job)) → stage s a wc agg rs →
  ∃ turns o st' s' ign', (turns ≤ 2)%nat ∧
    (∀ fuel, irecv_loop (turns + fuel) a (buffer_size agg) source tag MPI_COMM_WORLD wc (Z.of_nat (length rs)) st s =
       irecv_loop fuel a (buffer_size agg) source tag MPI_COMM_WORLD wc (Z.of_nat (length (rs ++ [(r, o)]))) st' s') ∧
    pledged s s' ign ign' (temp_buffer agg) (buffer_size agg) tag (Z.of_nat (length rs)) [(r, o)] ∧
    stage s' a wc agg (rs ++ [(r, o)]) ∧
    (aload ign r ≠ Some 1 → r ∉ dead (s_world s) → st' = Some MPI_SUCCESS).
Proof.
  intros Hs Hk Hw Hwc Hst. destruct (decide (aload ign r = Some 1)) as [Hm|Hm].
  { destruct (post_marked s job ign a agg source tag wc rs r qs st (buffer_size agg) Hs Hw Hwc Hst Hm) as (m & Hrun & Hst').
    exists 1%nat, None, st, (put_aggs m s), ign. split; [lia|]. split; [exact Hrun|]. split; [|done].
    apply pledged_none; [|done|done]. apply noted_since_aggs, noted_since_refl, Hs. }
  set (c := rep_mpi_comm_world (node (s_globals s))). set (b := temp_buffer agg + Z.of_nat (length rs) * buffer_size agg).
  pose proof (pledging_irecv b (buffer_size agg) r (SET_TAG r tag) c (s_world s)) as Hcall.
  destruct (PMPI_Irecv _ _ _ _ _ _) as [[[st1 req] e] w'] eqn:Hpmpi.
  destruct (post_call _ _ _ _ _ _ _ _ _ _ _ st _ _ _ _ Hs Hw Hwc Hst Hm Hpmpi) as (m & Hpost).
  destruct Hcall as [[Hd Hfail]|(-> & -> & Hd1 & Hd2 & Hd3)].
  - destruct (failed_call dead who posted (put_aggs m s) js a' ign r st1 e w' (known_dead_aggs _ _ _ _ _ Hk) Hfail)
      as (s1 & ign1 & Hrun & Hsince%noted_since_aggs_l & Hmark & Hposted & _).
    destruct (Hpost s1 Hrun) as (m2 & Hturn & Hst2 & _). apply (noted_since_aggs _ _ _ _ m2) in Hsince.
    destruct (post_marked (put_aggs m2 s1) job ign1 a agg source tag wc rs r qs (Some st1) (buffer_size agg))
      as (m3 & Hrun3 & Hst3); [by eapply can_post_since|done|done|done|done|].
    exists 2%nat, None, (Some st1), (put_aggs m3 (put_aggs m2 s1)), ign1. split; [lia|]. split_and!; [|by apply pledged_none; [apply noted_since_aggs| |]|done|done].
    intros fuel. rewrite <-Hrun3. change (2 + fuel)%nat with (S (S fuel)). rewrite Hturn.
    destruct Hfail as (_ & _ & Hne & _). by rewrite (proj2 (Z.eqb_neq _ _) Hne).
  - destruct (Hpost _ eq_refl) as (m2 & Hturn & _ & Hst2).
    exists 1%nat, (Some req), (Some MPI_SUCCESS). eexists _, ign. split; [lia|]. split_and!; [|split|exact Hst2|done].
    + intros fuel. change (1 + fuel)%nat with (S fuel). rewrite Hturn, Z.eqb_refl. f_equal. rewrite length_app. simpl. lia.
    + split; try done; [apply Hs|by left|by left].
    + exact Hd3.
    + by repeat constructor.
Qed.

(** Whoever can be reached was not passed over. *)
Lemma pledged_reached s s' ign ign' base size tag i rs r :
  pledged s s' ign ign' base size tag i rs → r ∈ reachable dead s ign rs.*1 → ∃ req, (r, Some req) ∈ rs.
Proof.
  intros [P1 P2 P3] [[Hm Hd] ([r' o] & -> & Hin)%list_elem_of_fmap]%list_elem_of_filter. cbn in *.
  rewrite Forall_forall in P3. specialize (P3 _ Hin). destruct o as [req|]; [by exists req|]. cbn in P3.
  destruct (ns_marks _ _ _ _ _ _ P1 r') as [E|[_ ?]]; [|done]. by rewrite E in P3.
Qed.

(** *** All workers *)
Lemma irecv_loop_faults job js a' a agg source tag wc qs : ∀ rs fuel st s ign,
  can_post s job ign source tag → known_dead s js a' ign → workers job = rs.*1 ++ qs →
  wc = Z.of_nat (length (workers job)) → stage s a wc agg rs → (2 * length qs ≤ fuel)%nat →
  ∃ rs' st' s' ign', irecv_loop fuel a (buffer_size agg) source tag MPI_COMM_WORLD wc (Z.of_nat (length rs)) st s = Done st' s' ∧
    rs'.*1 = qs ∧ pledged s s' ign ign' (temp_buffer agg) (buffer_size agg) tag (Z.of_nat (length rs)) rs' ∧
    stage s' a wc agg (rs ++ rs') ∧
    match last qs with
    | Some q => aload ign q ≠ Some 1 → q ∉ dead (s_world s) → st' = Some MPI_SUCCESS
    | None => st' = st
    end.
Proof.
  induction qs as [|r qs IH]; intros rs fuel st s ign Hs Hk Hw Hwc Hst Hf.
  - exists [], st, s, ign. split; [|split; [done|split; [split|split; [by rewrite app_nil_r|done]]]].
    + assert ((Z.of_nat (length rs) <? wc) = false) as E.
      { apply Z.ltb_ge. rewrite Hwc, Hw, app_nil_r, length_fmap. lia. }
      destruct fuel; cbn [irecv_loop]; by rewrite E.
    + apply noted_since_refl, Hs.
    + by rewrite app_nil_r.
    + done.
  - destruct (post_one s job js a' ign a agg source tag wc rs r qs st Hs Hk Hw Hwc Hst)
      as (turns & o & st1 & s1 & ign1 & Hturns & Hrun & Hp & Hst1 & Hlive). pose proof (pl_since _ _ _ _ _ _ _ _ _ Hp) as Hsince.
    simpl in Hf. replace fuel with (turns + (fuel - turns))%nat by lia. rewrite Hrun.
    destruct (IH (rs ++ [(r, o)]) (fuel - turns)%nat st1 s1 ign1) as (rs' & st' & s' & ign' & Hrun' & Hq & Hp' & Hst' & Hlast);
      [by eapply can_post_since|by eapply known_dead_since|by rewrite fmap_app, <-app_assoc|done|done|lia|].
    exists ((r, o) :: rs'), st', s', ign'. split; [exact Hrun'|]. split; [by cbn; rewrite Hq|]. split; [|split].
    + apply (pledged_app _ _ _ _ _ _ _ _ _ _ [(r, o)] rs' Hp). by rewrite length_app, Nat2Z.inj_add in Hp'.
    + by rewrite <-app_assoc in Hst'.
    + rewrite last_cons. destruct (last qs) as [q|]; [|by intros Hm Hd; rewrite Hlast; apply Hlive].
      intros Hm Hd. apply Hlast; [|by rewrite (ns_dead _ _ _ _ _ _ Hsince)].
      by destruct (ns_marks _ _ _ _ _ _ Hsince q) as [->|[_ ?]].
Qed.
End pending.

(** ** Properties *)

(** C18: [MPI_Irecv] gets past dead workers.  Whatever set of processes is dead,
    it returns, after at most two turns for each worker of the source; exactly
    one receive is posted for each worker that is neither dead nor marked, in
    the order of the job, each into a place of its own and under the tag that
    worker sends with; a worker whose receive failed is marked then, nobody
    that lives is marked, and if a new dead worker was found the world is to be shrunk at
    the next collective call.  The request of the application is an aggregate
    that waits for what was posted: its slots hold the requests of the
    receives, or [MPI_REQUEST_NULL] for a worker that was passed over.  If the
    last worker lives the call returns success. *)
Theorem MPI_Irecv_survives {W} `{MpiConst} `{!MpiConstLaws} `{PmpiSplit W} `{Ulfm W} `{P2P W} `{Allocator}
    dead who posted `{!Pledging (W := W) dead who posted}
    s job js a ign buf to count datatype source tag fuel :
  let size := PMPI_Type_size datatype (s_world s) * count in
  0 ≤ size ≤ INT_MAX → INT_MIN ≤ request_pending (s_globals s) < INT_MAX → receives_into s buf to →
  can_post s job ign source tag →
  known_dead dead (put_mpi (set_ignore_process_failure 1 (s_globals s), s_world s) s) js a ign →
  (2 * length (workers job) ≤ fuel)%nat →
  ∃ h st s0 s' ign' agg rs, MPI_Irecv fuel buf count datatype source tag MPI_COMM_WORLD s =
      Done (h, st) (put_mpi (set_ignore_process_failure 0 (s_globals s'), s_world s') s') ∧
    s_globals s0 = set_request_pending (request_pending (s_globals s) + 1) (set_ignore_process_failure 1 (s_globals s)) ∧
    s_world s0 = s_world s ∧
    pledged dead who posted s0 s' ign ign' (temp_buffer agg) size tag 0 rs ∧ rs.*1 = workers job ∧
    (∀ r, r ∈ reachable dead s ign (workers job) → ∃ req, (r, Some req) ∈ rs) ∧
    waiting s' h agg (slots rs) ∧ node_rank agg = Some <$> workers job ∧
    original_buffer agg = to ∧ buffer_size agg = size ∧ agg_tag agg = tag ∧
    (∀ q, last (workers job) = Some q → aload ign q ≠ Some 1 → q ∉ dead (s_world s) → st = Some MPI_SUCCESS).
Proof.
  intros size Hsize Hp Hto Hs Hk Hf. destruct (cp_ok _ _ _ _ _ Hs) as [n Hok].
  assert (INT_MIN ≤ size ≤ INT_MAX) as Hsize' by (unfold INT_MIN; lia).
  assert (source_count s source (Z.of_nat (length (workers job)))) as Hcount.
  { pose proof any_source_neg. pose proof (cp_source _ _ _ _ _ Hs). unfold source_count.
    rewrite (proj2 (Z.eqb_neq _ _)) by lia. exists job. split; [apply Hs|]. by rewrite (worker_count_length _ _ Hok). }
  destruct (irecv_start s buf to count datatype source tag _ fuel Hsize' Hp Hto Hcount ltac:(lia))
    as (h & s0 & agg & l & nr & [Hg Hw Ha Hl Hnr Hcnt Hbuf Hbs Htag] & ->). fold size in Hbs.
  rewrite wrap64_small in Hbs by (unfold INT_MAX in *; lia).
  destruct (irecv_loop_faults dead who posted job js a h agg source tag (Z.of_nat (length (workers job))) (workers job) [] fuel None s0 ign)
    as (rs & st & s' & ign' & Hrun & Hrs & Hpl & (l' & nr' & Ha' & Hl' & Hnr' & Hsl & Hso) & Hlast).
  { destruct Hs as [C1 C2 C3 C4 C5]. split; [done| |done|by rewrite Hg|done].
    by apply (load_job_same (s_globals s)); [rewrite Hg|]. }
  { destruct Hk as [K1 K2 K3 K4 K5]. split; [by rewrite Hg..|]. by rewrite Hw. }
  { done. }
  { done. }
  { by exists l, nr. }
  { done. }
  assert (length l' = length rs ∧ length nr' = length rs) as [El' Enr'].
  { rewrite <-(length_fmap fst rs), Hrs. lia. }
  cbn [length app] in *. rewrite take_ge in Hsl, Hso by lia. rewrite Hrs in Hso. subst l' nr'.
  exists h, st, s0, s', ign', (with_slots (Some <$> slots rs) (Some <$> workers job) agg), rs.
  split; [|split_and!; try done].
  - cbn [bind]. change (Z.of_nat 0) with 0 in Hrun. rewrite Hrun. unfold set_ignoring.
    by rewrite (on_globals_run (modify (set_ignore_process_failure 0)) s' tt _ eq_refl).
  - by rewrite <-Hbs.
  - intros r Hr. eapply (pledged_reached _ _ _ _ _ _ _ _ _ _ _ _ r Hpl). rewrite Hrs.
    unfold reachable in *. by rewrite Hw.
  - split; [done|done|]. cbn. rewrite Hcnt. unfold slots. by rewrite length_fmap, <-Hrs, length_fmap.
  - intros q Hq Hm Hd. rewrite Hq in Hlast. apply Hlast; [done|by rewrite Hw].
Qed.

(** ** A network with dead processes that keeps what was posted, for the witness *)
Record keeping_net : Type := KeepingNet { kn_net : faulty_net; kn_posted : list receipt }.

#[local] Existing Instances faulty_p2p faulty_ulfm faulty_split faulty_alloc faulty_faulty.

#[local] Instance keeping_p2p : P2P keeping_net := {
  PMPI_Type_size d w := PMPI_Type_size d (kn_net w);
  PMPI_Send data d t c w :=
    let '(st, e, net) := PMPI_Send data d t c (kn_net w) in (st, e, KeepingNet net (kn_posted w));
  PMPI_Recv a n from t c m w :=
    let '(st, status, m', e, net) := PMPI_Recv a n from t c m (kn_net w) in (st, status, m', e, KeepingNet net (kn_posted w));
  PMPI_Irecv a n from t c w :=
    let req := 100 + Z.of_nat (length (kn_posted w)) in
    if decide (from ∈ noted (fn_failed (kn_net w))) then (75, MPI_REQUEST_NULL, Some (c, 75), w)
    else (0, req, None, KeepingNet (kn_net w) (kn_posted w ++ [Receipt a n from t req]));
  PMPI_Waitall hs m w := (0, [], hs, m, None, w)
}.
#[local] Instance keeping_ulfm : Ulfm keeping_net := {
  PMPI_Error_class e w := PMPI_Error_class e (kn_net w);
  PMPIX_Comm_failure_get_acked c w := (1, w);
  PMPIX_Comm_shrink c w := (c, w);
  PMPI_Comm_group c w := (c, w);
  PMPI_Group_size g w := PMPI_Group_size g (kn_net w);
  PMPI_Group_translate_ranks g l g' w := PMPI_Group_translate_ranks g l g' (kn_net w);
  PMPI_Comm_free _ w := w;
  PMPI_Comm_dup c w := (c, w)
}.
#[local] Instance keeping_split : PmpiSplit keeping_net := {|
  PMPI_Comm_rank _ _ := 2;
  PMPI_Comm_size _ _ := 4;
  PMPI_Comm_split c _ _ w := (c, w)
|}.

#[local] Instance keeping_pledging : Pledging (λ w, noted (fn_failed (kn_net w))) (λ w, fn_who (kn_net w)) kn_posted.
Proof.
  assert (∀ c w, noted (failed_ranks c w).1.2 = noted (fn_failed (kn_net w))) as Hd by (intros c w; apply (detected c (kn_net w))).
  split.
  - intros c w. split; [|done]. intros r. by rewrite Hd.
  - intros a n from t c w. cbn. destruct (decide _) as [Hin|Hin]; [left|by right].
    split; [done|]. exists 75. split_and!; try done. by rewrite Hd.
Qed.

(** Process 2 receives from job 1, whose worker 1 is dead. *)
Definition awaiting : sys keeping_net :=
  MkSys (s_globals (survivor [1])) (KeepingNet (FaultyNet [1] 2 []) []) (s_heap (survivor [1])) 0 0 ∅.

Lemma two_outcomes a b (rs : list outcome) req :
  rs.*1 = [a; b] → a ≠ b → (b, Some req) ∈ rs → ∃ o, rs = [(a, o); (b, Some req)].
Proof.
  destruct rs as [|[a' o1] [|[b' o2] [|]]]; cbn; try discriminate. intros [= -> ->] Hne Hin. exists o1.
  apply list_elem_of_In in Hin. simpl in Hin. destruct Hin as [E|[E|[]]]; congruence.
Qed.

Lemma MPI_Irecv_survives_witness : ∃ h s' agg,
  MPI_Irecv 4 50000 2 0 1 7 MPI_COMM_WORLD awaiting =
    Done (h, Some MPI_SUCCESS) (put_mpi (set_ignore_process_failure 0 (s_globals s'), s_world s') s') ∧
  (∃ o req, waiting s' h agg [default MPI_REQUEST_NULL o; req] ∧
    Receipt (temp_buffer agg + 2) 2 3 407 req ∈ kn_posted (s_world s')) ∧
  node_rank agg = [Some 1; Some 3].
Proof.
  destruct (MPI_Irecv_survives (λ w, noted (fn_failed (kn_net w))) (λ w, fn_who (kn_net w)) kn_posted awaiting
    (MkJob 1 2 [Some 1; Some 3]) crash_jobs crash_r2j (replicate 4 (Some 0)) 50000 50000 2 0 1 7 4)
    as (h & st & s0 & s' & ign' & agg & rs & Hrun & Hg & Hw & [Hn Hp Hm] & Hrs & Hre & Hwait & Hnr & _ & _ & _ & Hst);
    [net_int|net_int|reflexivity| | |simpl; lia|].
  - split; [lia|reflexivity| |reflexivity|].
    + exists 4, [1; 3], []. split; [reflexivity|repeat constructor; lia].
    + apply Forall_forall. repeat (constructor; [split; [by eexists|net_int]|]). constructor.
  - split; try done. intros r Hr. change (r ∈ [1]) in Hr. apply list_elem_of_singleton in Hr as ->.
    split; [done|]. by exists 1.
  - destruct (Hre 3) as [req Hin]; [apply (bool_decide_unpack _); by vm_compute|].
    destruct (two_outcomes 1 3 rs req Hrs) as [o ->]; [done|done|].
    exists h, s', agg. rewrite (Hst 3) in Hrun; [|done|done|apply (bool_decide_unpack _); by vm_compute].
    split; [exact Hrun|]. split; [|exact Hnr]. exists o, req. split; [exact Hwait|].
    rewrite Hp. apply elem_of_app. right. cbn [receipts]. apply elem_of_app. right. apply list_elem_of_singleton.
    f_equal; lia.
Defined.
