(* ===== verification/Collective.v ===== *)
(** * Collective calls of [src/mpi/init.c]

    A collective operation runs among the masters ([active_comm]); then every
    master broadcasts the result to the workers of its job.  After each step
    all processes agree on whether it succeeded, and try again when it did
    not.  The agreement is also where a failure that a point-to-point call
    left pending is repaired. *)

From S2P Require Import Prelude Shared Mpi Memory Stat MapFile Comm HeapSeg Ulfm Update PointToPoint.

(** ** The MPI calls used here

    A call gives its status, the memory, what it raises and the new world.
    The arguments are in the order of [mpi.h]. *)
Abbreviation collective W := (memory → W → Z * memory * raised * W) (only parsing).

Class Coll (W : Type) : Type := {
  PMPI_Bcast : Z → Z → Z → Z → MPI_Comm → collective W;
  PMPI_Scatter : Z → Z → Z → Z → Z → Z → Z → MPI_Comm → collective W;
  PMPI_Gather : Z → Z → Z → Z → Z → Z → Z → MPI_Comm → collective W;
  PMPI_Allgather : Z → Z → Z → Z → Z → Z → MPI_Comm → collective W;
  PMPI_Reduce : Z → Z → Z → Z → Z → Z → MPI_Comm → collective W;
  PMPI_Allreduce : Z → Z → Z → Z → Z → MPI_Comm → collective W;
  PMPI_Barrier : MPI_Comm → W → Z * raised * W;
  PMPIX_Comm_agree : MPI_Comm → Z → W → Z * Z * raised * W
}.

Definition NO_TRIALS : Z := 10.

Section collectives.
Context {W : Type} `{MpiConst} `{PmpiSplit W} `{Ulfm W} `{P2P W} `{Allocator} `{Files W} `{Coll W}.
Abbreviation S := (sys W).

(** What the process does when [is_file_update_set] has work for it on the
    temporary stack; [Work] says what that is. *)
Context (on_new_stack : action → M S unit).

Definition do_action (act : action) : M S unit :=
  match act with
  | RestoreCkpt | Work _ _ => on_new_stack act
  | NotModified | Retry | NotRequired => ret tt
  end.

Definition sync_with_map : M S unit :=
  let! act := on_mpi is_file_update_set in do_action act.

Definition call (f : collective W) : M S Z := λ s,
  let '(st, m, r, w) := f (mem (s_heap s)) (s_world s) in
  (handle r ;;; ret st) (put_heap (set_mem m (s_heap s)) (put_mpi (s_globals s, w) s)).
Definition call_agree (c : MPI_Comm) (flag : Z) : M S (Z * Z) := λ s,
  let '(st, flag', r, w) := PMPIX_Comm_agree c flag (s_world s) in
  (handle r ;;; ret (st, flag')) (put_mpi (s_globals s, w) s).

(** ** Agreement *)
Definition MPI_Comm_agree (comm : MPI_Comm) (flag : cell) : M S (Z * cell) :=
  let! pending := gets (λ s, process_shrinking_pending (s_globals s)) in
  if negb (pending =? 0) then
    let! world := gets (λ s, rep_mpi_comm_world (node (s_globals s))) in
    on_mpi (rep_errhandler world PROC_SHRINK_PENDING) ;;;
    on_globals (modify (set_process_shrinking_pending 0)) ;;;
    ret (MPI_SUCCESS + 12, flag)
  else
    let! f := of_option Undef flag in
    let! (st, f') := call_agree comm f in
    ret (st, Some f').

(** [while(MPI_SUCCESS != MPI_Comm_agree(...))]; the source has no bound. *)
Fixpoint agree_loop (fuel : nat) (comm : MPI_Comm) (flag : cell) : M S Z :=
  match fuel with
  | O => halt NoFuel
  | Datatypes.S fuel' =>
      let! c := comm_to_use comm in
      let! (st, flag') := MPI_Comm_agree c flag in
      if st =? MPI_SUCCESS then of_option Undef flag' else agree_loop fuel' comm flag'
  end.

(** [flag = (MPI_SUCCESS == mpi_status)] *)
Definition succeeded (mpi_status : Z) : Z := if MPI_SUCCESS =? mpi_status then 1 else 0.

(** ** [MPI_Bcast] *)
Definition root_worker (root : Z) : M S Z :=
  let! job := on_globals (load_job root) in of_option Undef (aload (rank_list job) 0).

(** One turn: the status of the broadcast and the flag that was agreed on. *)
Definition bcast_turn (fuel : nat) (buf count datatype root comm : Z) : M S (Z * Z) :=
  let! root_rank := root_worker root in
  let! c := comm_to_use comm in
  let! buffer := sender_buffer buf in
  let! mpi_status := call (PMPI_Bcast buffer count datatype root_rank c) in
  let! flag := agree_loop fuel comm (Some (succeeded mpi_status)) in
  ret (mpi_status, flag).

(** The trials after the first [total_trials]. *)
Fixpoint bcast_trials (n : nat) (fuel : nat) (buf count datatype root comm total_trials : Z) : M S Z :=
  match n with
  | O => halt NoFuel
  | Datatypes.S n' =>
      ensure (negb (NO_TRIALS <=? total_trials + 1)) (Aborted 10) ;;;
      let! (_, flag) := bcast_turn fuel buf count datatype root comm in
      if flag =? 0 then bcast_trials n' fuel buf count datatype root comm (total_trials + 1)
      else ret MPI_SUCCESS
  end.

Definition MPI_Bcast (fuel : nat) (buf count datatype root comm : Z) : M S Z :=
  sync_with_map ;;;
  bcast_trials (Z.to_nat NO_TRIALS) fuel buf count datatype root comm 0.

(** ** The calls that run among the masters first

    [MPI_Scatter], [MPI_Gather], [MPI_Allgather] and [MPI_Allreduce] repeat the
    same loops around different operations. *)

(** The inner loop: [bcast] is repeated until all agree, or until the root
    of a job died, which makes the flag 0. *)
Fixpoint job_bcast (n : nat) (fuel : nat) (bcast : M S Z) (comm : Z) : M S (Z * Z) :=
  match n with
  | O => halt NoFuel
  | Datatypes.S n' =>
      let! mpi_status := bcast in
      let! flag := agree_loop fuel comm (Some (succeeded mpi_status)) in
      if flag =? 0 then
        let! root_died := on_mpi is_failed_node_world_job_comm_root in
        if negb (root_died =? 0) then ret (mpi_status, 0)
        else job_bcast n' fuel bcast comm
      else ret (mpi_status, flag)
  end.

(** The outer loop, from the values its variables have.  [reset] says whether
    [mpi_status] is set at the start of every trial. *)
Fixpoint master_trials (n : nat) (fuel : nat) (reset : bool) (op bcast : M S Z) (comm : Z)
    (total_trials mpi_status : Z) : M S Z :=
  match n with
  | O => halt NoFuel
  | Datatypes.S n' =>
      ensure (negb (NO_TRIALS <=? total_trials + 1)) (Aborted 10) ;;;
      let! active := gets (λ s, active_comm (node (s_globals s))) in
      let! mpi_status :=
        (if negb (active =? MPI_COMM_NULL) then op
         else ret (if reset then MPI_SUCCESS else mpi_status)) in
      let! flag := agree_loop fuel comm (Some (succeeded mpi_status)) in
      if flag =? 0 then
        master_trials n' fuel reset op bcast comm (total_trials + 1) mpi_status
      else
        let! (mpi_status, flag) := job_bcast fuel fuel bcast comm in
        if flag =? 0 then
          master_trials n' fuel reset op bcast comm (total_trials + 1) mpi_status
        else ret MPI_SUCCESS
  end.

Definition masters (fuel : nat) (reset : bool) (op bcast : M S Z) (comm : Z) : M S Z :=
  sync_with_map ;;;
  master_trials (Z.to_nat NO_TRIALS) fuel reset op bcast comm 0 MPI_SUCCESS.

Definition active : M S MPI_Comm := gets (λ s, active_comm (node (s_globals s))).

(** [PMPI_Bcast] of [count] elements to the workers of the job. *)
Definition to_workers (recvbuf count recvtype : Z) : M S Z :=
  let! r := receiver_buffer recvbuf in
  let! c := gets (λ s, world_job_comm (node (s_globals s))) in
  call (PMPI_Bcast r count recvtype 0 c).

(** [recvcount * node.jobs_count] *)
Definition all_jobs (recvcount : Z) : M S Z :=
  let! g := gets s_globals in of_option Undef (c_int (recvcount * jobs_count (node g))).

Definition MPI_Scatter (fuel : nat) (sendbuf sendcount sendtype recvbuf recvcount recvtype root comm : Z) : M S Z :=
  masters fuel true
    (let! s := sender_buffer sendbuf in let! r := receiver_buffer recvbuf in let! c := active in
     call (PMPI_Scatter s sendcount sendtype r recvcount recvtype root c))
    (to_workers recvbuf recvcount recvtype) comm.

Definition MPI_Gather (fuel : nat) (sendbuf sendcount sendtype recvbuf recvcount recvtype root comm : Z) : M S Z :=
  masters fuel false
    (let! s := sender_buffer sendbuf in let! r := receiver_buffer recvbuf in let! c := active in
     call (PMPI_Gather s sendcount sendtype r recvcount recvtype root c))
    (let! n := all_jobs recvcount in to_workers recvbuf n recvtype) comm.

Definition MPI_Allgather (fuel : nat) (sendbuf sendcount sendtype recvbuf recvcount recvtype comm : Z) : M S Z :=
  masters fuel false
    (let! s := sender_buffer sendbuf in let! r := receiver_buffer recvbuf in let! c := active in
     call (PMPI_Allgather s sendcount sendtype r recvcount recvtype c))
    (let! n := all_jobs recvcount in to_workers recvbuf n recvtype) comm.

Definition MPI_Allreduce (fuel : nat) (sendbuf recvbuf count datatype op comm : Z) : M S Z :=
  masters fuel false
    (let! s := sender_buffer sendbuf in let! r := receiver_buffer recvbuf in let! c := active in
     call (PMPI_Allreduce s r count datatype op c))
    (to_workers recvbuf count datatype) comm.

(** ** [MPI_Reduce]

    It uses the macros of [init.c]: success is the flag -1, which
    [SET_FLAG_ON_SUCCESS] sets and nothing clears. *)
Definition SET_FLAG_ON_SUCCESS (mpi_status : Z) (flag : cell) : cell :=
  if MPI_SUCCESS =? mpi_status then Some (-1) else flag.

Fixpoint DO_COMM_AGREE (fuel : nat) (comm : MPI_Comm) (flag : cell)
    (ckpt_master_backup : NodeCheckpointMaster) : M S (Z * NodeCheckpointMaster) :=
  match fuel with
  | O => halt NoFuel
  | Datatypes.S fuel' =>
      let! c := comm_to_use comm in
      let! (st, flag') := MPI_Comm_agree c flag in
      if st =? MPI_SUCCESS then
        let! f := of_option Undef flag' in ret (f, ckpt_master_backup)
      else
        let! n := gets (λ s, node (s_globals s)) in
        if decide (ckpt_master_backup = node_checkpoint_master n)
        then DO_COMM_AGREE fuel' comm flag' ckpt_master_backup
        else DO_COMM_AGREE fuel' comm (Some (static_rank n)) (node_checkpoint_master n)
  end.

Fixpoint reduce_bcast (n : nat) (fuel : nat) (recvbuf count datatype root comm : Z) (flag : Z)
    (backup : NodeCheckpointMaster) : M S (Z * Z * NodeCheckpointMaster) :=
  match n with
  | O => halt NoFuel
  | Datatypes.S n' =>
      let! me := gets (λ s, job_id (node (s_globals s))) in
      let! mpi_status :=
        (if me =? root then to_workers recvbuf count datatype else ret MPI_SUCCESS) in
      let! (flag, backup) :=
        DO_COMM_AGREE fuel comm (SET_FLAG_ON_SUCCESS mpi_status (Some flag)) backup in
      if negb (flag =? -1) then
        let! root_died := on_mpi is_failed_node_world_job_comm_root in
        if negb (root_died =? 0) then ret (mpi_status, flag, backup)
        else reduce_bcast n' fuel recvbuf count datatype root comm flag backup
      else ret (mpi_status, flag, backup)
  end.

Fixpoint reduce_trials (n : nat) (fuel : nat) (sendbuf recvbuf count datatype op root comm : Z)
    (total_trials mpi_status : Z) (flag : cell) (backup : NodeCheckpointMaster) : M S Z :=
  match n with
  | O => halt NoFuel
  | Datatypes.S n' =>
      ensure (negb (NO_TRIALS <=? total_trials + 1)) (Aborted 10) ;;;
      let! c := active in
      let! mpi_status :=
        (if negb (c =? MPI_COMM_NULL) then
           let! s := sender_buffer sendbuf in let! r := receiver_buffer recvbuf in
           call (PMPI_Reduce s r count datatype op root c)
         else ret mpi_status) in
      let! (flag, backup) :=
        DO_COMM_AGREE fuel comm (SET_FLAG_ON_SUCCESS mpi_status flag) backup in
      if negb (flag =? -1) then
        reduce_trials n' fuel sendbuf recvbuf count datatype op root comm (total_trials + 1)
          mpi_status (Some flag) backup
      else
        let! (mpi_status, flag, backup) :=
          reduce_bcast fuel fuel recvbuf count datatype root comm flag backup in
        if negb (flag =? -1) then
          reduce_trials n' fuel sendbuf recvbuf count datatype op root comm (total_trials + 1)
            mpi_status (Some flag) backup
        else ret MPI_SUCCESS
  end.

Definition MPI_Reduce (fuel : nat) (sendbuf recvbuf count datatype op root comm : Z) : M S Z :=
  sync_with_map ;;;
  let! backup := gets (λ s, node_checkpoint_master (node (s_globals s))) in
  reduce_trials (Z.to_nat NO_TRIALS) fuel sendbuf recvbuf count datatype op root comm 0
    MPI_SUCCESS None backup.

(** ** The calls without a loop *)
Definition MPI_Barrier (comm : MPI_Comm) : M S Z := λ s,
  let '(st, r, w) := PMPI_Barrier (rep_mpi_comm_world (node (s_globals s))) (s_world s) in
  (handle r ;;; ret st) (put_mpi (s_globals s, w) s).

(** They store the rank and the size; their return value is indeterminate. *)
Definition MPI_Comm_rank (comm : MPI_Comm) : M S Z := gets (λ s, job_id (node (s_globals s))).
Definition MPI_Comm_size (comm : MPI_Comm) : M S Z := gets (λ s, jobs_count (node (s_globals s))).
End collectives.

(** ** Reasoning about the calls *)

(** [runs m l s s']: [m] was run once for every result of [l]. *)
Inductive runs {S A} (m : M S A) : list A → S → S → Prop :=
  | runs_nil s : runs m [] s s
  | runs_cons a l s s1 s2 : m s = Done a s1 → runs m l s1 s2 → runs m (a :: l) s s2.

(** No new map, and no failure that waits to be repaired. *)
Record settled {W} `{Files W} (s : sys W) : Prop := {
  st_restore : ckpt_restore (s_globals s) = RESTORE_NO;
  st_time : st_mtime (s_world s) ≤ last_file_update (s_globals s);
  st_pending : process_shrinking_pending (s_globals s) = 0
}.

Section lemmas.
Context {W : Type} `{MpiConst} `{PmpiSplit W} `{Ulfm W} `{P2P W} `{Allocator} `{Files W} `{Coll W}.
Implicit Types (s : sys W).

Lemma sync_unmodified perform s :
  ckpt_restore (s_globals s) = RESTORE_NO → st_mtime (s_world s) ≤ last_file_update (s_globals s) →
  sync_with_map perform s = Done tt s.
Proof.
  intros Hc Ht. unfold sync_with_map. cbn [bind]. unfold on_mpi at 1, zoom.
  unfold is_file_update_set. cbn [bind].
  rewrite (is_file_modified_spec _ _ Hc), (proj2 (Z.ltb_ge _ _) Ht). cbn. by destruct s.
Qed.

Lemma sync_settled perform s : settled s → sync_with_map perform s = Done tt s.
Proof. intros [Hc Ht _]. by apply sync_unmodified. Qed.

Lemma comm_agree_run s c flag st flag' w' :
  process_shrinking_pending (s_globals s) = 0 →
  PMPIX_Comm_agree c flag (s_world s) = (st, flag', None, w') →
  MPI_Comm_agree c (Some flag) s = Done (st, Some flag') (put_mpi (s_globals s, w') s).
Proof.
  intros Hp Ha. unfold MPI_Comm_agree. cbn [bind gets]. rewrite Hp. cbn [Z.eqb negb of_option bind].
  unfold call_agree. by rewrite Ha.
Qed.

Lemma agree_loop_S fuel comm flag s :
  agree_loop (Datatypes.S fuel) comm flag s =
  (let! c := comm_to_use comm in
   let! (st, flag') := MPI_Comm_agree c flag in
   if st =? MPI_SUCCESS then of_option Undef flag' else agree_loop fuel comm flag') s.
Proof. done. Qed.

Lemma master_trials_S n fuel reset op bcast comm t st s :
  master_trials (Datatypes.S n) fuel reset op bcast comm t st s =
  (ensure (negb (NO_TRIALS <=? t + 1)) (Aborted 10) ;;;
   let! active := gets (λ s, active_comm (node (s_globals s))) in
   let! st := (if negb (active =? MPI_COMM_NULL) then op else ret (if reset then MPI_SUCCESS else st)) in
   let! flag := agree_loop fuel comm (Some (succeeded st)) in
   if flag =? 0 then master_trials n fuel reset op bcast comm (t + 1) st
   else
     let! (st, flag) := job_bcast fuel fuel bcast comm in
     if flag =? 0 then master_trials n fuel reset op bcast comm (t + 1) st else ret MPI_SUCCESS) s.
Proof. done. Qed.

(** The loop when the first agreement succeeds. *)
Lemma agree_loop_run fuel s flag flag' w' :
  process_shrinking_pending (s_globals s) = 0 →
  PMPIX_Comm_agree (rep_mpi_comm_world (node (s_globals s))) flag (s_world s) =
    (MPI_SUCCESS, flag', None, w') →
  agree_loop (Datatypes.S fuel) MPI_COMM_WORLD (Some flag) s =
    Done flag' (put_mpi (s_globals s, w') s).
Proof.
  intros Hp Ha. cbn [agree_loop bind]. unfold comm_to_use. rewrite Z.eqb_refl. cbn [gets bind].
  rewrite (comm_agree_run _ _ _ _ _ _ Hp Ha). cbn [bind]. by rewrite Z.eqb_refl.
Qed.

Lemma DO_COMM_AGREE_run fuel s flag flag' w' backup :
  process_shrinking_pending (s_globals s) = 0 →
  PMPIX_Comm_agree (rep_mpi_comm_world (node (s_globals s))) flag (s_world s) =
    (MPI_SUCCESS, flag', None, w') →
  DO_COMM_AGREE (Datatypes.S fuel) MPI_COMM_WORLD (Some flag) backup s =
    Done (flag', backup) (put_mpi (s_globals s, w') s).
Proof.
  intros Hp Ha. cbn [DO_COMM_AGREE bind]. unfold comm_to_use. rewrite Z.eqb_refl. cbn [gets bind].
  rewrite (comm_agree_run _ _ _ _ _ _ Hp Ha). cbn [bind]. by rewrite Z.eqb_refl.
Qed.

(** A call that raises nothing. *)
Definition called (m : memory) (w : W) s : sys W :=
  put_heap (set_mem m (s_heap s)) (put_mpi (s_globals s, w) s).

Lemma call_run (f : collective W) s st m' w' :
  f (mem (s_heap s)) (s_world s) = (st, m', None, w') → call f s = Done st (called m' w' s).
Proof. intros E. unfold call. by rewrite E. Qed.

Lemma plain_sender s buf : s_sender_cont s = 0 → sender_buffer buf s = Done buf s.
Proof. intros E. unfold sender_buffer. cbn [bind gets]. by rewrite E. Qed.
Lemma plain_receiver s buf : s_receiver_cont s = 0 → receiver_buffer buf s = Done buf s.
Proof. intros E. unfold receiver_buffer. cbn [bind gets]. by rewrite E. Qed.

Lemma to_workers_run s buf count ty st m' w' :
  s_receiver_cont s = 0 →
  PMPI_Bcast buf count ty 0 (world_job_comm (node (s_globals s))) (mem (s_heap s)) (s_world s) =
    (st, m', None, w') →
  to_workers buf count ty s = Done st (called m' w' s).
Proof.
  intros Hr E. unfold to_workers. cbn [bind]. rewrite (plain_receiver _ _ Hr). cbn [bind gets].
  by apply call_run.
Qed.

Lemma succeeded_ok : succeeded MPI_SUCCESS = 1.
Proof. unfold succeeded. by rewrite Z.eqb_refl. Qed.
Lemma succeeded_failed st : st ≠ MPI_SUCCESS → succeeded st = 0.
Proof. intros. unfold succeeded. by rewrite (proj2 (Z.eqb_neq _ _)) by congruence. Qed.

Lemma all_jobs_run s recvcount :
  INT_MIN ≤ recvcount * jobs_count (node (s_globals s)) ≤ INT_MAX →
  all_jobs recvcount s = Done (recvcount * jobs_count (node (s_globals s))) s.
Proof. intros Hint. unfold all_jobs. cbn [bind gets]. by rewrite c_int_Some. Qed.

(** An operation among the masters, in the buffers of the application. *)
Lemma masters_op_run s sbuf rbuf (op : Z → Z → MPI_Comm → collective W) st m' w' :
  s_sender_cont s = 0 → s_receiver_cont s = 0 →
  op sbuf rbuf (active_comm (node (s_globals s))) (mem (s_heap s)) (s_world s) = (st, m', None, w') →
  (let! x := sender_buffer sbuf in let! y := receiver_buffer rbuf in let! c := active in
   call (op x y c)) s = Done st (called m' w' s).
Proof.
  intros Hsc Hrc E. cbn [bind]. rewrite (plain_sender _ _ Hsc), (plain_receiver _ _ Hrc).
  unfold active. cbn [bind gets]. by apply call_run.
Qed.

(** The trials when nothing fails: one operation, one agreement, one broadcast
    in the job, one agreement. *)
Lemma masters_run perform fuel reset (op bcast : M (sys W) Z) s m1 w1 f1 w2 m2 w3 f2 w4 :
  let n := node (s_globals s) in
  settled s → (0 < fuel)%nat →
  (if decide (active_comm n = MPI_COMM_NULL) then m1 = mem (s_heap s) ∧ w1 = s_world s
   else op s = Done MPI_SUCCESS (called m1 w1 s)) →
  PMPIX_Comm_agree (rep_mpi_comm_world n) 1 w1 = (MPI_SUCCESS, f1, None, w2) → f1 ≠ 0 →
  bcast (called m1 w2 s) = Done MPI_SUCCESS (called m2 w3 s) →
  PMPIX_Comm_agree (rep_mpi_comm_world n) 1 w3 = (MPI_SUCCESS, f2, None, w4) → f2 ≠ 0 →
  masters perform fuel reset op bcast MPI_COMM_WORLD s = Done MPI_SUCCESS (called m2 w4 s).
Proof.
  intros n Hs Hf Hop Ha1 Hf1 Hb Ha2 Hf2. destruct fuel as [|fuel]; [lia|].
  pose proof (st_pending _ Hs) as Hp. unfold masters. cbn [bind]. rewrite (sync_settled _ _ Hs).
  change (Z.to_nat NO_TRIALS) with 10%nat. cbn [master_trials bind].
  change (negb (NO_TRIALS <=? 0 + 1)) with true. cbn [ensure ret gets]. fold n.
  assert ((if negb (active_comm n =? MPI_COMM_NULL) then op
           else ret (if reset then MPI_SUCCESS else MPI_SUCCESS)) s = Done MPI_SUCCESS (called m1 w1 s)) as ->.
  { destruct (decide (active_comm n = MPI_COMM_NULL)) as [E|E].
    - destruct Hop as [-> ->]. rewrite E, Z.eqb_refl. destruct reset; cbn; by destruct s as [? ? []].
    - by rewrite (proj2 (Z.eqb_neq _ _) E). }
  rewrite succeeded_ok, (agree_loop_run fuel (called m1 w1 s) 1 f1 w2 Hp Ha1).
  rewrite (proj2 (Z.eqb_neq _ _) Hf1). cbn [job_bcast bind].
  change (put_mpi _ (called m1 w1 s)) with (called m1 w2 s). rewrite Hb.
  rewrite succeeded_ok, (agree_loop_run fuel (called m2 w3 s) 1 f2 w4 Hp Ha2).
  rewrite (proj2 (Z.eqb_neq _ _) Hf2). cbn [ret]. by rewrite (proj2 (Z.eqb_neq _ _) Hf2).
Qed.
End lemmas.

(** A network on which nothing is raised; an agreement yields 0 whenever one
    of the processes brings 0 (it is the conjunction of the bits). *)
Class Agreeing (W : Type) `{MpiConst} `{Coll W} : Prop := {
  agreeing_bcast buf n ty r c m w : ∃ st m' w', PMPI_Bcast buf n ty r c m w = (st, m', None, w');
  agreeing_agree c flag w : ∃ flag' w',
    PMPIX_Comm_agree c flag w = (MPI_SUCCESS, flag', None, w') ∧ (flag = 0 → flag' = 0)
}.

Section trials.
Context {W : Type} `{MpiConst} `{PmpiSplit W} `{Ulfm W} `{P2P W} `{Allocator} `{Files W} `{Coll W} `{!Agreeing W}.
Implicit Types (s : sys W).

(** What a broadcast needs, and leaves as it is. *)
Definition can_bcast s (root : Z) : Prop :=
  process_shrinking_pending (s_globals s) = 0 ∧ s_sender_cont s = 0 ∧
  ∃ job r, load_job root (s_globals s) = Done job (s_globals s) ∧ aload (rank_list job) 0 = Some r.

Lemma bcast_turn_spec fuel buf count ty root s :
  can_bcast s root → ∃ st flag s',
    bcast_turn (Datatypes.S fuel) buf count ty root MPI_COMM_WORLD s = Done (st, flag) s' ∧
    can_bcast s' root ∧ (flag ≠ 0 → st = MPI_SUCCESS).
Proof.
  intros (Hp & Hsc & job & r & Hj & Hr).
  destruct (agreeing_bcast buf count ty r (rep_mpi_comm_world (node (s_globals s)))
    (mem (s_heap s)) (s_world s)) as (st & m' & w' & Hb).
  destruct (agreeing_agree (rep_mpi_comm_world (node (s_globals s))) (succeeded st) w')
    as (flag & w'' & Ha & Hzero).
  exists st, flag, (put_mpi (s_globals s, w'') (called m' w' s)). split; [|split].
  - unfold bcast_turn, root_worker. cbn [bind]. rewrite (on_globals_same _ _ _ Hj). cbn [bind].
    rewrite Hr. cbn [of_option bind]. unfold comm_to_use at 1. rewrite Z.eqb_refl. cbn [gets bind].
    rewrite (plain_sender _ _ Hsc). cbn [bind]. rewrite (call_run _ _ _ _ _ Hb). cbn [bind].
    by rewrite (agree_loop_run fuel (called m' w' s) (succeeded st) flag w'' Hp Ha).
  - split; [done|]. split; [done|]. by exists job, r.
  - intros Hf. destruct (decide (st = MPI_SUCCESS)) as [|Hne]; [done|].
    destruct Hf. apply Hzero. by apply succeeded_failed.
Qed.

Lemma bcast_trials_spec fuel buf count ty root n : ∀ t s,
  can_bcast s root → 0 ≤ t ≤ 9 → 10 ≤ Z.of_nat n + t →
  ∃ l s', runs (bcast_turn (Datatypes.S fuel) buf count ty root MPI_COMM_WORLD) l s s' ∧
    ((∃ front flag, l = front ++ [(MPI_SUCCESS, flag)] ∧ flag ≠ 0 ∧
        Forall (λ p, p.2 = 0) front ∧ Z.of_nat (length l) ≤ 9 - t ∧
        bcast_trials n (Datatypes.S fuel) buf count ty root MPI_COMM_WORLD t s = Done MPI_SUCCESS s') ∨
     (Forall (λ p, p.2 = 0) l ∧ Z.of_nat (length l) = 9 - t ∧
        bcast_trials n (Datatypes.S fuel) buf count ty root MPI_COMM_WORLD t s = Stop (Aborted 10) s')).
Proof.
  induction n as [|n IH]; intros t s Hs Ht Hn; [lia|]. cbn [bcast_trials bind].
  destruct (Z.leb_spec NO_TRIALS (t + 1)) as [Hlast|Hmore]; unfold NO_TRIALS in *; cbn [negb ensure halt ret bind].
  { exists [], s. split; [constructor|]. right. split; [constructor|]. split; [simpl; lia|done]. }
  destruct (bcast_turn_spec fuel buf count ty root s Hs) as (st & flag & s1 & Hrun & Hs1 & Hst).
  rewrite Hrun. cbn [bind]. destruct (Z.eqb_spec flag 0) as [->|Hf].
  - destruct (IH (t + 1) s1 Hs1) as (l & s' & Hruns & Hcases); [lia|lia|].
    exists ((st, 0) :: l), s'. split; [by econstructor|].
    destruct Hcases as [(front & flag & -> & Hf & Hfr & Hl & Hr)|(Hfr & Hl & Hr)].
    + left. exists ((st, 0) :: front), flag. split; [done|]. split; [done|].
      split; [by constructor|]. split; [simpl in *; lia|done].
    + right. split; [by constructor|]. split; [simpl in *; lia|done].
  - rewrite (Hst Hf) in Hrun. exists [(MPI_SUCCESS, flag)], s1.
    split; [econstructor; [exact Hrun|constructor]|]. left. exists [], flag.
    split; [done|]. split; [done|]. split; [constructor|]. split; [simpl; lia|done].
Qed.

(** The inner loop when the broadcast fails and the root of a job died. *)
Lemma job_bcast_died n fuel bcast s s2 st died :
  bcast s = Done st s2 → st ≠ MPI_SUCCESS → process_shrinking_pending (s_globals s2) = 0 →
  (∀ w, is_failed_node_world_job_comm_root (s_globals s2, w) = Done died (s_globals s2, w)) → died ≠ 0 →
  ∃ w', job_bcast (Datatypes.S n) (Datatypes.S fuel) bcast MPI_COMM_WORLD s =
    Done (st, 0) (put_mpi (s_globals s2, w') s2).
Proof.
  intros Hb Hst Hp Hdied Hd.
  destruct (agreeing_agree (rep_mpi_comm_world (node (s_globals s2))) 0 (s_world s2))
    as (flag & w' & Hag & Hz). rewrite (Hz eq_refl) in Hag. exists w'.
  cbn [job_bcast bind]. rewrite Hb, (succeeded_failed _ Hst).
  rewrite (agree_loop_run fuel s2 0 0 w' Hp Hag). cbn [Z.eqb bind].
  unfold on_mpi, zoom. cbn [s_globals s_world put_mpi fst snd]. rewrite Hdied. cbn [ret].
  by rewrite (proj2 (Z.eqb_neq _ _) Hd).
Qed.

(** A process outside [active_comm] whose status is a failure never changes it. *)
Lemma stale_trials fuel op bcast n : ∀ t st s,
  process_shrinking_pending (s_globals s) = 0 →
  active_comm (node (s_globals s)) = MPI_COMM_NULL → st ≠ MPI_SUCCESS →
  0 ≤ t ≤ 9 → 10 ≤ Z.of_nat n + t →
  ∃ s', master_trials n (Datatypes.S fuel) false op bcast MPI_COMM_WORLD t st s = Stop (Aborted 10) s'.
Proof.
  induction n as [|n IH]; intros t st s Hp Ha Hst Ht Hn; [lia|]. cbn [master_trials bind].
  destruct (Z.leb_spec NO_TRIALS (t + 1)) as [Hlast|Hmore]; unfold NO_TRIALS in *;
    cbn [negb ensure halt ret bind gets]; [by eexists|].
  rewrite Ha, Z.eqb_refl. cbn [negb ret]. rewrite (succeeded_failed _ Hst).
  destruct (agreeing_agree (rep_mpi_comm_world (node (s_globals s))) 0 (s_world s))
    as (flag & w' & Hag & Hz). rewrite (Hz eq_refl) in Hag.
  rewrite (agree_loop_run fuel s 0 0 w' Hp Hag). cbn [Z.eqb].
  apply IH; [done|done|done|lia|lia].
Qed.
End trials.

(** ** Properties *)

(** [MPI_Bcast] ends after at most nine broadcasts.  It returns after the
    first turn on which all agree that the broadcast succeeded, and then the
    broadcast of this process did; when they never do it aborts with 10. *)
Theorem MPI_Bcast_correct {W} `{MpiConst} `{PmpiSplit W} `{Ulfm W} `{P2P W} `{Allocator} `{Files W}
    `{Coll W} `{!Agreeing W} perform fuel buf count ty root (s : sys W) :
  settled s → can_bcast s root → (0 < fuel)%nat →
  ∃ l s', runs (bcast_turn fuel buf count ty root MPI_COMM_WORLD) l s s' ∧
    ((∃ front flag, l = front ++ [(MPI_SUCCESS, flag)] ∧ flag ≠ 0 ∧
        Forall (λ p, p.2 = 0) front ∧ (length l ≤ 9)%nat ∧
        MPI_Bcast perform fuel buf count ty root MPI_COMM_WORLD s = Done MPI_SUCCESS s') ∨
     (Forall (λ p, p.2 = 0) l ∧ length l = 9%nat ∧
        MPI_Bcast perform fuel buf count ty root MPI_COMM_WORLD s = Stop (Aborted 10) s')).
Proof.
  intros Hs Hc Hf. destruct fuel as [|fuel]; [lia|].
  destruct (bcast_trials_spec fuel buf count ty root (Z.to_nat NO_TRIALS) 0 s Hc) as (l & s' & Hr & Hcases);
    [lia|unfold NO_TRIALS; lia|].
  exists l, s'. split; [done|]. unfold MPI_Bcast. cbn [bind]. rewrite (sync_settled _ _ Hs).
  destruct Hcases as [(front & flag & ? & ? & ? & ? & ?)|(? & ? & ?)].
  - left. exists front, flag. by split_and!; [..|lia|].
  - right. split; [done|]. split; [lia|done].
Qed.

(** [MPI_Gather] when no call fails: a master gathers among the masters and
    the other processes do not; then the whole result, [recvcount] elements for
    each job, is broadcast once among the workers of the job, from its rank 0. *)
Theorem MPI_Gather_correct {W} `{MpiConst} `{PmpiSplit W} `{Ulfm W} `{P2P W} `{Allocator} `{Files W}
    `{Coll W} perform fuel sbuf scount sty rbuf rcount rty root (s : sys W)
    m1 w1 f1 w2 m2 w3 f2 w4 :
  let n := node (s_globals s) in
  settled s → s_sender_cont s = 0 → s_receiver_cont s = 0 → (0 < fuel)%nat →
  INT_MIN ≤ rcount * jobs_count n ≤ INT_MAX →
  (if decide (active_comm n = MPI_COMM_NULL) then m1 = mem (s_heap s) ∧ w1 = s_world s
   else PMPI_Gather sbuf scount sty rbuf rcount rty root (active_comm n) (mem (s_heap s)) (s_world s) =
          (MPI_SUCCESS, m1, None, w1)) →
  PMPIX_Comm_agree (rep_mpi_comm_world n) 1 w1 = (MPI_SUCCESS, f1, None, w2) → f1 ≠ 0 →
  PMPI_Bcast rbuf (rcount * jobs_count n) rty 0 (world_job_comm n) m1 w2 = (MPI_SUCCESS, m2, None, w3) →
  PMPIX_Comm_agree (rep_mpi_comm_world n) 1 w3 = (MPI_SUCCESS, f2, None, w4) → f2 ≠ 0 →
  MPI_Gather perform fuel sbuf scount sty rbuf rcount rty root MPI_COMM_WORLD s =
    Done MPI_SUCCESS (called m2 w4 s).
Proof.
  intros n Hs Hsc Hrc Hf Hint Hop Ha1 Hf1 Hb Ha2 Hf2. unfold MPI_Gather.
  apply (masters_run perform fuel false _ _ s m1 w1 f1 w2 m2 w3 f2 w4); try done.
  - destruct (decide _); [done|].
    by apply (masters_op_run s sbuf rbuf (λ x y, PMPI_Gather x scount sty y rcount rty root)).
  - cbn [bind]. rewrite all_jobs_run by done. by apply (to_workers_run (called m1 w2 s)).
Qed.

(** The four calls that run among the masters, and what each of them asks for:
    the operation on [active_comm], and how many elements its result has in a
    program of [jobs] jobs.  [MPI_Allreduce] has one count and one type. *)
Inductive master_call : Set := Scatter | Gather | Allgather | Allreduce.

Section calls.
Context {W : Type} `{MpiConst} `{PmpiSplit W} `{Ulfm W} `{P2P W} `{Allocator} `{Files W} `{Coll W}.
Context (perform : action → M (sys W) unit) (fuel : nat).

Definition make_call (k : master_call) (sbuf scount sty rbuf rcount rty root op : Z) : M (sys W) Z :=
  match k with
  | Scatter => MPI_Scatter perform fuel sbuf scount sty rbuf rcount rty root MPI_COMM_WORLD
  | Gather => MPI_Gather perform fuel sbuf scount sty rbuf rcount rty root MPI_COMM_WORLD
  | Allgather => MPI_Allgather perform fuel sbuf scount sty rbuf rcount rty MPI_COMM_WORLD
  | Allreduce => MPI_Allreduce perform fuel sbuf rbuf rcount rty op MPI_COMM_WORLD
  end.
Definition among_masters (k : master_call) (sbuf scount sty rbuf rcount rty root op : Z) (c : MPI_Comm) :
    collective W :=
  match k with
  | Scatter => PMPI_Scatter sbuf scount sty rbuf rcount rty root c
  | Gather => PMPI_Gather sbuf scount sty rbuf rcount rty root c
  | Allgather => PMPI_Allgather sbuf scount sty rbuf rcount rty c
  | Allreduce => PMPI_Allreduce sbuf rbuf rcount rty op c
  end.
Definition result_count (k : master_call) (rcount jobs : Z) : Z :=
  match k with Scatter | Allreduce => rcount | Gather | Allgather => rcount * jobs end.
End calls.

(** C24: the four calls when nothing fails: a master takes part in the operation
    among the masters and no other process does; all agree; then the whole
    result of the job, which is [recvcount] elements for each job after a
    gather and [recvcount] elements otherwise, is broadcast once among the
    workers of the job from its rank 0; all agree again and the call returns
    success.  Nothing but the memory and the world changes. *)
Theorem master_calls_correct {W} `{MpiConst} `{PmpiSplit W} `{Ulfm W} `{P2P W} `{Allocator} `{Files W}
    `{Coll W} perform fuel k sbuf scount sty rbuf rcount rty root op (s : sys W)
    m1 w1 f1 w2 m2 w3 f2 w4 :
  let n := node (s_globals s) in
  let count := result_count k rcount (jobs_count n) in
  settled s → s_sender_cont s = 0 → s_receiver_cont s = 0 → (0 < fuel)%nat → INT_MIN ≤ count ≤ INT_MAX →
  (if decide (active_comm n = MPI_COMM_NULL) then m1 = mem (s_heap s) ∧ w1 = s_world s
   else among_masters k sbuf scount sty rbuf rcount rty root op (active_comm n) (mem (s_heap s)) (s_world s) =
          (MPI_SUCCESS, m1, None, w1)) →
  PMPIX_Comm_agree (rep_mpi_comm_world n) 1 w1 = (MPI_SUCCESS, f1, None, w2) → f1 ≠ 0 →
  PMPI_Bcast rbuf count rty 0 (world_job_comm n) m1 w2 = (MPI_SUCCESS, m2, None, w3) →
  PMPIX_Comm_agree (rep_mpi_comm_world n) 1 w3 = (MPI_SUCCESS, f2, None, w4) → f2 ≠ 0 →
  make_call perform fuel k sbuf scount sty rbuf rcount rty root op s = Done MPI_SUCCESS (called m2 w4 s).
Proof.
  intros n count Hs Hsc Hrc Hf Hint Hop Ha1 Hf1 Hb Ha2 Hf2.
  assert (to_workers rbuf count rty (called m1 w2 s) = Done MPI_SUCCESS (called m2 w3 s)) as Hw
    by by apply (to_workers_run (called m1 w2 s)).
  assert (∀ reset o b,
    (active_comm n ≠ MPI_COMM_NULL → o s = Done MPI_SUCCESS (called m1 w1 s)) →
    b (called m1 w2 s) = Done MPI_SUCCESS (called m2 w3 s) →
    masters perform fuel reset o b MPI_COMM_WORLD s = Done MPI_SUCCESS (called m2 w4 s)) as Hrun.
  { intros reset o b Ho Hbc. apply (masters_run perform fuel reset o b s m1 w1 f1 w2 m2 w3 f2 w4); try done.
    fold n. destruct (decide (active_comm n = MPI_COMM_NULL)); [done|by apply Ho]. }
  destruct k; cbn [make_call among_masters result_count] in *; apply Hrun;
    try exact Hw; try (cbn [bind]; rewrite all_jobs_run by done; exact Hw);
    intros Hne; rewrite decide_False in Hop by exact Hne.
  - by apply (masters_op_run s sbuf rbuf (λ x y, PMPI_Scatter x scount sty y rcount rty root)).
  - by apply (masters_op_run s sbuf rbuf (λ x y, PMPI_Gather x scount sty y rcount rty root)).
  - by apply (masters_op_run s sbuf rbuf (λ x y, PMPI_Allgather x scount sty y rcount rty)).
  - by apply (masters_op_run s sbuf rbuf (λ x y, PMPI_Allreduce x y rcount rty op)).
Qed.

(** A worker that is no master keeps the status of the broadcast in its job
    from one trial of [MPI_Gather] to the next.  When that broadcast fails and
    the root of a job died, every trial that follows fails at the agreement,
    whatever the others do, and the program aborts with 10. *)
Theorem MPI_Gather_stale_status {W} `{MpiConst} `{PmpiSplit W} `{Ulfm W} `{P2P W} `{Allocator} `{Files W}
    `{Coll W} `{!Agreeing W} perform fuel sbuf scount sty rbuf rcount rty root (s : sys W)
    f1 w1 st s2 died :
  settled s → active_comm (node (s_globals s)) = MPI_COMM_NULL → (0 < fuel)%nat →
  PMPIX_Comm_agree (rep_mpi_comm_world (node (s_globals s))) 1 (s_world s) =
    (MPI_SUCCESS, f1, None, w1) → f1 ≠ 0 →
  (let! n := all_jobs rcount in to_workers rbuf n rty) (put_mpi (s_globals s, w1) s) = Done st s2 →
  st ≠ MPI_SUCCESS →
  process_shrinking_pending (s_globals s2) = 0 → active_comm (node (s_globals s2)) = MPI_COMM_NULL →
  (∀ w, is_failed_node_world_job_comm_root (s_globals s2, w) = Done died (s_globals s2, w)) → died ≠ 0 →
  ∃ s', MPI_Gather perform fuel sbuf scount sty rbuf rcount rty root MPI_COMM_WORLD s =
    Stop (Aborted 10) s'.
Proof.
  intros Hs Hact Hf Ha1 Hf1 Hb Hst Hp2 Hact2 Hdied Hd. destruct fuel as [|fuel]; [lia|].
  pose proof (st_pending _ Hs) as Hp.
  unfold MPI_Gather, masters.
  match goal with |- context [master_trials _ _ _ ?o ?b] => set (gather := o); set (bcast := b) end.
  cbn [bind]. rewrite (sync_settled _ _ Hs).
  change (Z.to_nat NO_TRIALS) with 10%nat. rewrite master_trials_S. cbn [bind].
  change (negb (NO_TRIALS <=? 0 + 1)) with true. cbn [ensure ret gets].
  rewrite Hact, Z.eqb_refl. cbn [negb ret].
  rewrite succeeded_ok, (agree_loop_run fuel s 1 f1 w1 Hp Ha1).
  rewrite (proj2 (Z.eqb_neq _ _) Hf1).
  destruct (job_bcast_died fuel fuel bcast _ s2 st died Hb Hst Hp2 Hdied Hd) as (w' & Hjob).
  cbn [bind]. rewrite Hjob. cbn [Z.eqb].
  apply (stale_trials fuel _ _ 9 1 st); [done|done|done|lia|lia].
Qed.

(** [MPI_Reduce] does not notice that its broadcast failed.  The flag is -1
    after the reduction succeeded and nothing clears it, so that a worker of the
    root job whose broadcast fails still brings -1 to the agreement, and the call
    returns success: the buffer is what the failed broadcast left. *)
Theorem MPI_Reduce_hides_failure {W} `{MpiConst} `{PmpiSplit W} `{Ulfm W} `{P2P W} `{Allocator} `{Files W}
    `{Coll W} perform fuel sbuf rbuf count ty op root (s : sys W) w1 st m2 w2 w3 :
  let n := node (s_globals s) in
  settled s → s_receiver_cont s = 0 → (0 < fuel)%nat →
  active_comm n = MPI_COMM_NULL → job_id n = root →
  PMPIX_Comm_agree (rep_mpi_comm_world n) (-1) (s_world s) = (MPI_SUCCESS, -1, None, w1) →
  PMPI_Bcast rbuf count ty 0 (world_job_comm n) (mem (s_heap s)) w1 = (st, m2, None, w2) →
  st ≠ MPI_SUCCESS →
  PMPIX_Comm_agree (rep_mpi_comm_world n) (-1) w2 = (MPI_SUCCESS, -1, None, w3) →
  MPI_Reduce perform fuel sbuf rbuf count ty op root MPI_COMM_WORLD s =
    Done MPI_SUCCESS (called m2 w3 s).
Proof.
  intros n Hs Hrc Hf Hact Hroot Ha1 Hb Hst Ha2. destruct fuel as [|fuel]; [lia|].
  pose proof (st_pending _ Hs) as Hp.
  unfold MPI_Reduce. cbn [bind]. rewrite (sync_settled _ _ Hs). cbn [gets].
  change (Z.to_nat NO_TRIALS) with 10%nat. cbn [reduce_trials bind].
  change (negb (NO_TRIALS <=? 0 + 1)) with true. cbn [ensure ret gets]. unfold active. cbn [gets]. fold n.
  rewrite Hact, Z.eqb_refl. cbn [negb ret].
  unfold SET_FLAG_ON_SUCCESS at 1. rewrite Z.eqb_refl.
  rewrite (DO_COMM_AGREE_run fuel s (-1) (-1) w1 _ Hp Ha1). cbn [Z.eqb Pos.eqb negb reduce_bcast bind gets].
  cbn [s_globals put_mpi fst snd]. fold n. rewrite Hroot, Z.eqb_refl.
  set (s1 := put_mpi (s_globals s, w1) s).
  rewrite (to_workers_run s1 rbuf count ty st m2 w2 Hrc Hb).
  unfold SET_FLAG_ON_SUCCESS at 1. rewrite (proj2 (Z.eqb_neq _ _)) by congruence.
  rewrite (DO_COMM_AGREE_run fuel (called m2 w2 s1) (-1) (-1) w3 _ Hp Ha2). done.
Qed.

(** C23: the first agreement after a point-to-point call noticed a failure
    repairs the world: the world is shrunk, every job keeps its living workers,
    the tables are right again, and the agreement takes place, with the same
    flag, on the new world.  The loop makes two turns. *)
Theorem agree_loop_repairs {W} `{MpiConst} `{PmpiSplit W} `{Ulfm W} `{!UlfmLaws} `{P2P W}
    `{Allocator} `{Files W} `{Coll W} `{!Agreeing W} js a ign (s : sys W) r flag fuel :
  let g := s_globals s in
  let sh := shrink (rep_mpi_comm_world (node g)) (s_world s) in
  let size := Z.of_nat (length (sh_ranks sh)) in
  process_shrinking_pending g ≠ 0 → ignore_process_failure g = 0 →
  tables size js a ign g → 0 ≤ rank (node g) < size →
  translate (sh_ranks sh) (rank (node g)) = Some r →
  0 ≤ job_id (node g) < Z.of_nat (length js) →
  Forall (alive (sh_ranks sh)) js → (2 ≤ fuel)%nat →
  ∃ g' w1 flag' w2,
    agree_loop fuel MPI_COMM_WORLD (Some flag) s =
      Done flag' (put_mpi (set_process_shrinking_pending 0 g', w2) s) ∧
    PMPIX_Comm_agree (rep_mpi_comm_world (node g')) flag w1 = (MPI_SUCCESS, flag', None, w2) ∧
    rebuilt sh (updated (sh_ranks sh) js a ign g) g' w1 ∧
    ∃ a' ign', tables size (compacted (sh_ranks sh) <$> js) a' ign' g'.
Proof.
  intros g sh size Hp Hign Ht Hr Hown Hjob Hal Hf.
  destruct fuel as [|[|fuel]]; [lia|lia|].
  pose proof (repair_world_spec js a ign g (s_world s) r Ht Hr Hown Hjob) as Hrun. fold sh in Hrun.
  rewrite decide_True in Hrun by done. destruct Hrun as (g' & w1 & Hrun & Hreb).
  destruct (agreeing_agree (rep_mpi_comm_world (node g')) flag w1) as (flag' & w2 & Hag & _).
  exists g', w1, flag', w2. split; [|split; [done|split; [done|]]].
  - change (Datatypes.S (Datatypes.S fuel)) with (Datatypes.S (Datatypes.S fuel)).
    rewrite agree_loop_S. cbn [bind]. unfold comm_to_use at 1. rewrite Z.eqb_refl. cbn [gets bind].
    unfold MPI_Comm_agree at 1. cbn [bind gets]. fold g. rewrite (proj2 (Z.eqb_neq _ _) Hp). cbn [negb bind gets].
    unfold on_mpi at 1, zoom at 1. fold g.
    rewrite (rep_errhandler_run g (s_world s) PROC_SHRINK_PENDING (or_introl eq_refl) Hign), Hrun.
    rewrite (on_globals_run (modify (set_process_shrinking_pending 0)) (put_mpi (g', w1) s) tt _ eq_refl).
    cbn [ret]. rewrite (proj2 (Z.eqb_neq (MPI_SUCCESS + 12) MPI_SUCCESS)) by lia.
    match goal with |- agree_loop _ _ _ ?x = _ => set (s1 := x) end.
    by rewrite (agree_loop_run fuel s1 flag flag' w2 eq_refl Hag).
  - pose proof (updated_tables _ _ _ _ _ _ (shrink_translation _ (s_world s)) Ht Hal) as Ht'.
    destruct Hreb as (? & ? & ? & ? & ? & ? & ? & ? & _ & _ & _ & _ & ->).
    eexists _, _. destruct Ht' as [H1' H2' H3' H4' H5' H6' H7' H8' H9']. by split.
Qed.

(** ** Witnesses

    A world in which a broadcast of the datatype 0 writes a 7 and any other
    broadcast fails, and in which the process agrees with itself. *)
#[local] Instance idle_p2p W : P2P W := {
  PMPI_Type_size _ _ := 1;
  PMPI_Send _ _ _ _ w := (0, None, w);
  PMPI_Recv _ _ _ _ _ m w := (0, lost, m, None, w);
  PMPI_Irecv _ _ _ _ _ w := (0, 0, None, w);
  PMPI_Waitall _ m w := (0, [], [], m, None, w)
}.
#[local] Instance idle_files W : Files W := {
  st_mtime _ := 0;
  map_text _ := None;
  ckpt_access _ _ := false;
  PMPI_File_write_at _ _ _ w := w;
  stack_top _ := 4096;
  gethostname _ _ := hostname_ex;
  getpid _ := 77;
  PMPI_Allreduce_sum _ _ w := (0, w)
}.
#[local] Instance idle_coll W : Coll W := {
  PMPI_Bcast buf _ ty _ _ m w :=
    if ty =? 0 then (0, <[buf := Some Byte.x07]> m, None, w) else (75, m, None, w);
  PMPI_Scatter _ _ _ _ _ _ _ _ m w := (0, m, None, w);
  PMPI_Gather _ _ _ r _ _ _ _ m w := (0, <[r := Some Byte.x05]> m, None, w);
  PMPI_Allgather _ _ _ _ _ _ _ m w := (0, m, None, w);
  PMPI_Reduce _ _ _ _ _ _ _ m w := (0, m, None, w);
  PMPI_Allreduce _ _ _ _ _ _ m w := (0, m, None, w);
  PMPI_Barrier _ w := (0, None, w);
  PMPIX_Comm_agree _ flag w := (0, flag, None, w)
}.
#[local] Instance idle_agreeing W : Agreeing W.
Proof.
  split.
  - intros buf n ty r c m w. cbn. destruct (ty =? 0); by eexists _, _, _.
  - intros c flag w. by exists flag, w.
Qed.
#[local] Instance idle_ulfm : Ulfm unit := {
  PMPI_Error_class e _ := e;
  PMPIX_Comm_failure_get_acked c w := (c, w);
  PMPIX_Comm_shrink c w := (c, w);
  PMPI_Comm_group c w := (c, w);
  PMPI_Group_size _ _ := 1;
  PMPI_Group_translate_ranks _ l _ _ := l;
  PMPI_Comm_free _ w := w;
  PMPI_Comm_dup c w := (c, w)
}.
#[local] Instance idle_split : PmpiSplit unit := {|
  PMPI_Comm_rank _ _ := 2;
  PMPI_Comm_size _ _ := 4;
  PMPI_Comm_split c _ _ w := (c, w)
|}.
#[local] Existing Instances bump small_ulfm small_split small_ulfm_laws.

(** Process 2 of [crash_globals]: as a master, and as another worker. *)
Definition idle_heap : heap := set_mem {[ 500 := Some Byte.x01 ]} heap_init.
Definition idle_sys {W} (active : MPI_Comm) (w : W) : sys W :=
  MkSys (set_node (set_active_comm active (node (crash_globals 0))) (crash_globals 0)) w idle_heap 0 0 ∅.
Definition perform {W} (act : action) : M (sys W) unit := ret tt.

Lemma idle_settled {W} active (w : W) : settled (idle_sys active w).
Proof. by split. Qed.

Lemma MPI_Bcast_correct_witness : ∃ l s',
  runs (bcast_turn 1 500 1 0 1 MPI_COMM_WORLD) l (idle_sys 11 tt) s' ∧
  (MPI_Bcast perform 1 500 1 0 1 MPI_COMM_WORLD (idle_sys 11 tt) = Done 0 s' ∨
   MPI_Bcast perform 1 500 1 0 1 MPI_COMM_WORLD (idle_sys 11 tt) = Stop (Aborted 10) s').
Proof.
  destruct (MPI_Bcast_correct perform 1 500 1 0 1 (idle_sys 11 tt)) as (l & s' & Hr & Hcases).
  - apply idle_settled.
  - split; [reflexivity|]. split; [reflexivity|]. eexists _, 1. split; reflexivity.
  - lia.
  - exists l, s'. split; [exact Hr|].
    destruct Hcases as [(front & flag & _ & _ & _ & _ & Hrun)|(_ & _ & Hrun)]; [left|right]; exact Hrun.
Defined.

Lemma MPI_Gather_correct_witness :
  MPI_Gather perform 1 500 1 0 500 1 0 0 MPI_COMM_WORLD (idle_sys 11 tt) =
    Done MPI_SUCCESS (called {[ 500 := Some Byte.x07 ]} tt (idle_sys 11 tt)).
Proof.
  apply (MPI_Gather_correct perform 1 500 1 0 500 1 0 0 (idle_sys 11 tt)
    {[ 500 := Some Byte.x05 ]} tt 1 tt {[ 500 := Some Byte.x07 ]} tt 1 tt);
    [apply idle_settled|reflexivity|reflexivity|lia|vm_compute; split; intros [=]|vm_compute; reflexivity
    |reflexivity|done|vm_compute; reflexivity|reflexivity|done].
Defined.

#[local] Ltac by_run := first [apply idle_settled | reflexivity | lia | done | net_int | vm_compute; reflexivity].

Lemma master_calls_correct_witness :
  Forall (λ k, ∃ m, make_call perform 1 k 500 1 0 500 1 0 0 9 (idle_sys 11 tt) =
                 Done MPI_SUCCESS (called m tt (idle_sys 11 tt)))
    [Scatter; Gather; Allgather; Allreduce].
Proof.
  repeat constructor; exists {[ 500 := Some Byte.x07 ]}.
  - apply (master_calls_correct perform 1 Scatter 500 1 0 500 1 0 0 9 (idle_sys 11 tt)
      {[ 500 := Some Byte.x01 ]} tt 1 tt {[ 500 := Some Byte.x07 ]} tt 1 tt); by_run.
  - apply (master_calls_correct perform 1 Gather 500 1 0 500 1 0 0 9 (idle_sys 11 tt)
      {[ 500 := Some Byte.x05 ]} tt 1 tt {[ 500 := Some Byte.x07 ]} tt 1 tt); by_run.
  - apply (master_calls_correct perform 1 Allgather 500 1 0 500 1 0 0 9 (idle_sys 11 tt)
      {[ 500 := Some Byte.x01 ]} tt 1 tt {[ 500 := Some Byte.x07 ]} tt 1 tt); by_run.
  - apply (master_calls_correct perform 1 Allreduce 500 1 0 500 1 0 0 9 (idle_sys 11 tt)
      {[ 500 := Some Byte.x01 ]} tt 1 tt {[ 500 := Some Byte.x07 ]} tt 1 tt); by_run.
Defined.

Lemma MPI_Gather_stale_status_witness : ∃ s',
  MPI_Gather perform 1 500 1 0 500 1 9 0 MPI_COMM_WORLD (idle_sys MPI_COMM_NULL tt) = Stop (Aborted 10) s'.
Proof.
  apply (MPI_Gather_stale_status perform 1 500 1 0 500 1 9 0 (idle_sys MPI_COMM_NULL tt)
    1 tt 75 (idle_sys MPI_COMM_NULL tt) 1);
    [apply idle_settled|reflexivity|lia|reflexivity|done|vm_compute; reflexivity|done|reflexivity|reflexivity
    |intros w; vm_compute; reflexivity|done].
Defined.

Lemma MPI_Reduce_hides_failure_witness :
  MPI_Reduce perform 1 500 500 1 9 0 0 MPI_COMM_WORLD (idle_sys MPI_COMM_NULL tt) =
    Done MPI_SUCCESS (called {[ 500 := Some Byte.x01 ]} tt (idle_sys MPI_COMM_NULL tt)).
Proof.
  apply (MPI_Reduce_hides_failure perform 1 500 500 1 9 0 0 (idle_sys MPI_COMM_NULL tt)
    tt 75 {[ 500 := Some Byte.x01 ]} tt tt);
    [apply idle_settled|reflexivity|lia|reflexivity|reflexivity|reflexivity|reflexivity|done|reflexivity].
Defined.

(** Process 1 died in a receive of process 2. *)
Definition pending_sys : sys ulfm_world :=
  MkSys (set_process_shrinking_pending 1 (crash_globals 0)) (crash_world [1]) idle_heap 0 0 ∅.

Lemma agree_loop_repairs_witness : ∃ g' w1 w2,
  agree_loop 2 MPI_COMM_WORLD (Some 1) pending_sys =
    Done 1 (put_mpi (set_process_shrinking_pending 0 g', w2) pending_sys) ∧
  rebuilt (shrink 10 (crash_world [1])) (updated [0; MPI_UNDEFINED; 1; 2] crash_jobs crash_r2j
    (replicate 4 (Some 0)) (set_process_shrinking_pending 1 (crash_globals 0))) g' w1.
Proof.
  destruct (agree_loop_repairs crash_jobs crash_r2j (replicate 4 (Some 0)) pending_sys 1 1 2)
    as (g' & w1 & flag' & w2 & Hrun & Hag & Hreb & _).
  - done.
  - reflexivity.
  - destruct (crash_tables 0) as [H1 H2 H3 H4 H5 H6 H7 H8 H9]. by split.
  - done.
  - vm_compute. reflexivity.
  - done.
  - apply (bool_decide_unpack _). vm_compute. done.
  - lia.
  - injection Hag as <- <-. exists g', w1, w1. split; [exact Hrun|exact Hreb].
Defined.
