(* ===== verification/Recovery.v ===== *)
(** * A broadcast while processes die

    [rep_errhandler] of [src/mpi/ulfm.c] runs inside the calls of
    [src/mpi/init.c]: a broadcast or an agreement that finds a process of the
    world dead repairs the tables and the communicators before it returns, and
    [MPI_Bcast] goes on with the new ones.  This file puts the two together:
    whatever number of processes die during the call, and wherever in it they
    are noticed, the call ends, with the buffer of a broadcast that
    succeeded from the first living worker of the root's job, or with an
    abort. *)

From S2P Require Import Prelude Shared Mpi Memory Stat MapFile Comm HeapSeg Ulfm Update Lifecycle PointToPoint Collective.

(** ** Why a process aborts with 200

    A job has no worker left: the handler stops with that job in the table. *)
Definition job_lost (g : globals) : Prop :=
  ∃ i job, load_job i g = Done job g ∧ worker_count job = 0.

(** [m] aborts with 200 for that reason only. *)
Definition blames {S A} (get : S → globals) (m : M S A) : Prop :=
  ∀ s, wp m (λ _ _, True) (λ e s', e = Aborted 200 → job_lost (get s')) s.

Section blames.
Context {S : Type} (get : S → globals).

Lemma blames_Stop {A} (m : M S A) s s' : blames get m → m s = Stop (Aborted 200) s' → job_lost (get s').
Proof. intros Hm E. specialize (Hm s). unfold wp in Hm. rewrite E in Hm. by apply Hm. Qed.

Lemma blames_bind {A B} (m : M S A) (k : A → M S B) :
  blames get m → (∀ a, blames get (k a)) → blames get (bind m k).
Proof. intros Hm Hk s. apply wp_bind. eapply wp_mono; [by apply Hm| |done]. intros a s' _. apply Hk. Qed.
Lemma blames_gets {A} (f : S → A) : blames get (gets f).
Proof. done. Qed.
Lemma blames_modify f : blames get (modify f).
Proof. done. Qed.
Lemma blames_ret {A} (a : A) : blames get (ret a).
Proof. done. Qed.
Lemma blames_option {A} (o : option A) : blames get (of_option Undef o).
Proof. intros s. by destruct o. Qed.
Lemma blames_halt {A} e : e ≠ Aborted 200 → blames get (halt (A := A) e).
Proof. intros He s E. done. Qed.
Lemma blames_ensure b e : e ≠ Aborted 200 → blames get (ensure b e).
Proof. intros He s. destruct b; [done|]. intros E. done. Qed.
Lemma blames_when b m : blames get m → blames get (when b m).
Proof. intros Hm. by destruct b; [|apply blames_ret]. Qed.
Lemma blames_foldM {A B} (f : B → A → M S B) l : (∀ b x, blames get (f b x)) → ∀ b, blames get (foldM f b l).
Proof. intros Hf. induction l as [|x l IH]; intros b; [apply blames_ret|]. by apply blames_bind. Qed.
Lemma blames_iterM {A} (f : A → M S unit) l : (∀ x, blames get (f x)) → blames get (iterM f l).
Proof. intros Hf. by apply blames_foldM. Qed.
End blames.

Lemma blames_zoom {S T A} (gt : T → globals) (gs : S → globals) (get : S → T) put (m : M T A) :
  (∀ t s, gs (put t s) = gt t) → blames gt m → blames gs (zoom get put m).
Proof.
  intros Hg Hm s. specialize (Hm (get s)). unfold wp, zoom in *. destruct (m (get s)); [done|]. by rewrite Hg.
Qed.

Create HintDb blames.
#[export] Hint Resolve blames_bind blames_gets blames_modify blames_ret blames_option blames_halt blames_ensure
  blames_when blames_foldM blames_iterM : blames.

Section blame.
Context `{MpiConst}.
Abbreviation blame := (blames (λ g : globals, g)).

Lemma load_job_blames i : blame (load_job i).
Proof. unfold load_job. eauto with blames. Qed.
Lemma store_job_blames i v : blame (store_job i v).
Proof. unfold store_job. eauto 6 with blames. Qed.

Lemma store_load_job i v g u g' : store_job i v g = Done u g' → load_job i g' = Done v g'.
Proof.
  unfold store_job, load_job. cbn [bind gets]. destruct (job_list g) as [a|]; [|done]. cbn [mbind option_bind].
  destruct (astore a i v) as [a'|] eqn:E; [|done]. cbn. intros [= <- <-]. cbn.
  unfold astore, aload, aslot in *. case_match eqn:Ei; [|done]. cbn in E. injection E as <-.
  rewrite length_insert, Ei. cbn. rewrite list_lookup_insert_eq; [done|lia].
Qed.
#[local] Hint Resolve load_job_blames store_job_blames : blames.

Lemma compact_worker_blames size tr i o j : blame (compact_worker size tr i o j).
Proof.
  unfold compact_worker. apply blames_bind; [eauto with blames|]. intros job.
  apply blames_bind; [eauto with blames|]. intros r. apply blames_bind; [by eauto with blames|]. intros _.
  apply blames_bind; [eauto with blames|]. intros t. destruct (t =? MPI_UNDEFINED).
  - intros g. set (job' := MkJob _ _ _). apply wp_bind. pose proof (store_job_blames i job' g) as Hs. unfold wp in *.
    destruct (store_job i job' g) as [u g1|e g1] eqn:E; [|done]. apply store_load_job in E.
    destruct (negb (worker_count job - 1 =? 0)) eqn:En; cbn; [done|]. intros _.
    exists i, job'. split; [done|]. cbn. lia.
  - unfold store_rank_list, store_rank_2_job, store_rank_ignore. eauto 12 with blames.
Qed.

Lemma update_job_list_blames size tr : blame (update_job_list size tr).
Proof.
  unfold update_job_list, compact_job, upd_node. pose proof compact_worker_blames. eauto 20 with blames.
Qed.
End blame.

Section recovery.
Context {W : Type} `{MpiConst} `{PmpiSplit W} `{Ulfm W} `{P2P W} `{Allocator} `{Files W} `{Coll W}.

(** *** The calls that may run the handler *)
Abbreviation blame := (blames (λ s : globals * W, s.1)).
Abbreviation sys_blame := (blames (s_globals (W := W))).

Lemma of_globals_blames {A} (m : M globals A) : blames (λ g, g) m → blame (of_globals m).
Proof. by apply blames_zoom. Qed.
Lemma on_mpi_blames {A} (m : M (globals * W) A) : blame m → sys_blame (on_mpi m).
Proof. by apply blames_zoom. Qed.
Lemma mpi_call_blames {A} (f : W → A * W) : blame (mpi_call f).
Proof. intros s. unfold wp, mpi_call. by destruct (f s.2). Qed.
Lemma comm_split_blames c x k : blame (comm_split c x k).
Proof. intros s. unfold wp, comm_split. by destruct (PMPI_Comm_split _ _ _ _). Qed.
#[local] Hint Resolve of_globals_blames on_mpi_blames mpi_call_blames comm_split_blames load_job_blames
  update_job_list_blames : blames.

Lemma rep_errhandler_blames c e : blame (rep_errhandler c e).
Proof.
  unfold rep_errhandler, repair_world, rebuild_comms, note_failures, ignore_rank, store_rank_ignore, update_comms,
    upd_node, comm_free.
  apply blames_bind; [eauto with blames|]. intros cl. apply blames_bind; [by eauto with blames|]. intros _.
  apply blames_bind; [eauto with blames|]. intros g. destruct (_ && _).
  - eauto 40 with blames.
  - apply blames_when. repeat (apply blames_bind; [eauto with blames|]; intros ?). apply of_globals_blames, blames_iterM.
    intros r. destruct (r =? _); eauto 20 with blames.
Qed.

Lemma handle_blames r : sys_blame (handle r).
Proof. destruct r as [[c e]|]; [|apply blames_ret]. apply on_mpi_blames, rep_errhandler_blames. Qed.

Lemma call_blames f : sys_blame (call f).
Proof.
  intros s. unfold wp, call. destruct (f _ _) as [[[st m] r] w].
  apply (blames_bind _ (handle r) (λ _, ret st)); [apply handle_blames|]. intros _. apply blames_ret.
Qed.
Lemma call_agree_blames c flag : sys_blame (call_agree c flag).
Proof.
  intros s. unfold wp, call_agree. destruct (PMPIX_Comm_agree _ _ _) as [[[st f] r] w].
  apply (blames_bind _ (handle r) (λ _, ret (st, f))); [apply handle_blames|]. intros _. apply blames_ret.
Qed.

Lemma agree_loop_blames fuel comm : ∀ flag, sys_blame (agree_loop fuel comm flag).
Proof.
  induction fuel as [|fuel IH]; intros flag; [by apply blames_halt|]. cbn [agree_loop].
  unfold comm_to_use, MPI_Comm_agree, on_globals. apply blames_bind; [destruct (comm =? _); by eauto with blames|]. intros c.
  apply blames_bind.
  - apply blames_bind; [eauto with blames|]. intros p. destruct (negb _).
    + pose proof rep_errhandler_blames. eauto 20 with blames.
    + apply blames_bind; [eauto with blames|]. intros f. apply blames_bind; [apply call_agree_blames|].
      intros [st f']. eauto with blames.
  - intros [st f]. destruct (st =? _); eauto with blames.
Qed.

Lemma bcast_turn_blames fuel buf count ty root comm : sys_blame (bcast_turn fuel buf count ty root comm).
Proof.
  unfold bcast_turn, root_worker, on_globals, comm_to_use, sender_buffer, on_mem.
  pose proof call_blames. pose proof agree_loop_blames.
  repeat (apply blames_bind; [|intros ?]); eauto 10 with blames.
  - destruct (comm =? _); by eauto with blames.
  - destruct (_ =? 0); [eauto with blames|]. intros s. unfold wp, zoom, load64. by destruct (load_word _ _ _).
Qed.

(** ** What MPI and ULFM promise

    [failures w] is the number of failures still to be noticed, [live c w] says
    that [c] is a communicator, and [fleet size p c w] that it has [size]
    processes, of which this one is [p]. *)
Section laws.
Context (failures : W → nat) (live : MPI_Comm → W → Prop) (fleet : Z → Z → MPI_Comm → W → Prop).

(** A call that leaves the communicators, and notices failures at most. *)
Definition undisturbed (w w' : W) : Prop :=
  (failures w' ≤ failures w)%nat ∧ ∀ x, live x w → live x w'.

(** What a call on [c] raises, with the status [st]: nothing, or that a
    process of [c] failed, which is one failure less to be noticed. *)
Definition raises (c : MPI_Comm) (st : Z) (r : option (MPI_Comm * Z)) (w w' : W) : Prop :=
  match r with
  | None => True
  | Some (c', e) =>
      c' = c ∧ st ≠ MPI_SUCCESS ∧ PMPI_Error_class e w' = MPIX_ERR_PROC_FAILED ∧
      (failures w' < failures w)%nat
  end.

(** A new communicator of the same processes. *)
Definition fresh (x : MPI_Comm) (w w' : W) : Prop := ¬ live x w ∧ undisturbed w w'.

Class Fleet : Prop := {
  fleet_live size p c w : fleet size p c w → c ≠ MPI_COMM_NULL ∧ live c w;
  fleet_bcast size p c buf n ty r m w : fleet size p c w → 0 ≤ r < size →
    ∃ st m' e w', PMPI_Bcast buf n ty r c m w = (st, m', e, w') ∧
      fleet size p c w' ∧ undisturbed w w' ∧ raises c st e w w';
  (** The flag is the conjunction of what the processes brought, also when the
      call reports a failure. *)
  fleet_agree size p c flag w : fleet size p c w →
    ∃ st flag' e w', PMPIX_Comm_agree c flag w = (st, flag', e, w') ∧
      fleet size p c w' ∧ undisturbed w w' ∧ raises c st e w w' ∧
      (flag = 0 → flag' = 0) ∧ (e = None → st = MPI_SUCCESS);
  (** The survivors, this process among them, are numbered from 0. *)
  fleet_shrink size p c w : fleet size p c w →
    let sh := shrink c w in
    fresh (sh_comm sh) w (sh_world sh) ∧ Z.of_nat (length (sh_ranks sh)) = size ∧
    ∃ size' p', size' ≤ size ∧ Forall (λ t, t = MPI_UNDEFINED ∨ 0 ≤ t < size') (sh_ranks sh) ∧
      translate (sh_ranks sh) p = Some p' ∧ fleet size' p' (sh_comm sh) (sh_world sh);
  fleet_dup size p c w : fleet size p c w →
    let '(c', w') := PMPI_Comm_dup c w in fleet size p c' w' ∧ fresh c' w w';
  fleet_free size p c x w : fleet size p c w → x ≠ c →
    let w' := PMPI_Comm_free x w in
    fleet size p c w' ∧ failures w' = failures w ∧ ∀ y, live y w → y ≠ x → live y w';
  fleet_split size p c colour key w : fleet size p c w →
    let '(x, w') := PMPI_Comm_split c colour key w in
    fleet size p c w' ∧ undisturbed w w' ∧ (x = MPI_COMM_NULL ∨ fresh x w w' ∧ live x w')
}.

(** A network on which only failures make calls fail: a broadcast that does not
    succeed reports one, and an agreement that turns a success into a failure
    does not leave this process without a report of what the others noticed. *)
Class Prompt : Prop := {
  prompt_bcast size p c buf n ty r m w : fleet size p c w → 0 ≤ r < size →
    let '(st, _, e, _) := PMPI_Bcast buf n ty r c m w in e = None → st = MPI_SUCCESS;
  prompt_agree size p c flag w : fleet size p c w →
    let '(_, flag', _, w') := PMPIX_Comm_agree c flag w in
    flag ≠ 0 → flag' = 0 → (failures w' < failures w)%nat
}.
End laws.

Context (failures : W → nat) (live : MPI_Comm → W → Prop) (fleet : Z → Z → MPI_Comm → W → Prop).
Context `{!Fleet failures live fleet} `{!UlfmLaws}.
Abbreviation kept := (undisturbed failures live).
Abbreviation prompt := (Prompt failures fleet).
(** The flag fell, for a failure that was noticed. *)
Definition fell (flag flag' : Z) (w w' : W) : Prop := flag ≠ 0 → flag' = 0 → (failures w' < failures w)%nat.

(** ** The process between two failures *)

(** A handle that is not the one of the world. *)
Definition spare (c x : MPI_Comm) (w : W) : Prop := x = MPI_COMM_NULL ∨ live x w ∧ x ≠ c.

Record aboard (size : Z) (g : globals) (w : W) : Prop := {
  ab_ok : process_ok size g;
  ab_ignore : ignore_process_failure g = 0;
  ab_fleet : fleet size (rank (node g)) (rep_mpi_comm_world (node g)) w;
  ab_active : spare (rep_mpi_comm_world (node g)) (active_comm (node g)) w;
  ab_job : spare (rep_mpi_comm_world (node g)) (world_job_comm (node g)) w
}.

Lemma kept_refl w : kept w w.
Proof. by split. Qed.
Lemma kept_trans w1 w2 w3 : kept w1 w2 → kept w2 w3 → kept w1 w3.
Proof. intros [F1 L1] [F2 L2]. split; [lia|auto]. Qed.
Lemma spare_kept c x w w' : spare c x w → kept w w' → spare c x w'.
Proof. intros [->|[Hl Hx]] [_ L]; [by left|right; auto]. Qed.

Lemma aboard_kept size g w w' :
  aboard size g w → kept w w' → fleet size (rank (node g)) (rep_mpi_comm_world (node g)) w' → aboard size g w'.
Proof. intros [A1 A2 A3 A4 A5] Hk Hf. split; by eauto using spare_kept. Qed.

(** A handle that was made after [x] is another one. *)
Lemma spare_other c x y w : spare c x w → ¬ live y w → y ≠ MPI_COMM_NULL → x ≠ y.
Proof. intros [->|[Hl _]] Hy Hn E; [by subst|by subst]. Qed.

(** The handles are made anew from the shrunk world. *)
Lemma rebuild_comms_fleet size p world shrunk g w :
  fleet size p shrunk w → world ≠ shrunk →
  spare world (active_comm (node g)) w → spare world (world_job_comm (node g)) w →
  ∃ c a b w', rebuild_comms world shrunk (g, w) =
      Done tt (set_node (set_world_job_comm b (set_active_comm a (set_rep_mpi_comm_world c (node g)))) g, w') ∧
    fleet size p c w' ∧ (failures w' ≤ failures w)%nat ∧ spare c a w' ∧ spare c b w'.
Proof.
  intros Hf Hw Ha Hb. destruct (fleet_free _ _ _ _ _ _ world _ Hf Hw) as (Hf1 & Hn1 & Hl1).
  set (w1 := PMPI_Comm_free world w) in *.
  assert (∀ x, spare world x w → spare world x w1) as Hsp.
  { intros x [->|[Hl Hx]]; [by left|right]. split; [by apply Hl1|done]. }
  apply Hsp in Ha, Hb. pose proof (fleet_dup _ _ _ _ _ _ _ Hf1) as Hd.
  destruct (PMPI_Comm_dup shrunk w1) as [c w2] eqn:Ed. destruct Hd as [Hf2 [Hc Hk2]].
  destruct (fleet_live _ _ _ _ _ _ _ Hf2) as [Hc0 _]. destruct (fleet_live _ _ _ _ _ _ _ Hf1) as [_ Hs1].
  assert (shrunk ≠ c) as Hsc by (by intros ->).
  pose proof (spare_other _ _ _ _ Ha Hc Hc0) as Hac. pose proof (spare_other _ _ _ _ Hb Hc Hc0) as Hbc.
  destruct (fleet_free _ _ _ _ _ _ shrunk _ Hf2 Hsc) as (Hf3 & Hn3 & _). set (w3 := PMPI_Comm_free shrunk w2) in *.
  destruct (fleet_free _ _ _ _ _ _ _ _ Hf3 Hac) as (Hf4 & Hn4 & _).
  set (act := active_comm (node g)) in *. set (job := world_job_comm (node g)) in *.
  set (w4 := if act =? MPI_COMM_NULL then w3 else PMPI_Comm_free act w3).
  assert (fleet size p c w4 ∧ failures w4 = failures w3) as [Hf4' Hn4'] by (unfold w4; by destruct (act =? _)).
  destruct (fleet_free _ _ _ _ _ _ _ _ Hf4' Hbc) as (Hf5 & Hn5 & _). set (w5 := PMPI_Comm_free job w4) in *.
  set (n := set_world_job_comm MPI_COMM_NULL (set_active_comm (if act =? MPI_COMM_NULL then act else MPI_COMM_NULL)
              (set_rep_mpi_comm_world c (node g)))).
  pose proof (fleet_split _ _ _ _ _ _ (active_split n).1 (active_split n).2 _ Hf5) as Hsa.
  destruct (PMPI_Comm_split c (active_split n).1 (active_split n).2 w5) as [a w6] eqn:Ea.
  destruct Hsa as (Hf6 & Hk6 & Hxa).
  pose proof (fleet_split _ _ _ _ _ _ (world_job_split n).1 (world_job_split n).2 _ Hf6) as Hsb.
  destruct (PMPI_Comm_split c (world_job_split n).1 (world_job_split n).2 w6) as [b w7] eqn:Eb.
  destruct Hsb as (Hf7 & Hk7 & Hxb). exists c, a, b, w7.
  assert (∀ x u u', fleet size p c u → x = MPI_COMM_NULL ∨ fresh failures live x u u' ∧ live x u' → spare c x u') as Hnew.
  { intros x u u' Hu [->|[[Hx _] Hl]]; [by left|right]. split; [done|]. intros ->.
    by destruct (fleet_live _ _ _ _ _ _ _ Hu). }
  split; [|split; [done|split]].
  - unfold rebuild_comms, mpi_call, comm_free, of_globals, zoom, upd_node. cbn [bind modify gets fst snd].
    fold w1. rewrite Ed. cbn [bind modify gets fst snd node set_node active_comm world_job_comm set_rep_mpi_comm_world].
    fold w3 act job. unfold w5, w4, n in *. destruct (act =? MPI_COMM_NULL); cbn [negb when bind modify ret fst snd];
      rewrite update_comms_spec; unfold active_split, world_job_split in *; cbn in *; by rewrite Ea, Eb.
  - destruct Hk2, Hk6, Hk7. rewrite Hn4', Hn3 in *. lia.
  - split; [exact (spare_kept _ _ _ _ (Hnew _ _ _ Hf5 Hxa) Hk7)|exact (Hnew _ _ _ Hf6 Hxb)].
Qed.

(** What a repair leaves: a smaller world, with the same jobs. *)
Record after_repair (size : Z) (g : globals) (w : W) (size' : Z) (g' : globals) (w' : W) : Prop := {
  ar_aboard : aboard size' g' w';
  ar_size : size' ≤ size;
  ar_failures : (failures w' ≤ failures w)%nat;
  ar_jobs : jobs_count (node g') = jobs_count (node g)
}.

Lemma after_repair_trans n1 g1 w1 n2 g2 w2 n3 g3 w3 :
  after_repair n1 g1 w1 n2 g2 w2 → after_repair n2 g2 w2 n3 g3 w3 → after_repair n1 g1 w1 n3 g3 w3.
Proof. intros [A1 A2 A3 A4] [B1 B2 B3 B4]. split; [done|lia|lia|congruence]. Qed.

Lemma after_kept size g w w' : aboard size g w → kept w w' →
  fleet size (rank (node g)) (rep_mpi_comm_world (node g)) w' → after_repair size g w size g w'.
Proof. intros Ha Hk Hf. split; [by eapply aboard_kept|done|apply Hk|done]. Qed.

Lemma repair_fleet size g w err :
  let world := rep_mpi_comm_world (node g) in
  aboard size g w → err = PROC_SHRINK_PENDING ∨ PMPI_Error_class err w = MPIX_ERR_PROC_FAILED →
  (∃ size' g' w', rep_errhandler world err (g, w) = Done tt (g', w') ∧ after_repair size g w size' g' w' ∧
     process_shrinking_pending g' = process_shrinking_pending g) ∨
  (∃ s, rep_errhandler world err (g, w) = Stop (Aborted 200) s).
Proof.
  intros world [Hok Hign Hf Ha Hb] Herr. fold world in Hf, Ha, Hb.
  pose proof (fleet_shrink _ _ _ _ _ _ _ Hf) as Hsh. set (sh := shrink world w) in *.
  destruct Hsh as ([Hfresh Hk] & Hlen & size' & p' & Hle & Hnew & Hown & Hf').
  assert (shrinks size size' g sh) as Hshr by (split; [done..|by exists p']).
  destruct (repair_ok size size' g w err Hok Herr Hign Hshr) as [(g' & w' & Hrun & Hok')|Hab]; [left|by right].
  exists size', g', w'. split; [done|].
  unfold world in Hrun. rewrite (rep_errhandler_run g w err Herr Hign), (repair_world_start g w) in Hrun.
  fold world sh in Hrun. destruct Hok as (_ & js & a & ign & Ht & _ & Hrole).
  destruct (role_ranges _ _ _ _ _ Ht Hrole) as [Hrank Hjob].
  pose proof (shrink_translation world w) as Htr. fold sh in Htr. rewrite Hlen in Htr, Hrun.
  set (g1 := set_previous_world_group (sh_before sh) (set_last_group_failed (sh_failed sh) g)) in *.
  pose proof (update_job_list_spec size (sh_ranks sh) js a ign g1 p' Htr (tables_frame _ _ _ _ _ _ _ Ht)
    Hrank Hown Hjob) as Hupd. cbv zeta in Hupd. cbn [bind] in Hrun.
  destruct (decide _) as [Hal|_]; [|destruct Hupd as [? Hupd]; by rewrite (of_globals_Stop _ _ _ _ _ Hupd) in Hrun].
  rewrite (of_globals_Done _ _ _ _ _ Hupd) in Hrun.
  destruct (rebuild_comms_fleet size' p' world (sh_comm sh) (updated (sh_ranks sh) js a ign g1) (sh_world sh))
    as (c & x & y & w1 & Hrb & Hf1 & Hn1 & Hx & Hy).
  { done. }
  { intros E. destruct Hfresh. rewrite <-E. by eapply fleet_live. }
  { by eapply spare_kept. }
  { by eapply spare_kept. }
  rewrite Hrb in Hrun. injection Hrun as <- <-.
  assert (rank (node (updated (sh_ranks sh) js a ign g1)) = p') as Hp by (cbn; by rewrite Hown).
  split; [|done]. split; [|done|destruct Hk; lia|done].
  split; try done. cbn. rewrite Hown. exact Hf1.
Qed.

(** ** The calls *)
Implicit Types (s : sys W).

Definition world_of s : MPI_Comm := rep_mpi_comm_world (node (s_globals s)).
Definition ready (size : Z) s : Prop := aboard size (s_globals s) (s_world s).
Definition repaired (size : Z) s (size' : Z) s' : Prop :=
  after_repair size (s_globals s) (s_world s) size' (s_globals s') (s_world s').

(** What remains to be noticed, a failure that waits included. *)
Definition troubles s : nat :=
  failures (s_world s) + (if process_shrinking_pending (s_globals s) =? 0 then 0 else 1).

(** A call on the world that returned, and then its handler. *)
Lemma handle_fleet size s st r w' :
  ready size s → fleet size (rank (node (s_globals s))) (world_of s) w' → kept (s_world s) w' →
  raises failures (world_of s) st r (s_world s) w' →
  (∃ size' g' w'', handle r (put_mpi (s_globals s, w') s) = Done tt (put_mpi (g', w'') s) ∧
     after_repair size (s_globals s) (s_world s) size' g' w'' ∧
     process_shrinking_pending g' = process_shrinking_pending (s_globals s) ∧ (failures w'' ≤ failures w')%nat ∧
     (r = None ∨ (failures w'' < failures (s_world s))%nat)) ∨
  (∃ s', handle r (put_mpi (s_globals s, w') s) = Stop (Aborted 200) s').
Proof.
  intros Hs Hf Hk Hr. pose proof (after_kept _ _ _ _ Hs Hk Hf) as Har. destruct r as [[c e]|].
  - destruct Hr as (-> & _ & He & Hlt).
    destruct (repair_fleet size (s_globals s) w' e (ar_aboard _ _ _ _ _ _ Har) (or_intror He))
      as [(size' & g' & w'' & Hrun & Har' & Hp)|(x & Hrun)].
    + left. exists size', g', w''. split; [|split; [by eapply after_repair_trans|split; [done|split; [apply Har'|right]]]].
      * cbn [handle]. unfold on_mpi, zoom. cbn [put_mpi s_globals s_world fst snd]. unfold world_of. by rewrite Hrun.
      * pose proof (ar_failures _ _ _ _ _ _ Har'). lia.
    + right. cbn [handle]. unfold on_mpi, zoom. cbn [put_mpi s_globals s_world fst snd]. unfold world_of.
      rewrite Hrun. by eexists.
  - left. exists size, (s_globals s), w'. split; [done|]. split; [done|]. split; [done|]. split; [done|by left].
Qed.

(** The pending failure is repaired first. *)
Lemma agree_pending_fleet size s c flag :
  ready size s → process_shrinking_pending (s_globals s) ≠ 0 →
  (∃ size' g' w', MPI_Comm_agree c flag s = Done (MPI_SUCCESS + 12, flag) (put_mpi (g', w') s) ∧
     after_repair size (s_globals s) (s_world s) size' g' w' ∧ process_shrinking_pending g' = 0) ∨
  (∃ s', MPI_Comm_agree c flag s = Stop (Aborted 200) s').
Proof.
  intros Hs Hp. unfold MPI_Comm_agree. cbn [bind gets]. rewrite (proj2 (Z.eqb_neq _ _) Hp). cbn [negb bind gets].
  unfold on_mpi, zoom. cbn [s_globals s_world].
  destruct (repair_fleet size (s_globals s) (s_world s) PROC_SHRINK_PENDING Hs (or_introl eq_refl))
    as [(size' & g' & w' & Hrun & [[B1 B2 B3 B4 B5] A2 A3 A4] & _)|(x & Hrun)]; cbv zeta in Hrun; rewrite Hrun.
  - left. exists size', (set_process_shrinking_pending 0 g'), w'. split; [done|]. split; [|done].
    split; [|done..]. split; [|done..]. by apply (process_ok_frame size' g').
  - right. by eexists.
Qed.

(** An agreement on the current world. *)
Lemma agree_call_fleet size s flag :
  ready size s → process_shrinking_pending (s_globals s) = 0 →
  (∃ st flag' size' g' w', MPI_Comm_agree (world_of s) (Some flag) s = Done (st, Some flag') (put_mpi (g', w') s) ∧
     after_repair size (s_globals s) (s_world s) size' g' w' ∧ process_shrinking_pending g' = 0 ∧
     (flag = 0 → flag' = 0) ∧ (st = MPI_SUCCESS ∨ (failures w' < failures (s_world s))%nat) ∧
     (prompt → fell flag flag' (s_world s) w')) ∨
  (∃ s', MPI_Comm_agree (world_of s) (Some flag) s = Stop (Aborted 200) s').
Proof.
  intros Hs Hp. unfold MPI_Comm_agree. cbn [bind gets]. rewrite Hp. cbn [Z.eqb negb of_option bind].
  destruct (fleet_agree _ _ _ _ _ _ flag _ (ab_fleet _ _ _ Hs)) as (st & flag' & e & w' & Hc & Hf & Hk & Hr & Hz & Hq).
  unfold call_agree. fold (world_of s) in Hc. rewrite Hc. cbn [bind].
  destruct (handle_fleet size s st e w' Hs Hf Hk Hr) as [(size' & g' & w'' & Hrun & Har & Hp' & Hn & Hlt)|(x & Hrun)]; rewrite Hrun.
  - left. exists st, flag', size', g', w''. split; [done|]. split; [done|]. split; [congruence|]. split; [done|]. split.
    + destruct Hlt as [->|Hlt]; [left; by apply Hq|by right].
    + intros Hpr. pose proof (prompt_agree _ _ _ _ _ flag _ (ab_fleet _ _ _ Hs)) as Hfl. unfold world_of in Hc.
      rewrite Hc in Hfl. intros Hf0 Hf1. specialize (Hfl Hf0 Hf1). lia.
  - right. by eexists.
Qed.

Lemma agree_loop_fleet fuel : ∀ size s flag,
  ready size s → (troubles s < fuel)%nat →
  (∃ flag' size' g' w', agree_loop fuel MPI_COMM_WORLD (Some flag) s = Done flag' (put_mpi (g', w') s) ∧
     after_repair size (s_globals s) (s_world s) size' g' w' ∧ process_shrinking_pending g' = 0 ∧
     (flag = 0 → flag' = 0) ∧ (prompt → fell flag flag' (s_world s) w')) ∨
  (∃ s', agree_loop fuel MPI_COMM_WORLD (Some flag) s = Stop (Aborted 200) s').
Proof.
  induction fuel as [|fuel IH]; intros size s flag Hs Hfu; [lia|]. rewrite agree_loop_S.
  cbn [bind]. unfold comm_to_use. rewrite Z.eqb_refl. cbn [gets bind]. fold (world_of s).
  unfold troubles in Hfu. destruct (decide (process_shrinking_pending (s_globals s) = 0)) as [Ep|Ep].
  - rewrite Ep, Z.eqb_refl in Hfu.
    destruct (agree_call_fleet size s flag Hs Ep) as [(st & f1 & size1 & g1 & w1 & Hrun & Har & Hp & Hz & Hst & Hpr)|(x & Hrun)];
      rewrite Hrun; [|right; by eexists]. cbn [bind].
    destruct (st =? MPI_SUCCESS) eqn:Est; [left; by exists f1, size1, g1, w1|].
    destruct Hst as [->|Hlt]; [by rewrite Z.eqb_refl in Est|].
    destruct (IH size1 (put_mpi (g1, w1) s) f1) as [(f2 & size2 & g2 & w2 & Hrun2 & Har2 & Hp2 & Hz2 & _)|(x & Hrun2)].
    + apply Har.
    + unfold troubles. cbn [put_mpi s_globals s_world fst snd]. rewrite Hp, Z.eqb_refl. lia.
    + left. exists f2, size2, g2, w2. split; [exact Hrun2|]. split; [by eapply after_repair_trans|]. split; [done|].
      split; [auto|]. intros _ _ _. pose proof (ar_failures _ _ _ _ _ _ Har2) as Hle. cbn in Hle. lia.
    + right. by exists x.
  - rewrite (proj2 (Z.eqb_neq _ _) Ep) in Hfu.
    destruct (agree_pending_fleet size s (world_of s) (Some flag) Hs Ep)
      as [(size1 & g1 & w1 & Hrun & Har & Hp)|(x & Hrun)]; rewrite Hrun; [|right; by eexists]. cbn [bind].
    rewrite (proj2 (Z.eqb_neq (MPI_SUCCESS + 12) MPI_SUCCESS)) by lia.
    destruct (IH size1 (put_mpi (g1, w1) s) flag) as [(f2 & size2 & g2 & w2 & Hrun2 & Har2 & Hp2 & Hz2 & Hpr2)|(x & Hrun2)].
    + apply Har.
    + unfold troubles. cbn [put_mpi s_globals s_world fst snd]. rewrite Hp, Z.eqb_refl.
      pose proof (ar_failures _ _ _ _ _ _ Har). lia.
    + left. exists f2, size2, g2, w2. split; [exact Hrun2|]. split; [by eapply after_repair_trans|]. split; [done|].
      split; [auto|]. intros Hpr Hf0 Hf1. specialize (Hpr2 Hpr Hf0 Hf1). pose proof (ar_failures _ _ _ _ _ _ Har) as Hle.
      cbn in Hpr2. lia.
    + right. by exists x.
Qed.

(** ** The trials *)

(** [r] is the first worker of the job [root]. *)
Definition first_worker (root r : Z) s : Prop :=
  ∃ job, load_job root (s_globals s) = Done job (s_globals s) ∧ aload (rank_list job) 0 = Some r.

Lemma first_worker_fleet size s root :
  ready size s → 0 ≤ root < jobs_count (node (s_globals s)) → ∃ r, first_worker root r s ∧ 0 ≤ r < size.
Proof.
  intros [(_ & js & a & ign & Ht & _) _ _ _ _] Hroot. rewrite (tab_count _ _ _ _ _ Ht) in Hroot.
  destruct (lookup_lt_is_Some_2 js (Z.to_nat root)) as [j Hj]; [lia|].
  pose proof (tab_ok _ _ _ _ _ Ht) as Hok. pose proof (tab_nonempty _ _ _ _ _ Ht) as Hne.
  rewrite Forall_forall in Hok, Hne. apply list_elem_of_lookup_2 in Hj as Hin.
  destruct (Hok _ Hin) as (rs & rest & Ej & Hrs). specialize (Hne _ Hin). rewrite Ej, workers_app in Hne.
  destruct rs as [|r rs]; [done|]. apply Forall_cons in Hrs as [Hr _]. exists r. split; [|done].
  exists j. split; [|by rewrite Ej]. unfold load_job. cbn [bind gets].
  rewrite (tab_jobs _ _ _ _ _ Ht). cbn [mbind option_bind].
  by rewrite (aload_Some (Some <$> js) root j) by (lia || by rewrite list_lookup_fmap, Hj).
Qed.

Lemma root_worker_run root r s : first_worker root r s → root_worker root s = Done r s.
Proof.
  intros (job & Hj & Hr). unfold root_worker. cbn [bind]. rewrite (on_globals_same _ _ _ Hj). cbn [bind]. by rewrite Hr.
Qed.

Section trials.
Context (fuel : nat) (buf count ty root : Z).
Abbreviation turn := (bcast_turn fuel buf count ty root MPI_COMM_WORLD).

(** What the call needs, and keeps. *)
Record can_try (size : Z) s : Prop := {
  ct_ready : ready size s;
  ct_cont : s_sender_cont s = 0;
  ct_root : 0 ≤ root < jobs_count (node (s_globals s));
  ct_fuel : (troubles s < fuel)%nat
}.

(** One turn: the status and the memory are those of a broadcast from the
    first worker that the root's job had then. *)
Definition turned (size : Z) s (st flag : Z) (size' : Z) s' : Prop :=
  ∃ r m' e w', first_worker root r s ∧
    PMPI_Bcast buf count ty r (world_of s) (mem (s_heap s)) (s_world s) = (st, m', e, w') ∧
    mem (s_heap s') = m' ∧ (flag ≠ 0 → st = MPI_SUCCESS) ∧ can_try size' s' ∧ repaired size s size' s' ∧
    turn s = Done (st, flag) s'.

Lemma bcast_turn_fleet size s : can_try size s →
  (∃ st flag size' s', turned size s st flag size' s' ∧
     (prompt → flag = 0 → (failures (s_world s') < failures (s_world s))%nat)) ∨
  (∃ s', turn s = Stop (Aborted 200) s').
Proof.
  intros [Hs Hc Hroot Hfu]. destruct (first_worker_fleet size s root Hs Hroot) as (r & Hr & Hrange).
  destruct (fleet_bcast _ _ _ _ _ _ buf count ty r (mem (s_heap s)) _ (ab_fleet _ _ _ Hs) Hrange)
    as (st & m' & e & w' & Hb & Hf & Hk & Hra). fold (world_of s) in Hb, Hf, Hra.
  assert (turn s = (let! st := call (PMPI_Bcast buf count ty r (world_of s)) in
                    let! flag := agree_loop fuel MPI_COMM_WORLD (Some (succeeded st)) in ret (st, flag)) s) as Hturn.
  { unfold bcast_turn. cbn [bind]. rewrite (root_worker_run _ _ _ Hr). unfold comm_to_use. rewrite Z.eqb_refl.
    cbn [gets bind]. by rewrite (plain_sender _ _ Hc). }
  unfold turned. rewrite Hturn. cbn [bind]. unfold call. rewrite Hb. cbn [bind].
  set (s1 := put_heap (set_mem m' (s_heap s)) s).
  change (put_heap (set_mem m' (s_heap s)) (put_mpi (s_globals s, w') s)) with (put_mpi (s_globals s1, w') s1).
  destruct (handle_fleet size s1 st e w' Hs Hf Hk Hra) as [(size1 & g1 & w1 & Hrun & Har & Hp & _ & Hlt)|(x & Hrun)];
    rewrite Hrun; [|right; by eexists]. cbn [ret].
  set (s2 := put_mpi (g1, w1) s1).
  assert (troubles s2 ≤ troubles s)%nat as Htr.
  { unfold troubles. cbn. rewrite Hp. cbn. pose proof (ar_failures _ _ _ _ _ _ Har) as Hfl. cbn in Hfl. lia. }
  destruct (agree_loop_fleet fuel size1 s2 (succeeded st)) as [(flag & size2 & g2 & w2 & Hrun2 & Har2 & Hp2 & Hz & Hpr)|(x & Hrun2)];
    [apply Har|lia| |]; rewrite Hrun2; [left|right; by eexists].
  assert (failures w2 ≤ failures w1)%nat as Hle2 by apply Har2.
  assert (failures w1 ≤ failures (s_world s))%nat as Hle1 by apply Har.
  exists st, flag, size2, (put_mpi (g2, w2) s2). split.
  2:{ intros Hprompt Hfl. change (failures w2 < failures (s_world s))%nat. destruct Hlt as [->|Hlt]; [|cbn in Hlt; lia].
      pose proof (prompt_bcast _ _ _ _ _ buf count ty r (mem (s_heap s)) _ (ab_fleet _ _ _ Hs) Hrange) as Hok.
      fold (world_of s) in Hok. rewrite Hb in Hok. rewrite (Hok eq_refl), succeeded_ok in Hpr.
      specialize (Hpr Hprompt ltac:(lia) Hfl). cbn in Hpr. lia. }
  exists r, m', e, w'. split; [done|]. split; [done|]. split; [done|].
  pose proof (after_repair_trans _ _ _ _ _ _ _ _ _ Har Har2) as Har3. split; [|split; [|split; [exact Har3|done]]].
  - intros Hfl. destruct (decide (st = MPI_SUCCESS)) as [|Hne]; [done|]. destruct Hfl. apply Hz. by apply succeeded_failed.
  - split; [apply Har3|done| |].
    + change (0 ≤ root < jobs_count (node g2)). by rewrite (ar_jobs _ _ _ _ _ _ Har3).
    + change (failures w1 + (if (process_shrinking_pending g1 =? 0)%Z then 0 else 1) ≤ troubles s)%nat in Htr.
      change (failures w2 + (if (process_shrinking_pending g2 =? 0)%Z then 0 else 1) < fuel)%nat. rewrite Hp2.
      cbn. lia.
Qed.

(** How the trials that are left end: at a turn that all agree on, after the last
    one, or because a job lost its last worker. *)
Inductive ending (size : Z) s : list (Z * Z) → result (sys W) Z → Prop :=
  | ending_agreed st flag size' s' :
      turned size s st flag size' s' → flag ≠ 0 → ending size s [(st, flag)] (Done MPI_SUCCESS s')
  | ending_trials : ending size s [] (Stop (Aborted 10) s)
  | ending_lost s' : job_lost (s_globals s') → ending size s [] (Stop (Aborted 200) s')
  | ending_again st size' s' l r :
      turned size s st 0 size' s' → ending size' s' l r → ending size s ((st, 0) :: l) r.

Lemma bcast_trials_fleet n : ∀ t size s,
  can_try size s → 0 ≤ t ≤ 9 → 10 ≤ Z.of_nat n + t →
  ∃ l, ending size s l (bcast_trials n fuel buf count ty root MPI_COMM_WORLD t s) ∧
    Z.of_nat (length l) ≤ 9 - t ∧
    (∀ s', bcast_trials n fuel buf count ty root MPI_COMM_WORLD t s = Stop (Aborted 10) s' →
       Z.of_nat (length l) = 9 - t ∧ (prompt → 9 - t ≤ Z.of_nat (failures (s_world s)))) ∧
    (prompt → (length l ≤ S (failures (s_world s)))%nat).
Proof.
  induction n as [|n IH]; intros t size s Hs Ht Hn; [lia|]. cbn [bcast_trials bind].
  destruct (Z.leb_spec NO_TRIALS (t + 1)) as [Hlast|Hmore]; unfold NO_TRIALS in *; cbn [negb ensure halt ret bind].
  { exists []. split; [constructor|]. simpl. split; [lia|]. split; [|lia]. intros. split; [lia|]. intros. lia. }
  destruct (bcast_turn_fleet size s Hs) as [(st & flag & size1 & s1 & Htu & Hpr)|(x & Hrun)].
  - pose proof Htu as (r & m' & e & w' & _ & _ & _ & _ & Hs1 & _ & Hrun). rewrite Hrun. cbn [bind].
    destruct (Z.eqb_spec flag 0) as [->|Hf].
    + destruct (IH (t + 1) size1 s1 Hs1) as (l & He & Hl & Hten & Hpl); [lia|lia|]. exists ((st, 0) :: l).
      split; [by econstructor|]. simpl. split; [lia|]. split.
      * intros s' E. destruct (Hten s' E) as [Hlen Hfa]. split; [lia|]. intros Hp.
        specialize (Hpr Hp eq_refl). specialize (Hfa Hp). lia.
      * intros Hp. specialize (Hpr Hp eq_refl). specialize (Hpl Hp). lia.
    + exists [(st, flag)]. split; [by econstructor|]. simpl. split; [lia|]. split; [done|intros; lia].
  - rewrite Hrun. exists []. split; [|simpl; split; [lia|split; [done|intros; lia]]]. constructor.
    by eapply blames_Stop; [apply bcast_turn_blames|].
Qed.
End trials.

(** The whole call. *)
Lemma MPI_Bcast_fleet perform fuel buf count ty root size s :
  aboard size (s_globals s) (s_world s) → st_mtime (s_world s) ≤ last_file_update (s_globals s) →
  s_sender_cont s = 0 → 0 ≤ root < jobs_count (node (s_globals s)) → (failures (s_world s) + 2 ≤ fuel)%nat →
  let run := MPI_Bcast perform fuel buf count ty root MPI_COMM_WORLD s in
  ∃ l, ending fuel buf count ty root size s l run ∧ (length l ≤ 9)%nat ∧
    (∀ s', run = Stop (Aborted 10) s' → length l = 9%nat ∧ (prompt → (9 ≤ failures (s_world s))%nat)) ∧
    (prompt → (length l ≤ S (failures (s_world s)))%nat).
Proof.
  intros Hs Hm Hc Hroot Hfu run.
  assert (run = bcast_trials (Z.to_nat NO_TRIALS) fuel buf count ty root MPI_COMM_WORLD 0 s) as ->.
  { unfold run, MPI_Bcast. cbn [bind]. by rewrite (sync_unmodified perform s) by first [apply Hs|done]. }
  destruct (bcast_trials_fleet fuel buf count ty root (Z.to_nat NO_TRIALS) 0 size s)
    as (l & He & Hl & Hten & Hpl); [|lia|unfold NO_TRIALS; lia|].
  - split; [done..|]. unfold troubles. case_match; lia.
  - exists l. split; [done|]. split; [lia|]. split; [|done]. intros s' E. destruct (Hten s' E) as [? Hp].
    split; [lia|]. intros Hpr. specialize (Hp Hpr). lia.
Qed.

(** How a call ends. *)
Lemma ending_cases fuel buf count ty root size s l r :
  ending fuel buf count ty root size s l r →
  (∃ s', r = Done MPI_SUCCESS s') ∨ (∃ s', r = Stop (Aborted 10) s') ∨
  (∃ s', r = Stop (Aborted 200) s' ∧ job_lost (s_globals s')).
Proof. induction 1; naive_solver. Qed.
End recovery.

(** ** Properties *)

(** C21: [MPI_Bcast] while processes die.  However many failures are still to be
    noticed, and wherever in the call they are, with two units of fuel more
    than there are failures the call ends after at most nine turns: each turn
    broadcasts from the first worker that the root's job has by then, in the
    world as it was repaired until then; turns that the processes agree did
    not succeed are made again; the call returns after the first one they agree
    on, and then the broadcast of this process in that turn succeeded and its
    memory is the one that broadcast left; it aborts with 10 after nine
    turns that failed, and with 200 only if some job has no worker left. *)
Theorem MPI_Bcast_survives {W} `{MpiConst} `{PmpiSplit W} `{Ulfm W} `{P2P W} `{Allocator} `{Files W} `{Coll W}
    failures live fleet `{!Fleet failures live fleet} `{!UlfmLaws (W := W)}
    perform fuel buf count ty root size (s : sys W) :
  aboard live fleet size (s_globals s) (s_world s) → st_mtime (s_world s) ≤ last_file_update (s_globals s) →
  s_sender_cont s = 0 → 0 ≤ root < jobs_count (node (s_globals s)) → (failures (s_world s) + 2 ≤ fuel)%nat →
  let run := MPI_Bcast perform fuel buf count ty root MPI_COMM_WORLD s in
  ∃ l, ending failures live fleet fuel buf count ty root size s l run ∧ (length l ≤ 9)%nat ∧
    (∀ s', run = Stop (Aborted 10) s' → length l = 9%nat).
Proof.
  intros Hs Hm Hc Hroot Hfu run.
  destruct (MPI_Bcast_fleet failures live fleet perform fuel buf count ty root size s Hs Hm Hc Hroot Hfu)
    as (l & He & Hl & Hten & _).
  exists l. split; [done|]. split; [done|]. intros s' E. by destruct (Hten s' E).
Qed.

(** C22: [MPI_Bcast] outlives eight failures.  When only failures make calls fail,
    each turn but the last notices one.  So with at most eight failures the call never runs out of
    trials: it returns success, after at most one turn more than there
    are failures, or aborts because a job has no worker left. *)
Theorem MPI_Bcast_outlives {W} `{MpiConst} `{PmpiSplit W} `{Ulfm W} `{P2P W} `{Allocator} `{Files W} `{Coll W}
    failures live fleet `{!Fleet failures live fleet} `{!UlfmLaws (W := W)} `{!Prompt failures fleet}
    perform fuel buf count ty root size (s : sys W) :
  aboard live fleet size (s_globals s) (s_world s) → st_mtime (s_world s) ≤ last_file_update (s_globals s) →
  s_sender_cont s = 0 → 0 ≤ root < jobs_count (node (s_globals s)) →
  (failures (s_world s) ≤ 8)%nat → (failures (s_world s) + 2 ≤ fuel)%nat →
  let run := MPI_Bcast perform fuel buf count ty root MPI_COMM_WORLD s in
  ∃ l, ending failures live fleet fuel buf count ty root size s l run ∧
    (length l ≤ S (failures (s_world s)))%nat ∧
    ((∃ s', run = Done MPI_SUCCESS s') ∨ (∃ s', run = Stop (Aborted 200) s' ∧ job_lost (s_globals s'))).
Proof.
  intros Hs Hm Hc Hroot Hf Hfu run.
  destruct (MPI_Bcast_fleet failures live fleet perform fuel buf count ty root size s Hs Hm Hc Hroot Hfu)
    as (l & He & _ & Hten & Hl).
  exists l. split; [done|]. split; [auto|].
  destruct (ending_cases _ _ _ _ _ _ _ _ _ _ _ _ He) as [?|[[s' E]|?]]; [by left| |by right].
  destruct (Hten s' E) as [_ Hp]. specialize (Hp _). lia.
Qed.

(** ** A world in which processes die

    For the witnesses: [Ulfm]'s small world with a script of what happens to the
    next calls on a communicator: [None] when the call goes well, and [Some p]
    when process [p] dies and the call reports it. *)
Record mortal_world : Type := Mortal { mw : ulfm_world; mw_script : list (option Z) }.

Definition in_mw {A} (f : ulfm_world → A * ulfm_world) (w : mortal_world) : A * mortal_world :=
  let '(a, u) := f (mw w) in (a, Mortal u (mw_script w)).
(** The next entry of the script, and the world after it. *)
Definition fate (w : mortal_world) : option Z * mortal_world :=
  match mw_script w with
  | Some p :: l => (Some p, Mortal (UlfmWorld (uw_members (mw w)) (p :: uw_dead (mw w)) (uw_next (mw w))) l)
  | None :: l => (None, Mortal (mw w) l)
  | [] => (None, w)
  end.

#[local] Existing Instances bump small_ulfm small_split small_ulfm_laws.
#[local] Instance mortal_ulfm : Ulfm mortal_world := {
  PMPI_Error_class e _ := e;
  PMPIX_Comm_failure_get_acked c := in_mw (PMPIX_Comm_failure_get_acked c);
  PMPIX_Comm_shrink c := in_mw (PMPIX_Comm_shrink c);
  PMPI_Comm_group c := in_mw (PMPI_Comm_group c);
  PMPI_Group_size c w := PMPI_Group_size c (mw w);
  PMPI_Group_translate_ranks g l g' w := PMPI_Group_translate_ranks g l g' (mw w);
  PMPI_Comm_free c w := Mortal (PMPI_Comm_free c (mw w)) (mw_script w);
  PMPI_Comm_dup c := in_mw (PMPI_Comm_dup c)
}.
#[local] Instance mortal_split : PmpiSplit mortal_world := {|
  PMPI_Comm_rank c w := PMPI_Comm_rank c (mw w);
  PMPI_Comm_size c w := PMPI_Comm_size c (mw w);
  PMPI_Comm_split c x k := in_mw (PMPI_Comm_split c x k)
|}.
#[local] Instance mortal_coll : Coll mortal_world := {
  PMPI_Bcast buf _ _ root c m w :=
    match fate w with
    | (Some p, w') => (75, m, Some (c, 75), w')
    | (None, w') => (0, <[buf := Some Byte.x07]> m, None, w')
    end;
  PMPI_Scatter _ _ _ _ _ _ _ _ m w := (0, m, None, w);
  PMPI_Gather _ _ _ _ _ _ _ _ m w := (0, m, None, w);
  PMPI_Allgather _ _ _ _ _ _ _ m w := (0, m, None, w);
  PMPI_Reduce _ _ _ _ _ _ _ m w := (0, m, None, w);
  PMPI_Allreduce _ _ _ _ _ _ m w := (0, m, None, w);
  PMPI_Barrier _ w := (0, None, w);
  PMPIX_Comm_agree c flag w :=
    match fate w with
    | (Some p, w') => (75, flag, Some (c, 75), w')
    | (None, w') => (0, flag, None, w')
    end
}.
#[local] Existing Instances idle_p2p idle_files.

Definition mortal_failures (w : mortal_world) : nat := length (omap id (mw_script w)).
Definition mortal_live (c : MPI_Comm) (w : mortal_world) : Prop := is_Some (uw_members (mw w) !! c).

(** This process is process 2 of the first world, and does not die. *)
Record mortal_fleet (size p : Z) (c : MPI_Comm) (w : mortal_world) : Prop := {
  mf_live : mortal_live c w;
  mf_handles x : mortal_live x w → 10 ≤ x < uw_next (mw w);
  mf_next : 10 ≤ uw_next (mw w);
  mf_size : size = Z.of_nat (length (uw_get c (mw w)));
  mf_me : 0 ≤ p ∧ uw_get c (mw w) !! Z.to_nat p = Some 2;
  mf_spared : 2 ∉ uw_dead (mw w) ∧ Some 2 ∉ mw_script w
}.

(** A new communicator of the members of [c]. *)
Lemma mortal_new c ms w size p :
  mortal_fleet size p c w → NoDup ms →
  let w' := Mortal (uw_new ms (mw w)).2 (mw_script w) in
  mortal_fleet size p c w' ∧ fresh mortal_failures mortal_live (uw_next (mw w)) w w' ∧
  mortal_live (uw_next (mw w)) w' ∧
  ∀ p', 0 ≤ p' → ms !! Z.to_nat p' = Some 2 → mortal_fleet (Z.of_nat (length ms)) p' (uw_next (mw w)) w'.
Proof.
  intros [F1 F2 F3 F4 [F5 F6] F7] Hms w'. pose proof (F2 _ F1) as Hc.
  assert (¬ mortal_live (uw_next (mw w)) w) as Hnew by (intros ?%F2; lia).
  assert (∀ x, mortal_live x w' ↔ x = uw_next (mw w) ∨ mortal_live x w) as Hl.
  { intros x. unfold mortal_live. cbn. destruct (decide (x = uw_next (mw w))) as [->|Hne].
    - rewrite lookup_insert_eq. naive_solver.
    - rewrite lookup_insert_ne by done. naive_solver. }
  assert (∀ x, mortal_live x w' → 10 ≤ x < uw_next (mw w) + 1) as Hr
    by (intros x [->|Hx%F2]%Hl; lia).
  split; [|split; [|split]].
  - split; try done; [apply Hl; by right|cbn; lia| |]; unfold w'; cbn [mw]; rewrite uw_get_new, decide_False by lia; done.
  - split; [done|]. split; [done|]. intros x Hx. apply Hl. by right.
  - apply Hl. by left.
  - intros p' Hp Hme. assert (uw_get (uw_next (mw w)) (mw w') = ms) as E.
    { unfold w'. cbn [mw]. rewrite uw_get_new, decide_True by done. by apply remove_dups_NoDup. }
    split; try done; [apply Hl; by left|cbn; lia|by rewrite E|by rewrite E].
Qed.

(** A call on the world uses up an entry of the script. *)
Lemma mortal_fate size p c w :
  mortal_fleet size p c w →
  let '(d, w') := fate w in
  mortal_fleet size p c w' ∧ undisturbed mortal_failures mortal_live w w' ∧
  match d with Some _ => (mortal_failures w' < mortal_failures w)%nat | None => True end.
Proof.
  intros [F1 F2 F3 F4 F5 [F6 F7]]. unfold fate. destruct w as [u [|[d|] l]]; cbn in *.
  - by split.
  - split; [split; try done; cbn|split; [split; [cbn; lia|done]|cbn; lia]].
    split; [|set_solver]. intros [<-|?]%elem_of_cons; [|done]. destruct F7. by left.
  - split; [split; try done; cbn|split; [split; [cbn; lia|done]|done]]. split; [done|set_solver].
Qed.

Lemma mortal_shrink c w :
  shrink c w = let sh := shrink c (mw w) in
    MkShrinking (sh_failed sh) (sh_comm sh) (sh_before sh) (sh_ranks sh) (Mortal (sh_world sh) (mw_script w)).
Proof. reflexivity. Qed.

#[local] Instance mortal_laws : UlfmLaws (W := mortal_world).
Proof. split; intros world w; rewrite mortal_shrink; [apply (shrink_size world (mw w))|apply (shrink_translation world (mw w))]. Qed.

Lemma index_of_lookup p l k : NoDup l → l !! k = Some p → index_of p l = Some (Z.of_nat k).
Proof.
  intros Hnd. revert k. induction Hnd as [|q l Hq _ IH]; intros k Hk; [done|]. cbn [index_of].
  destruct k as [|k]; simpl in Hk; [simplify_eq; by rewrite Z.eqb_refl|].
  destruct (p =? q) eqn:E; [apply Z.eqb_eq in E; subst; destruct Hq; by eapply list_elem_of_lookup_2|].
  rewrite (IH k Hk). cbn. f_equal. lia.
Qed.

Lemma mortal_shrink_ok size p c w :
  mortal_fleet size p c w →
  let sh := shrink c w in
  fresh mortal_failures mortal_live (sh_comm sh) w (sh_world sh) ∧ Z.of_nat (length (sh_ranks sh)) = size ∧
  ∃ size' p', size' ≤ size ∧ Forall (λ t, t = MPI_UNDEFINED ∨ 0 ≤ t < size') (sh_ranks sh) ∧
    translate (sh_ranks sh) p = Some p' ∧ mortal_fleet size' p' (sh_comm sh) (sh_world sh).
Proof.
  intros Hf. pose proof Hf as [F1 F2 F3 F4 [F5 F6] [F7 F8]]. pose proof (F2 _ F1) as Hc.
  destruct (small_shrink c (mw w)) as (before & now & _ & _ & Hr & _ & Hbn).
  destruct Hbn as [-> ->]; [lia|]. set (ms := uw_get c (mw w)) in *.
  set (alive := filter (λ q, q ∉ uw_dead (mw w)) ms) in *.
  assert (NoDup ms) as Hms by apply uw_get_NoDup.
  assert (NoDup alive) as Hal by by apply NoDup_filter.
  assert (2 ∈ alive) as (k & Hk)%list_elem_of_lookup
    by (apply list_elem_of_filter; split; [done|by eapply list_elem_of_lookup_2]).
  pose proof (index_of_lookup _ _ _ Hal Hk) as Hi.
  destruct (mortal_new c (filter (λ q, q ∈ uw_dead (mw w)) ms) w size p Hf (NoDup_filter _ _ Hms)) as (G1 & [N1 K1] & _ & _).
  set (w1 := Mortal _ _) in G1, K1.
  assert (filter (λ q, q ∉ uw_dead (mw w1)) (uw_get c (mw w1)) = alive) as E1
    by (unfold w1; cbn [mw]; by rewrite uw_get_new, decide_False by lia).
  destruct (mortal_new c (filter (λ q, q ∉ uw_dead (mw w1)) (uw_get c (mw w1))) w1 size p G1) as (G2 & [N2 K2] & L2 & A2);
    [by rewrite E1|]. set (w2 := Mortal _ _) in G2, K2, L2, A2.
  specialize (A2 (Z.of_nat k) ltac:(lia)). rewrite Nat2Z.id, E1 in A2. specialize (A2 Hk).
  set (c' := uw_next (mw w1)) in *.
  destruct (mortal_new c' (uw_get c (mw w2)) w2 _ _ A2 (uw_get_NoDup _ _)) as (G3 & [_ K3] & _ & _).
  set (w3 := Mortal _ _) in G3, K3.
  destruct (mortal_new c' (uw_get c' (mw w3)) w3 _ _ G3 (uw_get_NoDup _ _)) as (G4 & [_ K4] & _ & _).
  set (w4 := Mortal _ _) in G4, K4.
  assert (undisturbed mortal_failures mortal_live w w4) as Hk4 by (split; [done|]; intros x Hx; by apply K4, K3, K2, K1).
  cbv zeta. rewrite mortal_shrink. cbv zeta. cbn [sh_ranks sh_comm sh_world]. rewrite Hr.
  split; [split; [|exact Hk4]|split].
  - intros Hl%K1. by apply N2.
  - rewrite length_fmap, length_seqZ. fold ms in F4. lia.
  - exists (Z.of_nat (length alive)), (Z.of_nat k). split; [|split; [|split; [|exact G4]]].
    + rewrite F4. apply inj_le, length_filter.
    + apply Forall_fmap, Forall_forall. intros r _. cbn. unfold rerank.
      destruct (ms !! Z.to_nat r) as [q|]; cbn; [|by left]. destruct (index_of q alive) as [i|] eqn:E; [|by left].
      right. by apply index_of_range in E.
    + unfold translate. rewrite list_lookup_fmap, lookup_seqZ_lt by (apply lookup_lt_Some in F6; fold ms in F6; lia).
      cbn. unfold rerank. rewrite Z2Nat.id, Z.add_0_l, F6 by lia. cbn. rewrite Hi. cbn.
      rewrite (proj2 (Z.eqb_neq _ _)); [done|]. unfold MPI_UNDEFINED, open_mpi. lia.
Qed.

#[local] Instance mortal_is_fleet : Fleet mortal_failures mortal_live mortal_fleet.
Proof.
  split.
  - intros size p c w F. split; [|apply F]. pose proof (mf_handles _ _ _ _ F c (mf_live _ _ _ _ F)). cbn. lia.
  - intros size p c buf n ty r m w F _. pose proof (mortal_fate _ _ _ _ F) as Hd. cbn. destruct (fate w) as [[d|] w'];
      destruct Hd as (Fd & Kd & Ld); do 4 eexists; (split; [reflexivity|]); by split_and!.
  - intros size p c flag w F. pose proof (mortal_fate _ _ _ _ F) as Hd. cbn. destruct (fate w) as [[d|] w'];
      destruct Hd as (Fd & Kd & Ld); do 4 eexists; (split; [reflexivity|]); by split_and!.
  - intros size p c w F. by eapply mortal_shrink_ok.
  - intros size p c w F. destruct (mortal_new c (uw_get c (mw w)) w size p F (uw_get_NoDup _ _)) as (G & N & L & A).
    cbn. split; [|exact N]. rewrite (mf_size _ _ _ _ F). apply A; apply F.
  - intros size p c x w [F1 F2 F3 F4 F5 F6] Hx. cbn. split; [|split; [done|]].
    + split; try done; cbn.
      * unfold mortal_live. cbn. by rewrite lookup_delete_ne.
      * intros y Hy. apply F2. unfold mortal_live in *. cbn in Hy. by apply lookup_delete_is_Some in Hy as [_ ?].
      * unfold uw_get in *. cbn. by rewrite lookup_delete_ne.
      * unfold uw_get in *. cbn. by rewrite lookup_delete_ne.
    + intros y Hy Hne. unfold mortal_live in *. cbn. by rewrite lookup_delete_ne.
  - intros size p c x k w F. destruct (mortal_new c [0] w size p F (NoDup_singleton _)) as (G & N & L & A).
    cbn. split; [exact G|]. split; [apply N|]. by right.
Qed.

(** Four processes run the jobs [0; 2] and [1; 3]; this one is process 2.  The
    first worker of job 0 dies in the broadcast; process 3 dies in the
    agreement on the second one. *)
Definition mortal_sys (script : list (option Z)) : sys mortal_world :=
  MkSys (crash_globals 0)
    (Mortal (UlfmWorld (<[11 := [0; 1]]> (<[12 := [0; 2]]> {[ 10 := [0; 1; 2; 3] ]})) [] 20) script) idle_heap 0 0 ∅.

Lemma mortal_aboard script : Some 2 ∉ script →
  aboard mortal_live mortal_fleet 4 (s_globals (mortal_sys script)) (s_world (mortal_sys script)).
Proof.
  intros Hsc. split; [apply crash_ok|done| | |]; cbn.
  - split; cbn; [by eexists| |lia|done|by split|split; [set_solver|done]].
    intros x [ms Hms]. cbn in Hms. rewrite !lookup_insert_Some in Hms. rewrite lookup_singleton_Some in Hms. lia.
  - right. split; [by eexists|done].
  - right. split; [by eexists|done].
Qed.

Definition two_deaths : list (option Z) := [Some 0; None; None; Some 3].

Lemma MPI_Bcast_survives_witness : ∃ l,
  ending mortal_failures mortal_live mortal_fleet 4 500 1 0 0 4 (mortal_sys two_deaths) l
    (MPI_Bcast perform 4 500 1 0 0 MPI_COMM_WORLD (mortal_sys two_deaths)) ∧ (length l ≤ 9)%nat ∧
  (match MPI_Bcast perform 4 500 1 0 0 MPI_COMM_WORLD (mortal_sys two_deaths) with
   | Done st s => st = 0 ∧ mem (s_heap s) = {[ 500 := Some Byte.x07 ]} ∧ rank (node (s_globals s)) = 1 ∧
                  uw_get (rep_mpi_comm_world (node (s_globals s))) (mw (s_world s)) = [1; 2]
   | Stop _ _ => False
   end).
Proof.
  destruct (MPI_Bcast_survives mortal_failures mortal_live mortal_fleet perform 4 500 1 0 0 4 (mortal_sys two_deaths))
    as (l & He & Hl & _).
  - apply mortal_aboard. unfold two_deaths. set_solver.
  - reflexivity.
  - reflexivity.
  - cbn. lia.
  - unfold mortal_failures. cbn. lia.
  - exists l. split; [exact He|]. split; [exact Hl|]. vm_compute. repeat split; reflexivity.
Defined.

#[local] Instance mortal_prompt : Prompt mortal_failures mortal_fleet.
Proof.
  split.
  - intros size p c buf n ty r m w _ _. cbn. by destruct (fate w) as [[d|] w'].
  - intros size p c flag w _. cbn. by destruct (fate w) as [[d|] w'].
Qed.

(** The same, with the last worker of job 1 dying, too. *)
Lemma MPI_Bcast_outlives_witness : Forall (λ script, ∃ l,
  (length l ≤ S (length (omap id script)))%nat ∧
  ending mortal_failures mortal_live mortal_fleet 5 500 1 0 0 4 (mortal_sys script) l
    (MPI_Bcast perform 5 500 1 0 0 MPI_COMM_WORLD (mortal_sys script)) ∧
  ((∃ s', MPI_Bcast perform 5 500 1 0 0 MPI_COMM_WORLD (mortal_sys script) = Done 0 s') ∨
   (∃ s', MPI_Bcast perform 5 500 1 0 0 MPI_COMM_WORLD (mortal_sys script) = Stop (Aborted 200) s' ∧
      job_lost (s_globals s')))) [two_deaths; [Some 1; None; Some 3]].
Proof.
  apply Forall_forall. intros script Hin.
  assert (Some 2 ∉ script ∧ (length (omap id script) ≤ 3)%nat) as [Hsc Hlen].
  { assert (script = two_deaths ∨ script = [Some 1; None; Some 3]) as [-> | ->] by set_solver;
      (split; [unfold two_deaths; set_solver|simpl; lia]). }
  destruct (MPI_Bcast_outlives mortal_failures mortal_live mortal_fleet perform 5 500 1 0 0 4 (mortal_sys script))
    as (l & He & Hl & Hres).
  - by apply mortal_aboard.
  - reflexivity.
  - reflexivity.
  - cbn. lia.
  - change (length (omap id script) ≤ 8)%nat. lia.
  - change (length (omap id script) + 2 ≤ 5)%nat. lia.
  - exists l. split; [exact Hl|]. split; [exact He|exact Hres].
Defined.
