(* ===== verification/Fortran.v ===== *)
(** * The Fortran interface: [src/fortran/mpi.c]

    A Fortran program passes every argument by address and names MPI objects
    by an [INTEGER].  A wrapper reads the integers, converts the handles with
    the [f2c] functions of the MPI library and makes the C call of
    [PointToPoint] or [Collective].  The handle of a receive is the address of
    its aggregate request, eight bytes in an [INTEGER] of four: what becomes
    of it is the subject of the theorems. *)

From S2P Require Import Prelude Shared Mpi Memory Stat MapFile Comm HeapSeg Ulfm Install Update.
From S2P Require Import PointToPoint Collective.

(** ** What the wrappers call of the MPI library *)
Class Handles (W : Type) : Type := {
  PMPI_Comm_f2c : Z → W → MPI_Comm;
  PMPI_Type_f2c : Z → W → Z;
  PMPI_Op_f2c : Z → W → Z;
  (** [MPI_Isend] is the library's own: address, count, datatype, destination,
      tag, communicator; it gives a request *)
  MPI_Isend : Z → Z → Z → Z → Z → MPI_Comm → memory → W → Z * Z * raised * W
}.

(** ** An [INTEGER] of Fortran, and a handle, in memory *)
Definition load_int (a : Z) : M heap Z := λ h,
  of_option Undef (wrap32s <$> load_word 4 (mem h) a) h.
Definition store_int (a v : Z) : M heap unit :=
  let! m := gets mem in
  let! m' := of_option Undef (store_word 4 m a v) in
  modify (set_mem m').

Section wrappers.
Context {W : Type} `{MpiConst} `{PmpiSplit W} `{Ulfm W} `{P2P W} `{Allocator} `{Files W}
  `{Coll W} `{Handles W}.
Context (on_new_stack : action → M (sys W) unit) (blackhole : Z) (fuel : nat).
Abbreviation S := (sys W).

Definition fint (a : Z) : M S Z := on_mem (load_int a).
Definition comm_f2c (a : Z) : M S MPI_Comm :=
  let! v := fint a in gets (λ s, PMPI_Comm_f2c v (s_world s)).
Definition type_f2c (a : Z) : M S Z :=
  let! v := fint a in gets (λ s, PMPI_Type_f2c v (s_world s)).
Definition op_f2c (a : Z) : M S Z :=
  let! v := fint a in gets (λ s, PMPI_Op_f2c v (s_world s)).

(** [if (NULL != ierr) *ierr = c_ierr] *)
Definition set_ierr (ierr : Z) (c_ierr : cell) : M S unit :=
  when (negb (ierr =? 0)) (let! e := of_option Undef c_ierr in on_mem (store_int ierr e)).

(** *** Calls without a buffer; [dup] is what [PMPI_Comm_dup] returns *)
Definition mpi_init_ (dup : MPI_Comm) (ierr : Z) : M S unit :=
  let! act := on_mpi (MPI_Init dup) in do_action on_new_stack act.

Definition mpi_comm_rank_ (comm rank ierr : Z) : M S unit :=
  let! c_comm := comm_f2c comm in
  let! v := MPI_Comm_rank c_comm in
  on_mem (store_int rank v).

Definition mpi_comm_size_ (comm size ierr : Z) : M S unit :=
  let! c_comm := comm_f2c comm in
  let! v := MPI_Comm_size c_comm in
  on_mem (store_int size v).

(** *** Point to point *)
Definition mpi_send_ (buf count datatype dest tag comm ierr : Z) : M S unit :=
  let! c_comm := comm_f2c comm in
  let! c_type := type_f2c datatype in
  let! n := fint count in let! d := fint dest in let! t := fint tag in
  MPI_Send buf n c_type d t c_comm ;;; ret tt.

(** The result is what the call leaves in [*status]. *)
Definition mpi_recv_ (buf count datatype source tag comm status ierr : Z) : M S (option MPI_Status) :=
  let! c_comm := comm_f2c comm in
  let! c_type := type_f2c datatype in
  let! n := fint count in let! src := fint source in let! t := fint tag in
  let! (c_ierr, st) := MPI_Recv buf n c_type src t c_comm in ret st.

(** The handle is converted to an [INTEGER]. *)
Definition mpi_isend_ (buf count datatype dest tag comm request ierr : Z) : M S unit :=
  let! c_type := type_f2c datatype in
  let! c_comm := comm_f2c comm in
  let! n := fint count in let! d := fint dest in let! t := fint tag in
  let! (c_ierr, c_req) := (λ s,
    let '(st, req, r, w) := MPI_Isend buf n c_type d t c_comm (mem (s_heap s)) (s_world s) in
    (handle r ;;; ret (st, req)) (put_mpi (s_globals s, w) s)) in
  set_ierr ierr (Some c_ierr) ;;;
  when (c_ierr =? MPI_SUCCESS) (on_mem (store_int request (wrap32s c_req))).

(** The call of [mpi_irecv_]: the request and the status. *)
Definition irecv_call (buf count datatype source tag comm : Z) : M S (Z * cell) :=
  let! c_type := type_f2c datatype in
  let! c_comm := comm_f2c comm in
  let! n := fint count in let! src := fint source in let! t := fint tag in
  MPI_Irecv fuel buf n c_type src t c_comm.

(** [memcpy(request, &c_req, sizeof(void * ))] *)
Definition mpi_irecv_ (buf count datatype source tag comm request ierr : Z) : M S unit :=
  let! (c_req, c_ierr) := irecv_call buf count datatype source tag comm in
  set_ierr ierr c_ierr ;;;
  on_mem (store64 request c_req).

(** [c_status] is a local variable: the status and the result of the call are
    dropped. *)
Definition mpi_wait_ (request status ierr : Z) : M S unit :=
  let! c_req := on_mem (load64 request) in
  MPI_Wait blackhole c_req true ;;; ret tt.

(** *** Collective calls *)
Definition mpi_bcast_ (buffer count datatype root comm ierr : Z) : M S unit :=
  let! c_comm := comm_f2c comm in
  let! c_type := type_f2c datatype in
  let! n := fint count in let! r := fint root in
  MPI_Bcast on_new_stack fuel buffer n c_type r c_comm ;;; ret tt.

Definition mpi_scatter_ (sendbuf sendcount sendtype recvbuf recvcount recvtype root comm ierr : Z) : M S unit :=
  let! c_comm := comm_f2c comm in
  let! c_sendtype := type_f2c sendtype in
  let! c_recvtype := type_f2c recvtype in
  let! n := fint sendcount in let! k := fint recvcount in let! r := fint root in
  MPI_Scatter on_new_stack fuel sendbuf n c_sendtype recvbuf k c_recvtype r c_comm ;;; ret tt.

Definition mpi_gather_ (sendbuf sendcount sendtype recvbuf recvcount recvtype root comm ierr : Z) : M S unit :=
  let! c_comm := comm_f2c comm in
  let! c_sendtype := type_f2c sendtype in
  let! c_recvtype := type_f2c recvtype in
  let! n := fint sendcount in let! k := fint recvcount in let! r := fint root in
  MPI_Gather on_new_stack fuel sendbuf n c_sendtype recvbuf k c_recvtype r c_comm ;;; ret tt.

Definition mpi_allgather_ (sendbuf sendcount sendtype recvbuf recvcount recvtype comm ierr : Z) : M S unit :=
  let! c_comm := comm_f2c comm in
  let! c_sendtype := type_f2c sendtype in
  let! c_recvtype := type_f2c recvtype in
  let! n := fint sendcount in let! k := fint recvcount in
  MPI_Allgather on_new_stack fuel sendbuf n c_sendtype recvbuf k c_recvtype c_comm ;;; ret tt.

Definition mpi_reduce_ (sendbuf recvbuf count datatype op root comm ierr : Z) : M S unit :=
  let! c_type := type_f2c datatype in
  let! c_op := op_f2c op in
  let! c_comm := comm_f2c comm in
  let! n := fint count in let! r := fint root in
  MPI_Reduce on_new_stack fuel sendbuf recvbuf n c_type c_op r c_comm ;;; ret tt.

Definition mpi_allreduce_ (sendbuf recvbuf count datatype op comm ierr : Z) : M S unit :=
  let! c_comm := comm_f2c comm in
  let! c_type := type_f2c datatype in
  let! c_op := op_f2c op in
  let! n := fint count in
  MPI_Allreduce on_new_stack fuel sendbuf recvbuf n c_type c_op c_comm ;;; ret tt.
End wrappers.

(** ** Lemmas *)
Lemma decode_app l1 l2 : decode (l1 ++ l2) = decode l1 + 256 ^ Z.of_nat (length l1) * decode l2.
Proof.
  induction l1 as [|b l1 IH]; [simpl; lia|]. cbn [app decode length]. rewrite IH, Nat2Z.inj_succ, Z.pow_succ_r; lia.
Qed.

Lemma take_encode n k z : take n (encode (n + k) z) = encode n z.
Proof. revert z. induction n as [|n IH]; intros z; [done|]. cbn. by rewrite IH. Qed.

(** The bytes of two words that lie one after the other. *)
Lemma load_word_pair m a n k x y :
  load_bytes m a n = Some (Some <$> encode n x) →
  load_bytes m (a + Z.of_nat n) k = Some (Some <$> encode k y) →
  load_word (n + k) m a = Some (x mod 256 ^ Z.of_nat n + 256 ^ Z.of_nat n * (y mod 256 ^ Z.of_nat k)).
Proof.
  intros Hx Hy. unfold load_word.
  assert (load_bytes m a (n + k) = Some (Some <$> (encode n x ++ encode k y))) as ->.
  { replace (n + k)%nat with (length (Some <$> (encode n x ++ encode k y)))
      by (by rewrite length_fmap, length_app, !length_encode).
    apply load_bytes_lookup. intros i Hi. rewrite length_fmap, length_app, !length_encode in Hi.
    rewrite fmap_app. destruct (decide (i < Z.of_nat n)).
    - rewrite lookup_app_l by (rewrite length_fmap, length_encode; lia).
      by rewrite (load_bytes_inv _ _ _ _ _ Hx) by lia.
    - rewrite lookup_app_r by (rewrite length_fmap, length_encode; lia).
      replace (a + i) with (a + Z.of_nat n + (i - Z.of_nat n)) by lia.
      rewrite (load_bytes_inv _ _ _ _ _ Hy) by lia. f_equal. rewrite length_fmap, length_encode. lia. }
  cbn [mbind option_bind]. rewrite all_some_fmap. cbn [mbind option_bind].
  by rewrite decode_app, !decode_encode, length_encode.
Qed.

Lemma load_bytes_prefix m a n k l :
  load_bytes m a (n + k) = Some l → load_bytes m a n = Some (take n l).
Proof.
  intros Hl. pose proof (load_bytes_length _ _ _ _ Hl).
  replace n with (length (take n l)) at 1 by (rewrite length_take; lia).
  apply load_bytes_lookup. intros i Hi. rewrite length_take in Hi.
  rewrite lookup_take_lt by lia. by apply (load_bytes_inv _ _ _ _ _ Hl); lia.
Qed.

Section fortran.
Context {W : Type} `{MpiConst} `{PmpiSplit W} `{Ulfm W} `{P2P W} `{Allocator} `{Files W}
  `{Coll W} `{Handles W}.
Implicit Types (s : sys W).

(** The memory of the process. *)
Definition bytes_of s : memory := mem (s_heap s).
Definition with_memory (m : memory) s : sys W := put_heap (set_mem m (s_heap s)) s.

(** [ierr] is [NULL], or an [INTEGER] that is not part of the eight bytes at
    [request]. *)
Definition ierr_apart (ierr request : Z) : Prop := ierr = 0 ∨ ierr + 4 ≤ request ∨ request + 8 ≤ ierr.
Definition ierr_ready s (ierr : Z) (e : cell) : Prop :=
  ierr = 0 ∨ is_Some e ∧ valid_range (bytes_of s) ierr 4.

(** What a wrapper leaves behind after a receive was posted. *)
Record posted_handle s a (e : cell) request ierr (m : memory) : Prop := {
  ph_request : load_bytes m request 8 = Some (Some <$> encode 8 a);
  ph_ierr v : ierr ≠ 0 → e = Some v → load_word 4 m ierr = Some (v mod 2 ^ 32);
  ph_frame x : ¬ (request ≤ x < request + 8) → (ierr = 0 ∨ ¬ (ierr ≤ x < ierr + 4)) → m !! x = bytes_of s !! x
}.

Lemma set_ierr_run s ierr e :
  ierr_ready s ierr e → ∃ m, set_ierr ierr e s = Done tt (with_memory m s) ∧
    (ierr = 0 ∧ m = bytes_of s ∨
     ∃ v, ierr ≠ 0 ∧ e = Some v ∧ store_word 4 (bytes_of s) ierr v = Some m).
Proof.
  intros Hready. unfold set_ierr. destruct (Z.eqb_spec ierr 0) as [->|Hne]; cbn [negb when].
  - exists (bytes_of s). split; [|by left]. destruct s as [? ? []]. done.
  - destruct Hready as [->|([v ->] & Hv)]; [done|].
    destruct (store_word_Some 4 (bytes_of s) ierr v Hv) as [m Hm]. exists m. split; [|right; by exists v].
    cbn [bind of_option]. apply on_mem_run. by apply put_bytes_run.
Qed.

Lemma mpi_irecv_run fuel buf count datatype source tag comm request ierr s s1 a e :
  irecv_call fuel buf count datatype source tag comm s = Done (a, e) s1 →
  ierr_ready s1 ierr e → ierr_apart ierr request → valid_range (bytes_of s1) request 8 →
  ∃ m, mpi_irecv_ fuel buf count datatype source tag comm request ierr s = Done tt (with_memory m s1) ∧
    posted_handle s1 a e request ierr m.
Proof.
  intros Hcall Hready Hap Hv. destruct (set_ierr_run s1 ierr e Hready) as (m1 & Hset & Hm1).
  assert ((∀ x, ierr = 0 ∨ ¬ (ierr ≤ x < ierr + 4) → m1 !! x = bytes_of s1 !! x) ∧
    (∀ x, is_Some (bytes_of s1 !! x) → is_Some (m1 !! x)) ∧
    ∀ v, ierr ≠ 0 → e = Some v → load_word 4 m1 ierr = Some (v mod 2 ^ 32)) as (Hf & Hs & Hl).
  { destruct Hm1 as [[-> ->]|(v & Hne & -> & Hst)]; [done|].
    pose proof (store_bytes_lookup _ _ _ _ Hst) as (_ & Hst1 & Hst2).
    rewrite length_fmap, length_encode in Hst1. split; [|split].
    - intros x [->|Hx]; [done|]. by rewrite Hst1.
    - intros x. apply Hst2.
    - intros v' _ [= <-]. by rewrite (load_store_word _ _ _ _ _ Hst). }
  destruct (store_word_Some 8 m1 request a) as [m Hm]; [intros i Hi; by apply Hs, Hv|].
  exists m. pose proof (store_bytes_lookup _ _ _ _ Hm) as (_ & Hm2 & _).
  rewrite length_fmap, length_encode in Hm2. split; [|split].
  - unfold mpi_irecv_. cbn [bind]. rewrite Hcall. cbn [bind]. rewrite Hset. cbn [bind].
    rewrite (on_mem_run (store64 request a) (with_memory m1 s1) tt (set_mem m (s_heap s1))); [done|].
    exact (store64_run request a (set_mem m1 (s_heap s1)) m Hm).
  - pose proof (load_store_bytes _ _ _ _ Hm) as Hb. by rewrite length_fmap, length_encode in Hb.
  - intros v Hne He. rewrite <-(Hl v Hne He). unfold load_word. f_equal.
    apply (load_store_bytes_ne _ _ _ _ _ _ Hm). rewrite length_fmap, length_encode.
    destruct Hap; [done|lia].
  - intros x Hx Hi. rewrite Hm2 by lia. by apply Hf.
Qed.

Lemma mpi_wait_run bh request status ierr s a :
  load_word 8 (bytes_of s) request = Some a →
  mpi_wait_ bh request status ierr s = (MPI_Wait bh a true ;;; ret tt) s.
Proof.
  intros Ha. unfold mpi_wait_. cbn [bind].
  by rewrite (on_mem_same (load64 request) s a (load64_run _ _ _ Ha)).
Qed.

(** A handle that is not one of a request. *)
Lemma MPI_Wait_unknown bh a s : s_aggs s !! a = None → ∃ s', MPI_Wait bh a true s = Stop Undef s'.
Proof.
  intros Ha. unfold MPI_Wait, set_ignoring. cbn [bind].
  rewrite (on_globals_run (modify (set_ignore_process_failure 1)) s tt _ eq_refl). cbn [bind].
  unfold wait_for_agg_request, load_agg. cbn [bind]. cbn [s_aggs put_mpi]. rewrite Ha. by eexists.
Qed.

Lemma handle_value a : 0 ≤ a < 2 ^ 64 → a mod 256 ^ Z.of_nat 8 = a.
Proof. by apply Z.mod_small. Qed.
End fortran.

(** ** Properties *)

(** C38: a handle survives in Fortran when nothing touches the eight bytes it was
    written to.  After [mpi_irecv_] the integer [ierr] holds the status, every
    byte that is not one of these is as [MPI_Irecv] left it, and from any later
    state with the same eight bytes [mpi_wait_] completes the request that
    [MPI_Irecv] made; the status and the error argument of [mpi_wait_] are not
    written. *)
Theorem mpi_request_roundtrip {W} `{MpiConst} `{PmpiSplit W} `{Ulfm W} `{P2P W} `{Allocator} `{Files W}
    `{Coll W} `{Handles W} bh fuel buf count datatype source tag comm request ierr s s1 a e :
  irecv_call fuel buf count datatype source tag comm s = Done (a, e) s1 → 0 ≤ a < 2 ^ 64 →
  ierr_ready s1 ierr e → ierr_apart ierr request → valid_range (bytes_of s1) request 8 →
  ∃ m, mpi_irecv_ fuel buf count datatype source tag comm request ierr s = Done tt (with_memory m s1) ∧
    posted_handle s1 a e request ierr m ∧
    ∀ t status ierr', (∀ x, request ≤ x < request + 8 → bytes_of t !! x = m !! x) →
      mpi_wait_ bh request status ierr' t = (MPI_Wait bh a true ;;; ret tt) t.
Proof.
  intros Hcall Ha Hready Hap Hv.
  destruct (mpi_irecv_run fuel buf count datatype source tag comm request ierr s s1 a e Hcall Hready Hap Hv)
    as (m & Hrun & Hph).
  exists m. split; [exact Hrun|]. split; [exact Hph|]. intros t status ierr' Hsame. apply mpi_wait_run.
  unfold load_word. rewrite (load_bytes_ext _ m) by (intros i Hi; apply Hsame; lia).
  rewrite (ph_request _ _ _ _ _ _ Hph). cbn [mbind option_bind]. rewrite all_some_fmap. cbn [mbind option_bind].
  by rewrite decode_encode, handle_value.
Qed.

(** Requests in an array lose their handles.  Two [INTEGER]s that follow one
    another, as the elements of a Fortran array do, cannot hold two handles:
    after a receive into the first and one into the second, waiting for the
    first takes the low halves of both for one address.  That is the first
    request only if the high half of its address happens to be the low half of
    the other; an address that is no request is undefined behaviour. *)
Theorem mpi_request_array {W} `{MpiConst} `{PmpiSplit W} `{Ulfm W} `{P2P W} `{Allocator} `{Files W}
    `{Coll W} `{Handles W} bh fuel b1 n1 y1 r1 g1 c1 b2 n2 y2 r2 g2 c2 q ierr1 ierr2 status ierr
    s s1 s2 a1 e1 a2 e2 m1 :
  irecv_call fuel b1 n1 y1 r1 g1 c1 s = Done (a1, e1) s1 → 0 ≤ a1 < 2 ^ 64 →
  ierr_ready s1 ierr1 e1 → ierr_apart ierr1 q → valid_range (bytes_of s1) q 8 →
  mpi_irecv_ fuel b1 n1 y1 r1 g1 c1 q ierr1 s = Done tt (with_memory m1 s1) →
  irecv_call fuel b2 n2 y2 r2 g2 c2 (with_memory m1 s1) = Done (a2, e2) s2 → 0 ≤ a2 < 2 ^ 64 →
  ierr_ready s2 ierr2 e2 → ierr_apart ierr2 q → ierr_apart ierr2 (q + 4) →
  valid_range (bytes_of s2) (q + 4) 8 →
  load_bytes (bytes_of s2) q 4 = load_bytes m1 q 4 →
  let h := a1 mod 2 ^ 32 + 2 ^ 32 * (a2 mod 2 ^ 32) in
  ∃ m2, mpi_irecv_ fuel b2 n2 y2 r2 g2 c2 (q + 4) ierr2 (with_memory m1 s1) = Done tt (with_memory m2 s2) ∧
    mpi_wait_ bh q status ierr (with_memory m2 s2) = (MPI_Wait bh h true ;;; ret tt) (with_memory m2 s2) ∧
    (h = a1 ↔ a1 / 2 ^ 32 = a2 mod 2 ^ 32) ∧
    (s_aggs s2 !! h = None → ∃ s3, mpi_wait_ bh q status ierr (with_memory m2 s2) = Stop Undef s3).
Proof.
  intros Hc1 Ha1 Hr1 Hap1 Hv1 Hrun1 Hc2 Ha2 Hr2 Hap2 Hap2' Hv2 Hkeep h.
  destruct (mpi_irecv_run fuel b1 n1 y1 r1 g1 c1 q ierr1 s s1 a1 e1 Hc1 Hr1 Hap1 Hv1)
    as (m & Hrun & Hph1). rewrite Hrun1 in Hrun.
  assert (m1 = m) as <- by (apply (f_equal (λ r, match r with Done _ t => mem (s_heap t) | _ => ∅ end)) in Hrun; exact Hrun).
  destruct (mpi_irecv_run fuel b2 n2 y2 r2 g2 c2 (q + 4) ierr2 _ s2 a2 e2 Hc2 Hr2 Hap2' Hv2)
    as (m2 & Hrun2 & Hph2).
  assert (load_word 8 m2 q = Some h) as Hh.
  { apply (load_word_pair m2 q 4 4 a1 a2).
    - rewrite (load_bytes_ext _ (bytes_of s2)).
      + rewrite Hkeep, (load_bytes_prefix m1 q 4 4 _ (ph_request _ _ _ _ _ _ Hph1)), <-fmap_take.
        by rewrite (take_encode 4 4).
      + intros i Hi. apply (ph_frame _ _ _ _ _ _ Hph2); [lia|]. destruct Hap2; [by left|right; lia].
    - change (Z.of_nat 4) with 4. rewrite (load_bytes_prefix m2 (q + 4) 4 4 _ (ph_request _ _ _ _ _ _ Hph2)), <-fmap_take.
      by rewrite (take_encode 4 4). }
  pose proof (mpi_wait_run bh q status ierr (with_memory m2 s2) h Hh) as Hwait.
  exists m2. split; [exact Hrun2|]. split; [exact Hwait|]. split.
  - unfold h. pose proof (Z.div_mod a1 (2 ^ 32)). lia.
  - intros Hno. destruct (MPI_Wait_unknown bh h (with_memory m2 s2) Hno) as [s3 Hs3].
    exists s3. rewrite Hwait. cbn [bind]. by rewrite Hs3.
Qed.

(** ** Witnesses

    Process 2 of [PointToPoint] as a Fortran program: its integers are at
    70000, two requests follow one another at 70020, and [ierr] is at 70032. *)
#[local] Existing Instances net_p2p net_ulfm net_split net_alloc idle_files idle_coll.
#[local] Instance plain_handles W : Handles W := {
  PMPI_Comm_f2c v _ := v;
  PMPI_Type_f2c v _ := v;
  PMPI_Op_f2c v _ := v;
  MPI_Isend _ _ _ _ _ _ _ w := (0, 7, None, w)
}.

Definition integers (a : Z) (l : list Z) : memory :=
  list_to_map (zip (seqZ a (4 * Z.of_nat (length l))) (Some <$> (l ≫= encode 4))).
Definition fortran_sys : sys net :=
  with_memory (integers 70000 [2; 0; 1; 7; 1; 0; 0; 0; 0] ∪ net_memory) net_sys.

Lemma mpi_request_roundtrip_witness : ∃ a s1 m,
  irecv_call 2 50000 70000 70004 70008 70012 70016 fortran_sys = Done (a, Some 0) s1 ∧
  mpi_irecv_ 2 50000 70000 70004 70008 70012 70016 70020 70032 fortran_sys = Done tt (with_memory m s1) ∧
  load_word 4 m 70032 = Some 0 ∧
  mpi_wait_ 0 70020 0 0 (with_memory m s1) = (MPI_Wait 0 a true ;;; ret tt) (with_memory m s1).
Proof.
  destruct (irecv_call 2 50000 70000 70004 70008 70012 70016 fortran_sys) as [[a e] s1|? ?] eqn:E;
    [|by vm_compute in E].
  assert (e = Some 0 ∧ (0 <=? a) && (a <? 2 ^ 64) = true ∧ valid_rangeb (bytes_of s1) 70020 8 = true ∧
    valid_rangeb (bytes_of s1) 70032 4 = true) as (-> & Ha & Hv & Hi).
  { vm_compute in E. injection E as <- <- <-. repeat split. }
  apply andb_true_iff in Ha as [Ha1%Z.leb_le Ha2%Z.ltb_lt].
  destruct (mpi_request_roundtrip 0 2 50000 70000 70004 70008 70012 70016 70020 70032
    fortran_sys s1 a (Some 0) E) as (m & Hrun & Hph & Hwait).
  - by split.
  - right. split; [by eexists|]. by apply valid_rangeb_sound.
  - right. lia.
  - by apply valid_rangeb_sound.
  - exists a, s1, m. split; [reflexivity|]. split; [exact Hrun|]. split.
    + exact (ph_ierr _ _ _ _ _ _ Hph 0 ltac:(lia) eq_refl).
    + apply Hwait. done.
Defined.

(** The first receive of the program, without its wrapper and with it. *)
Abbreviation posts := (irecv_call 2 50000 70000 70004 70008 70012 70016) (only parsing).
Abbreviation posts_into := (mpi_irecv_ 2 50000 70000 70004 70008 70012 70016) (only parsing).

Definition state_after {S A} (m : M S A) (s : S) : S := match m s with Done _ t => t | Stop _ t => t end.
Definition first_call : sys net := state_after posts fortran_sys.
Definition first_memory : memory := bytes_of (state_after (posts_into 70020 70032) fortran_sys).
Definition second_call : sys net := state_after posts (with_memory first_memory first_call).

Lemma mpi_request_array_witness : ∃ s2 s3,
  (posts_into 70020 70032 ;;; posts_into 70024 70032) fortran_sys = Done tt s2 ∧
  mpi_wait_ 0 70020 0 0 s2 = Stop Undef s3.
Proof.
  assert (posts_into 70020 70032 fortran_sys = Done tt (with_memory first_memory first_call)) as Hrun1
    by (vm_compute; reflexivity).
  destruct (mpi_request_array 0 2 50000 70000 70004 70008 70012 70016
    50000 70000 70004 70008 70012 70016 70020 70032 70032 0 0
    fortran_sys first_call second_call 6004 (Some 0) 6072 (Some 0) first_memory)
    as (m2 & Hrun2 & _ & _ & Hwait).
  - vm_compute. reflexivity.
  - lia.
  - right. split; [by eexists|]. apply valid_rangeb_sound. vm_compute. reflexivity.
  - right. lia.
  - apply valid_rangeb_sound. vm_compute. reflexivity.
  - exact Hrun1.
  - vm_compute. reflexivity.
  - lia.
  - right. split; [by eexists|]. apply valid_rangeb_sound. vm_compute. reflexivity.
  - right. lia.
  - right. lia.
  - apply valid_rangeb_sound. vm_compute. reflexivity.
  - vm_compute. reflexivity.
  - destruct Hwait as [s3 Hs3]; [vm_compute; reflexivity|].
    exists (with_memory m2 second_call), s3. split; [|exact Hs3].
    cbn [bind]. rewrite Hrun1. exact Hrun2.
Defined.
