(* ===== verification/Checkpoint.v ===== *)
(** * Checkpoints: [src/checkpoint/full_context.c]

    A checkpoint is a file per job: the two data segments, the registers and
    the stack, the count of allocations with every container and its block, and
    the two flags of the calls with containers.  The file of the process that
    writes it is a list of bytes that grows until [fclose]; how many of them
    have left the buffer of the C library before is not determined
    ([on_disk]).  The file of a process that restores is what [fread] has left
    to give.  As for a
    transfer, the variables of the library live outside the segments. *)

From Stdlib Require Import Ascii.
From S2P Require Import Prelude Shared Memory MapFile HeapSeg Context Install Transfer Image.

(** ** The process, its files and its open file *)
Inductive stream : Type :=
  | NULL_FILE
  | Writing (name : list ascii) (written : list mbyte)
  | Reading (rest : list mbyte).

(** [Writing name written]: [written] is what [fwrite] was given since the file
    was opened.  [cp_dir]: the directory of the checkpoints can be written to.
    [cp_counter] is [___ckpt_counter]. *)
Record cproc : Type := MkCproc {
  cp_proc : proc;
  cp_job : Z;
  cp_counter : Z;
  cp_dir : bool;
  cp_files : gmap (list ascii) (list mbyte);
  ckpt_file : stream
}.

Definition set_proc v s := MkCproc v (cp_job s) (cp_counter s) (cp_dir s) (cp_files s) (ckpt_file s).
Definition set_files v s := MkCproc (cp_proc s) (cp_job s) (cp_counter s) (cp_dir s) v (ckpt_file s).
Definition set_stream v s := MkCproc (cp_proc s) (cp_job s) (cp_counter s) (cp_dir s) (cp_files s) v.

Definition set_counter v s := MkCproc (cp_proc s) (cp_job s) v (cp_dir s) (cp_files s) (ckpt_file s).

Definition on_proc {A} (m : M proc A) : M cproc A := zoom cp_proc set_proc m.
Definition on_cheap {A} (m : M heap A) : M cproc A := on_proc (on_heap m).

(** The files the others find when the process stops in the state [s].  The
    library writes its buffer to the file when it is full, and the system may
    take a write in parts, so that any first part of what was written may have
    reached an open file. *)
Definition on_disk (s : cproc) (fs : gmap (list ascii) (list mbyte)) : Prop :=
  match ckpt_file s with
  | Writing name w => ∃ k, fs = <[name := take k w]> (cp_files s)
  | NULL_FILE | Reading _ => fs = cp_files s
  end.

Lemma on_disk_writing s name w k fs :
  ckpt_file s = Writing name w → fs = <[name := take k w]> (cp_files s) → on_disk s fs.
Proof. unfold on_disk. intros -> ->. by exists k. Qed.

(** ** The C library's files *)

(** [sprintf(file, CKPT_FILE_NAME, node.job_id)]; the buffer has 100 bytes,
    the text at most 28. *)
Definition CKPT_FILE_NAME (job : Z) : list ascii :=
  String.list_ascii_of_string "./ckpt/rank-" ++ itoa job ++ String.list_ascii_of_string ".ckpt".

(** [fopen(file, "wb")]: the file is truncated. *)
Definition fopen_wb (name : list ascii) : M cproc unit :=
  let! dir := gets cp_dir in
  if dir then
    modify (λ s, set_stream (Writing name []) (set_files (<[name := []]> (cp_files s)) s))
  else modify (set_stream NULL_FILE).

(** [fopen(file, "rb")] *)
Definition fopen_rb (name : list ascii) : M cproc unit :=
  let! fs := gets cp_files in
  modify (set_stream (match fs !! name with Some l => Reading l | None => NULL_FILE end)).

(** [fclose]: all that was written is in the file. *)
Definition fclose : M cproc unit :=
  let! f := gets ckpt_file in
  match f with
  | NULL_FILE => halt Undef
  | Writing name l => modify (λ s, set_stream NULL_FILE (set_files (<[name := l]> (cp_files s)) s))
  | Reading _ => modify (set_stream NULL_FILE)
  end.

Definition fwrite (l : list mbyte) : M cproc unit :=
  let! f := gets ckpt_file in
  match f with
  | Writing name w => modify (set_stream (Writing name (w ++ l)))
  | _ => halt Undef
  end.

(** The [n] bytes at [a]. *)
Definition fwrite_mem (a n : Z) : M cproc unit :=
  let! m := gets (λ s, mem (p_heap (cp_proc s))) in
  let! l := of_option Undef (load_bytes m a (Z.to_nat n)) in
  fwrite l.

Definition remaining : M cproc (list mbyte) :=
  let! f := gets ckpt_file in
  match f with Reading rest => ret rest | _ => halt Undef end.

(** [fread] of one element into a variable with the bytes [old]: nothing is
    stored at the end of the file, and an element that is only partly there is
    indeterminate. *)
Definition fread_elem (old : list mbyte) : M cproc (list mbyte) :=
  let! rest := remaining in
  let n := length old in
  if (n <=? length rest)%nat then modify (set_stream (Reading (drop n rest))) ;;; ret (take n rest)
  else modify (set_stream (Reading [])) ;;; ret (if decide (rest = []) then old else replicate n None).

Definition fread_var (n : nat) (old : cell) : M cproc Z :=
  let! l := fread_elem (cells n old) in of_option Undef (value l).

(** [fread(a, 1, n)]: the bytes that are there, at most [n]. *)
Definition fread_mem (a n : Z) : M cproc unit :=
  let! rest := remaining in
  modify (set_stream (Reading (drop (Z.to_nat n) rest))) ;;;
  on_cheap (put_bytes a (take (Z.to_nat n) rest)).

(** [fread(a, n, 1)]: one element of [n] bytes in memory. *)
Definition fread_block (a n : Z) : M cproc unit :=
  let! rest := remaining in
  if (Z.to_nat n <=? length rest)%nat then
    modify (set_stream (Reading (drop (Z.to_nat n) rest))) ;;;
    on_cheap (put_bytes a (take (Z.to_nat n) rest))
  else
    modify (set_stream (Reading [])) ;;;
    on_cheap (put_bytes a (if decide (rest = []) then [] else replicate (Z.to_nat n) None)).

(** ** Saving *)
Section segments.
Context (data_start edata bss_start bss_end : Z).

Definition save_data_seg : M cproc unit :=
  let count_bytes_uninit := wrap64 (edata - data_start) in
  let count_bytes_init := wrap64 (bss_end - bss_start) in
  fwrite (cells 8 (Some count_bytes_uninit)) ;;;
  fwrite_mem data_start count_bytes_uninit ;;;
  fwrite (cells 8 (Some count_bytes_init)) ;;;
  fwrite_mem bss_start count_bytes_init.

Definition restore_data_seg : M cproc unit :=
  let! count_bytes_uninit := fread_var 8 None in
  fread_mem data_start count_bytes_uninit ;;;
  let! count_bytes_init := fread_var 8 None in
  fread_mem bss_start count_bytes_init.
End segments.

Section stack.
Context (guard : Z).

Definition context_cells (rip rsp rbp : Z) : list mbyte :=
  cells 8 (Some rip) ++ cells 8 (Some rsp) ++ cells 8 (Some rbp).

(** [stack_size] is a [size_t] here: a negative [int] becomes a huge size. *)
Definition save_stack_seg : M cproc unit :=
  let! c := gets (λ s, context (cp_proc s)) in
  on_proc (modify (set_lower (getRSP guard c))) ;;;
  let! stack_size := gets (λ s, wrap64 (get_stack_size (cp_proc s))) in
  fwrite (context_cells (getPC guard c) (getRSP guard c) (getRBP guard c)) ;;;
  fwrite (cells 8 (Some stack_size)) ;;;
  fwrite_mem (getRSP guard c) stack_size.

(** The stack may begin elsewhere than where it was saved: the stack pointer
    is computed, and the frame pointer moved by the same distance. *)
Definition restored_context (c : jmp_buf) (lower rip rsp rbp : Z) : jmp_buf :=
  setRBP guard (setRSP guard (setPC guard c rip) lower) (wrap64 (rbp + (lower - rsp))).

Definition restore_stack_seg : M cproc unit :=
  let! l := fread_elem (replicate 24 None) in
  let! stack_size := fread_var 8 None in
  let! higher := gets (λ s, stackHigherAddress (cp_proc s)) in
  let lower := wrap64 (higher - (stack_size - 4)) in
  on_proc (modify (set_lower lower)) ;;;
  let! rip := of_option Undef (value (take 8 l)) in
  let! rsp := of_option Undef (value (take 8 (drop 8 l))) in
  let! rbp := of_option Undef (value (drop 16 l)) in
  on_proc (modify (λ p, set_context (restored_context (context p) lower rip rsp rbp) p)) ;;;
  fread_mem lower stack_size.
End stack.

Section heap.
Context `{Allocator}.

(** A [Malloc_container] as it is in memory. *)
Definition file_container (c : Malloc_container) : list mbyte :=
  cells 8 (Some (container_address c)) ++ cells 8 (Some (linked_address c)) ++
  cells 8 (Some (allocated_address c)) ++ cells 8 (Some (size c)).

Fixpoint save_loop (fuel : nat) (temp : Z) : M cproc unit :=
  if temp =? 0 then ret tt
  else match fuel with
       | O => halt NoFuel
       | S fuel' =>
           let! e := on_cheap (load_node temp) in
           let c := container e in
           fwrite (file_container c) ;;;
           let! ptr := on_cheap (load64 (container_address c)) in
           fwrite_mem ptr (size c) ;;;
           save_loop fuel' (next e)
       end.

Definition save_heap_seg : M cproc unit :=
  let! h := gets (λ s, p_heap (cp_proc s)) in
  fwrite (cells 4 (Some (malloc_number_of_allocations h))) ;;;
  save_loop (walk_fuel h) (head h).

(** The body of the loop; its state is the bytes of [temp_container], which
    keeps what it has when the file is at its end. *)
Definition restore_block (temp_container : list mbyte) (_ : Z) : M cproc (list mbyte) :=
  let! l := fread_elem temp_container in
  let! (ca, la, sz) := of_option Undef (read_container l) in
  let! block := on_cheap (malloc sz) in
  on_cheap (store64 ca block) ;;;
  let! allocated := on_cheap (load64 ca) in
  fread_block allocated sz ;;;
  on_cheap (rep_append (MkContainer ca la allocated sz)) ;;;
  ret (file_container (MkContainer ca la allocated sz)).

Definition restore_heap_seg : M cproc unit :=
  let! old := gets (λ s, malloc_number_of_allocations (p_heap (cp_proc s))) in
  let! n := fread_var 4 (Some old) in
  on_cheap (modify (set_count (wrap32s n))) ;;;
  let! n := gets (λ s, malloc_number_of_allocations (p_heap (cp_proc s))) in
  foldM restore_block (replicate 32 None) (seqZ 0 n) ;;;
  ret tt.
End heap.

Definition save_framework_data : M cproc unit :=
  let! p := gets cp_proc in
  fwrite (cells 4 (Some (pass_sender_cont_add p))) ;;;
  fwrite (cells 4 (Some (pass_receiver_cont_add p))).

Definition restore_framework_data : M cproc unit :=
  let! p := gets cp_proc in
  let! s := fread_var 4 (Some (pass_sender_cont_add p)) in
  on_proc (modify (set_pass_sender (wrap32s s))) ;;;
  let! r := fread_var 4 (Some (pass_receiver_cont_add p)) in
  on_proc (modify (set_pass_receiver (wrap32s r))).

(** ** The whole checkpoint *)
Definition MAX_CKPT : Z := 100.

(** [___ckpt_time[___ckpt_counter]], which the time is stored to; the array of
    doubles itself is not part of the model. *)
Definition ckpt_timer : M cproc unit :=
  let! i := gets cp_counter in ensure ((0 <=? i) && (i <? MAX_CKPT)) Undef.

Section checkpoint.
Context `{Allocator} (guard data_start edata bss_start bss_end : Z).

Definition init_ckpt : M cproc unit :=
  let! job := gets cp_job in
  fopen_wb (CKPT_FILE_NAME job) ;;;
  ckpt_timer ;;;
  save_data_seg data_start edata bss_start bss_end ;;;
  save_stack_seg guard ;;;
  save_heap_seg ;;;
  save_framework_data ;;;
  ckpt_timer ;;;
  fclose.

(** The calls of [init_ckpt] one by one, and the process after the first [n] of
    them ([ckpt_until_all]: with all eight it is [init_ckpt]). *)
Definition ckpt_calls (job : Z) : list (M cproc unit) :=
  [fopen_wb (CKPT_FILE_NAME job); ckpt_timer; save_data_seg data_start edata bss_start bss_end;
   save_stack_seg guard; save_heap_seg; save_framework_data; ckpt_timer; fclose].
Definition ckpt_until (n : nat) : M cproc unit :=
  let! job := gets cp_job in
  foldr (λ m k, m ;;; k) (ret tt) (take n (ckpt_calls job)).

Definition init_ckpt_restore : M cproc unit :=
  let! job := gets cp_job in
  fopen_rb (CKPT_FILE_NAME job) ;;;
  restore_data_seg data_start bss_start ;;;
  restore_stack_seg guard ;;;
  restore_heap_seg ;;;
  restore_framework_data ;;;
  fclose.

(** [access(file, F_OK)] *)
Definition does_ckpt_file_exists : M cproc Z :=
  let! job := gets cp_job in
  let! fs := gets cp_files in
  ret (match fs !! CKPT_FILE_NAME job with Some _ => 1 | None => 0 end).
End checkpoint.

(** ** What an operation writes to, or takes from, the open file

    [writes m s l a s']: in state [s], [m] returns [a], appends [l] to the file
    and ends in [s']; [reads] is the other side.  Neither depends on the rest
    of the file; [quiet m s a s'] does not touch it at all. *)
Definition writes {A} (m : M cproc A) (s : cproc) (l : list mbyte) (a : A) (s' : cproc) : Prop :=
  ∀ name w, m (set_stream (Writing name w) s) = Done a (set_stream (Writing name (w ++ l)) s').
Definition reads {A} (m : M cproc A) (s : cproc) (l : list mbyte) (a : A) (s' : cproc) : Prop :=
  ∀ rest, m (set_stream (Reading (l ++ rest)) s) = Done a (set_stream (Reading rest) s').
Definition quiet {A} (m : M cproc A) (s : cproc) (a : A) (s' : cproc) : Prop :=
  ∀ f, m (set_stream f s) = Done a (set_stream f s').

Section io.
Context {A B : Type}.
Implicit Types (s : cproc) (l : list mbyte).

Lemma writes_bind (m : M cproc A) (f : A → M cproc B) s l1 a s1 l2 b s2 :
  writes m s l1 a s1 → writes (f a) s1 l2 b s2 → writes (bind m f) s (l1 ++ l2) b s2.
Proof. intros H1 H2 n w. rewrite (bind_Done _ _ _ _ _ (H1 n w)), H2. by rewrite app_assoc. Qed.
Lemma reads_bind (m : M cproc A) (f : A → M cproc B) s l1 a s1 l2 b s2 :
  reads m s l1 a s1 → reads (f a) s1 l2 b s2 → reads (bind m f) s (l1 ++ l2) b s2.
Proof. intros H1 H2 rest. rewrite <-app_assoc. by rewrite (bind_Done _ _ _ _ _ (H1 _)), H2. Qed.
Lemma writes_quiet_bind (m : M cproc A) (f : A → M cproc B) s a s1 l b s2 :
  quiet m s a s1 → writes (f a) s1 l b s2 → writes (bind m f) s l b s2.
Proof. intros H1 H2 n w. by rewrite (bind_Done _ _ _ _ _ (H1 _)), H2. Qed.
Lemma reads_quiet_bind (m : M cproc A) (f : A → M cproc B) s a s1 l b s2 :
  quiet m s a s1 → reads (f a) s1 l b s2 → reads (bind m f) s l b s2.
Proof. intros H1 H2 rest. by rewrite (bind_Done _ _ _ _ _ (H1 _)), H2. Qed.
End io.

Lemma writes_ret {A} (a : A) s : writes (ret a) s [] a s.
Proof. intros n w. by rewrite app_nil_r. Qed.
Lemma reads_ret {A} (a : A) s : reads (ret a) s [] a s.
Proof. by intros rest. Qed.
Lemma quiet_gets {A} (f : cproc → A) s : (∀ c, f (set_stream c s) = f s) → quiet (gets f) s (f s) s.
Proof. intros Hf c. cbn. by rewrite Hf. Qed.
Lemma quiet_option {A} e (o : option A) a s : o = Some a → quiet (of_option e o) s a s.
Proof. by intros ->. Qed.
Lemma quiet_proc {A} (m : M proc A) s a p' :
  m (cp_proc s) = Done a p' → quiet (on_proc m) s a (set_proc p' s).
Proof. intros H f. unfold on_proc, zoom. cbn. by rewrite H. Qed.
Lemma set_proc_id s : set_proc (cp_proc s) s = s.
Proof. by destruct s. Qed.

(** The process with another heap. *)
Definition with_heap (h : heap) (s : cproc) : cproc := set_proc (set_heap h (cp_proc s)) s.
Lemma quiet_heap {A} (m : M heap A) s a h' :
  m (p_heap (cp_proc s)) = Done a h' → quiet (on_cheap m) s a (with_heap h' s).
Proof. intros H. apply quiet_proc. unfold on_heap, zoom. by rewrite H. Qed.
Lemma with_heap_id s : with_heap (p_heap (cp_proc s)) s = s.
Proof. destruct s as [[] ? ? ? ? ?]. done. Qed.
Lemma quiet_heap_same {A} (m : M heap A) s a :
  m (p_heap (cp_proc s)) = Done a (p_heap (cp_proc s)) → quiet (on_cheap m) s a s.
Proof. intros H. rewrite <-(with_heap_id s) at 2. by apply quiet_heap. Qed.

(** *** Primitives *)
Lemma writes_fwrite l s : writes (fwrite l) s l tt s.
Proof. by intros n w. Qed.
Lemma writes_mem a n s l :
  load_bytes (mem (p_heap (cp_proc s))) a (Z.to_nat n) = Some l → writes (fwrite_mem a n) s l tt s.
Proof.
  intros Hl. unfold fwrite_mem.
  eapply writes_quiet_bind; [by apply (quiet_gets (λ s, mem (p_heap (cp_proc s))))|].
  eapply writes_quiet_bind; [by apply quiet_option|]. apply writes_fwrite.
Qed.
Lemma reads_elem old l s : length l = length old → reads (fread_elem old) s l l s.
Proof.
  intros Hl rest. unfold fread_elem, remaining. cbn [bind gets ckpt_file set_stream ret].
  rewrite (proj2 (Nat.leb_le _ _)) by (rewrite length_app; lia).
  cbn [bind modify]. by rewrite drop_app_length', take_app_length' by done.
Qed.
Lemma reads_var n v old s :
  reads (fread_var n old) s (cells n (Some v)) (v mod 256 ^ Z.of_nat n) s.
Proof.
  rewrite <-(app_nil_r (cells n (Some v))).
  eapply reads_bind; [apply reads_elem; by rewrite !length_cells|].
  rewrite value_cells. by intros rest.
Qed.
Lemma reads_mem a n l s m' :
  length l = Z.to_nat n → store_bytes (mem (p_heap (cp_proc s))) a l = Some m' →
  reads (fread_mem a n) s l tt (with_heap (set_mem m' (p_heap (cp_proc s))) s) ∧
  reads (fread_block a n) s l tt (with_heap (set_mem m' (p_heap (cp_proc s))) s).
Proof.
  intros Hl Hm. split; intros rest.
  - unfold fread_mem, remaining. cbn [bind gets ckpt_file set_stream ret modify].
    rewrite drop_app_length', take_app_length' by done. exact (quiet_heap _ s _ _ (put_bytes_run _ _ _ _ Hm) (Reading rest)).
  - unfold fread_block, remaining. cbn [bind gets ckpt_file set_stream ret].
    rewrite (proj2 (Nat.leb_le _ _)) by (rewrite length_app; lia). cbn [bind modify].
    rewrite drop_app_length', take_app_length' by done. exact (quiet_heap _ s _ _ (put_bytes_run _ _ _ _ Hm) (Reading rest)).
Qed.

(** ** The data segments *)
Section data.
Context (d e b f : Z).

Definition data_image (l1 l2 : list mbyte) : list mbyte :=
  cells 8 (Some (e - d)) ++ l1 ++ cells 8 (Some (f - b)) ++ l2.

Lemma data_saved s l1 l2 :
  0 ≤ e - d < 2 ^ 64 → 0 ≤ f - b < 2 ^ 64 →
  load_bytes (mem (p_heap (cp_proc s))) d (Z.to_nat (e - d)) = Some l1 →
  load_bytes (mem (p_heap (cp_proc s))) b (Z.to_nat (f - b)) = Some l2 →
  writes (save_data_seg d e b f) s (data_image l1 l2) tt s.
Proof.
  intros Hd Hb L1 L2. unfold save_data_seg, data_image. rewrite !wrap64_small by done.
  eapply writes_bind; [apply writes_fwrite|]. eapply writes_bind; [by apply writes_mem|].
  eapply writes_bind; [apply writes_fwrite|]. by apply writes_mem.
Qed.

Lemma data_restored r l1 l2 m1 m2 :
  0 ≤ e - d < 2 ^ 64 → 0 ≤ f - b < 2 ^ 64 →
  length l1 = Z.to_nat (e - d) → length l2 = Z.to_nat (f - b) →
  store_bytes (mem (p_heap (cp_proc r))) d l1 = Some m1 → store_bytes m1 b l2 = Some m2 →
  reads (restore_data_seg d b) r (data_image l1 l2) tt (with_heap (set_mem m2 (p_heap (cp_proc r))) r).
Proof.
  intros Hd Hb N1 N2 S1 S2. unfold restore_data_seg, data_image.
  eapply reads_bind; [apply reads_var|]. change (256 ^ Z.of_nat 8) with (2 ^ 64).
  rewrite Z.mod_small by done. eapply reads_bind; [by apply (reads_mem d (e - d) l1 r m1)|].
  eapply reads_bind; [apply reads_var|]. change (256 ^ Z.of_nat 8) with (2 ^ 64).
  rewrite Z.mod_small by done.
  exact (proj1 (reads_mem b (f - b) l2 (with_heap (set_mem m1 (p_heap (cp_proc r))) r) m2 N2 S2)).
Qed.
End data.

(** ** The stack *)
Definition stack_image (rip rsp rbp size : Z) (bytes : list mbyte) : list mbyte :=
  context_cells rip rsp rbp ++ cells 8 (Some size) ++ bytes.

Lemma stack_saved guard s lo size bytes :
  getRSP guard (context (cp_proc s)) = lo → size = stackHigherAddress (cp_proc s) - lo + 4 →
  0 ≤ size ≤ INT_MAX → load_bytes (mem (p_heap (cp_proc s))) lo (Z.to_nat size) = Some bytes →
  writes (save_stack_seg guard) s
    (stack_image (getPC guard (context (cp_proc s))) lo (getRBP guard (context (cp_proc s))) size bytes)
    tt (set_proc (set_lower lo (cp_proc s)) s).
Proof.
  intros Hlo Hsize Hrange Hb. set (s1 := set_proc (set_lower lo (cp_proc s)) s).
  unfold save_stack_seg, stack_image.
  eapply writes_quiet_bind; [by apply (quiet_gets (λ s, context (cp_proc s)))|]. rewrite Hlo.
  eapply writes_quiet_bind; [by apply (quiet_proc _ s tt (set_lower lo (cp_proc s)))|]. fold s1.
  eapply writes_quiet_bind; [by apply (quiet_gets (λ s, wrap64 (get_stack_size (cp_proc s))))|].
  assert (wrap64 (get_stack_size (cp_proc s1)) = size) as ->.
  { unfold get_stack_size. cbn. rewrite <-Hsize. unfold INT_MAX in Hrange.
    rewrite wrap32s_small by (unfold INT_MIN, INT_MAX; lia). apply wrap64_small. lia. }
  eapply writes_bind; [apply writes_fwrite|]. eapply writes_bind; [apply writes_fwrite|].
  by apply writes_mem.
Qed.

Lemma stack_restored guard r pc sp bp size bytes m' :
  word pc → word sp → word bp → 0 ≤ size < 2 ^ 64 → length bytes = Z.to_nat size →
  let lower := wrap64 (stackHigherAddress (cp_proc r) - (size - 4)) in
  store_bytes (mem (p_heap (cp_proc r))) lower bytes = Some m' →
  reads (restore_stack_seg guard) r (stack_image pc sp bp size bytes) tt
    (with_heap (set_mem m' (p_heap (cp_proc r)))
      (set_proc (set_context (restored_context guard (context (cp_proc r)) lower pc sp bp)
                  (set_lower lower (cp_proc r))) r)).
Proof.
  intros Hpc Hsp Hbp Hsize Hlen lower Hm.
  pose proof (take_app_3 (cells 8 (Some pc)) (cells 8 (Some sp)) (cells 8 (Some bp))
    (length_cells _ _) (length_cells _ _) (length_cells _ _)) as (T1 & T2 & T3).
  unfold restore_stack_seg, stack_image.
  eapply reads_bind.
  { apply reads_elem. unfold context_cells. by rewrite !length_app, !length_cells, length_replicate. }
  eapply reads_bind; [apply reads_var|]. change (256 ^ Z.of_nat 8) with (2 ^ 64).
  rewrite Z.mod_small by done.
  eapply reads_quiet_bind; [by apply (quiet_gets (λ s, stackHigherAddress (cp_proc s)))|].
  cbv zeta. fold lower.
  eapply reads_quiet_bind; [by apply (quiet_proc _ r tt (set_lower lower (cp_proc r)))|].
  unfold context_cells. rewrite T1, T2, T3.
  eapply reads_quiet_bind; [by apply quiet_option, value_word|].
  eapply reads_quiet_bind; [by apply quiet_option, value_word|].
  eapply reads_quiet_bind; [by apply quiet_option, value_word|].
  eapply reads_quiet_bind; [by eapply (quiet_proc (modify _))|].
  set (r1 := set_proc _ _).
  exact (proj1 (reads_mem lower size bytes r1 m' Hlen Hm)).
Qed.

(** ** The heap *)
Section heap_image.
Context `{!Allocator} `{!AllocatorLaws alloc}.
Context (statics : list (Z * Z)).

Definition block_image (c : Malloc_container) (bytes : list mbyte) : list mbyte :=
  file_container c ++ bytes.
Definition heap_image (cbs : list (Malloc_container * list mbyte)) : list mbyte :=
  cells 4 (Some (Z.of_nat (length cbs))) ++ concat ((λ d, block_image d.1 d.2) <$> cbs).

Lemma length_file_container c : length (file_container c) = 32%nat.
Proof. unfold file_container. by rewrite !length_app, !length_cells. Qed.
Lemma read_file_container c : block_ok c →
  read_container (file_container c) = Some (container_address c, linked_address c, size c).
Proof. intros Hc. apply read_container_words; [done|apply length_cells]. Qed.

(** *** Saving *)
Lemma blocks_saved s fuel l : ∀ p a last bytes,
  (length l ≤ fuel)%nat →
  dseg (lnodes (p_heap (cp_proc s))) p a l last 0 →
  Forall2 (block_bytes (mem (p_heap (cp_proc s)))) l.*2 bytes →
  writes (save_loop fuel a) s (concat ((λ d, block_image d.1 d.2) <$> zip l.*2 bytes)) tt s.
Proof.
  revert fuel. induction l as [|[b c] l IH]; intros fuel p a last bytes Hf Hs Hb.
  - destruct Hs as [-> _]. destruct fuel; apply writes_ret.
  - destruct Hs as (-> & Ha & n & Hn & Hs). csimpl in *.
    apply Forall2_cons_inv_l in Hb as (x & bs & (ptr & Hptr & Hx) & Hb & ->).
    destruct fuel as [|fuel]; [lia|]. cbn [save_loop zip_with].
    rewrite (proj2 (Z.eqb_neq _ _) Ha), fmap_cons. cbn [concat fst snd].
    unfold block_image at 1. rewrite <-app_assoc.
    eapply writes_quiet_bind.
    { apply quiet_heap_same. unfold load_node. by rewrite Hn. }
    cbv zeta. cbn [container next]. eapply writes_bind; [apply writes_fwrite|].
    eapply writes_quiet_bind.
    { by apply quiet_heap_same, load64_run. }
    eapply writes_bind; [by apply writes_mem|]. by eapply IH; [lia|..].
Qed.

Lemma heap_saved s l bytes :
  heap_ok (p_heap (cp_proc s)) l →
  Forall2 (block_bytes (mem (p_heap (cp_proc s)))) l.*2 bytes →
  writes save_heap_seg s (heap_image (zip l.*2 bytes)) tt s.
Proof.
  intros Hok Hb. unfold save_heap_seg, heap_image.
  eapply writes_quiet_bind; [by apply (quiet_gets (λ s, p_heap (cp_proc s)))|].
  rewrite length_zip_with, <-(Forall2_length _ _ _ Hb), Nat.min_id, length_fmap.
  eapply writes_bind; [|eapply blocks_saved; [|apply (list_seg _ _ (ok_list _ _ Hok))|done]].
  - rewrite (ok_count _ _ Hok). apply writes_fwrite.
  - by apply Nat.lt_le_incl, list_length_fuel, (ok_list _ _ Hok).
Qed.

(** *** Restoring

    The restored block is installed: the pointer is stored before the bytes are
    read, into other addresses. *)
Lemma block_restored s c bytes h' old i :
  let ptr := alloc (blocks (p_heap (cp_proc s))) (size c) in
  block_ok c → length bytes = Z.to_nat (size c) → length old = 32%nat → ptr < 2 ^ 64 →
  ptr + size c ≤ container_address c ∨ container_address c + 8 ≤ ptr →
  install c bytes (p_heap (cp_proc s)) = Done tt h' →
  ∃ old', length old' = 32%nat ∧
    reads (restore_block old i) s (block_image c bytes) old' (with_heap h' s).
Proof.
  intros ptr Hc Hlen Hold Hptr Hdis Hrun. set (h := p_heap (cp_proc s)) in *.
  apply bind_Done_inv in Hrun as (ptr' & h1 & Hm & Hrun).
  assert (ptr' = ptr) as -> by (unfold malloc in Hm; by injection Hm).
  apply bind_Done_inv in Hrun as ([] & h2 & Hp & Hrun).
  apply bind_Done_inv in Hrun as ([] & h3 & Hs & Hrun).
  apply bind_Done_inv in Hrun as (al & h4 & Hl & Hrun).
  apply put_bytes_inv in Hp as (m1 & Hm1 & ->). apply store64_inv in Hs as (m2 & Hm2 & ->).
  apply load64_inv in Hl as [Hl ->]. change (load_word 8 m2 (container_address c) = Some al) in Hl.
  change (store_word 8 m1 (container_address c) ptr = Some m2) in Hm2.
  assert (load_word 8 m2 (container_address c) = Some ptr) as Hld.
  { rewrite (load_store_word _ _ _ _ _ Hm2), Z.mod_small; [done|].
    split; [|exact Hptr]. pose proof (alloc_pos (blocks h) (size c)). lia. }
  assert (al = ptr) as -> by congruence.
  destruct (store_bytes_swap _ _ _ _ _ _ _ Hm1 Hm2) as (m1' & Hm1' & Hm2').
  { rewrite length_fmap, length_encode, Hlen. pose proof (blk_size c Hc). lia. }
  assert (load_word 8 m1' (container_address c) = Some ptr) as Hld'.
  { rewrite (load_store_word 8 _ _ _ _ Hm1'), Z.mod_small; [done|].
    split; [|exact Hptr]. pose proof (alloc_pos (blocks h) (size c)). lia. }
  eexists. split; [|unfold restore_block, block_image].
  2:{ eapply reads_bind; [apply reads_elem; by rewrite length_file_container|].
      eapply reads_quiet_bind; [by apply quiet_option, read_file_container|]. cbn match.
      eapply reads_quiet_bind; [by apply quiet_heap|].
      eapply reads_quiet_bind.
      { by apply (quiet_heap _ (with_heap h1 s) tt (set_mem m1' h1)), store64_run. }
      eapply (reads_quiet_bind _ _ _ ptr (with_heap (set_mem m1' h1) s)).
      { by apply (quiet_heap_same _ (with_heap (set_mem m1' h1) s)), load64_run. }
      rewrite <-(app_nil_r bytes).
      eapply reads_bind.
      { by apply (reads_mem ptr (size c) bytes (with_heap (set_mem m1' h1) s) m2). }
      eapply reads_quiet_bind.
      { by apply (quiet_heap _ (with_heap (set_mem m2 h1) s) tt h'). }
      apply reads_ret. }
  apply length_file_container.
Qed.

Lemma blocks_restored cbs : ∀ idx s l h' old,
  Forall (sendable statics) cbs → is_list (p_heap (cp_proc s)) l → blocks_wf (p_heap (cp_proc s)) →
  statics_ok statics (p_heap (cp_proc s)) → fits (blocks (p_heap (cp_proc s))) cbs.*1 →
  length idx = length cbs → length old = 32%nat →
  install_all cbs (p_heap (cp_proc s)) = Done tt h' →
  ∃ old', reads (foldM restore_block old idx) s
            (concat ((λ d, block_image d.1 d.2) <$> cbs)) old' (with_heap h' s).
Proof.
  induction cbs as [|[c bytes] cbs IH]; intros idx s l h' old Hs Hl Hwf Hst Hfit Hidx Hold Hrun.
  - destruct idx; [|done]. injection Hrun as <-. exists old. rewrite with_heap_id. apply reads_ret.
  - destruct idx as [|i idx]; [done|]. apply Forall_cons in Hs as [(Hc & Hlen & Hin) Hs].
    set (h := p_heap (cp_proc s)) in *. destruct Hfit as [Hmax Hfit].
    apply (inj S) in Hidx. cbn [fst snd] in *.
    destruct (install_spec h c bytes l Hc Hlen Hl Hwf (static_valid _ _ _ Hst Hin) Hmax)
      as (h1 & a & ptr & Hrun1 & Hrcv & Hwf1 & Hl1).
    apply bind_Done_inv in Hrun as ([] & h1' & Hrun1' & Hrun).
    change (install c bytes h = Done tt h1') in Hrun1'. assert (h1' = h1) as -> by congruence.
    destruct (received_static statics _ _ _ _ _ _ Hrcv Hwf Hc Hst Hin)
      as (b & z & _ & Hb1 & Hb2 & Hdis).
    pose proof (rcv_ptr _ _ _ _ _ _ Hrcv) as Hptr. rewrite Hptr in Hdis.
    destruct (block_restored s c bytes h1 old i Hc Hlen Hold Hmax) as (o1 & Ho1 & R1);
      [fold h; lia|done|].
    destruct (IH idx (with_heap h1 s) (l ++ [(a, MkContainer (container_address c) (linked_address c)
                ptr (size c))]) h' o1) as (o2 & R2); try done.
    + by eapply received_statics_ok.
    + cbn. pose proof (rcv_blocks _ _ _ _ _ _ Hrcv) as ->.
      by rewrite (rcv_elem _ _ _ _ _ _ Hrcv), Hptr.
    + exists o2. rewrite fmap_cons. cbn [foldM concat fst snd]. by eapply reads_bind.
Qed.

(** A process that restores has its own list before the restored one. *)
Lemma heap_restored s l cbs h' :
  let h := p_heap (cp_proc s) in
  Forall (sendable statics) cbs → is_list h l → blocks_wf h → statics_ok statics h →
  fits (blocks h) cbs.*1 → Z.of_nat (length cbs) ≤ INT_MAX →
  install_all cbs (set_count (Z.of_nat (length cbs)) h) = Done tt h' →
  reads restore_heap_seg s (heap_image cbs) tt (with_heap h' s).
Proof.
  intros h Hs Hl Hwf Hst Hfit Hlen Hrun. set (n := Z.of_nat (length cbs)) in *.
  unfold restore_heap_seg, heap_image.
  eapply reads_quiet_bind; [by apply (quiet_gets (λ s, malloc_number_of_allocations (p_heap (cp_proc s))))|].
  eapply reads_bind; [apply reads_var|]. fold n. rewrite int_message by (unfold INT_MIN; lia).
  eapply reads_quiet_bind; [by apply quiet_heap|]. fold h.
  eapply reads_quiet_bind; [by apply (quiet_gets (λ s, malloc_number_of_allocations (p_heap (cp_proc s))))|].
  cbn [malloc_number_of_allocations set_count with_heap set_proc cp_proc p_heap set_heap].
  destruct (blocks_restored cbs (seqZ 0 n) (with_heap (set_count n h) s) l h' (replicate 32 None))
    as (o & Ho); try done.
  - by apply (is_list_ext h).
  - rewrite length_seqZ. lia.
  - rewrite <-(app_nil_r (concat _)). eapply reads_bind; [exact Ho|]. apply reads_ret.
Qed.
End heap_image.

(** ** The framework's flags *)
Definition framework_image (sender receiver : Z) : list mbyte :=
  cells 4 (Some sender) ++ cells 4 (Some receiver).

Lemma framework_saved s :
  writes save_framework_data s
    (framework_image (pass_sender_cont_add (cp_proc s)) (pass_receiver_cont_add (cp_proc s))) tt s.
Proof.
  unfold save_framework_data.
  eapply writes_quiet_bind; [by apply (quiet_gets cp_proc)|].
  eapply writes_bind; apply writes_fwrite.
Qed.

Lemma framework_restored r x y :
  INT_MIN ≤ x ≤ INT_MAX → INT_MIN ≤ y ≤ INT_MAX →
  reads restore_framework_data r (framework_image x y) tt
    (set_proc (set_pass_receiver y (set_pass_sender x (cp_proc r))) r).
Proof.
  intros Hx Hy. unfold restore_framework_data, framework_image.
  eapply reads_quiet_bind; [by apply (quiet_gets cp_proc)|].
  eapply reads_bind; [apply reads_var|]. rewrite int_message by done.
  eapply reads_quiet_bind; [by apply (quiet_proc (modify _))|].
  rewrite <-(app_nil_r (cells 4 (Some y))).
  eapply reads_bind; [apply reads_var|]. rewrite int_message by done.
  intros rest. exact (quiet_proc (modify (set_pass_receiver y)) (set_proc (set_pass_sender x (cp_proc r)) r)
    tt _ eq_refl (Reading rest)).
Qed.

(** ** The file of a checkpoint *)
Section file.
Context `{!Allocator} `{!AllocatorLaws alloc} (guard d e b f : Z).

Definition file_of (i : image) : list mbyte :=
  data_image d e b f (im_data i) (im_bss i) ++
  stack_image (im_pc i) (im_sp i) (im_bp i) (Z.of_nat (length (im_stack i))) (im_stack i) ++
  heap_image (im_blocks i) ++ framework_image (im_sender i) (im_receiver i).

Record checkpointable (s : cproc) (ls : list (Z * Malloc_container)) : Prop := {
  ck_savable : savable guard d e b f (cp_proc s) ls;
  ck_counter : 0 ≤ cp_counter s < MAX_CKPT;
  ck_dir : cp_dir s = true
}.

Lemma ckpt_timer_run s : 0 ≤ cp_counter s < MAX_CKPT → ckpt_timer s = Done tt s.
Proof.
  intros Hs. unfold ckpt_timer, ensure. cbn [bind gets].
  by rewrite (proj2 (Z.leb_le _ _)), (proj2 (Z.ltb_lt _ _)) by lia.
Qed.

(** What [init_ckpt] does between the two times, call by call. *)
Lemma parts_written s ls i :
  savable guard d e b f (cp_proc s) ls → image_of guard d e b f (cp_proc s) ls i →
  let s1 := set_proc (set_lower (im_sp i) (cp_proc s)) s in
  writes (save_data_seg d e b f) s (data_image d e b f (im_data i) (im_bss i)) tt s ∧
  writes (save_stack_seg guard) s
    (stack_image (im_pc i) (im_sp i) (im_bp i) (Z.of_nat (length (im_stack i))) (im_stack i)) tt s1 ∧
  writes save_heap_seg s1 (heap_image (im_blocks i)) tt s1 ∧
  writes save_framework_data s1 (framework_image (im_sender i) (im_receiver i)) tt s1.
Proof.
  intros Hs Hi s1. pose proof (stack_length guard d e b f _ _ _ Hs Hi) as Hlen.
  destruct (sv_stack _ _ _ _ _ _ _ Hs) as [Hr _]. split; [|split; [|split]].
  - apply data_saved; [apply (sv_data _ _ _ _ _ _ _ Hs)|apply (sv_bss _ _ _ _ _ _ _ Hs)|apply Hi|apply Hi].
  - rewrite (io_pc _ _ _ _ _ _ _ _ Hi), (io_bp _ _ _ _ _ _ _ _ Hi).
    pose proof (io_sp _ _ _ _ _ _ _ _ Hi) as Hsp.
    apply (stack_saved guard s (im_sp i)); [done|..]; rewrite Hlen; [|done|apply Hi].
    unfold stack_bytes. by rewrite Hsp.
  - rewrite (io_blocks _ _ _ _ _ _ _ _ Hi). apply (heap_saved s1); [apply Hs|apply Hi].
  - rewrite (io_sender _ _ _ _ _ _ _ _ Hi), (io_receiver _ _ _ _ _ _ _ _ Hi). apply (framework_saved s1).
Qed.

Lemma image_written s ls i :
  savable guard d e b f (cp_proc s) ls → image_of guard d e b f (cp_proc s) ls i →
  writes (save_data_seg d e b f ;;; save_stack_seg guard ;;; save_heap_seg ;;; save_framework_data)
    s (file_of i) tt (set_proc (set_lower (im_sp i) (cp_proc s)) s).
Proof.
  intros Hs Hi. destruct (parts_written s ls i Hs Hi) as (W1 & W2 & W3 & W4).
  unfold file_of. by repeat (eapply writes_bind; [eassumption|]).
Qed.

(** [init_ckpt]: the file holds the image, and nothing else of the process
    changes but [stackLowerAddress]. *)
Lemma init_ckpt_run s ls i :
  checkpointable s ls → image_of guard d e b f (cp_proc s) ls i →
  init_ckpt guard d e b f s =
    Done tt (set_stream NULL_FILE (set_files (<[CKPT_FILE_NAME (cp_job s) := file_of i]> (cp_files s))
      (set_proc (set_lower (im_sp i) (cp_proc s)) s))).
Proof.
  intros Hs Hi. set (name := CKPT_FILE_NAME (cp_job s)).
  set (s0 := set_files (<[name := []]> (cp_files s)) s).
  pose proof (image_written s0 ls i (ck_savable _ _ Hs) Hi name []) as Hw.
  apply bind_Done_inv in Hw as ([] & t1 & W1 & Hw). apply bind_Done_inv in Hw as ([] & t2 & W2 & Hw).
  apply bind_Done_inv in Hw as ([] & t3 & W3 & W4).
  unfold init_ckpt, fopen_wb. cbn [bind gets]. rewrite (ck_dir _ _ Hs). cbn [modify]. fold name.
  change (set_stream (Writing name []) (set_files (<[name := []]> (cp_files s)) s))
    with (set_stream (Writing name []) s0).
  rewrite (ckpt_timer_run (set_stream (Writing name []) s0)) by apply Hs.
  rewrite W1, W2, W3, W4. rewrite ckpt_timer_run by apply Hs.
  unfold fclose. cbn. by rewrite insert_insert_eq.
Qed.

(** *** Restoring *)

(** A process that restores has room for the image, and puts the stack below its
    own [stackHigherAddress]. *)
Record restorable (r : cproc) (l : list (Z * Malloc_container)) (lo n : Z)
    (cs : list Malloc_container) : Prop := {
  rs_target : target d e b f (cp_proc r) lo n cs;
  rs_lower : lo = wrap64 (stackHigherAddress (cp_proc r) - (n - 4));
  rs_list : is_list (p_heap (cp_proc r)) l;
  rs_wf : blocks_wf (p_heap (cp_proc r));
  rs_fits : fits (blocks (p_heap (cp_proc r))) cs
}.

(** The process after it read the image, with the heap [h']. *)
Definition after_restore (i : image) (lo : Z) (h' : heap) (r : cproc) : cproc :=
  let p := cp_proc r in
  let c' := restored_context guard (context p) lo (im_pc i) (im_sp i) (im_bp i) in
  set_proc (set_pass_receiver (im_receiver i) (set_pass_sender (im_sender i)
    (set_heap h' (set_context c' (set_lower lo p))))) r.

(** What [init_ckpt_restore] does between [fopen] and [fclose]. *)
Lemma image_read_run s ls i r l lo m1 m2 m3 h' :
  let h := p_heap (cp_proc r) in
  savable guard d e b f s ls → image_of guard d e b f s ls i →
  restorable r l lo (stack_bytes guard s) ls.*2 →
  store_bytes (mem h) d (im_data i) = Some m1 → store_bytes m1 b (im_bss i) = Some m2 →
  store_bytes m2 lo (im_stack i) = Some m3 →
  statics_ok (program d e b f lo (stack_bytes guard s)) (set_mem m3 h) →
  install_all (im_blocks i) (set_count (Z.of_nat (length (im_blocks i))) (set_mem m3 h)) = Done tt h' →
  reads (restore_data_seg d b ;;; restore_stack_seg guard ;;; restore_heap_seg ;;;
         restore_framework_data) r (file_of i) tt (after_restore i lo h' r).
Proof.
  intros h Hs Hi Hr S1 S2 S3 Hst Hrun.
  destruct (sv_words _ _ _ _ _ _ _ Hs) as (Wpc & Wsp & Wbp).
  destruct (blocks_length _ _ _ _ _ _ _ _ Hi) as [H1 Hlen].
  destruct (data_length _ _ _ _ _ _ _ _ Hi) as [N1 N2].
  pose proof (stack_length _ _ _ _ _ _ _ _ Hs Hi) as N3.
  destruct (sv_stack _ _ _ _ _ _ _ Hs) as [Hz _]. unfold INT_MAX in Hz.
  pose proof (rs_lower _ _ _ _ _ Hr) as Hlo.
  set (c' := restored_context guard (context (cp_proc r)) lo (im_pc i) (im_sp i) (im_bp i)).
  set (r1 := with_heap (set_mem m3 h) (set_proc (set_context c' (set_lower lo (cp_proc r))) r)).
  unfold file_of. eapply reads_bind.
  { apply (data_restored d e b f r _ _ m1 m2); try done; apply Hs. }
  eapply reads_bind.
  { apply (stack_restored guard (with_heap (set_mem m2 h) r) _ _ _ _ _ m3);
      [by rewrite (io_pc _ _ _ _ _ _ _ _ Hi)|by rewrite (io_sp _ _ _ _ _ _ _ _ Hi)|
       by rewrite (io_bp _ _ _ _ _ _ _ _ Hi)|lia|lia|].
    cbn. by rewrite N3, <-Hlo. }
  cbn. rewrite N3, <-Hlo. eapply reads_bind.
  { apply (heap_restored (program d e b f lo (stack_bytes guard s)) r1 l (im_blocks i) h').
    - by eapply image_sendable, Hr.
    - by apply (is_list_ext h), (rs_list _ _ _ _ _ Hr).
    - apply (rs_wf _ _ _ _ _ Hr).
    - exact Hst.
    - rewrite H1. apply (rs_fits _ _ _ _ _ Hr).
    - rewrite Hlen. apply Hs.
    - exact Hrun. }
  apply (framework_restored (with_heap h' r1));
    [rewrite (io_sender _ _ _ _ _ _ _ _ Hi)|rewrite (io_receiver _ _ _ _ _ _ _ _ Hi)]; apply Hs.
Qed.

Lemma image_read s ls i r l lo :
  word guard → savable guard d e b f s ls → image_of guard d e b f s ls i →
  restorable r l lo (stack_bytes guard s) ls.*2 →
  ∃ r', reads (restore_data_seg d b ;;; restore_stack_seg guard ;;; restore_heap_seg ;;;
                restore_framework_data) r (file_of i) tt r' ∧
        restored guard d e b f s ls lo l (cp_proc r').
Proof.
  intros Hg Hs Hi Hr. pose proof (rs_target _ _ _ _ _ Hr) as Ht.
  destruct (segments_stored _ _ _ _ _ _ _ _ lo Hs Hi _ Ht)
    as (m1 & m2 & m3 & S1 & S2 & S3 & Hdata & Hstack & Hdom).
  set (h := set_mem m3 (p_heap (cp_proc r))).
  assert (statics_ok (program d e b f lo (stack_bytes guard s)) h) as Hst.
  { intros x z Hx. destruct (tg_program _ _ _ _ _ _ _ _ Ht x z Hx) as [Hb Hv]. split; [done|].
    intros k Hk. apply Hdom, Hv, Hk. }
  destruct (restored_heap _ _ _ _ _ _ _ _ lo Hs Hi _ l h Ht Hst)
    as (h' & l' & Hrun & Hl' & Hsame & Hn & Hcop & Hx);
    [by apply (is_list_ext (p_heap (cp_proc r))), (rs_list _ _ _ _ _ Hr)|apply (rs_wf _ _ _ _ _ Hr)|
     apply (rs_fits _ _ _ _ _ Hr)|].
  exists (after_restore i lo h' r). split; [by eapply image_read_run|].
  destruct (sv_words _ _ _ _ _ _ _ Hs) as (Wpc & _ & _).
  destruct (stack_registers guard (context (cp_proc r)) (im_pc i) lo
    (wrap64 (im_bp i + (lo - im_sp i)))) as (R1 & R2 & R3);
    [done|apply Ht|by rewrite (io_pc _ _ _ _ _ _ _ _ Hi)|apply Ht|apply wrap64_range|].
  by eapply (restored_intro _ _ _ _ _ _ _ _ _ Hs Hi (cp_proc r)).
Qed.

Lemma init_ckpt_restore_run s ls i r l lo :
  word guard → savable guard d e b f s ls → image_of guard d e b f s ls i →
  restorable r l lo (stack_bytes guard s) ls.*2 →
  cp_files r !! CKPT_FILE_NAME (cp_job r) = Some (file_of i) →
  ∃ r', init_ckpt_restore guard d b r = Done tt r' ∧ restored guard d e b f s ls lo l (cp_proc r').
Proof.
  intros Hg Hs Hi Hr Hfile. destruct (image_read s ls i r l lo Hg Hs Hi Hr) as (r' & Hread & Hres).
  exists (set_stream NULL_FILE r'). split; [|by destruct Hres].
  specialize (Hread []). rewrite app_nil_r in Hread.
  apply bind_Done_inv in Hread as ([] & t1 & W1 & Hw).
  apply bind_Done_inv in Hw as ([] & t2 & W2 & Hw). apply bind_Done_inv in Hw as ([] & t3 & W3 & W4).
  unfold init_ckpt_restore, fopen_rb. cbn [bind gets modify]. rewrite Hfile, W1, W2, W3, W4. done.
Qed.
End file.

(** ** What a checkpoint leaves when it stops *)

(** The file is open for writing, and the others are as they were. *)
Definition writing (name : list ascii) (fs : gmap (list ascii) (list mbyte)) (s : cproc) : Prop :=
  cp_files s = fs ∧ ∃ w, ckpt_file s = Writing name w.

Section writing.
Context (name : list ascii) (fs : gmap (list ascii) (list mbyte)).

Lemma keeps_on_proc {A} (m : M proc A) : keeps (writing name fs) (on_proc m).
Proof. intros s Hs. unfold on_proc, zoom, wp. by destruct (m (cp_proc s)). Qed.
Lemma keeps_fwrite l : keeps (writing name fs) (fwrite l).
Proof. intros s [Hf [w Hw]]. unfold fwrite, wp. cbn [bind gets]. rewrite Hw. split; [done|by eexists]. Qed.
Lemma keeps_fwrite_mem a n : keeps (writing name fs) (fwrite_mem a n).
Proof. unfold fwrite_mem. eauto using keeps_fwrite with keeps. Qed.
#[local] Hint Resolve keeps_on_proc keeps_fwrite keeps_fwrite_mem : keeps.

Lemma keeps_save_loop fuel a : keeps (writing name fs) (save_loop fuel a).
Proof.
  revert a. induction fuel as [|fuel IH]; intros a; simpl save_loop; (case_match; [by apply keeps_ret|]);
    unfold on_cheap; eauto 20 with keeps.
Qed.
#[local] Hint Resolve keeps_save_loop : keeps.

(** Once the file is open it stays open until [fclose], even when a call stops. *)
Lemma keeps_calls guard d e b f k job :
  (k ≤ 6)%nat →
  keeps (writing name fs) (foldr (λ m k, m ;;; k) (ret tt) (take k (drop 1 (ckpt_calls guard d e b f job)))).
Proof.
  intros Hk. unfold ckpt_calls. cbn [drop].
  assert (keeps (writing name fs) ckpt_timer) by (unfold ckpt_timer; eauto with keeps).
  assert (keeps (writing name fs) (save_data_seg d e b f)) by (unfold save_data_seg; eauto 10 with keeps).
  assert (keeps (writing name fs) (save_stack_seg guard)) by (unfold save_stack_seg; eauto 20 with keeps).
  assert (keeps (writing name fs) save_heap_seg) by (unfold save_heap_seg; eauto 10 with keeps).
  assert (keeps (writing name fs) save_framework_data)
    by (unfold save_framework_data; eauto 10 with keeps).
  do 7 (destruct k as [|k]; [cbn [take foldr]; eauto 10 with keeps|]). lia.
Qed.
End writing.

Lemma ckpt_until_all guard d e b f s : ckpt_until guard d e b f 8 s = init_ckpt guard d e b f s.
Proof.
  unfold ckpt_until, init_ckpt, ckpt_calls. cbn [bind gets take foldr].
  repeat (match goal with |- context [match ?m with Done _ _ => _ | Stop _ _ => _ end] =>
    destruct m as [[] ?|]; [|done] end). done.
Qed.

Lemma ckpt_until_writing guard d e b f n s :
  let name := CKPT_FILE_NAME (cp_job s) in
  cp_dir s = true → (1 ≤ n ≤ 7)%nat →
  writing name (<[name := []]> (cp_files s)) (final (ckpt_until guard d e b f n) s).
Proof.
  intros name Hdir Hn. destruct n as [|n]; [lia|].
  set (s0 := set_stream (Writing name []) (set_files (<[name := []]> (cp_files s)) s)).
  assert (final (ckpt_until guard d e b f (S n)) s =
    final (foldr (λ m k, m ;;; k) (ret tt) (take n (drop 1 (ckpt_calls guard d e b f (cp_job s))))) s0) as ->.
  { unfold ckpt_until, final. cbn [bind gets take foldr ckpt_calls drop]. unfold fopen_wb. cbn [bind gets].
    by rewrite Hdir. }
  apply (keeps_final (writing name (<[name := []]> (cp_files s)))); [apply keeps_calls; lia|].
  split; [done|by exists []].
Qed.

(** The bytes of the file by then are the first of those of the image. *)
Lemma ckpt_until_prefix `{!Allocator} `{!AllocatorLaws alloc} guard d e b f n s ls i :
  checkpointable guard d e b f s ls → image_of guard d e b f (cp_proc s) ls i → (1 ≤ n ≤ 7)%nat →
  ∃ w, ckpt_file (final (ckpt_until guard d e b f n) s) = Writing (CKPT_FILE_NAME (cp_job s)) w ∧
    w `prefix_of` file_of d e b f i.
Proof.
  intros Hs Hi Hn. set (name := CKPT_FILE_NAME (cp_job s)).
  set (s0 := set_files (<[name := []]> (cp_files s)) s).
  destruct (parts_written guard d e b f s0 ls i (ck_savable _ _ _ _ _ _ _ Hs) Hi) as (W1 & W2 & W3 & W4).
  unfold ckpt_until, final, ckpt_calls, fopen_wb. cbn [bind gets].
  assert (∀ w, ckpt_timer (set_stream (Writing name w) s0) = Done tt (set_stream (Writing name w) s0)) as Ht
    by (intros w; apply ckpt_timer_run, Hs).
  do 8 (destruct n as [|n]; [first [exfalso; lia|
    cbn [take foldr bind gets]; rewrite (ck_dir _ _ _ _ _ _ _ Hs); cbn [modify]; fold name;
    change (set_stream (Writing name []) (set_files _ s)) with (set_stream (Writing name []) s0);
    rewrite ?Ht, ?W1, ?W2, ?W3, ?W4, ?ckpt_timer_run by apply Hs;
    cbn [ckpt_file set_stream ret]; eexists; split; [reflexivity|]; unfold file_of;
    rewrite ?app_nil_l, <-?app_assoc;
    solve [repeat first [apply prefix_nil|reflexivity|(by eexists)|apply prefix_app]]]|]).
  lia.
Qed.

(** *** A file that ends too early *)
Lemma fread_var_ends n rest s :
  ckpt_file s = Reading rest → (length rest < n)%nat → fails Undef (fread_var n None) s.
Proof.
  intros Hf Hn. unfold fread_var, fread_elem, remaining, fails. cbn [bind gets]. rewrite Hf. cbn [ret bind].
  rewrite length_cells, (proj2 (Nat.leb_gt _ _)) by done. cbn [bind modify ret].
  assert (value (if decide (rest = []) then cells n None else replicate n None) = None) as ->; [|by eexists].
  destruct n as [|n]; [lia|]. by destruct (decide _).
Qed.
Lemma fread_var_word v rest s :
  word v → ckpt_file s = Reading (cells 8 (Some v) ++ rest) →
  fread_var 8 None s = Done v (set_stream (Reading rest) s).
Proof.
  intros Hv Hf. pose proof (reads_var 8 v None s rest) as H. change (256 ^ Z.of_nat 8) with (2 ^ 64) in H.
  rewrite Z.mod_small in H by done. rewrite <-H. f_equal. destruct s. cbn in *. by subst.
Qed.
Lemma fread_mem_ends a n rest s :
  ckpt_file s = Reading rest →
  fails Undef (fread_mem a n) s ∨
  ∃ s', fread_mem a n s = Done tt s' ∧ ckpt_file s' = Reading (drop (Z.to_nat n) rest).
Proof.
  intros Hf. unfold fread_mem, remaining, fails. cbn [bind gets]. rewrite Hf. cbn [ret bind modify].
  unfold on_cheap, on_proc, on_heap, zoom, put_bytes.
  cbn [bind gets of_option modify]. destruct (store_bytes _ _ _); cbn; [right|left]; by eexists.
Qed.

Lemma prefix_split {A} (l a x : list A) :
  l `prefix_of` a ++ x → (length a ≤ length l)%nat → ∃ l', l = a ++ l' ∧ l' `prefix_of` x.
Proof.
  intros [k E] Hl. exists (drop (length a) l). assert (l = a ++ drop (length a) l) as El.
  { rewrite <-(take_drop (length a) l) at 1. f_equal.
    apply (f_equal (take (length a))) in E. rewrite take_app_length, take_app_le in E by lia. done. }
  split; [done|]. exists k. apply (app_inv_head a). rewrite app_assoc, <-El. done.
Qed.
Lemma prefix_skip {A} (l a x : list A) : l `prefix_of` a ++ x → drop (length a) l `prefix_of` x.
Proof.
  intros Hl. destruct (decide (length a ≤ length l)%nat) as [Hn|Hn].
  - destruct (prefix_split l a x Hl Hn) as (l' & -> & Hl'). by rewrite drop_app_length.
  - rewrite drop_ge by lia. apply prefix_nil.
Qed.

Section starve.
Context `{!Allocator} (guard d e b f : Z) (l1 l2 : list mbyte).
Context (Hd : word (e - d)) (Hb : word (f - b)).
Context (N1 : length l1 = Z.to_nat (e - d)) (N2 : length l2 = Z.to_nat (f - b)).

(** The segments take what belongs to them, or stop. *)
Lemma data_starves part X s :
  ckpt_file s = Reading part → part `prefix_of` data_image d e b f l1 l2 ++ X →
  fails Undef (restore_data_seg d b) s ∨
  ∃ s' rest, restore_data_seg d b s = Done tt s' ∧ ckpt_file s' = Reading rest ∧ rest `prefix_of` X ∧
    (length rest ≤ length part - length (data_image d e b f l1 l2))%nat.
Proof.
  intros Hf Hp. unfold restore_data_seg, data_image in *. rewrite <-!app_assoc in Hp.
  destruct (decide (length part < 8)%nat) as [Hs|Hs].
  { left. apply fails_bind. by eapply fread_var_ends. }
  apply prefix_split in Hp as (p1 & -> & Hp); [|rewrite length_cells; lia].
  pose proof (fread_var_word (e - d) p1 s Hd Hf) as E1. set (s1 := set_stream (Reading p1) s) in E1.
  destruct (fread_mem_ends d (e - d) p1 s1 eq_refl) as [Hs1|(s2 & E2 & F2)].
  { left. eapply fails_then; [exact E1|]. by apply fails_bind. }
  rewrite <-N1 in F2. apply prefix_skip in Hp. set (p2 := drop (length l1) p1) in *.
  destruct (decide (length p2 < 8)%nat) as [Hs2|Hs2].
  { left. eapply fails_then; [exact E1|]. eapply fails_then; [exact E2|]. apply fails_bind. by eapply fread_var_ends. }
  assert (length p2 = length p1 - length l1)%nat as Hl1 by apply length_drop.
  apply prefix_split in Hp as (p3 & Ep2 & Hp); [|rewrite length_cells; lia]. rewrite Ep2 in F2, Hl1.
  pose proof (fread_var_word (f - b) p3 s2 Hb F2) as E3. set (s3 := set_stream (Reading p3) s2) in E3.
  destruct (fread_mem_ends b (f - b) p3 s3 eq_refl) as [Hs3|(s4 & E4 & F4)].
  { left. eapply fails_then; [exact E1|]. eapply fails_then; [exact E2|]. by eapply fails_then; [exact E3|]. }
  right. rewrite <-N2 in F4. apply prefix_skip in Hp. exists s4, (drop (length l2) p3).
  split; [|split; [exact F4|split; [exact Hp|]]].
  - rewrite (bind_Done _ _ _ _ _ E1), (bind_Done _ _ _ _ _ E2), (bind_Done _ _ _ _ _ E3). exact E4.
  - rewrite !length_app, !length_cells, length_drop in *. lia.
Qed.

(** The registers and the size of the stack are not there. *)
Lemma stack_starves rest s :
  ckpt_file s = Reading rest → (length rest < 32)%nat → fails Undef (restore_stack_seg guard) s.
Proof.
  intros Hf Hl. unfold restore_stack_seg.
  assert (∃ l s', fread_elem (replicate 24 None) s = Done l s' ∧ ckpt_file s' = Reading (drop 24 rest))
    as (l & s' & E & F).
  { unfold fread_elem, remaining. cbn [bind gets]. rewrite Hf. cbn [ret bind]. rewrite length_replicate.
    destruct (24 <=? length rest)%nat eqn:En; cbn [bind modify ret]; eexists _, _; (split; [reflexivity|]); [done|].
    apply Nat.leb_gt in En. by rewrite drop_ge by lia. }
  eapply fails_then; [exact E|]. apply fails_bind. eapply fread_var_ends; [exact F|]. rewrite length_drop. lia.
Qed.

Lemma restore_starves part X r :
  cp_files r !! CKPT_FILE_NAME (cp_job r) = Some part → part `prefix_of` data_image d e b f l1 l2 ++ X →
  (length part < length (data_image d e b f l1 l2) + 32)%nat → fails Undef (init_ckpt_restore guard d b) r.
Proof.
  intros Hr Hp Hl. unfold init_ckpt_restore, fopen_rb.
  eapply fails_then; [reflexivity|]. eapply fails_then.
  { cbn [bind gets modify]. rewrite Hr. reflexivity. }
  destruct (data_starves part X (set_stream (Reading part) r) eq_refl Hp) as [Hs|(s' & rest & E & F & _ & Hn)].
  { by apply fails_bind. }
  eapply fails_then; [exact E|]. apply fails_bind, (stack_starves rest); [done|lia].
Qed.
End starve.

(** ** Properties *)

(** A checkpoint is restored as it was saved.  A process whose list owns its
    blocks writes a file, and a process of the same job that finds this file,
    whose segments are at the same addresses, returns from
    [init_ckpt_restore] with: the program counter; a stack that ends at its
    own [stackHigherAddress], with the stack and frame pointers moved by the
    distance and the bytes of the saved stack; the bytes of the data segments;
    one element for each element of the saved list, whose variable points to
    a new block with the saved bytes; the counter and the two flags.  Only the
    variables that point to blocks differ, by the addresses of the new
    blocks. *)
Theorem checkpoint_roundtrip `{!Allocator} `{!AllocatorLaws alloc} guard d e b f s ls r l :
  word guard → checkpointable guard d e b f s ls → cp_job r = cp_job s →
  ∃ s', init_ckpt guard d e b f s = Done tt s' ∧
    p_heap (cp_proc s') = p_heap (cp_proc s) ∧ context (cp_proc s') = context (cp_proc s) ∧
    let lo := wrap64 (stackHigherAddress (cp_proc r) -
                (stackHigherAddress (cp_proc s) - getRSP guard (context (cp_proc s)))) in
    let r0 := set_files (cp_files s') r in
    restorable d e b f r0 l lo (stack_bytes guard (cp_proc s)) ls.*2 →
    does_ckpt_file_exists r0 = Done 1 r0 ∧
    ∃ r', init_ckpt_restore guard d b r0 = Done tt r' ∧
      restored guard d e b f (cp_proc s) ls lo l (cp_proc r').
Proof.
  intros Hg Hs Hjob. pose proof (ck_savable _ _ _ _ _ _ _ Hs) as Hsv.
  destruct (savable_image guard d e b f _ ls Hsv) as [i Hi].
  eexists. split; [by eapply init_ckpt_run|]. split; [done|]. split; [done|].
  intros lo r0 Hr. assert (cp_files r0 !! CKPT_FILE_NAME (cp_job r0) = Some (file_of d e b f i)) as Hf.
  { cbn. by rewrite Hjob, lookup_insert_eq. }
  split; [|by eapply init_ckpt_restore_run].
  unfold does_ckpt_file_exists. cbn [bind gets ret]. by rewrite Hf.
Qed.



(** C29: a checkpoint that is interrupted destroys the one before it.  Wherever
    between [fopen] and [fclose] the process dies or runs into undefined
    behaviour, the file of its job then holds the first part of what was
    written by then, however much of it the C library had passed on, and the
    files of the other jobs are as they were; a restart finds the file
    ([does_ckpt_file_exists]).  When the process could have been saved this is a first
    part of its image, and a restart stops with undefined behaviour when not all of the
    segments, the registers and the size of the stack are in it; without any
    assumption it does when the file has less than eight bytes. *)
Theorem unfinished_ckpt `{!Allocator} `{!AllocatorLaws alloc} guard d e b f s n fs :
  let name := CKPT_FILE_NAME (cp_job s) in
  cp_dir s = true → (1 ≤ n ≤ 7)%nat → on_disk (final (ckpt_until guard d e b f n) s) fs →
  ∃ part, fs = <[name := part]> (cp_files s) ∧
    (∀ r, cp_job r = cp_job s → cp_files r = fs →
       does_ckpt_file_exists r = Done 1 r ∧
       ((length part < 8)%nat → fails Undef (init_ckpt_restore guard d b) r)) ∧
    ∀ ls i, checkpointable guard d e b f s ls → image_of guard d e b f (cp_proc s) ls i →
      part `prefix_of` file_of d e b f i ∧
      ∀ r, cp_job r = cp_job s → cp_files r = fs →
        (length part < length (data_image d e b f (im_data i) (im_bss i)) + 32)%nat →
        fails Undef (init_ckpt_restore guard d b) r.
Proof.
  intros name Hdir Hn Hfs. destruct (ckpt_until_writing guard d e b f n s Hdir Hn) as [Hf [w Hw]].
  unfold on_disk in Hfs. rewrite Hw, Hf in Hfs. destruct Hfs as [k ->].
  rewrite insert_insert_eq. exists (take k w). split; [done|].
  assert (∀ r, cp_job r = cp_job s → cp_files r = <[name := take k w]> (cp_files s) →
    cp_files r !! CKPT_FILE_NAME (cp_job r) = Some (take k w)) as Hfile.
  { intros r -> ->. apply lookup_insert_eq. }
  split.
  - intros r Hjob Hr. pose proof (Hfile r Hjob Hr) as Hl.
    split; [unfold does_ckpt_file_exists; cbn [bind gets ret]; by rewrite Hl|]. intros Hs.
    unfold init_ckpt_restore, fopen_rb. eapply fails_then; [reflexivity|]. eapply fails_then.
    { cbn [bind gets modify]. rewrite Hl. reflexivity. }
    apply fails_bind, fails_bind. by eapply fread_var_ends.
  - intros ls i Hs Hi. destruct (ckpt_until_prefix guard d e b f n s ls i Hs Hi Hn) as (w' & Hw' & Hpre).
    rewrite Hw in Hw'. injection Hw' as <-.
    assert (take k w `prefix_of` file_of d e b f i) as Hp by (etransitivity; [apply prefix_take|done]).
    split; [exact Hp|]. intros r Hjob Hr Hl. pose proof (ck_savable _ _ _ _ _ _ _ Hs) as Hsv.
    destruct (data_length _ _ _ _ _ _ _ _ Hi) as [N1 N2].
    by apply (restore_starves guard d e b f _ _ (proj1 (sv_data _ _ _ _ _ _ _ Hsv)) (proj1 (sv_bss _ _ _ _ _ _ _ Hsv)) N1 N2
      (take k w) _ r (Hfile r Hjob Hr) Hp Hl).
Qed.

(** C40: the times of the checkpoints have [MAX_CKPT] places.  A process that can be
    saved is saved as long as its counter of maps is from 0 to 99; with any
    other counter [init_ckpt] writes outside [___ckpt_time], and the file it had
    opened, which held the previous checkpoint, is empty. *)
Theorem ckpt_counter_bound guard d e b f s ls n :
  savable guard d e b f (cp_proc s) ls → cp_dir s = true →
  if decide (0 ≤ n < MAX_CKPT) then
    ∃ s', init_ckpt guard d e b f (set_counter n s) = Done tt s' ∧
      CKPT_FILE_NAME (cp_job s) ∈ dom (cp_files s')
  else ∃ s', init_ckpt guard d e b f (set_counter n s) = Stop Undef s' ∧
      cp_files s' = <[CKPT_FILE_NAME (cp_job s) := []]> (cp_files s).
Proof.
  intros Hs Hdir. destruct (decide (0 ≤ n < MAX_CKPT)) as [Hn|Hn].
  - assert (checkpointable guard d e b f (set_counter n s) ls) as Hs' by done.
    destruct (savable_image guard d e b f _ ls Hs) as [i Hi].
    eexists. split; [by eapply init_ckpt_run|]. cbn. set_solver.
  - unfold init_ckpt, fopen_wb. cbn [bind gets]. change (cp_dir (set_counter n s)) with (cp_dir s).
    rewrite Hdir. cbn [modify]. unfold ckpt_timer, ensure. cbn [bind gets].
    assert ((0 <=? n) && (n <? MAX_CKPT) = false) as E.
    { apply andb_false_iff. rewrite Z.leb_gt, Z.ltb_ge. lia. }
    cbn [cp_counter set_stream set_files set_counter]. rewrite E. by eexists.
Qed.

(** ** Concrete processes *)
Definition program_of (job counter : Z) (h : heap) : cproc :=
  MkCproc (proc_of NODE_DATA_NONE h) job counter true ∅ NULL_FILE.

Definition heap_freed : heap :=
  final (@rep_malloc bump 100 16 ;;; @rep_malloc bump 108 8 ;;; @rep_malloc bump 116 32 ;;; rep_free 108)
    heap_prog.
Definition heap_shared : heap :=
  final (@rep_malloc bump 100 16 ;;; @rep_assign_malloc_context bump 100 108) heap_prog.

Abbreviation save_ex := (@init_ckpt 12345 100 124 124 132).
Abbreviation restore_ex := (@init_ckpt_restore bump 12345 100 124).

(** A checkpoint after [rep_free] is not restored.  [rep_free] removes the
    element and leaves [malloc_number_of_allocations], so that the file says
    more containers than it has: the loop of [restore_heap_seg] takes the two
    flags for the begin of a container, meets the end of the file and uses an
    indeterminate address. *)
Theorem restore_after_free_stops : ∃ h s r,
  (@rep_malloc bump 100 16 ;;; @rep_malloc bump 108 8 ;;; @rep_malloc bump 116 32 ;;; rep_free 108)
    heap_prog = Done tt h ∧
  rep_display h = Done [MkContainer 100 0 4096 16; MkContainer 116 0 4216 32] h ∧
  malloc_number_of_allocations h = 3 ∧
  save_ex (program_of 0 0 h) = Done tt s ∧
  restore_ex (set_files (cp_files s) (program_of 0 0 heap_prog)) = Stop Undef r ∧
  ckpt_file r = Reading [].
Proof.
  set (s := final save_ex (program_of 0 0 heap_freed)).
  exists heap_freed, s, (final restore_ex (set_files (cp_files s) (program_of 0 0 heap_prog))).
  split_and!; vm_compute; reflexivity.
Qed.

(** A checkpoint loses the aliases.  Two variables that share a block through
    [rep_assign_malloc_context] point, after the restoration, to different
    blocks, the second one to a block of no bytes. *)
Theorem restore_loses_alias : ∃ h s r p q,
  (@rep_malloc bump 100 16 ;;; @rep_assign_malloc_context bump 100 108) heap_prog = Done tt h ∧
  load_word 8 (mem h) 100 = load_word 8 (mem h) 108 ∧
  save_ex (program_of 0 0 h) = Done tt s ∧
  restore_ex (set_files (cp_files s) (program_of 0 0 heap_prog)) = Done tt r ∧
  load_word 8 (mem (p_heap (cp_proc r))) 100 = Some p ∧
  load_word 8 (mem (p_heap (cp_proc r))) 108 = Some q ∧ p ≠ q ∧
  blocks (p_heap (cp_proc r)) !! p = Some 16 ∧ blocks (p_heap (cp_proc r)) !! q = Some 0.
Proof.
  set (s := final save_ex (program_of 0 0 heap_shared)).
  exists heap_shared, s, (final restore_ex (set_files (cp_files s) (program_of 0 0 heap_prog))).
  exists 4096, 4160. split_and!; [..|congruence| |]; vm_compute; reflexivity.
Qed.

(** ** Witnesses *)
Lemma checkpoint_roundtrip_witness : ∃ s' r',
  save_ex (program_of 0 0 heap_saved_ex) = Done tt s' ∧
  restore_ex (set_files (cp_files s') (program_of 0 0 heap_prog)) = Done tt r' ∧
  malloc_number_of_allocations (p_heap (cp_proc r')) = 2.
Proof.
  destruct (@checkpoint_roundtrip bump bump_laws 12345 100 124 124 132
    (program_of 0 0 heap_saved_ex) list_saved_ex (program_of 0 0 heap_prog) [])
    as (s' & Hs' & _ & _ & H).
  - vm_compute. split; congruence.
  - split; [apply savable_ex|vm_compute; split; congruence|reflexivity].
  - reflexivity.
  - destruct H as (_ & r' & Hr' & Hres).
    + split.
      * exact (target_ex NODE_DATA_NONE).
      * vm_compute. reflexivity.
      * exact heap_prog_empty.
      * exact heap_prog_wf.
      * vm_compute. repeat split.
    + exists s', r'. split; [exact Hs'|]. split; [exact Hr'|].
      exact (re_count _ _ _ _ _ _ _ _ _ _ Hres).
Defined.


(** The process dies while it saves its heap, and 72 bytes have reached the file. *)
Definition saving_ex : cproc := final (@ckpt_until 12345 100 124 124 132 5) (program_of 0 0 heap_saved_ex).
Definition written_ex : list mbyte := match ckpt_file saving_ex with Writing _ w => w | _ => [] end.
Definition file_ex (k : nat) : gmap (list ascii) (list mbyte) := {[CKPT_FILE_NAME 0 := take k written_ex]}.

Lemma saving_ex_disk k : on_disk saving_ex (file_ex k).
Proof.
  apply (on_disk_writing saving_ex (CKPT_FILE_NAME 0) written_ex k); [vm_compute; reflexivity|].
  assert (cp_files saving_ex = {[CKPT_FILE_NAME 0 := []]}) as -> by (vm_compute; reflexivity).
  unfold file_ex. by rewrite insert_singleton_eq.
Qed.

Lemma unfinished_ckpt_witness :
  on_disk saving_ex (file_ex 72) ∧ fails Undef restore_ex (set_files (file_ex 72) (program_of 0 0 heap_prog)).
Proof.
  split; [exact (saving_ex_disk 72)|].
  destruct (savable_image 12345 100 124 124 132 _ _ (savable_ex NODE_DATA_NONE)) as [i Hi].
  destruct (@unfinished_ckpt bump bump_laws 12345 100 124 124 132 (program_of 0 0 heap_saved_ex) 5
    (file_ex 72) eq_refl ltac:(lia) (saving_ex_disk 72)) as (part & Hfs & _ & Hrest).
  assert (part = take 72 written_ex) as ->.
  { apply (f_equal (λ m, m !! CKPT_FILE_NAME 0)) in Hfs. unfold file_ex in Hfs. rewrite lookup_singleton_eq in Hfs.
    change (CKPT_FILE_NAME (cp_job _)) with (CKPT_FILE_NAME 0) in Hfs. rewrite lookup_insert_eq in Hfs. congruence. }
  destruct (Hrest list_saved_ex i) as [_ Hfail].
  - split; [apply savable_ex|vm_compute; split; congruence|reflexivity].
  - exact Hi.
  - apply Hfail; [reflexivity|reflexivity|]. destruct (data_length _ _ _ _ _ _ _ _ Hi) as [N1 N2].
    unfold data_image. rewrite !length_app, !length_cells, N1, N2.
    apply Nat.ltb_lt. vm_compute. reflexivity.
Defined.

(** A file that ends in the stack is taken for a whole one by a process without
    allocations: it goes on, with the registers of the image and the bytes of
    the stack that were there, and without an allocation. *)
Theorem partial_ckpt_restored : ∃ r,
  on_disk saving_ex (file_ex 90) ∧ length (take 90 written_ex) = 90%nat ∧
  restore_ex (set_files (file_ex 90) (program_of 0 0 heap_prog)) = Done tt r ∧
  getPC 12345 (context (cp_proc r)) = 4198400 ∧ rep_display (p_heap (cp_proc r)) = Done [] (p_heap (cp_proc r)).
Proof.
  exists (final restore_ex (set_files (file_ex 90) (program_of 0 0 heap_prog))).
  split; [apply saving_ex_disk|]. split_and!; vm_compute; reflexivity.
Qed.

Lemma ckpt_counter_bound_witness : ∃ s,
  save_ex (program_of 0 100 heap_saved_ex) = Stop Undef s ∧
  cp_files s = {[CKPT_FILE_NAME 0 := []]}.
Proof.
  exact (ckpt_counter_bound 12345 100 124 124 132 (program_of 0 0 heap_saved_ex) list_saved_ex 100
    (savable_ex NODE_DATA_NONE) eq_refl).
Defined.
