(* ===== verification/Work.v ===== *)
(** * The temporary stack: the end of [is_file_update_set]

    When a new map gives the process work to do, [is_file_update_set] saves its
    registers with [setjmp], switches to a stack it allocates, writes or
    restores a checkpoint or takes part in a transfer there, and returns with
    [longjmp] to where the saved registers say, which are those of another
    process after a restoration or a transfer.  This file runs the tables of
    [Update], the checkpoint of [Checkpoint] and the transfers of [Transfer]
    in one process. *)

From Stdlib Require Import Ascii.
From S2P Require Import Prelude Shared Mpi Memory Stat MapFile Comm HeapSeg Context Install.
From S2P Require Import Transfer Image Replica Update Checkpoint.

Definition TEMP_STACK_SIZE : Z := 20000000.
Definition TEMP_STACK_BOTTOM_OFFSET : Z := 500.

(** The whole process: the tables and the world of [Update], and the memory,
    the registers and the files of [Checkpoint]. *)
Record whole (W : Type) : Type := MkWhole {
  w_tables : globals * W;
  w_cproc : cproc
}.
Arguments MkWhole {W}.
Arguments w_tables {W}.
Arguments w_cproc {W}.

(** The registers a process goes on with; [r_saved] are [rbx] and [r12] to
    [r15]. *)
Record registers : Type := MkRegisters { r_pc : Z; r_sp : Z; r_bp : Z; r_saved : list Z }.

Section work.
Context {W : Type} `{MpiConst} `{PmpiSplit W} `{Files W} `{Allocator}.
Context (guard d e b f : Z).
Abbreviation S := (whole W).

Definition on_tables {A} (m : M (globals * W) A) : M S A :=
  zoom w_tables (λ t s, MkWhole t (w_cproc s)) m.
Definition on_cproc {A} (m : M cproc A) : M S A :=
  zoom w_cproc (λ c s, MkWhole (w_tables s) c) m.

(** The variables of the tables that the work reads: the job, the transfer
    state, the counters and the rank in [job_comm]. *)
Definition enter (g : globals) (w : W) (s : cproc) : cproc :=
  let p := cp_proc s in
  MkCproc (MkProc (node_transit_state (node g)) (p_heap p) (context p) (stackHigherAddress p)
             (stackLowerAddress p) (pass_sender_cont_add p) (pass_receiver_cont_add p)
             (MkChan (PMPI_Comm_rank (job_comm g) w) (inbox (p_chan p)) (outbox (p_chan p))))
    (job_id (node g)) (ckpt_counter g) (cp_dir s) (cp_files s) (ckpt_file s).

(** [malloc] of the stack: only the machine uses its bytes, so that they are not
    in the memory. *)
Definition malloc_stack (n : Z) : M heap Z := λ h,
  let a := alloc (blocks h) n in Done a (set_blocks (<[a := n]> (blocks h)) h).

(** [setjmp(context)], which saves [regs], and the context with which [longjmp]
    goes to the new stack; [copy_context] is what that variable has before. *)
Definition switch_stack (regs copy_context : jmp_buf) : M cproc (Z * jmp_buf) :=
  on_proc (modify (set_context regs)) ;;;
  let! c := gets (λ s, context (cp_proc s)) in
  let! newStack := on_cheap (malloc_stack TEMP_STACK_SIZE) in
  ret (newStack, setRSP guard (copy_jmp_buf c copy_context)
                   (wrap64 (newStack + TEMP_STACK_SIZE - TEMP_STACK_BOTTOM_OFFSET))).

(** The branch of [setjmp_status == 1]. *)
Definition new_stack_work (act : action) : M S unit :=
  match act with
  | RestoreCkpt =>
      on_cproc (init_ckpt_restore guard d b) ;;;
      on_tables (of_globals (modify (set_ckpt_restore RESTORE_NO)))
  | Work ckpt rep =>
      when ckpt (on_cproc (init_ckpt guard d e b f)) ;;;
      when rep
        (let! g := gets (λ s, (w_tables s).1) in
         on_cproc (on_proc (init_rep guard d e b f (rep_counter g))))
  | NotModified | Retry | NotRequired => ret tt
  end.

(** The registers [longjmp(context, 2)] restores: all eight words of the
    [jmp_buf]. *)
Definition resumed (c : jmp_buf) : registers :=
  MkRegisters (getPC guard c) (getRSP guard c) (getRBP guard c) (callee_saved c).

(** From [setjmp] to the end; the result is where the process goes on. *)
Definition on_temporary_stack (regs copy_context : jmp_buf) (act : action) : M S registers :=
  modify (λ s, MkWhole (w_tables s) (enter (w_tables s).1 (w_tables s).2 (w_cproc s))) ;;;
  let! (newStack, copy) := on_cproc (switch_stack regs copy_context) in
  new_stack_work act ;;;
  let! c := gets (λ s, context (cp_proc (w_cproc s))) in
  on_cproc (on_cheap (free newStack)) ;;;
  ret (resumed c).

(** All of [is_file_update_set]; [None]: it returns to its caller as any call. *)
Definition update_and_work (regs copy_context : jmp_buf) : M S (option registers) :=
  let! act := on_tables is_file_update_set in
  match act with
  | NotModified | Retry | NotRequired => ret None
  | RestoreCkpt | Work _ _ =>
      let! r := on_temporary_stack regs copy_context act in ret (Some r)
  end.



End work.

(** ** The block of the temporary stack

    It is live when the work is done: a checkpoint and a sender free nothing, a
    restoration only allocates, and a receiver frees the blocks of its list. *)
Section kept.
Context (ns : Z).

Definition has_stack (s : cproc) : Prop := live ns (p_heap (cp_proc s)).

Lemma keeps_on_cheap {A} (m : M heap A) : keeps (live ns) m → keeps has_stack (on_cheap m).
Proof.
  intros Hm. unfold on_cheap, on_proc, on_heap, has_stack.
  apply (keeps_zoom cp_proc set_proc (λ p, live ns (p_heap p))); [done|].
  by apply (keeps_zoom p_heap set_heap (live ns)).
Qed.
Lemma keeps_stream v : keeps has_stack (modify (set_stream v)).
Proof. by apply keeps_modify. Qed.
Lemma keeps_set_proc g : (∀ p, p_heap (g p) = p_heap p) → keeps has_stack (on_proc (modify g)).
Proof. intros Hg s Hs. unfold has_stack, on_proc, zoom, wp in *. cbn. by rewrite Hg. Qed.
Lemma keeps_fclose : keeps has_stack fclose.
Proof. unfold fclose. apply keeps_bind; [apply keeps_gets|]. intros []; by intros s Hs. Qed.
Lemma keeps_remaining : keeps has_stack remaining.
Proof. unfold remaining. apply keeps_bind; [apply keeps_gets|]. intros []; by intros s Hs. Qed.
#[local] Hint Resolve keeps_on_cheap keeps_stream keeps_set_proc keeps_fclose keeps_remaining : keeps.

Lemma keeps_fread_elem l : keeps has_stack (fread_elem l).
Proof. unfold fread_elem. apply keeps_bind; [auto with keeps|]. intros rest. case_match; eauto with keeps. Qed.
#[local] Hint Resolve keeps_fread_elem : keeps.
Lemma keeps_fread_var n v : keeps has_stack (fread_var n v).
Proof. unfold fread_var. eauto with keeps. Qed.
Lemma keeps_fread_mem a n : keeps has_stack (fread_mem a n).
Proof. unfold fread_mem. eauto 10 with keeps. Qed.
Lemma keeps_fread_block a n : keeps has_stack (fread_block a n).
Proof. unfold fread_block. apply keeps_bind; [auto with keeps|]. intros rest. case_match; eauto 10 with keeps. Qed.
#[local] Hint Resolve keeps_fread_var keeps_fread_mem keeps_fread_block : keeps.

Lemma keeps_restore_block `{Allocator} l i : keeps has_stack (restore_block l i).
Proof.
  unfold restore_block. apply keeps_bind; [auto with keeps|]. intros l'.
  apply keeps_bind; [auto with keeps|]. intros [[ca la] sz]. eauto 20 with keeps.
Qed.
#[local] Hint Resolve keeps_restore_block : keeps.

End kept.

(** ** The registers that are not part of an image

    Neither a transfer nor a restoration touches them. *)
Section saved_registers.
Context `{Allocator} (v : list Z).

Definition same_saved (p : proc) : Prop := callee_saved (context p) = v.

Lemma saved_on_heap {A} (m : M heap A) : keeps same_saved (on_heap m).
Proof. intros p Hp. unfold on_heap, zoom, wp. by destruct (m (p_heap p)). Qed.
Lemma saved_bcast l : keeps same_saved (bcast l).
Proof.
  intros p Hp. unfold bcast, wp. destruct (c_rank (p_chan p) =? 0); [done|].
  destruct (inbox (p_chan p)) as [|m rest]; [done|]. by destruct (_ =? _)%nat.
Qed.
Lemma saved_modify f : (∀ p, callee_saved (context (f p)) = callee_saved (context p)) → keeps same_saved (modify f).
Proof. intros Hf. apply keeps_modify. intros p Hp. unfold same_saved. by rewrite Hf. Qed.
#[local] Hint Resolve saved_on_heap saved_bcast : keeps.
#[local] Hint Extern 1 (keeps same_saved (modify _)) => apply saved_modify; intros; reflexivity : keeps.

Lemma saved_bcast_var n c : keeps same_saved (bcast_var n c).
Proof. unfold bcast_var. eauto with keeps. Qed.
Lemma saved_bcast_mem a n : keeps same_saved (bcast_mem a n).
Proof. unfold bcast_mem. eauto 10 with keeps. Qed.
#[local] Hint Resolve saved_bcast_var saved_bcast_mem : keeps.

Lemma saved_receiver_context guard pc sp bp n : keeps same_saved (receiver_context guard pc sp bp n).
Proof.
  unfold receiver_context. apply keeps_bind; [auto with keeps|]. intros t. apply keeps_when, keeps_bind; [|eauto with keeps].
  apply saved_modify. intros p. cbn [context set_context]. unfold setRBP, setRSP, setPC.
  by rewrite !callee_saved_set by set_solver.
Qed.
Lemma saved_sender_locals guard : keeps same_saved (sender_locals guard).
Proof.
  unfold sender_locals. apply keeps_bind; [auto with keeps|]. intros t. destruct (decide _); eauto 10 with keeps.
Qed.
#[local] Hint Resolve saved_receiver_context saved_sender_locals : keeps.

Lemma saved_transfer_block temp i : keeps same_saved (transfer_block temp i).
Proof.
  unfold transfer_block. apply keeps_bind; [auto with keeps|]. intros rank.
  apply keeps_bind; [destruct (rank =? 0); eauto with keeps|]. intros [l temp'].
  repeat first [solve [eauto 3 with keeps] | case_match | apply keeps_bind; [|intros ?] | apply keeps_when].
Qed.
#[local] Hint Resolve saved_transfer_block : keeps.


(** The same for a process with files. *)
Definition same_saved_of (s : cproc) : Prop := same_saved (cp_proc s).

Lemma saved_on_proc {A} (m : M proc A) : keeps same_saved m → keeps same_saved_of (on_proc m).
Proof. intros Hm. by apply (keeps_zoom cp_proc set_proc same_saved). Qed.
Lemma saved_on_cheap {A} (m : M heap A) : keeps same_saved_of (on_cheap m).
Proof. apply saved_on_proc, saved_on_heap. Qed.
Lemma saved_stream f : keeps same_saved_of (modify (set_stream f)).
Proof. by apply keeps_modify. Qed.
Lemma saved_fclose : keeps same_saved_of fclose.
Proof. unfold fclose. apply keeps_bind; [apply keeps_gets|]. intros []; by intros s Hs. Qed.
Lemma saved_remaining : keeps same_saved_of remaining.
Proof. unfold remaining. apply keeps_bind; [apply keeps_gets|]. intros []; by intros s Hs. Qed.
#[local] Hint Resolve saved_on_cheap saved_stream saved_fclose saved_remaining : keeps.
#[local] Hint Extern 1 (keeps same_saved_of (on_proc (modify _))) => apply saved_on_proc, saved_modify; intros; reflexivity : keeps.

Lemma saved_restored guard lower rip rsp rbp :
  keeps same_saved_of (on_proc (modify (λ p, set_context (restored_context guard (context p) lower rip rsp rbp) p))).
Proof.
  apply saved_on_proc, saved_modify. intros p. cbn [context set_context]. unfold restored_context, setRBP, setRSP, setPC.
  by rewrite !callee_saved_set by set_solver.
Qed.
#[local] Hint Resolve saved_restored : keeps.

End saved_registers.

Section lemmas.
Context {W : Type} `{PmpiSplit W} `{!Allocator} `{!AllocatorLaws alloc}.
Context (guard d e b f : Z).
Implicit Types (s r : cproc) (g : globals) (w : W).








Lemma set_chan_id p : set_chan (p_chan p) p = p.
Proof. by destruct p. Qed.
End lemmas.


(** ** Properties *)



(** ** Witnesses: the process of [Image], in a world that is its rank in every
    communicator *)
#[local] Instance rank_split : PmpiSplit Z := {|
  PMPI_Comm_rank _ w := w;
  PMPI_Comm_size _ _ := 2;
  PMPI_Comm_split c _ _ w := (c, w)
|}.
#[local] Existing Instances bump bump_laws.







