(* ===== verification/Finalize.v ===== *)
(** * [MPI_Finalize] of [src/mpi/init.c]

    The library keeps, for every map that was applied, the time its checkpoint
    and its transfer took.  [MPI_Finalize] gathers these from all processes,
    takes the mean of those that are not zero, and the process with static
    rank 0 logs the two means of every map. *)

From Stdlib Require Import SpecFloat.
From S2P Require Import Prelude Shared Mpi Memory MapFile Comm HeapSeg PointToPoint Transfer Checkpoint.

(** ** [double]: the numbers and operations of IEEE 754 binary64 *)
Definition double : Type := spec_float.
Definition double_add : double → double → double := SFadd 53 1024.
Definition double_div : double → double → double := SFdiv 53 1024.
Definition double_of_int (z : Z) : double := binary_normalize 53 1024 z 0 false.
Definition double_zero : double := S754_zero false.
(** [x != 0] *)
Definition nonzero (x : double) : bool := negb (SFeqb x double_zero).

(** ** The state

    [PMPI_Gather_double v c] is [PMPI_Gather] of the double [v] to rank 0 of
    [c]: what it writes from the start of the receive buffer, which is nothing
    at a process that is not the root. *)
Class Timing (W : Type) : Type := {
  PMPI_Gather_double : double → MPI_Comm → W → list double * W
}.

Record timed (W : Type) : Type := MkTimed {
  t_sys : sys W;
  blackhole_address : Z;
  ckpt_time : list (option double);
  rep_time : list (option double)
}.
Arguments MkTimed {W}.
Arguments t_sys {W}.
Arguments blackhole_address {W}.
Arguments ckpt_time {W}.
Arguments rep_time {W}.

Section finalize.
Context {W : Type} `{MpiConst} `{PmpiSplit W} `{Timing W}.
Abbreviation S := (timed W).

Definition put_sys (s : sys W) (t : S) : S := MkTimed s (blackhole_address t) (ckpt_time t) (rep_time t).
Definition set_ckpt_time v (t : S) : S := MkTimed (t_sys t) (blackhole_address t) v (rep_time t).
Definition set_rep_time v (t : S) : S := MkTimed (t_sys t) (blackhole_address t) (ckpt_time t) v.
Definition on_sys {A} (m : M (sys W) A) : M S A := zoom t_sys put_sys m.

(** The gather into [time]; one that writes more than the buffer holds is
    undefined. *)
Definition gather_times (v : double) (time : list (option double)) : M S (list (option double)) := λ t,
  let s := t_sys t in
  let '(l, w) := PMPI_Gather_double v MPI_COMM_WORLD (s_world s) in
  let t' := put_sys (put_mpi (s_globals s, w) s) t in
  if (length l <=? length time)%nat then Done ((Some <$> l) ++ drop (length l) time) t' else Stop Undef t'.

(** One turn of the loops over [time]. *)
Definition add_time (time : list (option double)) (acc : Z * double) (i : Z) : M S (Z * double) :=
  let '(valid_times, sum_time) := acc in
  let! x := of_option Undef (aload time i) in
  if nonzero x then
    let! n := of_option Undef (c_int (valid_times + 1)) in
    ret (n, double_add sum_time x)
  else ret acc.

Definition mean_time (time : list (option double)) (global_size : Z) : M S double :=
  let! (valid_times, sum_time) := foldM (add_time time) (0, double_zero) (seqZ 0 global_size) in
  ret (if valid_times =? 0 then double_zero else double_div sum_time (double_of_int valid_times)).

(** One turn of the loop over the maps.  The first accumulator is the buffer
    [time], the second the lines that were logged: the map, the mean time of
    its transfers and that of its checkpoints. *)
Definition finalize_map (global_size : Z) (acc : list (option double) * list (Z * double * double))
    (n_rep : Z) : M S (list (option double) * list (Z * double * double)) :=
  let '(time, logged) := acc in
  let! cks := gets ckpt_time in
  let! v := of_option Undef (aload cks n_rep) in
  let! time := gather_times v time in
  let! ck := mean_time time global_size in
  let! cks := of_option Undef (astore cks n_rep ck) in
  modify (set_ckpt_time cks) ;;;
  let! reps := gets rep_time in
  let! v := of_option Undef (aload reps n_rep) in
  let! time := gather_times v time in
  let! rep := mean_time time global_size in
  let! reps := of_option Undef (astore reps n_rep rep) in
  modify (set_rep_time reps) ;;;
  let! me := gets (λ t, static_rank (node (s_globals (t_sys t)))) in
  ret (time, if me =? 0 then logged ++ [(n_rep, rep, ck)] else logged).

(** The result, and the lines that were logged.  A pointer to an array that was
    freed is [None]. *)
Definition MPI_Finalize : M S (Z * list (Z * double * double)) :=
  on_sys (on_globals (modify (set_rank_ignore_list None))) ;;;
  let! bh := gets blackhole_address in
  on_sys (on_mem (free bh)) ;;;
  let! job := on_sys (on_globals (load_job 0)) in
  let! _ := of_option Undef (aload (rank_list job) 0) in
  let! global_size := gets (λ t, PMPI_Comm_size (rep_mpi_comm_world (node (s_globals (t_sys t))))
                                   (s_world (t_sys t))) in
  let! time := of_option Undef (amalloc global_size) in
  let! g := gets (λ t, s_globals (t_sys t)) in
  let! n := of_option Undef (c_int (rep_counter g + 1)) in
  let! (_, logged) := foldM (finalize_map global_size) (time, []) (seqZ 0 n) in
  ret (MPI_SUCCESS, logged).

(** The wrapper of [src/fortran/mpi.c]; [ierr] is not written. *)
Definition mpi_finalize_ (ierr : Z) : M S unit := MPI_Finalize ;;; ret tt.
End finalize.

(** ** The mean *)

(** The mean of the times that are not zero; zero when all are. *)
Definition mean (l : list double) : double :=
  match filter nonzero l with
  | [] => double_zero
  | nz => double_div (foldl double_add double_zero nz) (double_of_int (Z.of_nat (length nz)))
  end.

(** ** Lemmas *)
Lemma seqZ_middle n p x q : seqZ 0 n = p ++ x :: q → x = Z.of_nat (length p) ∧ x < n.
Proof.
  intros Hs. assert (seqZ 0 n !! length p = Some x) as Hl by (by rewrite Hs, list_lookup_middle).
  apply lookup_seqZ in Hl. lia.
Qed.

Section run.
Context {W : Type} `{MpiConst} `{PmpiSplit W} `{Timing W}.
Implicit Types (t : timed W).

Lemma add_times (t : timed W) (l q : list double) rest : ∀ p,
  l = p ++ q → Z.of_nat (length l) ≤ INT_MAX →
  foldM (add_time ((Some <$> l) ++ rest))
    (Z.of_nat (length (filter nonzero p)), foldl double_add double_zero (filter nonzero p))
    (seqZ (Z.of_nat (length p)) (Z.of_nat (length q))) t =
  Done (Z.of_nat (length (filter nonzero l)), foldl double_add double_zero (filter nonzero l)) t.
Proof.
  induction q as [|x q IH]; intros p Hl Hn.
  - rewrite app_nil_r in Hl. by subst.
  - change (length (x :: q)) with (S (length q)). rewrite seqZ_cons by lia. cbn [foldM bind].
    unfold add_time at 1.
    rewrite (aload_Some _ _ x); [|lia|].
    2: { rewrite Nat2Z.id, lookup_app_l by (rewrite length_fmap, Hl; len).
         by rewrite list_lookup_fmap, Hl, list_lookup_middle. }
    cbn [of_option bind].
    replace (Z.pred (Z.of_nat (S (length q)))) with (Z.of_nat (length q)) by lia.
    replace (Z.succ (Z.of_nat (length p))) with (Z.of_nat (length (p ++ [x]))) by len.
    assert (l = (p ++ [x]) ++ q) as Hl' by (by rewrite <-app_assoc).
    pose proof (IH (p ++ [x]) Hl' Hn) as Hrun. rewrite filter_app, filter_cons in Hrun.
    destruct (nonzero x) eqn:Hx.
    + rewrite decide_True in Hrun by done. cbn [filter list_filter] in Hrun.
      rewrite length_app, foldl_app in Hrun. cbn [length foldl] in Hrun.
      assert (length (filter nonzero p) ≤ length p)%nat by apply length_filter.
      assert (length p < length l)%nat by (rewrite Hl; len).
      rewrite c_int_Some by (unfold INT_MIN, INT_MAX in *; lia). cbn [of_option bind ret].
      rewrite <-Hrun. f_equal. f_equal. lia.
    + rewrite decide_False in Hrun by by intros []. rewrite app_nil_r in Hrun. exact Hrun.
Qed.

Lemma mean_time_run t (l : list double) :
  Z.of_nat (length l) ≤ INT_MAX → mean_time (Some <$> l) (Z.of_nat (length l)) t = Done (mean l) t.
Proof.
  intros Hn. unfold mean_time. cbn [bind].
  pose proof (add_times t l l [] [] eq_refl Hn) as Hrun. rewrite app_nil_r in Hrun.
  rewrite (Hrun : foldM _ (0, double_zero) (seqZ 0 _) t = _). cbn [ret].
  unfold mean. destruct (filter nonzero l) as [|x nz]; [done|].
  by rewrite (proj2 (Z.eqb_neq _ 0)) by (simpl; lia).
Qed.

(** The mean reads an element no gather wrote. *)
Lemma mean_time_indeterminate t (l : list double) n k :
  Z.of_nat (length l) < n → n ≤ INT_MAX →
  mean_time ((Some <$> l) ++ replicate k None) n t = Stop Undef t.
Proof.
  intros Hl Hn. unfold mean_time. cbn [bind].
  replace n with (Z.of_nat (length l) + (n - Z.of_nat (length l))) by lia.
  rewrite seqZ_app, foldM_app by lia. cbn [bind].
  rewrite (add_times t l l (replicate k None) [] eq_refl ltac:(lia) : foldM _ (0, double_zero) (seqZ 0 _) t = _).
  rewrite seqZ_cons by lia. cbn [foldM bind]. unfold add_time at 1. cbn [bind].
  assert (aload ((Some <$> l) ++ replicate k None) (0 + Z.of_nat (length l)) = @None double) as ->; [|done].
  unfold aload. destruct (aslot _ _) as [i|] eqn:Hs; [|done]. apply aslot_inv in Hs as [Hs ->].
  rewrite length_app, length_fmap, length_replicate in Hs. cbn [mbind option_bind].
  rewrite lookup_app_r by (rewrite length_fmap; lia).
  rewrite length_fmap, lookup_replicate_2 by lia. done.
Qed.

(** The state after a gather. *)
Definition gathered_in (w : W) t : timed W :=
  put_sys (put_mpi (s_globals (t_sys t), w) (t_sys t)) t.

Lemma gather_times_run t v (l : list double) w time :
  PMPI_Gather_double v MPI_COMM_WORLD (s_world (t_sys t)) = (l, w) → length time = length l →
  gather_times v time t = Done (Some <$> l) (gathered_in w t).
Proof.
  intros Hg Hl. unfold gather_times. rewrite Hg, (proj2 (Nat.leb_le _ _)) by lia.
  by rewrite drop_ge, app_nil_r by lia.
Qed.

(** At the root of [size] processes every gather brings [size] doubles, its own
    first; [record] are the lists that were gathered. *)
Class Gathering (size : nat) (record : W → list (list double)) : Prop :=
  gathering v c w : ∃ l w', PMPI_Gather_double v c w = (v :: l, w') ∧
    length (v :: l) = size ∧ record w' = record w ++ [v :: l].

Context (size : nat) (record : W → list (list double)) `{!Gathering size record}.
Context (Hsize : Z.of_nat size ≤ INT_MAX).

Lemma finalize_map_run t time logged n ck rep :
  length time = size → 0 ≤ n → static_rank (node (s_globals (t_sys t))) = 0 →
  ckpt_time t !! Z.to_nat n = Some (Some ck) → rep_time t !! Z.to_nat n = Some (Some rep) →
  ∃ c r w, finalize_map (Z.of_nat size) (time, logged) n t =
    Done (Some <$> rep :: r, logged ++ [(n, mean (rep :: r), mean (ck :: c))])
      (set_rep_time (<[Z.to_nat n := Some (mean (rep :: r))]> (rep_time t))
        (set_ckpt_time (<[Z.to_nat n := Some (mean (ck :: c))]> (ckpt_time t)) (gathered_in w t))) ∧
    length (rep :: r) = size ∧ record w = record (s_world (t_sys t)) ++ [ck :: c; rep :: r].
Proof.
  intros Htime Hn Hroot Hck Hrep.
  destruct (gathering ck MPI_COMM_WORLD (s_world (t_sys t))) as (c & w1 & Hg1 & Hl1 & Hr1).
  destruct (gathering rep MPI_COMM_WORLD w1) as (r & w2 & Hg2 & Hl2 & Hr2).
  exists c, r, w2. split; [|split; [exact Hl2|by rewrite Hr2, Hr1, <-app_assoc]].
  unfold finalize_map. cbn [bind gets]. rewrite (aload_Some _ _ _ Hn Hck). cbn [of_option bind].
  rewrite (gather_times_run t ck (ck :: c) w1 time Hg1) by lia. cbn [bind].
  rewrite <-Hl1. rewrite mean_time_run by lia. rewrite Hl1.
  cbn [bind]. apply lookup_lt_Some in Hck as Hlt1. rewrite astore_Some by lia. cbn [of_option bind modify gets].
  change (rep_time (set_ckpt_time _ _)) with (rep_time t).
  rewrite (aload_Some _ _ _ Hn Hrep). cbn [of_option bind].
  match goal with |- context [gather_times rep _ ?u] =>
    rewrite (gather_times_run u rep (rep :: r) w2 _ Hg2) by (rewrite length_fmap; lia) end.
  cbn [bind].
  rewrite <-Hl2. rewrite mean_time_run by lia.
  cbn [bind]. apply lookup_lt_Some in Hrep as Hlt2. rewrite astore_Some by lia. cbn [of_option bind modify gets].
  cbn [t_sys put_sys put_mpi s_globals gathered_in set_ckpt_time set_rep_time fst]. rewrite Hroot. done.
Qed.

(** *** The loop over the maps

    [ls]: for each map the times of the checkpoints and of the transfers that
    were gathered. *)
Definition logged_means (ls : list (list double * list double)) : list (Z * double * double) :=
  imap (λ n p, (Z.of_nat n, mean p.2, mean p.1)) ls.

Record finalized (t0 : timed W) (ls : list (list double * list double)) (t : timed W) : Prop := {
  fz_ckpt : ckpt_time t = ((λ p, Some (mean p.1)) <$> ls) ++ drop (length ls) (ckpt_time t0);
  fz_rep : rep_time t = ((λ p, Some (mean p.2)) <$> ls) ++ drop (length ls) (rep_time t0);
  fz_globals : s_globals (t_sys t) = s_globals (t_sys t0);
  fz_record : record (s_world (t_sys t)) = record (s_world (t_sys t0)) ++ (ls ≫= λ p, [p.1; p.2]);
  fz_own n p : ls !! n = Some p →
    ckpt_time t0 !! n = Some (p.1 !! 0%nat) ∧ rep_time t0 !! n = Some (p.2 !! 0%nat)
}.

(** The two arrays: static storage, so that every element has a value. *)
Definition times (l : list (option double)) (n : Z) : Prop := Z.of_nat (length l) = n ∧ Forall is_Some l.
Definition times_kept (t : timed W) : Prop :=
  times (ckpt_time t) MAX_CKPT ∧ times (rep_time t) MAX_REP.

Lemma times_at l n k : times l n → 0 ≤ Z.of_nat k < n → ∃ v, l !! k = Some (Some v).
Proof.
  intros [Hl Hf] Hk. destruct (lookup_lt_is_Some_2 l k) as [x Hx]; [lia|].
  rewrite Forall_lookup in Hf. destruct (Hf _ _ Hx) as [v ->]. by exists v.
Qed.

Lemma update_mean (l0 : list (option double)) (f : list double * list double → option double) ls p :
  (length ls < length l0)%nat →
  <[length ls := f p]> ((f <$> ls) ++ drop (length ls) l0) =
  (f <$> ls ++ [p]) ++ drop (length (ls ++ [p])) l0.
Proof.
  intros Hlt. destruct (lookup_lt_is_Some_2 _ _ Hlt) as [x Hx].
  rewrite (drop_S _ _ _ Hx), fmap_app, <-app_assoc, length_app, Nat.add_1_r.
  rewrite insert_app_r_alt by (rewrite length_fmap; lia). by rewrite length_fmap, Nat.sub_diag.
Qed.

Lemma kept_at (l0 : list (option double)) (f : list double * list double → option double) ls :
  ((f <$> ls) ++ drop (length ls) l0) !! length ls = l0 !! length ls.
Proof. rewrite lookup_app_r by (rewrite length_fmap; lia). by rewrite length_fmap, Nat.sub_diag, lookup_drop, Nat.add_0_r. Qed.

Lemma finalize_step t0 t ls time :
  times_kept t0 → static_rank (node (s_globals (t_sys t0))) = 0 → finalized t0 ls t →
  length time = size → Z.of_nat (length ls) < MAX_CKPT →
  ∃ p time' t', finalize_map (Z.of_nat size) (time, logged_means ls) (Z.of_nat (length ls)) t =
    Done (time', logged_means (ls ++ [p])) t' ∧ length time' = size ∧ finalized t0 (ls ++ [p]) t'.
Proof.
  intros [Hck Hrep] Hroot [F1 F2 F3 F4 F5] Htime Hlt.
  destruct (times_at _ _ (length ls) Hck) as [ck Hc]; [lia|].
  destruct (times_at _ _ (length ls) Hrep) as [rep Hr]; [unfold MAX_REP, MAX_CKPT in *; lia|].
  destruct (finalize_map_run t time (logged_means ls) (Z.of_nat (length ls)) ck rep)
    as (c & r & w & Hrun & Hl & Hrec); rewrite ?Nat2Z.id.
  - done.
  - lia.
  - by rewrite F3.
  - by rewrite F1, kept_at.
  - by rewrite F2, kept_at.
  - exists (ck :: c, rep :: r). rewrite Nat2Z.id in Hrun. eexists _, _. split; [|split].
    + rewrite Hrun. unfold logged_means. rewrite imap_app. cbn [imap]. rewrite Nat.add_0_r. reflexivity.
    + by rewrite length_fmap.
    + apply lookup_lt_Some in Hc as Hlc. apply lookup_lt_Some in Hr as Hlr. split.
      * cbn [ckpt_time set_rep_time set_ckpt_time]. rewrite F1.
        by apply (update_mean (ckpt_time t0) (λ p, Some (mean p.1)) ls (ck :: c, rep :: r)).
      * cbn [rep_time set_rep_time set_ckpt_time]. rewrite F2.
        by apply (update_mean (rep_time t0) (λ p, Some (mean p.2)) ls (ck :: c, rep :: r)).
      * exact F3.
      * cbn. rewrite Hrec, F4, bind_app. cbn. by rewrite <-app_assoc.
      * intros n p [Hn|[Hn E]]%lookup_app_Some; [by apply F5|].
        destruct (n - length ls)%nat eqn:E'; [|done]. simpl in E. injection E as <-.
        replace n with (length ls) by lia. done.
Qed.

Lemma finalize_loop t0 time k :
  times_kept t0 → static_rank (node (s_globals (t_sys t0))) = 0 → length time = size →
  Z.of_nat k ≤ MAX_CKPT →
  ∃ ls time' t', foldM (finalize_map (Z.of_nat size)) (time, []) (seqZ 0 (Z.of_nat k)) t0 =
    Done (time', logged_means ls) t' ∧ length ls = k ∧ length time' = size ∧ finalized t0 ls t'.
Proof.
  intros Hk Hroot Htime. induction k as [|k IH]; intros Hle.
  - exists [], time, t0. split; [done|]. split; [done|]. split; [done|].
    split; try done; by rewrite app_nil_r.
  - destruct IH as (ls & time1 & t1 & Hrun & Hls & Ht1 & Hf); [lia|].
    destruct (finalize_step t0 t1 ls time1 Hk Hroot Hf Ht1) as (p & time2 & t2 & Hrun2 & Ht2 & Hf2); [lia|].
    exists (ls ++ [p]), time2, t2. split; [|split; [len|done]].
    replace (Z.of_nat (S k)) with (Z.of_nat k + 1) by lia. rewrite seqZ_app by lia.
    rewrite foldM_app. cbn [bind]. rewrite Hrun, Z.add_0_l, <-Hls, (seqZ_cons _ 1) by lia.
    cbn [Z.pred Z.add seqZ foldM bind]. by rewrite Hrun2.
Qed.
End run.

(** *** Before the loop *)
Section start.
Context {W : Type} `{MpiConst} `{PmpiSplit W} `{Timing W}.
Implicit Types (t : timed W).

(** What [MPI_Finalize] reads and frees before it gathers. *)
Record ending t : Prop := {
  en_job : ∃ job, load_job 0 (s_globals (t_sys t)) = Done job (s_globals (t_sys t)) ∧
             is_Some (aload (rank_list job) 0);
  en_blackhole : blackhole_address t = 0 ∨ is_Some (blocks (s_heap (t_sys t)) !! blackhole_address t)
}.

Definition freed t : timed W :=
  let s := t_sys t in
  let h := match free (blackhole_address t) (s_heap s) with Done _ h' => h' | Stop _ h' => h' end in
  put_sys (put_heap h (put_mpi (set_rank_ignore_list None (s_globals s), s_world s) s)) t.

Lemma finalize_start t n :
  let g := s_globals (t_sys t) in
  ending t → PMPI_Comm_size (rep_mpi_comm_world (node g)) (s_world (t_sys t)) = n → 0 ≤ n →
  -1 ≤ rep_counter g < INT_MAX →
  MPI_Finalize t =
    (let! (_, logged) := foldM (finalize_map n) (replicate (Z.to_nat n) None, [])
                           (seqZ 0 (rep_counter g + 1)) in ret (MPI_SUCCESS, logged)) (freed t).
Proof.
  intros g [(job & Hjob & [r Hr]) Hbh] Hn Hpos Hc. unfold MPI_Finalize. cbn [bind].
  unfold on_sys at 1, zoom at 1.
  rewrite (on_globals_run (modify (set_rank_ignore_list None)) (t_sys t) tt _ eq_refl). cbn [bind gets].
  unfold on_sys at 1, zoom at 1. cbn [blackhole_address put_sys t_sys].
  set (s1 := put_mpi _ (t_sys t)).
  assert (free (blackhole_address t) (s_heap s1) = Done tt (match free (blackhole_address t) (s_heap (t_sys t)) with
    Done _ h' => h' | Stop _ h' => h' end)) as Hfree.
  { change (s_heap s1) with (s_heap (t_sys t)). unfold free.
    destruct (Z.eqb_spec (blackhole_address t) 0) as [|Hne]; [done|].
    destruct Hbh as [E|[k E]]; [by destruct (Hne E)|]. by rewrite E. }
  rewrite (on_mem_run _ s1 tt _ Hfree). cbn [bind].
  change (put_sys _ _) with (freed t). unfold on_sys at 1, zoom at 1.
  assert (load_job 0 (s_globals (t_sys (freed t))) = Done job (s_globals (t_sys (freed t)))) as Hjob'.
  { unfold load_job in *. cbn in *. destruct (job_list (s_globals (t_sys t))); cbn in *; [|done].
    destruct (aload l 0); cbn in *; [|done]. by injection Hjob as ->. }
  rewrite (on_globals_same _ _ _ Hjob'). cbn [bind].
  change (put_sys (t_sys (freed t)) (freed t)) with (freed t). rewrite Hr. cbn [of_option bind gets].
  change (PMPI_Comm_size _ _) with (PMPI_Comm_size (rep_mpi_comm_world (node g)) (s_world (t_sys t))). rewrite Hn.
  unfold amalloc. rewrite (proj2 (Z.ltb_ge _ _) Hpos). cbn [of_option bind gets].
  change (rep_counter (s_globals (t_sys (freed t)))) with (rep_counter g).
  rewrite c_int_Some by (unfold INT_MIN in *; lia). done.
Qed.
End start.

(** ** Properties *)

(** C39: [MPI_Finalize] at the process that is the root of the gathers, while the
    world has the processes it started with.  When at most 100 maps were
    applied it returns success; for each map it gathers the times of all the
    processes, its own first, logs the mean of the times of the transfers and
    of the checkpoints that are not zero, and keeps it in place of its own
    time.  With more maps it reads outside the arrays of times. *)
Theorem MPI_Finalize_correct {W} `{MpiConst} `{PmpiSplit W} `{Timing W}
    size (record : W → list (list double)) `{!Gathering size record} (t : timed W) :
  let g := s_globals (t_sys t) in
  Z.of_nat size ≤ INT_MAX → PMPI_Comm_size (rep_mpi_comm_world (node g)) (s_world (t_sys t)) = Z.of_nat size →
  static_rank (node g) = 0 → ending t → times_kept t → -1 ≤ rep_counter g < INT_MAX →
  if decide (rep_counter g < MAX_REP) then
    ∃ ls t', MPI_Finalize t = Done (MPI_SUCCESS, logged_means ls) t' ∧
      Z.of_nat (length ls) = rep_counter g + 1 ∧ finalized record (freed t) ls t'
  else ∃ t', MPI_Finalize t = Stop Undef t'.
Proof.
  intros g Hsz Hworld Hroot Hend Hkept Hc.
  pose proof (finalize_start t (Z.of_nat size) Hend Hworld ltac:(lia) Hc) as Hstart. fold g in Hstart.
  assert (times_kept (freed t)) as Hk by exact Hkept.
  assert (length (replicate (Z.to_nat (Z.of_nat size)) (@None double)) = size) as Hlen
    by (rewrite length_replicate; lia).
  rewrite Hstart. case_decide as Hlt.
  - destruct (finalize_loop size record Hsz (freed t) _ (Z.to_nat (rep_counter g + 1)) Hk Hroot Hlen)
      as (ls & time' & t' & Hrun & Hls & _ & Hf); [unfold MAX_REP, MAX_CKPT in *; lia|].
    rewrite Z2Nat.id in Hrun by lia. exists ls, t'. cbn [bind]. rewrite Hrun. split; [done|]. split; [lia|done].
  - unfold MAX_REP in Hlt.
    destruct (finalize_loop size record Hsz (freed t) _ 100 Hk Hroot Hlen)
      as (ls & time' & t' & Hrun & Hls & _ & Hf); [unfold MAX_CKPT; lia|].
    exists t'. replace (rep_counter g + 1) with (Z.of_nat 100 + (rep_counter g + 1 - 100)) by lia.
    cbn [bind]. rewrite seqZ_app, foldM_app by lia. cbn [bind]. rewrite Hrun.
    rewrite seqZ_cons by lia. cbn [foldM bind]. unfold finalize_map at 1. cbn [bind gets].
    assert (aload (ckpt_time t') (0 + Z.of_nat 100) = None) as ->; [|done].
    rewrite (fz_ckpt _ _ _ _ Hf). unfold aload. destruct (aslot _ _) as [i|] eqn:Hs; [|done].
    apply aslot_inv in Hs as [Hs _]. rewrite length_app, length_fmap, length_drop in Hs.
    destruct Hk as [[Hl _] _]. unfold MAX_CKPT in Hl. lia.
Qed.

(** The buffer of [MPI_Finalize] fits one case only.  It has an element per
    process of the shrunk world and every process reads all of them, but the
    gather runs on [MPI_COMM_WORLD] and writes at its root alone: whenever it
    writes another number of doubles than the buffer holds, at each process
    that is not the root, and at the root once a process was lost, the call
    reads indeterminate memory or writes past the buffer. *)
Theorem MPI_Finalize_buffer {W} `{MpiConst} `{PmpiSplit W} `{Timing W}
    (t : timed W) n v l w :
  let g := s_globals (t_sys t) in
  PMPI_Comm_size (rep_mpi_comm_world (node g)) (s_world (t_sys t)) = n → 0 ≤ n ≤ INT_MAX →
  ending t → 0 ≤ rep_counter g < INT_MAX → ckpt_time t !! 0%nat = Some (Some v) →
  PMPI_Gather_double v MPI_COMM_WORLD (s_world (t_sys t)) = (l, w) →
  Z.of_nat (length l) ≠ n →
  ∃ t', MPI_Finalize t = Stop Undef t'.
Proof.
  intros g Hworld Hn Hend Hc Hv Hg Hl.
  assert (0 ≤ n) as Hpos by lia. assert (-1 ≤ rep_counter g < INT_MAX) as Hc' by lia.
  rewrite (finalize_start t n Hend Hworld Hpos Hc'). fold g. cbn [bind].
  rewrite seqZ_cons by lia. cbn [foldM bind]. unfold finalize_map at 1. cbn [bind gets].
  rewrite (aload_Some (ckpt_time (freed t)) 0 v) by done. cbn [of_option bind].
  unfold gather_times at 1.
  change (s_world (t_sys (freed t))) with (s_world (t_sys t)). rewrite Hg, length_replicate.
  destruct (Nat.leb_spec (length l) (Z.to_nat n)); [|by eexists].
  rewrite drop_replicate, mean_time_indeterminate by lia. by eexists.
Qed.

(** ** Witnesses

    Two processes that applied two maps: their checkpoints of the first map
    took one unit of time and three. *)
Record clocks : Type := Clocks { ck_other : double; ck_gathered : list (list double) }.
#[local] Instance clock_timing : Timing clocks := {
  PMPI_Gather_double v _ w :=
    ([v; ck_other w], Clocks double_zero (ck_gathered w ++ [[v; ck_other w]]))
}.
#[local] Instance clock_gathering : Gathering 2 ck_gathered.
Proof. intros v c w. by exists [ck_other w], (Clocks double_zero (ck_gathered w ++ [[v; ck_other w]])). Qed.
(** What the other process sees. *)
Definition other_timing : Timing clocks := {| PMPI_Gather_double _ _ w := ([], w) |}.

#[local] Instance clock_split : PmpiSplit clocks := {|
  PMPI_Comm_rank _ _ := 0;
  PMPI_Comm_size _ _ := 2;
  PMPI_Comm_split c _ _ w := (c, w)
|}.
Definition clock_globals (n : Z) : globals :=
  set_rep_counter n (set_job_list (Some [Some (MkJob 0 2 [Some 0; Some 1])]) globals0).
Definition clock_sys (n : Z) : timed clocks :=
  MkTimed (MkSys (clock_globals n) (Clocks (double_of_int 3) []) (set_blocks {[ 9000 := 10 ]} heap_init) 0 0 ∅)
    9000 (Some (double_of_int 1) :: replicate 99 (Some double_zero)) (replicate 100 (Some double_zero)).

Lemma clock_ending n : ending (clock_sys n).
Proof. split; [exists (MkJob 0 2 [Some 0; Some 1]); split; [done|by exists 0]|right; by exists 10]. Qed.

Lemma clock_times n : times_kept (clock_sys n).
Proof.
  split; (split; [done|]); repeat (apply Forall_cons; split; [by eexists|]); by apply Forall_nil.
Qed.

Lemma MPI_Finalize_correct_witness :
  (∃ t', MPI_Finalize (clock_sys 1) =
     Done (0, [(0, double_zero, double_of_int 2); (1, double_zero, double_zero)]) t') ∧
  (∃ t', MPI_Finalize (clock_sys 100) = Stop Undef t').
Proof.
  split.
  - pose proof (MPI_Finalize_correct 2 ck_gathered (clock_sys 1)) as Hf. cbv zeta in Hf.
    rewrite decide_True in Hf by reflexivity.
    destruct Hf as (ls & t' & Hrun & _ & _);
      [done|reflexivity|reflexivity|apply clock_ending|apply clock_times|done|].
    assert (match MPI_Finalize (clock_sys 1) with
      | Done v _ => v = (0, [(0, double_zero, double_of_int 2); (1, double_zero, double_zero)])
      | _ => False end) as Hv by (vm_compute; reflexivity).
    exists t'. rewrite Hrun in Hv |- *. by rewrite Hv.
  - pose proof (MPI_Finalize_correct 2 ck_gathered (clock_sys 100)) as Hf. cbv zeta in Hf.
    rewrite decide_False in Hf by done.
    apply Hf; [done|reflexivity|reflexivity|apply clock_ending|apply clock_times|done].
Defined.

Lemma MPI_Finalize_buffer_witness :
  (∃ t', @MPI_Finalize clocks _ _ other_timing (clock_sys 1) = Stop Undef t').
Proof.
  apply (@MPI_Finalize_buffer clocks _ _ other_timing (clock_sys 1) 2 (double_of_int 1) []
    (Clocks (double_of_int 3) []));
    [reflexivity|done|apply clock_ending|done|reflexivity|reflexivity|done].
Defined.
